(** * Api-mybuddies: the public read/search API, the admin API and the schema

    A shallow embedding of [src/routes/api.js], [src/routes/admin.js] and the
    schema initialisation of [src/unnamed/part_000] (config/database.js).

    - [Js]     : the JavaScript values the handlers compute with (query and
                 body fields, bind parameters, JSON bodies) and the coercions
                 the source relies on (truthiness, [||], [-], [*], [/],
                 [Math.ceil], [parseInt], [split]).
    - [Sql]    : the relational store behind [pool.execute]: tables, rows, the
                 statements the handlers send, and their execution.
    - [Schema] : the CREATE TABLE statements of [initDatabase].
    - [Api]    : the handlers of api.js.
    - [Admin]  : the middleware and handlers of admin.js. *)

From Stdlib Require Import ZArith List String Ascii Bool Lia DecimalString.
Import ListNotations.

#[local] Open Scope string_scope.
#[local] Open Scope Z_scope.
#[local] Set Warnings "-register-all".

(* ================================================================== *)
(** * JavaScript values *)
(* ================================================================== *)

Module Js.

(** Numbers.  The handlers only do integer arithmetic on page numbers, limits
    and counts; the one quotient, [total / limit], is consumed at once by
    [Math.ceil] and has its own type [JsQuot].  Signed zero is not
    distinguished.  Integers stand for the doubles of the same value, which is
    exact below 2^53. *)
Inductive JsNum : Type :=
| JNaN
| JInf (neg : bool)
| JInt (z : Z).

Inductive JsVal : Type :=
| JUndefined
| JNull
| JBool (b : bool)
| JNumber (n : JsNum)
| JString (s : string)
| JArray (xs : list JsVal)
| JObject (fields : list (string * JsVal)).

Definition num (z : Z) : JsVal := JNumber (JInt z).

(** [ToBoolean]: what [if (x)], [!x], [x || y] and [x && y] test. *)
Definition truthy (v : JsVal) : bool :=
  match v with
  | JUndefined | JNull => false
  | JBool b => b
  | JNumber JNaN => false
  | JNumber (JInf _) => true
  | JNumber (JInt z) => negb (z =? 0)
  | JString s => negb (s =? "")%string
  | JArray _ | JObject _ => true
  end.

(** [a || b] *)
Definition js_or (a b : JsVal) : JsVal := if truthy a then a else b.

(** [const { x = d } = obj]: the default applies to [undefined] only. *)
Definition js_default (v d : JsVal) : JsVal :=
  match v with JUndefined => d | _ => v end.

(** Property read [obj.k] / [obj[k]] on an object literal. *)
Fixpoint assoc {A : Type} (k : string) (l : list (string * A)) : option A :=
  match l with
  | [] => None
  | (k', v) :: l' => if (k =? k')%string then Some v else assoc k l'
  end.

Definition prop (k : string) (v : JsVal) : JsVal :=
  match v with
  | JObject fs => match assoc k fs with Some x => x | None => JUndefined end
  | _ => JUndefined
  end.

Definition keys (v : JsVal) : list string :=
  match v with JObject fs => map fst fs | _ => [] end.

(** ** Strings to numbers *)

Definition is_ws (c : ascii) : bool :=
  let n := nat_of_ascii c in
  (Nat.eqb n 32 || (Nat.leb 9 n && Nat.leb n 13))%bool.

Definition digit_of (c : ascii) : option Z :=
  let n := Z.of_nat (nat_of_ascii c) in
  if (48 <=? n) && (n <=? 57) then Some (n - 48) else None.

Fixpoint skip_ws (s : string) : string :=
  match s with
  | String c r => if is_ws c then skip_ws r else s
  | EmptyString => s
  end.

Fixpoint all_ws (s : string) : bool :=
  match s with
  | String c r => is_ws c && all_ws r
  | EmptyString => true
  end.

(** The longest prefix of decimal digits: its value, if it is not empty, and
    what follows it. *)
Fixpoint digits_prefix (s : string) (acc : option Z) : option Z * string :=
  match s with
  | String c r =>
      match digit_of c with
      | Some d =>
          digits_prefix r
            (Some (10 * (match acc with Some a => a | None => 0 end) + d))
      | None => (acc, s)
      end
  | EmptyString => (acc, s)
  end.

Definition split_sign (s : string) : bool * string :=
  match s with
  | String "-"%char r => (true, r)
  | String "+"%char r => (false, r)
  | _ => (false, s)
  end.

Definition signed (neg : bool) (n : Z) : Z := if neg then - n else n.

(** [parseInt(s)] on a string, radix 10: leading white space, an optional
    sign, then the longest run of digits; [NaN] when there is none.
    (A [0x] prefix, which JavaScript reads as hexadecimal, is outside the
    fragment modelled here.) *)
Definition parseInt_string (s : string) : JsNum :=
  let '(neg, r) := split_sign (skip_ws s) in
  match digits_prefix r None with
  | (Some n, _) => JInt (signed neg n)
  | (None, _) => JNaN
  end.

(** [Number(s)] on a string, for the integer literals: white space is
    trimmed, the empty string is 0, a signed run of decimal digits is its
    value.  Every other string is [NaN] here; JavaScript also gives a number
    to literals with a fraction, an exponent or a radix prefix and to
    [Infinity], and those are outside the fragment modelled here. *)
Definition StringToNumber (s : string) : JsNum :=
  match skip_ws s with
  | EmptyString => JInt 0
  | t =>
      let '(neg, r) := split_sign t in
      match digits_prefix r None with
      | (Some n, rest) => if all_ws rest then JInt (signed neg n) else JNaN
      | (None, _) => JNaN
      end
  end.

(** [ToNumber], applied by [-], [*] and [/] to their operands. *)
Definition ToNumber (v : JsVal) : JsNum :=
  match v with
  | JUndefined => JNaN
  | JNull => JInt 0
  | JBool b => JInt (if b then 1 else 0)
  | JNumber n => n
  | JString s => StringToNumber s
  | JArray _ | JObject _ => JNaN
  end.

(** [parseInt(v)]: [v] is first turned into a string; the decimal text of an
    integer parses back to itself, [NaN] and the infinities have no digits. *)
Definition parseInt (v : JsVal) : JsNum :=
  match v with
  | JString s => parseInt_string s
  | JNumber (JInt z) => JInt z
  | _ => JNaN
  end.

(** ** Arithmetic *)

Definition js_neg (a : JsNum) : JsNum :=
  match a with
  | JNaN => JNaN
  | JInf n => JInf (negb n)
  | JInt z => JInt (- z)
  end.

Definition js_add (a b : JsNum) : JsNum :=
  match a, b with
  | JNaN, _ | _, JNaN => JNaN
  | JInf n, JInf m => if Bool.eqb n m then JInf n else JNaN
  | JInf n, JInt _ | JInt _, JInf n => JInf n
  | JInt x, JInt y => JInt (x + y)
  end.

(** [a - b] *)
Definition js_sub (a b : JsNum) : JsNum := js_add a (js_neg b).

(** [a * b] *)
Definition js_mul (a b : JsNum) : JsNum :=
  match a, b with
  | JNaN, _ | _, JNaN => JNaN
  | JInf n, JInf m => JInf (xorb n m)
  | JInf n, JInt z | JInt z, JInf n =>
      if z =? 0 then JNaN else JInf (xorb n (z <? 0))
  | JInt x, JInt y => JInt (x * y)
  end.

(** The value of [a / b] before any rounding: a ratio of two integers with a
    divisor that is not zero, an infinity or [NaN]. *)
Inductive JsQuot : Type :=
| QNaN
| QInf (neg : bool)
| QRatio (n d : Z).

(** [a / b] *)
Definition js_div (a b : JsNum) : JsQuot :=
  match a, b with
  | JNaN, _ | _, JNaN => QNaN
  | JInf _, JInf _ => QNaN
  | JInf n, JInt z => QInf (xorb n (z <? 0))
  | JInt _, JInf _ => QRatio 0 1
  | JInt x, JInt y =>
      if y =? 0 then (if x =? 0 then QNaN else QInf (x <? 0))
      else QRatio x y
  end.

(** [Math.ceil]: the least integer not below the ratio.  [Z.div] rounds
    towards minus infinity, whatever the sign of the divisor. *)
Definition Math_ceil (q : JsQuot) : JsNum :=
  match q with
  | QNaN => JNaN
  | QInf n => JInf n
  | QRatio n d => JInt (- ((- n) / d))
  end.

(** [a > b] *)
Definition js_gt (a b : JsNum) : bool :=
  match a, b with
  | JNaN, _ | _, JNaN => false
  | JInf n, JInf m => negb n && m
  | JInf n, JInt _ => negb n
  | JInt _, JInf m => m
  | JInt x, JInt y => y <? x
  end.

(** ** Strings *)

(** [s.split(' ')]: the pieces between single spaces; never empty. *)
Fixpoint split_space (s : string) : list string :=
  match s with
  | EmptyString => [EmptyString]
  | String c r =>
      if Ascii.eqb c " "%char then EmptyString :: split_space r
      else
        match split_space r with
        | w :: ws => String c w :: ws
        | [] => [String c EmptyString]
        end
  end.

(** [arr[i]] on an array of strings *)
Definition index (ws : list string) (i : nat) : JsVal :=
  match nth_error ws i with Some w => JString w | None => JUndefined end.

Definition text_of_Z (z : Z) : string := NilZero.string_of_int (Z.to_int z).

(** [`${v}`]: [ToString] of a primitive value.  (The handlers interpolate
    strings only; arrays and objects are not given their proper text.) *)
Definition to_text (v : JsVal) : string :=
  match v with
  | JUndefined => "undefined"
  | JNull => "null"
  | JBool b => if b then "true" else "false"
  | JNumber JNaN => "NaN"
  | JNumber (JInf neg) => if neg then "-Infinity" else "Infinity"
  | JNumber (JInt z) => text_of_Z z
  | JString s => s
  | JArray _ | JObject _ => "[object Object]"
  end.

(** [a === b] against a string literal *)
Definition is_string (v : JsVal) (lit : string) : bool :=
  match v with
  | JString s => (s =? lit)%string
  | _ => false
  end.

(** [a && b] *)
Definition js_and (a b : JsVal) : JsVal := if truthy a then b else a.

End Js.

(* ================================================================== *)
(** * The relational store behind [pool.execute] *)
(* ================================================================== *)

Module Sql.
Import Js.

(** ** Values, rows, tables *)

Inductive SqlVal : Type :=
| VNull
| VInt (z : Z)
| VStr (s : string).

(** A row maps column names to values, in column order.  TIMESTAMP columns
    hold the time as an integer. *)
Definition Row : Type := list (string * SqlVal).

Definition row_get (c : string) (r : Row) : SqlVal :=
  match assoc c r with Some v => v | None => VNull end.

Fixpoint row_set (c : string) (v : SqlVal) (r : Row) : Row :=
  match r with
  | [] => [(c, v)]
  | (k, x) :: r' =>
      if (k =? c)%string then (k, v) :: r' else (k, x) :: row_set c v r'
  end.

Inductive SqlType : Type :=
| TInt
| TVarchar (n : nat)
| TText
| TEnum (members : list string)
| TTimestamp.

Inductive Default : Type :=
| NoDefault
| DefaultLit (v : SqlVal)
| DefaultNow.

Record Column : Type := {
  col_name : string;
  col_type : SqlType;
  col_not_null : bool;
  col_unique : bool;
  col_auto_increment : bool;
  col_default : Default;
  col_on_update_now : bool
}.

(** [FOREIGN KEY (fk_col) REFERENCES fk_table(fk_ref) ON DELETE SET NULL] *)
Record ForeignKey : Type := {
  fk_col : string;
  fk_table : string;
  fk_ref : string
}.

Record Table : Type := {
  t_columns : list Column;
  t_fks : list ForeignKey;
  t_rows : list Row;
  t_next_id : Z
}.

Definition Db : Type := list (string * Table).

Definition get_table (name : string) (db : Db) : option Table := assoc name db.

Fixpoint set_table (name : string) (t : Table) (db : Db) : Db :=
  match db with
  | [] => [(name, t)]
  | (k, x) :: db' =>
      if (k =? name)%string then (k, t) :: db' else (k, x) :: set_table name t db'
  end.

Definition with_rows (t : Table) (rows : list Row) : Table :=
  {| t_columns := t_columns t; t_fks := t_fks t;
     t_rows := rows; t_next_id := t_next_id t |}.

Definition find_col (c : string) (t : Table) : option Column :=
  find (fun d => (col_name d =? c)%string) (t_columns t).

Definition has_col (t : Table) (c : string) : bool :=
  match find_col c t with Some _ => true | None => false end.

(** ** Errors *)

(** What a handler's [try] block can catch: the failures of the store and
    of the driver, and the TypeError of a property read on [undefined]. *)
Inductive Thrown : Type :=
| TypeError
| UndefinedParameter      (* the driver refuses [undefined] as a bind parameter *)
| WrongParameterCount
| NoSuchTable
| UnknownColumn
| BadLimit                (* LIMIT / OFFSET is not a non-negative integer *)
| BadValue                (* a value the column type refuses *)
| NullRefused             (* NULL into a NOT NULL column *)
| Duplicate               (* a UNIQUE column would hold a value twice *)
| NoParent                (* a foreign key without its parent row *)
| Raised.                 (* an exception of a library call *)

Definition Res (A : Type) : Type := (Thrown + A)%type.

Abbreviation ok := (@inr Thrown _) (only parsing).
Abbreviation fail := (@inl Thrown _) (only parsing).

Definition bind {A B : Type} (m : Res A) (k : A -> Res B) : Res B :=
  match m with inl e => inl e | inr a => k a end.

Notation "x <- m ;; k" := (bind m (fun x => k))
  (at level 61, m at next level, right associativity).
Notation "' p <- m ;; k" := (bind m (fun x => let p := x in k))
  (at level 61, p pattern, m at next level, right associativity).

Definition guard (b : bool) (e : Thrown) : Res unit :=
  if b then ok tt else fail e.

Definition need {A : Type} (o : option A) (e : Thrown) : Res A :=
  match o with Some a => ok a | None => fail e end.

Fixpoint mapM {A B : Type} (f : A -> Res B) (l : list A) : Res (list B) :=
  match l with
  | [] => ok []
  | a :: l' => b <- f a ;; bs <- mapM f l' ;; ok (b :: bs)
  end.

(** ** Collation and LIKE

    The tables are created without a collation, so the server default
    applies, which compares text without regard to case.  Only the ASCII
    letters are folded here. *)

Definition lower (c : ascii) : ascii :=
  let n := nat_of_ascii c in
  if (Nat.leb 65 n && Nat.leb n 90)%bool then ascii_of_nat (n + 32) else c.

Definition ceq (a b : ascii) : bool := Ascii.eqb (lower a) (lower b).

Fixpoint str_ceq (a b : string) : bool :=
  match a, b with
  | EmptyString, EmptyString => true
  | String x a', String y b' => ceq x y && str_ceq a' b'
  | _, _ => false
  end.

(** [any_suffix f t]: [f] holds of [t] or of one of its proper suffixes. *)
Fixpoint any_suffix (f : string -> bool) (t : string) : bool :=
  f t || match t with
         | EmptyString => false
         | String _ t' => any_suffix f t'
         end.

(** [t LIKE p]: [%] stands for any run of characters, [_] for any one
    character, a backslash makes the next pattern character literal. *)
Fixpoint like (p t : string) {struct p} : bool :=
  match p with
  | EmptyString => match t with EmptyString => true | _ => false end
  | String c p' =>
      if Ascii.eqb c "%" then any_suffix (like p') t
      else if Ascii.eqb c "_" then
        match t with String _ t' => like p' t' | EmptyString => false end
      else if Ascii.eqb c "\" then
        match p' with
        | String e p'' =>
            match t with
            | String d t' => ceq e d && like p'' t'
            | EmptyString => false
            end
        | EmptyString =>
            match t with
            | String d EmptyString => ceq c d
            | _ => false
            end
        end
      else
        match t with
        | String d t' => ceq c d && like p' t'
        | EmptyString => false
        end
  end.

(** [column = ?] and [column = column]: numbers by value, text by collation;
    NULL is equal to nothing.  A string compared with an INT column is read as
    a decimal integer; text that is not one equals no integer here (the
    server reads a numeric prefix of it and warns). *)
Definition sql_eq_param (v : SqlVal) (p : JsVal) : bool :=
  match v, p with
  | VInt z, JNumber (JInt n) => z =? n
  | VInt z, JString s =>
      match StringToNumber s with JInt n => z =? n | _ => false end
  | VStr a, JString b => str_ceq a b
  | _, _ => false
  end.

Definition sql_eq (a b : SqlVal) : bool :=
  match a, b with
  | VInt x, VInt y => x =? y
  | VStr x, VStr y => str_ceq x y
  | _, _ => false
  end.

Definition sql_like_param (v : SqlVal) (p : JsVal) : bool :=
  match v, p with
  | VStr t, JString pat => like pat t
  | _, _ => false
  end.

(** ** Queries *)

(** A column reference, [m.status] or [status]. *)
Record ColRef : Type := {
  ref_alias : option string;
  ref_column : string
}.

Definition qcol (a c : string) : ColRef := {| ref_alias := Some a; ref_column := c |}.
Definition ucol (c : string) : ColRef := {| ref_alias := None; ref_column := c |}.

(** The conjuncts of a WHERE clause.  Each [?] takes the next bind
    parameter, from left to right. *)
Inductive Pred : Type :=
| PEqLit (c : ColRef) (lit : string)      (* c = 'lit' *)
| PNeLit (c : ColRef) (lit : string)      (* c != 'lit' *)
| PNotNull (c : ColRef)                   (* c IS NOT NULL *)
| PEqParam (c : ColRef)                   (* c = ? *)
| PLikeParam (c : ColRef)                 (* c LIKE ? *)
| PAnyLike (cs : list ColRef).            (* (c1 LIKE ? OR c2 LIKE ? ...) *)

Inductive Limit : Type :=
| LimitParam                              (* LIMIT ? *)
| LimitLit (n : nat).                     (* LIMIT n *)

(** [SELECT <columns> [, c.name as category_name] [, 'tag' as content_type]
     FROM <table> [<alias>]
     [LEFT JOIN categories c ON <alias>.category_id = c.id]
     WHERE <conjuncts> [ORDER BY <alias>.created_at DESC]
     [LIMIT ..] [OFFSET ?]] *)
Record Select : Type := {
  s_table : string;
  s_alias : option string;
  s_columns : option (list string);       (* [None] is [*] *)
  s_join_categories : bool;
  s_content_type : option string;
  s_where : list Pred;
  s_order_created_desc : bool;
  s_limit : option Limit;
  s_offset : bool
}.

(** [SELECT COUNT( * ) as <c_as> FROM <table> WHERE <conjuncts>] *)
Record Count : Type := {
  c_table : string;
  c_as : string;
  c_where : list Pred
}.

(** A conjunct with its columns resolved and its parameters bound. *)
Inductive Cond : Type :=
| CEqLit (c : string) (lit : string)
| CNeLit (c : string) (lit : string)
| CNotNull (c : string)
| CEq (c : string) (p : JsVal)
| CLike (c : string) (p : JsVal)
| CAnyLike (cps : list (string * JsVal)).

(** In a WHERE clause a comparison with NULL is not true, so the row is
    left out. *)
Definition holds (c : Cond) (r : Row) : bool :=
  match c with
  | CEqLit c lit => sql_eq (row_get c r) (VStr lit)
  | CNeLit c lit =>
      match row_get c r with
      | VNull => false
      | v => negb (sql_eq v (VStr lit))
      end
  | CNotNull c => match row_get c r with VNull => false | _ => true end
  | CEq c p => sql_eq_param (row_get c r) p
  | CLike c p => sql_like_param (row_get c r) p
  | CAnyLike cps =>
      existsb (fun cp => sql_like_param (row_get (fst cp) r) (snd cp)) cps
  end.

Definition where_holds (cs : list Cond) (r : Row) : bool :=
  forallb (fun c => holds c r) cs.

Definition alias_ok (alias : option string) (c : ColRef) : bool :=
  match ref_alias c, alias with
  | None, _ => true
  | Some a, Some b => (a =? b)%string
  | Some _, None => false
  end.

Definition resolve (alias : option string) (t : Table) (c : ColRef) : Res string :=
  _ <- guard (alias_ok alias c) UnknownColumn ;;
  _ <- guard (has_col t (ref_column c)) UnknownColumn ;;
  ok (ref_column c).

Definition take_param (ps : list JsVal) : Res (JsVal * list JsVal) :=
  match ps with
  | p :: ps' => ok (p, ps')
  | [] => fail WrongParameterCount
  end.

Fixpoint bind_any_like (alias : option string) (t : Table)
    (cs : list ColRef) (ps : list JsVal)
  : Res (list (string * JsVal) * list JsVal) :=
  match cs with
  | [] => ok ([], ps)
  | c :: cs' =>
      n <- resolve alias t c ;;
      ' (p, ps1) <- take_param ps ;;
      ' (cps, ps2) <- bind_any_like alias t cs' ps1 ;;
      ok ((n, p) :: cps, ps2)
  end.

Definition bind_pred (alias : option string) (t : Table)
    (q : Pred) (ps : list JsVal) : Res (Cond * list JsVal) :=
  match q with
  | PEqLit c lit => n <- resolve alias t c ;; ok (CEqLit n lit, ps)
  | PNeLit c lit => n <- resolve alias t c ;; ok (CNeLit n lit, ps)
  | PNotNull c => n <- resolve alias t c ;; ok (CNotNull n, ps)
  | PEqParam c =>
      n <- resolve alias t c ;;
      ' (p, ps') <- take_param ps ;;
      ok (CEq n p, ps')
  | PLikeParam c =>
      n <- resolve alias t c ;;
      ' (p, ps') <- take_param ps ;;
      ok (CLike n p, ps')
  | PAnyLike cs =>
      ' (cps, ps') <- bind_any_like alias t cs ps ;;
      ok (CAnyLike cps, ps')
  end.

Fixpoint bind_where (alias : option string) (t : Table)
    (w : list Pred) (ps : list JsVal) : Res (list Cond * list JsVal) :=
  match w with
  | [] => ok ([], ps)
  | q :: w' =>
      ' (c, ps1) <- bind_pred alias t q ps ;;
      ' (cs, ps2) <- bind_where alias t w' ps1 ;;
      ok (c :: cs, ps2)
  end.

Definition defined (p : JsVal) : bool :=
  match p with JUndefined => false | _ => true end.

(** The driver throws on an [undefined] bind parameter before anything is
    sent to the server. *)
Definition check_params (ps : list JsVal) : Res unit :=
  guard (forallb defined ps) UndefinedParameter.

(** The server takes a non-negative integer for LIMIT and for OFFSET. *)
Definition limit_value (p : JsVal) : Res nat :=
  match p with
  | JNumber (JInt z) => if 0 <=? z then ok (Z.to_nat z) else fail BadLimit
  | _ => fail BadLimit
  end.

Definition no_more (ps : list JsVal) : Res unit :=
  match ps with [] => ok tt | _ :: _ => fail WrongParameterCount end.

(** [LEFT JOIN categories c ON x.category_id = c.id], keeping [c.name]:
    a row without a category is kept once, with a NULL name. *)
Definition left_join_categories (cats : list Row) (r : Row)
  : list (Row * SqlVal) :=
  match filter (fun c => sql_eq (row_get "category_id" r) (row_get "id" c)) cats with
  | [] => [(r, VNull)]
  | ms => map (fun c => (r, row_get "name" c)) ms
  end.

(** ORDER BY created_at DESC, NULLs last.  Rows with equal times keep their
    table order (the server promises no order among them). *)
Definition later_or_equal (a b : SqlVal) : bool :=
  match a, b with
  | VInt x, VInt y => y <=? x
  | _, VInt _ => false
  | _, _ => true
  end.

Fixpoint insert_by {A : Type} (before : A -> A -> bool) (x : A) (l : list A) : list A :=
  match l with
  | [] => [x]
  | y :: l' => if before x y then x :: l else y :: insert_by before x l'
  end.

(** A stable sort: of two rows that neither order puts first, the one that
    comes first in the table stays first. *)
Definition sort_by {A : Type} (before : A -> A -> bool) (l : list A) : list A :=
  fold_right (insert_by before) [] l.

Definition sort_desc {A : Type} (key : A -> SqlVal) (l : list A) : list A :=
  sort_by (fun x y => later_or_equal (key x) (key y)) l.

Definition paginate {A : Type} (lim : option nat) (off : nat) (l : list A) : list A :=
  match lim with
  | None => l
  | Some n => firstn n (skipn off l)
  end.

Definition project (s : Select) (x : Row * SqlVal) : Row :=
  ((match s_columns s with
    | None => fst x
    | Some cs => map (fun c => (c, row_get c (fst x))) cs
    end)
   ++ (if s_join_categories s then [("category_name", snd x)] else [])
   ++ (match s_content_type s with
       | Some tag => [("content_type", VStr tag)]
       | None => []
       end))%list.

Definition bind_limit (s : Select) (ps : list JsVal)
  : Res (option nat * nat * list JsVal) :=
  ' (lim, ps1) <-
     match s_limit s with
     | None => ok (None, ps)
     | Some (LimitLit n) => ok (Some n, ps)
     | Some LimitParam =>
         ' (p, ps') <- take_param ps ;;
         n <- limit_value p ;;
         ok (Some n, ps')
     end ;;
  ' (off, ps2) <-
     (if s_offset s then
        ' (p, ps') <- take_param ps1 ;;
        n <- limit_value p ;;
        ok (n, ps')
      else ok (0%nat, ps1)) ;;
  ok (lim, off, ps2).

Definition joined_rows (db : Db) (s : Select) (t : Table)
  : Res (list (Row * SqlVal)) :=
  if s_join_categories s then
    c <- need (get_table "categories" db) NoSuchTable ;;
    _ <- guard (has_col t "category_id" && has_col c "id" && has_col c "name")
           UnknownColumn ;;
    ok (flat_map (left_join_categories (t_rows c)) (t_rows t))
  else ok (map (fun r => (r, VNull)) (t_rows t)).

Definition exec_select (db : Db) (s : Select) (params : list JsVal)
  : Res (list Row) :=
  _ <- check_params params ;;
  t <- need (get_table (s_table s) db) NoSuchTable ;;
  ' (conds, ps1) <- bind_where (s_alias s) t (s_where s) params ;;
  ' (lim, off, ps2) <- bind_limit s ps1 ;;
  _ <- no_more ps2 ;;
  _ <- guard (negb (s_order_created_desc s) || has_col t "created_at")
         UnknownColumn ;;
  _ <- guard (match s_columns s with
              | None => true
              | Some cs => forallb (has_col t) cs
              end) UnknownColumn ;;
  joined <- joined_rows db s t ;;
  let matching := filter (fun x => where_holds conds (fst x)) joined in
  let ordered :=
    if s_order_created_desc s
    then sort_desc (fun x => row_get "created_at" (fst x)) matching
    else matching in
  ok (map (project s) (paginate lim off ordered)).

Definition exec_count (db : Db) (c : Count) (params : list JsVal)
  : Res (list Row) :=
  _ <- check_params params ;;
  t <- need (get_table (c_table c) db) NoSuchTable ;;
  ' (conds, ps1) <- bind_where None t (c_where c) params ;;
  _ <- no_more ps1 ;;
  ok [[(c_as c, VInt (Z.of_nat (List.length (filter (where_holds conds) (t_rows t)))))]].

(** The same conjunct without its table alias, as the count queries write
    it. *)
Definition unqualified_ref (c : ColRef) : ColRef := ucol (ref_column c).

Definition unqualified (q : Pred) : Pred :=
  match q with
  | PEqLit c lit => PEqLit (unqualified_ref c) lit
  | PNeLit c lit => PNeLit (unqualified_ref c) lit
  | PNotNull c => PNotNull (unqualified_ref c)
  | PEqParam c => PEqParam (unqualified_ref c)
  | PLikeParam c => PLikeParam (unqualified_ref c)
  | PAnyLike cs => PAnyLike (map unqualified_ref cs)
  end.

(** The columns a conjunct names. *)
Definition pred_columns (q : Pred) : list string :=
  match q with
  | PEqLit c _ | PNeLit c _ | PNotNull c | PEqParam c | PLikeParam c =>
      [ref_column c]
  | PAnyLike cs => map ref_column cs
  end.

(** [SELECT <g_key>, COUNT( * ) as <g_count_as>, MAX(<g_max>) as <g_max_as>
     FROM <g_table> WHERE <conjuncts> GROUP BY <g_key>
     ORDER BY <g_count_as> DESC, <g_key>] *)
Record GroupCount : Type := {
  g_table : string;
  g_key : string;
  g_count_as : string;
  g_max : string;
  g_max_as : string;
  g_where : list Pred
}.

Definition same_group (a b : SqlVal) : bool :=
  match a, b with
  | VNull, VNull => true
  | _, _ => sql_eq a b
  end.

(** MAX ignores NULL. *)
Definition sql_max (a b : SqlVal) : SqlVal :=
  if later_or_equal a b then a else b.

(** A group: its key, its number of rows and the greatest [g_max] seen. *)
Definition Group : Type := (SqlVal * nat * SqlVal)%type.

Fixpoint add_to_groups (k m : SqlVal) (gs : list Group) : list Group :=
  match gs with
  | [] => [(k, 1%nat, m)]
  | (k', n, m') :: gs' =>
      if same_group k' k then (k', S n, sql_max m' m) :: gs'
      else (k', n, m') :: add_to_groups k m gs'
  end.

Definition groups_of (key max : string) (rows : list Row) : list Group :=
  fold_left (fun gs r => add_to_groups (row_get key r) (row_get max r) gs)
            rows [].

(** The order of text under the collation: by folded characters. *)
Fixpoint str_cle (a b : string) : bool :=
  match a, b with
  | EmptyString, _ => true
  | String _ _, EmptyString => false
  | String x a', String y b' =>
      let i := nat_of_ascii (lower x) in
      let j := nat_of_ascii (lower y) in
      Nat.ltb i j || (Nat.eqb i j && str_cle a' b')
  end.

(** ORDER BY .. ASC: NULL first, numbers by value, text by collation. *)
Definition sql_le (a b : SqlVal) : bool :=
  match a, b with
  | VNull, _ => true
  | _, VNull => false
  | VInt x, VInt y => x <=? y
  | VStr x, VStr y => str_cle x y
  | VInt _, VStr _ => true
  | VStr _, VInt _ => false
  end.

Definition group_before (x y : Group) : bool :=
  let '(kx, nx, _) := x in
  let '(ky, ny, _) := y in
  Nat.ltb ny nx || (Nat.eqb nx ny && sql_le kx ky).

Definition exec_group_count (db : Db) (g : GroupCount) (params : list JsVal)
  : Res (list Row) :=
  _ <- check_params params ;;
  t <- need (get_table (g_table g) db) NoSuchTable ;;
  ' (conds, ps1) <- bind_where None t (g_where g) params ;;
  _ <- no_more ps1 ;;
  _ <- guard (has_col t (g_key g) && has_col t (g_max g)) UnknownColumn ;;
  let matching := filter (where_holds conds) (t_rows t) in
  ok (map (fun x : Group =>
             let '(k, n, m) := x in
             [(g_key g, k); (g_count_as g, VInt (Z.of_nat n)); (g_max_as g, m)])
          (sort_by group_before (groups_of (g_key g) (g_max g) matching))).

(** ** Commands *)

(** The value a column of type [ty] stores for a bind parameter, under the
    server's strict mode: a string for an INT column must be a decimal
    integer, text must fit, an ENUM takes one of its members (found by
    collation, stored as declared). *)
Definition coerce (ty : SqlType) (p : JsVal) : Res SqlVal :=
  match p with
  | JUndefined => fail UndefinedParameter
  | JNull => ok VNull
  | JBool b =>
      match ty with
      | TInt => ok (VInt (if b then 1 else 0))
      | _ => fail BadValue
      end
  | JNumber (JInt z) =>
      match ty with
      | TInt | TTimestamp => ok (VInt z)
      | TVarchar n =>
          if Nat.leb (String.length (text_of_Z z)) n then ok (VStr (text_of_Z z))
          else fail BadValue
      | TText => ok (VStr (text_of_Z z))
      | TEnum _ => fail BadValue
      end
  | JNumber _ => fail BadValue
  | JString s =>
      match ty with
      | TInt =>
          if all_ws s then fail BadValue
          else match StringToNumber s with
               | JInt z => ok (VInt z)
               | _ => fail BadValue
               end
      | TVarchar n =>
          if Nat.leb (String.length s) n then ok (VStr s) else fail BadValue
      | TText =>
          if Z.of_nat (String.length s) <=? 65535 then ok (VStr s)
          else fail BadValue
      | TEnum ms =>
          match find (str_ceq s) ms with
          | Some m => ok (VStr m)
          | None => fail BadValue
          end
      | TTimestamp => fail BadValue
      end
  | JArray _ | JObject _ => fail BadValue
  end.

(** The value of a column that the statement does not mention, or sets to
    NULL. *)
Definition absent_value (now next_id : Z) (d : Column) : Res SqlVal :=
  if col_auto_increment d then ok (VInt next_id)
  else match col_default d with
       | DefaultLit v => ok v
       | DefaultNow => ok (VInt now)
       | NoDefault => if col_not_null d then fail NullRefused else ok VNull
       end.

Definition null_checked (d : Column) (v : SqlVal) : Res SqlVal :=
  match v with
  | VNull => if col_not_null d then fail NullRefused else ok VNull
  | _ => ok v
  end.

Definition sqlval_eqb (a b : SqlVal) : bool :=
  match a, b with
  | VNull, VNull => true
  | VInt x, VInt y => x =? y
  | VStr x, VStr y => (x =? y)%string
  | _, _ => false
  end.

Fixpoint row_eqb (a b : Row) : bool :=
  match a, b with
  | [], [] => true
  | (k, v) :: a', (k', v') :: b' =>
      (k =? k')%string && sqlval_eqb v v' && row_eqb a' b'
  | _, _ => false
  end.

Definition is_null (v : SqlVal) : bool :=
  match v with VNull => true | _ => false end.

(** No row of [rows] already holds [v] in column [c]. *)
Definition fresh_in (c : string) (v : SqlVal) (rows : list Row) : bool :=
  is_null v || negb (existsb (fun r => sql_eq (row_get c r) v) rows).

Definition unique_ok (t : Table) (others : list Row) (r : Row) : bool :=
  forallb (fun d => negb (col_unique d)
                    || fresh_in (col_name d) (row_get (col_name d) r) others)
          (t_columns t).

Definition parent_ok (db : Db) (t : Table) (r : Row) : bool :=
  forallb (fun fk =>
             is_null (row_get (fk_col fk) r)
             || match get_table (fk_table fk) db with
                | Some pt =>
                    existsb (fun pr => sql_eq (row_get (fk_ref fk) pr)
                                              (row_get (fk_col fk) r))
                            (t_rows pt)
                | None => false
                end)
          (t_fks t).

(** The header the driver returns for a command. *)
Record Header : Type := {
  insertId : Z;
  affectedRows : Z
}.

(** [INSERT INTO <table> (<cols>) VALUES (?, ..)] *)
Definition exec_insert (now : Z) (db : Db) (table : string)
    (cols : list string) (params : list JsVal) : Res (Db * Header) :=
  _ <- check_params params ;;
  t <- need (get_table table db) NoSuchTable ;;
  _ <- guard (Nat.eqb (List.length cols) (List.length params)) WrongParameterCount ;;
  _ <- guard (forallb (has_col t) cols) UnknownColumn ;;
  let given := combine cols params in
  row <- mapM (fun d =>
                 v <- match assoc (col_name d) given with
                      | Some p =>
                          v <- coerce (col_type d) p ;;
                          if is_null v && col_auto_increment d
                          then ok (VInt (t_next_id t))
                          else null_checked d v
                      | None => absent_value now (t_next_id t) d
                      end ;;
                 ok (col_name d, v))
              (t_columns t) ;;
  _ <- guard (unique_ok t (t_rows t) row) Duplicate ;;
  _ <- guard (parent_ok db t row) NoParent ;;
  let t' := {| t_columns := t_columns t; t_fks := t_fks t;
               t_rows := (t_rows t ++ [row])%list;
               t_next_id := t_next_id t + 1 |} in
  ok (set_table table t' db, {| insertId := t_next_id t; affectedRows := 1 |}).

(** The new content of a row that an UPDATE matches: the SET columns from
    the parameters, then the ON UPDATE CURRENT_TIMESTAMP columns when
    something changed. *)
Fixpoint assign (t : Table) (sets : list (string * JsVal)) (r : Row) : Res Row :=
  match sets with
  | [] => ok r
  | (c, p) :: sets' =>
      d <- need (find_col c t) UnknownColumn ;;
      v <- coerce (col_type d) p ;;
      v' <- null_checked d v ;;
      assign t sets' (row_set c v' r)
  end.

Definition touch (now : Z) (t : Table) (old new : Row) : Row :=
  if row_eqb old new then new
  else fold_left (fun r d => if col_on_update_now d
                             then row_set (col_name d) (VInt now) r else r)
                 (t_columns t) new.

Fixpoint update_rows (now : Z) (db : Db) (t : Table)
    (sets : list (string * JsVal)) (matches : Row -> bool)
    (before rows : list Row) : Res (list Row) :=
  match rows with
  | [] => ok []
  | r :: rest =>
      if matches r then
        new <- assign t sets r ;;
        _ <- guard (unique_ok t (before ++ rest)%list new
                    || forallb (fun d => negb (col_unique d)
                                         || negb (existsb (String.eqb (col_name d))
                                                          (map fst sets)))
                               (t_columns t)) Duplicate ;;
        _ <- guard (parent_ok db t new) NoParent ;;
        rest' <- update_rows now db t sets matches
                   (before ++ [touch now t r new])%list rest ;;
        ok (touch now t r new :: rest')
      else
        rest' <- update_rows now db t sets matches (before ++ [r])%list rest ;;
        ok (r :: rest')
  end.

(** [UPDATE <table> SET c1 = ?, .. WHERE <key> = ?].  [affectedRows] counts
    the rows the WHERE clause finds. *)
Definition exec_update (now : Z) (db : Db) (table : string)
    (set_cols : list string) (key : string) (params : list JsVal)
  : Res (Db * Header) :=
  _ <- check_params params ;;
  t <- need (get_table table db) NoSuchTable ;;
  _ <- guard (Nat.eqb (List.length params) (S (List.length set_cols)))
         WrongParameterCount ;;
  _ <- guard (forallb (has_col t) set_cols && has_col t key) UnknownColumn ;;
  let sets := combine set_cols params in
  let k := nth (List.length set_cols) params JUndefined in
  let matches := fun r => sql_eq_param (row_get key r) k in
  rows' <- update_rows now db t sets matches [] (t_rows t) ;;
  ok (set_table table (with_rows t rows') db,
      {| insertId := 0;
         affectedRows := Z.of_nat (List.length (filter matches (t_rows t))) |}).

(** ON DELETE SET NULL: the rows of [t] that refer to a deleted row of
    [parent] lose their reference. *)
Definition orphan (parent : string) (gone : list Row) (t : Table) (r : Row) : Row :=
  fold_left (fun r fk =>
               if (fk_table fk =? parent)%string
                  && existsb (fun g => sql_eq (row_get (fk_ref fk) g)
                                              (row_get (fk_col fk) r)) gone
               then row_set (fk_col fk) VNull r else r)
            (t_fks t) r.

Definition set_null_children (parent : string) (gone : list Row) (t : Table) : Table :=
  with_rows t (map (orphan parent gone t) (t_rows t)).

(** [DELETE FROM <table> WHERE <key> = ?] *)
Definition exec_delete (db : Db) (table : string) (key : string)
    (params : list JsVal) : Res (Db * Header) :=
  _ <- check_params params ;;
  t <- need (get_table table db) NoSuchTable ;;
  ' (k, ps) <- take_param params ;;
  _ <- no_more ps ;;
  _ <- guard (has_col t key) UnknownColumn ;;
  let matches := fun r => sql_eq_param (row_get key r) k in
  let gone := filter matches (t_rows t) in
  let kept := filter (fun r => negb (matches r)) (t_rows t) in
  let db1 := set_table table (with_rows t kept) db in
  ok (map (fun nt => (fst nt, set_null_children table gone (snd nt))) db1,
      {| insertId := 0; affectedRows := Z.of_nat (List.length gone) |}).

(** ** Rows as JSON *)

Definition js_of_sql (v : SqlVal) : JsVal :=
  match v with
  | VNull => JNull
  | VInt z => num z
  | VStr s => JString s
  end.

Definition js_of_row (r : Row) : JsVal :=
  JObject (map (fun kv => (fst kv, js_of_sql (snd kv))) r).

Definition js_of_rows (rs : list Row) : JsVal := JArray (map js_of_row rs).

(** ** The categories with their numbers of published materials and videos

    [SELECT c.*, COUNT(DISTINCT m.id) as material_count,
            COUNT(DISTINCT v.id) as video_count
     FROM categories c
     LEFT JOIN materials m ON c.id = m.category_id AND m.status = 'published'
     LEFT JOIN videos v ON c.id = v.category_id AND v.status = 'published'
     GROUP BY c.id
     ORDER BY c.name] *)

(** The ON condition of both joins. *)
Definition published_in (c x : Row) : bool :=
  sql_eq (row_get "id" c) (row_get "category_id" x)
  && sql_eq (row_get "status" x) (VStr "published").

(** The rows of the right table that go with [c], or one row of NULLs when
    there is none. *)
Definition left_join_published (right : list Row) (c : Row) : list (option Row) :=
  match filter (published_in c) right with
  | [] => [None]
  | xs => map Some xs
  end.

(** A row of the double join: a category, a material or NULLs, a video or
    NULLs. *)
Definition Joined : Type := (Row * option Row * option Row)%type.

Definition join_contents (materials videos : list Row) (c : Row) : list Joined :=
  flat_map (fun m => map (fun v => (c, m, v)) (left_join_published videos c))
           (left_join_published materials c).

(** GROUP BY c.id: the joined rows with the same [c.id], in the order in
    which the ids first appear. *)
Definition group_key (x : Joined) : SqlVal := row_get "id" (fst (fst x)).

Fixpoint add_to_classes (x : Joined) (gs : list (list Joined)) : list (list Joined) :=
  match gs with
  | [] => [[x]]
  | g :: gs' =>
      if match g with
         | y :: _ => same_group (group_key y) (group_key x)
         | [] => false
         end
      then (g ++ [x])%list :: gs'
      else g :: add_to_classes x gs'
  end.

Definition classes (l : list Joined) : list (list Joined) :=
  fold_left (fun gs x => add_to_classes x gs) l [].

(** COUNT(DISTINCT e): the values of [e] that are not NULL, each once. *)
Fixpoint distinct (vs : list SqlVal) : list SqlVal :=
  match vs with
  | [] => []
  | v :: vs' =>
      if is_null v || existsb (sql_eq v) vs' then distinct vs'
      else v :: distinct vs'
  end.

Definition count_distinct (vs : list SqlVal) : SqlVal :=
  VInt (Z.of_nat (List.length (distinct vs))).

Definition id_or_null (x : option Row) : SqlVal :=
  match x with Some r => row_get "id" r | None => VNull end.

(** The row of a group: [c.*] of its first joined row and the two counts. *)
Definition counted (g : list Joined) : Row :=
  match g with
  | [] => []
  | (c, _, _) :: _ =>
      (c ++ [("material_count",
              count_distinct (map (fun x : Joined => id_or_null (snd (fst x))) g));
             ("video_count",
              count_distinct (map (fun x : Joined => id_or_null (snd x)) g))])%list
  end.

Definition by_name (a b : Row) : bool := sql_le (row_get "name" a) (row_get "name" b).

Definition exec_category_counts (db : Db) : Res (list Row) :=
  c <- need (get_table "categories" db) NoSuchTable ;;
  m <- need (get_table "materials" db) NoSuchTable ;;
  v <- need (get_table "videos" db) NoSuchTable ;;
  _ <- guard (has_col c "id" && has_col c "name"
              && has_col m "id" && has_col m "category_id" && has_col m "status"
              && has_col v "id" && has_col v "category_id" && has_col v "status")
         UnknownColumn ;;
  let joined := flat_map (join_contents (t_rows m) (t_rows v)) (t_rows c) in
  ok (sort_by by_name (map counted (classes joined))).

End Sql.

(* ================================================================== *)
(** * The schema of [initDatabase] *)
(* ================================================================== *)

Module Schema.
Import Js Sql.

Definition column (name : string) (ty : SqlType) : Column :=
  {| col_name := name; col_type := ty; col_not_null := false;
     col_unique := false; col_auto_increment := false;
     col_default := NoDefault; col_on_update_now := false |}.

Definition not_null (d : Column) : Column :=
  {| col_name := col_name d; col_type := col_type d; col_not_null := true;
     col_unique := col_unique d; col_auto_increment := col_auto_increment d;
     col_default := col_default d; col_on_update_now := col_on_update_now d |}.

Definition unique (d : Column) : Column :=
  {| col_name := col_name d; col_type := col_type d;
     col_not_null := col_not_null d;
     col_unique := true; col_auto_increment := col_auto_increment d;
     col_default := col_default d; col_on_update_now := col_on_update_now d |}.

Definition default (v : Default) (d : Column) : Column :=
  {| col_name := col_name d; col_type := col_type d;
     col_not_null := col_not_null d;
     col_unique := col_unique d; col_auto_increment := col_auto_increment d;
     col_default := v; col_on_update_now := col_on_update_now d |}.

(** [id INT AUTO_INCREMENT PRIMARY KEY] *)
Definition id_column : Column :=
  {| col_name := "id"; col_type := TInt; col_not_null := true;
     col_unique := true; col_auto_increment := true;
     col_default := NoDefault; col_on_update_now := false |}.

(** [created_at TIMESTAMP DEFAULT CURRENT_TIMESTAMP] *)
Definition created_at_column : Column :=
  default DefaultNow (column "created_at" TTimestamp).

(** [updated_at TIMESTAMP DEFAULT CURRENT_TIMESTAMP ON UPDATE CURRENT_TIMESTAMP] *)
Definition updated_at_column : Column :=
  {| col_name := "updated_at"; col_type := TTimestamp; col_not_null := false;
     col_unique := false; col_auto_increment := false;
     col_default := DefaultNow; col_on_update_now := true |}.

(** [status ENUM('published', 'draft') DEFAULT 'published'] *)
Definition status_column : Column :=
  default (DefaultLit (VStr "published"))
          (column "status" (TEnum ["published"; "draft"])).

Definition category_fk : ForeignKey :=
  {| fk_col := "category_id"; fk_table := "categories"; fk_ref := "id" |}.

Record CreateTable : Type := {
  ct_name : string;
  ct_columns : list Column;
  ct_fks : list ForeignKey
}.

Definition admins_ddl : CreateTable :=
  {| ct_name := "admins";
     ct_columns :=
       [ id_column;
         unique (not_null (column "email" (TVarchar 255)));
         not_null (column "password" (TVarchar 255));
         not_null (column "name" (TVarchar 255));
         created_at_column;
         updated_at_column ];
     ct_fks := [] |}.

Definition categories_ddl : CreateTable :=
  {| ct_name := "categories";
     ct_columns :=
       [ id_column;
         not_null (column "name" (TVarchar 255));
         column "description" TText;
         created_at_column;
         updated_at_column ];
     ct_fks := [] |}.

Definition materials_ddl : CreateTable :=
  {| ct_name := "materials";
     ct_columns :=
       [ id_column;
         not_null (column "title" (TVarchar 255));
         not_null (column "content" TText);
         column "category_id" TInt;
         column "image" (TVarchar 255);
         status_column;
         created_at_column;
         updated_at_column ];
     ct_fks := [category_fk] |}.

Definition videos_ddl : CreateTable :=
  {| ct_name := "videos";
     ct_columns :=
       [ id_column;
         not_null (column "title" (TVarchar 255));
         not_null (column "description" TText);
         not_null (column "video_url" (TVarchar 500));
         column "thumbnail" (TVarchar 255);
         default (DefaultLit (VInt 0)) (column "duration" TInt);
         column "category_id" TInt;
         status_column;
         created_at_column;
         updated_at_column ];
     ct_fks := [category_fk] |}.

(** [CREATE TABLE IF NOT EXISTS]: an existing table is left as it is. *)
Definition create_table_if_not_exists (db : Db) (ct : CreateTable) : Db :=
  match get_table (ct_name ct) db with
  | Some _ => db
  | None =>
      set_table (ct_name ct)
        {| t_columns := ct_columns ct; t_fks := ct_fks ct;
           t_rows := []; t_next_id := 1 |} db
  end.

(** [initDatabase], on a reachable server: the four CREATE TABLE statements
    in the order of the source. *)
Definition initDatabase (db : Db) : Db :=
  fold_left create_table_if_not_exists
    [admins_ddl; categories_ddl; materials_ddl; videos_ddl] db.

(** The columns the handlers of api.js and admin.js name in their
    statements on [materials]. *)
Definition materials_columns_in_handlers : list string :=
  ["id"; "title"; "content"; "author"; "category_id"; "image"; "status";
   "created_at"].

(** Modelled from the spec: the [author] column of [materials], which the
    handlers read and write but which no CREATE TABLE of the source
    declares.  The spec lists it as "author (nullable)"; it is given the
    type of the other short text columns. *)
Definition author_column : Column := column "author" (TVarchar 255).

(** The materials table as the handlers expect it: the declared columns
    with [author] after [content]. *)
Definition materials_columns_with_author : list Column :=
  [ id_column;
    not_null (column "title" (TVarchar 255));
    not_null (column "content" TText);
    author_column;
    column "category_id" TInt;
    column "image" (TVarchar 255);
    status_column;
    created_at_column;
    updated_at_column ].

(** A database with the four tables of [initDatabase], [materials] having
    its [author] column. *)
Definition has_table (db : Db) (name : string)
    (cols : list Column) (fks : list ForeignKey) : Prop :=
  exists t, get_table name db = Some t /\ t_columns t = cols /\ t_fks t = fks.

Definition deployed (db : Db) : Prop :=
  has_table db "admins" (ct_columns admins_ddl) []
  /\ has_table db "categories" (ct_columns categories_ddl) []
  /\ has_table db "materials" materials_columns_with_author [category_fk]
  /\ has_table db "videos" (ct_columns videos_ddl) [category_fk].

End Schema.

(* ================================================================== *)
(** * Requests and responses *)
(* ================================================================== *)

Module Http.
Import Js Sql.

(** A file accepted by the upload middleware ([req.file]). *)
Record File : Type := {
  fieldname : string;
  filename : string
}.

(** What a handler reads of the request.  Header names are in lower case, as
    the HTTP front hands them over; query, route and body fields are
    strings. *)
Record Request : Type := {
  headers : list (string * string);
  query : list (string * string);
  params : list (string * string);
  body : list (string * string);
  file : option File;
  user : JsVal
}.

Definition field (k : string) (l : list (string * string)) : JsVal :=
  match assoc k l with Some s => JString s | None => JUndefined end.

(** [payload] is the value handed to [res.json], before it is written out
    as JSON text (which turns [NaN] and the infinities into [null] and drops
    the properties that are [undefined]). *)
Record Response : Type := {
  status : Z;
  payload : JsVal
}.

(** [res.json(v)] and [res.status(code).json(v)] *)
Definition json (v : JsVal) : Response := {| status := 200; payload := v |}.
Definition status_json (code : Z) (v : JsVal) : Response :=
  {| status := code; payload := v |}.

(** [req.files] after [upload.fields([..])]: absent when the middleware left
    the request alone, else the accepted files by field name. *)
Definition Files : Type := option (list (string * list File)).

(** A file as the upload middleware hands it to its [destination] and
    [fileFilter] callbacks, before it is stored. *)
Record Incoming : Type := {
  in_fieldname : string;
  in_originalname : string;
  in_mimetype : string
}.

End Http.

(* ================================================================== *)
(** * routes/api.js: the public read and search API *)
(* ================================================================== *)

Module Api.
Import Js Sql Http.

(** [{ success: false, error: msg }] *)
Definition failure (msg : string) : JsVal :=
  JObject [("success", JBool false); ("error", JString msg)].

(** [try { .. } catch (error) { res.status(500).json(..) }] *)
Definition catch (r : Res Response) (msg : string) : Response :=
  match r with
  | inr resp => resp
  | inl _ => status_json 500 (failure msg)
  end.

(** [query += ' AND ..'] *)
Definition and_where (s : Select) (q : Pred) : Select :=
  {| s_table := s_table s; s_alias := s_alias s; s_columns := s_columns s;
     s_join_categories := s_join_categories s;
     s_content_type := s_content_type s;
     s_where := (s_where s ++ [q])%list;
     s_order_created_desc := s_order_created_desc s;
     s_limit := s_limit s; s_offset := s_offset s |}.

(** [countQuery += ' AND ..'] *)
Definition and_count (c : Count) (q : Pred) : Count :=
  {| c_table := c_table c; c_as := c_as c;
     c_where := (c_where c ++ [q])%list |}.

(** [query += ' ORDER BY x.created_at DESC LIMIT ? OFFSET ?'] *)
Definition order_limit_offset (s : Select) : Select :=
  {| s_table := s_table s; s_alias := s_alias s; s_columns := s_columns s;
     s_join_categories := s_join_categories s;
     s_content_type := s_content_type s;
     s_where := s_where s;
     s_order_created_desc := true;
     s_limit := Some LimitParam; s_offset := true |}.

(** [SELECT x.*, c.name as category_name [, 'tag' as content_type]
     FROM <table> x LEFT JOIN categories c ON x.category_id = c.id
     WHERE <conjuncts>] *)
Definition content_select (table alias : string) (tag : option string)
    (w : list Pred) : Select :=
  {| s_table := table; s_alias := Some alias; s_columns := None;
     s_join_categories := true; s_content_type := tag;
     s_where := w;
     s_order_created_desc := false; s_limit := None; s_offset := false |}.

(** [SELECT COUNT( * ) as total FROM <table> WHERE <conjuncts>] *)
Definition total_count (table : string) (w : list Pred) : Count :=
  {| c_table := table; c_as := "total"; c_where := w |}.

(** [`%${x}%`] *)
Definition contains_pattern (x : JsVal) : JsVal :=
  JString ("%" ++ to_text x ++ "%").

(** [const { page = 1, limit = 10 } = req.query] *)
Definition page_of (req : Request) : JsVal :=
  js_default (field "page" (query req)) (num 1).

Definition limit_of (req : Request) : JsVal :=
  js_default (field "limit" (query req)) (num 10).

(** [(page - 1) * limit] *)
Definition offset_of (page limit : JsVal) : JsNum :=
  js_mul (js_sub (ToNumber page) (JInt 1)) (ToNumber limit).

(** The row query, the count query and their parameter arrays, as a list
    handler builds them side by side. *)
Record Listing : Type := {
  l_query : Select;
  l_countQuery : Count;
  l_params : list JsVal;
  l_countParams : list JsVal
}.

(** [if (x) { query += ' AND a.col <op> ?'; countQuery += ' AND col <op> ?';
              params.push(v); countParams.push(v); }] *)
Definition filter_both (l : Listing) (q qc : Pred) (v : JsVal) : Listing :=
  {| l_query := and_where (l_query l) q;
     l_countQuery := and_count (l_countQuery l) qc;
     l_params := (l_params l ++ [v])%list;
     l_countParams := (l_countParams l ++ [v])%list |}.

(** [query += ' ORDER BY .. LIMIT ? OFFSET ?';
     params.push(parseInt(limit), offset)] *)
Definition finish (l : Listing) (limit : JsVal) (offset : JsNum) : Listing :=
  {| l_query := order_limit_offset (l_query l);
     l_countQuery := l_countQuery l;
     l_params := (l_params l ++ [JNumber (parseInt limit); JNumber offset])%list;
     l_countParams := l_countParams l |}.

(** The pagination object of the list handlers. *)
Definition pagination (total page limit : JsVal) : JsVal :=
  JObject [("total", total);
           ("page", JNumber (parseInt page));
           ("limit", JNumber (parseInt limit));
           ("pages", JNumber (Math_ceil (js_div (ToNumber total) (ToNumber limit))))].

(** [res.json({ success: true, data, pagination: { total: totalResult[0].total, .. } })] *)
Definition paginated (data totalResult : list Row) (page limit : JsVal)
  : Res Response :=
  first <- need (hd_error totalResult) TypeError ;;
  ok (json (JObject [("success", JBool true);
                     ("data", js_of_rows data);
                     ("pagination",
                      pagination (prop "total" (js_of_row first)) page limit)])).

Definition run_listing (db : Db) (l : Listing) (page limit : JsVal)
  : Res Response :=
  rows <- exec_select db (l_query l) (l_params l) ;;
  totalResult <- exec_count db (l_countQuery l) (l_countParams l) ;;
  paginated rows totalResult page limit.

(** ** GET /materials *)

Definition materials_listing (req : Request) : Listing :=
  let page := page_of req in
  let limit := limit_of req in
  let category := field "category" (query req) in
  let author := field "author" (query req) in
  let offset := offset_of page limit in
  let l0 :=
    {| l_query := content_select "materials" "m" None
                    [PEqLit (qcol "m" "status") "published"];
       l_countQuery := total_count "materials"
                         [PEqLit (ucol "status") "published"];
       l_params := []; l_countParams := [] |} in
  let l1 :=
    if truthy category
    then filter_both l0 (PEqParam (qcol "m" "category_id"))
                        (PEqParam (ucol "category_id")) category
    else l0 in
  let l2 :=
    if truthy author
    then filter_both l1 (PLikeParam (qcol "m" "author"))
                        (PLikeParam (ucol "author")) (contains_pattern author)
    else l1 in
  finish l2 limit offset.

Definition get_materials (db : Db) (req : Request) : Response :=
  let page := page_of req in
  let limit := limit_of req in
  catch (run_listing db (materials_listing req) page limit)
        "Failed to fetch materials".

(** ** GET /videos *)

Definition videos_listing (req : Request) : Listing :=
  let page := page_of req in
  let limit := limit_of req in
  let category := field "category" (query req) in
  let offset := offset_of page limit in
  let l0 :=
    {| l_query := content_select "videos" "v" None
                    [PEqLit (qcol "v" "status") "published"];
       l_countQuery := total_count "videos"
                         [PEqLit (ucol "status") "published"];
       l_params := []; l_countParams := [] |} in
  let l1 :=
    if truthy category
    then filter_both l0 (PEqParam (qcol "v" "category_id"))
                        (PEqParam (ucol "category_id")) category
    else l0 in
  finish l1 limit offset.

Definition get_videos (db : Db) (req : Request) : Response :=
  let page := page_of req in
  let limit := limit_of req in
  catch (run_listing db (videos_listing req) page limit)
        "Failed to fetch videos".

(** ** GET /materials/:id and GET /videos/:id *)

Definition by_id (db : Db) (table alias : string) (req : Request)
    (missing : string) : Res Response :=
  rows <- exec_select db
            (content_select table alias None
               [PEqParam (qcol alias "id");
                PEqLit (qcol alias "status") "published"])
            [field "id" (params req)] ;;
  match rows with
  | [] => ok (status_json 404 (failure missing))
  | first :: _ =>
      ok (json (JObject [("success", JBool true); ("data", js_of_row first)]))
  end.

Definition get_material (db : Db) (req : Request) : Response :=
  catch (by_id db "materials" "m" req "Material not found")
        "Failed to fetch material".

Definition get_video (db : Db) (req : Request) : Response :=
  catch (by_id db "videos" "v" req "Video not found")
        "Failed to fetch video".

(** ** GET /materials/category/:categoryId, GET /videos/category/:categoryId
       and GET /materials/author/:author *)

Definition scoped_listing (table alias : string) (q qc : Pred) (v : JsVal)
    (req : Request) : Listing :=
  let page := page_of req in
  let limit := limit_of req in
  let offset := offset_of page limit in
  {| l_query :=
       order_limit_offset
         (content_select table alias None
            [q; PEqLit (qcol alias "status") "published"]);
     l_countQuery := total_count table [qc; PEqLit (ucol "status") "published"];
     l_params := [v; JNumber (parseInt limit); JNumber offset];
     l_countParams := [v] |}.

Definition get_scoped (db : Db) (l : Listing) (req : Request) (msg : string)
  : Response :=
  let page := page_of req in
  let limit := limit_of req in
  catch (run_listing db l page limit) msg.

Definition get_materials_by_category (db : Db) (req : Request) : Response :=
  get_scoped db
    (scoped_listing "materials" "m" (PEqParam (qcol "m" "category_id"))
       (PEqParam (ucol "category_id")) (field "categoryId" (params req)) req)
    req "Failed to fetch materials".

Definition get_videos_by_category (db : Db) (req : Request) : Response :=
  get_scoped db
    (scoped_listing "videos" "v" (PEqParam (qcol "v" "category_id"))
       (PEqParam (ucol "category_id")) (field "categoryId" (params req)) req)
    req "Failed to fetch videos".

Definition get_materials_by_author (db : Db) (req : Request) : Response :=
  get_scoped db
    (scoped_listing "materials" "m" (PLikeParam (qcol "m" "author"))
       (PLikeParam (ucol "author"))
       (contains_pattern (field "author" (params req))) req)
    req "Failed to fetch materials by author".

(** ** GET /authors *)

Definition authors_query : GroupCount :=
  {| g_table := "materials"; g_key := "author";
     g_count_as := "material_count";
     g_max := "created_at"; g_max_as := "latest_material";
     g_where := [PNotNull (ucol "author"); PNeLit (ucol "author") "";
                 PEqLit (ucol "status") "published"] |}.

Definition get_authors (db : Db) (req : Request) : Response :=
  catch (authors <- exec_group_count db authors_query [] ;;
         ok (json (JObject [("success", JBool true);
                            ("data", js_of_rows authors)])))
        "Failed to fetch authors".

(** ** GET /search *)

Definition search_materials_select : Select :=
  content_select "materials" "m" (Some "material")
    [PEqLit (qcol "m" "status") "published";
     PAnyLike [qcol "m" "title"; qcol "m" "content"; qcol "m" "author"]].

Definition search_videos_select : Select :=
  content_select "videos" "v" (Some "video")
    [PEqLit (qcol "v" "status") "published";
     PAnyLike [qcol "v" "title"; qcol "v" "description"]].

(** One branch of the search: the base query with its search terms, the
    optional category conjunct, then ORDER BY .. LIMIT ? OFFSET ?. *)
Definition search_branch (db : Db) (base : Select) (alias : string)
    (terms : list JsVal) (category limit : JsVal) (offset : JsNum)
  : Res (list Row) :=
  let '(q, ps) :=
    if truthy category
    then (and_where base (PEqParam (qcol alias "category_id")),
          (terms ++ [category])%list)
    else (base, terms) in
  exec_select db (order_limit_offset q)
    (ps ++ [JNumber (parseInt limit); JNumber offset])%list.

Definition search (db : Db) (req : Request) : Response :=
  let q := field "q" (query req) in
  let type := field "type" (query req) in
  let category := field "category" (query req) in
  let page := page_of req in
  let limit := limit_of req in
  if negb (truthy q)
  then status_json 400 (failure "Search query is required")
  else
    let offset := offset_of page limit in
    let searchTerm := contains_pattern q in
    catch
      (materials <-
         (if negb (truthy type) || is_string type "materials"
          then search_branch db search_materials_select "m"
                 [searchTerm; searchTerm; searchTerm] category limit offset
          else ok []) ;;
       videos <-
         (if negb (truthy type) || is_string type "videos"
          then search_branch db search_videos_select "v"
                 [searchTerm; searchTerm] category limit offset
          else ok []) ;;
       ok (json (JObject
                   [("success", JBool true);
                    ("data", JObject [("materials", js_of_rows materials);
                                      ("videos", js_of_rows videos)]);
                    ("query", q);
                    ("pagination",
                     JObject [("page", JNumber (parseInt page));
                              ("limit", JNumber (parseInt limit))])])))
      "Search failed".

(** ** GET /latest *)

Definition latest_select (table alias tag : string) : Select :=
  {| s_table := table; s_alias := Some alias; s_columns := None;
     s_join_categories := true; s_content_type := Some tag;
     s_where := [PEqLit (qcol alias "status") "published"];
     s_order_created_desc := true;
     s_limit := Some LimitParam; s_offset := false |}.

Definition latest (db : Db) (req : Request) : Response :=
  let limit := js_default (field "limit" (query req)) (num 5) in
  catch
    (materials <- exec_select db (latest_select "materials" "m" "material")
                    [JNumber (parseInt limit)] ;;
     videos <- exec_select db (latest_select "videos" "v" "video")
                 [JNumber (parseInt limit)] ;;
     ok (json (JObject
                 [("success", JBool true);
                  ("data", JObject [("materials", js_of_rows materials);
                                    ("videos", js_of_rows videos)])])))
    "Failed to fetch latest content".

(** ** The routes that return materials or videos *)

Inductive Route : Type :=
| ListMaterials          (* GET /materials *)
| GetMaterial            (* GET /materials/:id *)
| MaterialsByCategory    (* GET /materials/category/:categoryId *)
| MaterialsByAuthor      (* GET /materials/author/:author *)
| ListVideos             (* GET /videos *)
| GetVideo               (* GET /videos/:id *)
| VideosByCategory       (* GET /videos/category/:categoryId *)
| Search                 (* GET /search *)
| Latest.                (* GET /latest *)

Definition serve (r : Route) : Db -> Request -> Response :=
  match r with
  | ListMaterials => get_materials
  | GetMaterial => get_material
  | MaterialsByCategory => get_materials_by_category
  | MaterialsByAuthor => get_materials_by_author
  | ListVideos => get_videos
  | GetVideo => get_video
  | VideosByCategory => get_videos_by_category
  | Search => search
  | Latest => latest
  end.

(** The paginated listings, with the table they list and the queries they
    build. *)
Inductive Paginated : Type :=
| PMaterials
| PMaterialsByCategory
| PMaterialsByAuthor
| PVideos
| PVideosByCategory.

Definition route_of (p : Paginated) : Route :=
  match p with
  | PMaterials => ListMaterials
  | PMaterialsByCategory => MaterialsByCategory
  | PMaterialsByAuthor => MaterialsByAuthor
  | PVideos => ListVideos
  | PVideosByCategory => VideosByCategory
  end.

Definition table_of (p : Paginated) : string :=
  match p with
  | PMaterials | PMaterialsByCategory | PMaterialsByAuthor => "materials"
  | PVideos | PVideosByCategory => "videos"
  end.

Definition listing_of (p : Paginated) (req : Request) : Listing :=
  match p with
  | PMaterials => materials_listing req
  | PVideos => videos_listing req
  | PMaterialsByCategory =>
      scoped_listing "materials" "m" (PEqParam (qcol "m" "category_id"))
        (PEqParam (ucol "category_id")) (field "categoryId" (params req)) req
  | PVideosByCategory =>
      scoped_listing "videos" "v" (PEqParam (qcol "v" "category_id"))
        (PEqParam (ucol "category_id")) (field "categoryId" (params req)) req
  | PMaterialsByAuthor =>
      scoped_listing "materials" "m" (PLikeParam (qcol "m" "author"))
        (PLikeParam (ucol "author"))
        (contains_pattern (field "author" (params req))) req
  end.

(** ** GET /categories and GET /categories/:id *)

Definition get_categories (db : Db) (req : Request) : Response :=
  catch (categories <- exec_category_counts db ;;
         ok (json (JObject [("success", JBool true);
                            ("data", js_of_rows categories)])))
        "Failed to fetch categories".

(** [SELECT * FROM categories WHERE id = ?] *)
Definition category_by_id : Select :=
  {| s_table := "categories"; s_alias := None; s_columns := None;
     s_join_categories := false; s_content_type := None;
     s_where := [PEqParam (ucol "id")];
     s_order_created_desc := false; s_limit := None; s_offset := false |}.

Definition get_category (db : Db) (req : Request) : Response :=
  catch (categories <- exec_select db category_by_id [field "id" (params req)] ;;
         match categories with
         | [] => ok (status_json 404 (failure "Category not found"))
         | first :: _ =>
             ok (json (JObject [("success", JBool true);
                                ("data", js_of_row first)]))
         end)
        "Failed to fetch category".

End Api.

(* ================================================================== *)
(** * routes/admin.js: the token gate and the admin handlers *)
(* ================================================================== *)

Module Admin.
Import Js Sql Http.

(** [process.env]: each variable is a string or [undefined]. *)
Record Env : Type := {
  JWT_SECRET : JsVal;
  ADMIN_EMAIL : JsVal;
  ADMIN_PASSWORD : JsVal;
  NODE_ENV : JsVal
}.

(** An admin handler runs at a time [now] (the store's CURRENT_TIMESTAMP)
    and may change the database. *)
Definition Handler : Type := Z -> Db -> Request -> Db * Response.

Definition error_body (msg : string) : JsVal := JObject [("error", JString msg)].

Definition with_user (req : Request) (u : JsVal) : Request :=
  {| headers := headers req; query := query req; params := params req;
     body := body req; file := file req; user := u |}.

(** The two libraries admin.js calls, and what it reads of a thrown error.
    [bcrypt_hash pw rounds] is the salted hash computed in this run;
    [jwt_sign payload secret expiresIn] is [None] when the library throws
    (no secret); [jwt_verify token secret] is [None] when it reports an
    error (bad signature, wrong secret, expired), else the decoded
    payload. *)
Class Libraries : Type := {
  bcrypt_hash : string -> Z -> string;
  bcrypt_compare : string -> string -> bool;
  jwt_sign : JsVal -> JsVal -> string -> option string;
  jwt_verify : string -> JsVal -> option JsVal;
  message : Thrown -> string;      (* error.message *)
  stack : Thrown -> string         (* error.stack *)
}.

Section Handlers.

Context {libraries : Libraries}.
Variable env : Env.

(** ** authenticateToken *)

(** [authHeader && authHeader.split(' ')[1]] *)
Definition bearer_token (req : Request) : JsVal :=
  let authHeader := field "authorization" (headers req) in
  js_and authHeader (index (split_space (to_text authHeader)) 1).

(** The middleware either answers itself ([inl]) or calls [next()] with the
    request it was given, [req.user] set ([inr]). *)
Definition authenticateToken (req : Request) : Response + Request :=
  let token := bearer_token req in
  if negb (truthy token)
  then inl (status_json 401 (error_body "Access token required"))
  else
    match jwt_verify (to_text token) (JWT_SECRET env) with
    | None => inl (status_json 403 (error_body "Invalid or expired token"))
    | Some u => inr (with_user req u)
    end.

(** [router.<method>(path, authenticateToken, handler)] *)
Definition gated (h : Handler) : Handler :=
  fun now db req =>
    match authenticateToken req with
    | inl resp => (db, resp)
    | inr req' => h now db req'
    end.

(** ** GET /check *)

Definition check : Handler :=
  fun now db req =>
    match
      (admins <- exec_count db {| c_table := "admins"; c_as := "count";
                                  c_where := [] |} [] ;;
       first <- need (hd_error admins) TypeError ;;
       let count := prop "count" (js_of_row first) in
       ok (json (JObject [("hasAdmin", JBool (js_gt (ToNumber count) (JInt 0)));
                          ("count", count)])))
    with
    | inr resp => (db, resp)
    | inl e =>
        (db, status_json 500
               (JObject [("error", JString "Failed to check admin status");
                         ("details", JString (message e))]))
    end.

(** ** POST /init *)

(** [SELECT id FROM admins LIMIT 1] *)
Definition any_admin : Select :=
  {| s_table := "admins"; s_alias := None; s_columns := Some ["id"];
     s_join_categories := false; s_content_type := None;
     s_where := [];
     s_order_created_desc := false;
     s_limit := Some (LimitLit 1); s_offset := false |}.

(** [{ error, details: error.message,
       stack: NODE_ENV === 'development' ? error.stack : undefined }] *)
Definition detailed_error (msg : string) (e : Thrown) : JsVal :=
  JObject [("error", JString msg);
           ("details", JString (message e));
           ("stack", if is_string (NODE_ENV env) "development"
                     then JString (stack e) else JUndefined)].

Definition init : Handler :=
  fun now db req =>
    match
      (existing <- exec_select db any_admin [] ;;
       if Nat.ltb 0 (List.length existing)
       then ok (db, json (JObject
                            [("message", JString "Admin already exists");
                             ("adminExists", JBool true);
                             ("count", num (Z.of_nat (List.length existing)))]))
       else
         let email := js_or (ADMIN_EMAIL env) (JString "admin@breastcancer.com") in
         let password := js_or (ADMIN_PASSWORD env) (JString "admin123") in
         let hashedPassword := bcrypt_hash (to_text password) 12 in
         ' (db', result) <-
            exec_insert now db "admins" ["email"; "password"; "name"]
              [email; JString hashedPassword; JString "Administrator"] ;;
         ok (db', json (JObject
                          [("message", JString "Default admin created successfully");
                           ("adminId", num (insertId result));
                           ("email", email);
                           ("tempPassword", password)])))
    with
    | inr out => out
    | inl e => (db, status_json 500 (detailed_error "Failed to create admin" e))
    end.

(** ** POST /login *)

(** [SELECT * FROM admins WHERE email = ?] *)
Definition admin_by_email : Select :=
  {| s_table := "admins"; s_alias := None; s_columns := None;
     s_join_categories := false; s_content_type := None;
     s_where := [PEqParam (ucol "email")];
     s_order_created_desc := false;
     s_limit := None; s_offset := false |}.

Definition invalid_login : Response :=
  status_json 401 (error_body "Invalid email or password").

Definition login : Handler :=
  fun now db req =>
    let email := field "email" (body req) in
    let password := field "password" (body req) in
    if negb (truthy email) || negb (truthy password)
    then (db, status_json 400 (error_body "Email and password are required"))
    else
      match
        (rows <- exec_select db admin_by_email [email] ;;
         match rows with
         | [] => ok invalid_login
         | first :: _ =>
             let admin := js_of_row first in
             let isValidPassword :=
               bcrypt_compare (to_text password) (to_text (prop "password" admin)) in
             if negb isValidPassword then ok invalid_login
             else
               token <- need (jwt_sign (JObject [("id", prop "id" admin);
                                                 ("email", prop "email" admin)])
                                (JWT_SECRET env) "24h") Raised ;;
               ok (json (JObject
                           [("success", JBool true);
                            ("token", JString token);
                            ("admin", JObject [("id", prop "id" admin);
                                               ("email", prop "email" admin);
                                               ("name", prop "name" admin)])]))
         end)
      with
      | inr resp => (db, resp)
      | inl e => (db, status_json 500 (detailed_error "Login failed" e))
      end.

(** ** PUT /materials/:id *)

Definition put_material : Handler :=
  fun now db req =>
    let title := field "title" (body req) in
    let content := field "content" (body req) in
    let author := field "author" (body req) in
    let category_id := field "category_id" (body req) in
    let status := field "status" (body req) in
    let id := field "id" (params req) in
    let image :=
      match file req with
      | Some f => JString ("/uploads/images/" ++ filename f)
      | None => JUndefined
      end in
    let set_cols := ["title"; "content"; "author"; "category_id"; "status"] in
    let ps := [title; content; js_or author JNull; js_or category_id JNull;
               js_or status (JString "published")] in
    let '(set_cols, ps) :=
      if truthy image
      then ((set_cols ++ ["image"])%list, (ps ++ [image])%list)
      else (set_cols, ps) in
    match exec_update now db "materials" set_cols "id" (ps ++ [id])%list with
    | inr (db', _) =>
        (db', json (JObject [("id", id); ("title", title); ("content", content);
                             ("author", author); ("category_id", category_id);
                             ("image", image); ("status", status)]))
    | inl _ => (db, status_json 500 (error_body "Failed to update material"))
    end.

(** ** DELETE /categories/:id, /materials/:id, /videos/:id *)

Definition delete_from (table done failed : string) : Handler :=
  fun now db req =>
    match exec_delete db table "id" [field "id" (params req)] with
    | inr (db', _) => (db', json (JObject [("message", JString done)]))
    | inl _ => (db, status_json 500 (error_body failed))
    end.

Definition delete_category : Handler :=
  delete_from "categories" "Category deleted successfully"
              "Failed to delete category".

Definition delete_material : Handler :=
  delete_from "materials" "Material deleted successfully"
              "Failed to delete material".

Definition delete_video : Handler :=
  delete_from "videos" "Video deleted successfully"
              "Failed to delete video".

End Handlers.

(** The three delete routes. *)
Inductive Deletable : Type :=
| DCategory              (* DELETE /categories/:id *)
| DMaterial              (* DELETE /materials/:id *)
| DVideo.                (* DELETE /videos/:id *)

Definition delete_handler (d : Deletable) : Handler :=
  match d with
  | DCategory => delete_category
  | DMaterial => delete_material
  | DVideo => delete_video
  end.

Definition delete_table (d : Deletable) : string :=
  match d with
  | DCategory => "categories"
  | DMaterial => "materials"
  | DVideo => "videos"
  end.

Definition deleted_message (d : Deletable) : string :=
  match d with
  | DCategory => "Category deleted successfully"
  | DMaterial => "Material deleted successfully"
  | DVideo => "Video deleted successfully"
  end.

(** ** The other handlers of admin.js *)

Section Content.

Context {libraries : Libraries}.
Variable env : Env.

(** [try { .. } catch (error) { res.status(500).json({ error: msg }) }],
    around a handler body that may change the database. *)
Definition attempt (db : Db) (r : Res (Db * Response)) (msg : string)
  : Db * Response :=
  match r with
  | inr out => out
  | inl _ => (db, status_json 500 (error_body msg))
  end.

(** *** POST /reset-password *)

Definition reset_password : Handler :=
  fun now db req =>
    let email := field "email" (body req) in
    let newPassword := field "newPassword" (body req) in
    if negb (truthy email) || negb (truthy newPassword)
    then (db, status_json 400 (error_body "Email and new password are required"))
    else
      let hashedPassword := bcrypt_hash (to_text newPassword) 12 in
      match exec_update now db "admins" ["password"] "email"
              [JString hashedPassword; email] with
      | inr (db', result) =>
          if affectedRows result =? 0
          then (db', status_json 404 (error_body "Admin not found"))
          else (db', json (JObject
                             [("message", JString "Password updated successfully")]))
      | inl e =>
          (db, status_json 500
                 (JObject [("error", JString "Failed to reset password");
                           ("details", JString (message e))]))
      end.

(** *** GET /stats *)

(** [SELECT COUNT( * ) as count FROM <table>] *)
Definition count_all (table : string) : Count :=
  {| c_table := table; c_as := "count"; c_where := [] |}.

Definition stats : Handler :=
  fun now db req =>
    attempt db
      (materialCount <- exec_count db (count_all "materials") [] ;;
       videoCount <- exec_count db (count_all "videos") [] ;;
       categoryCount <- exec_count db (count_all "categories") [] ;;
       m <- need (hd_error materialCount) TypeError ;;
       v <- need (hd_error videoCount) TypeError ;;
       c <- need (hd_error categoryCount) TypeError ;;
       ok (db, json (JObject [("materials", prop "count" (js_of_row m));
                              ("videos", prop "count" (js_of_row v));
                              ("categories", prop "count" (js_of_row c))])))
      "Failed to fetch stats".

(** *** Categories *)

(** [SELECT * FROM categories ORDER BY created_at DESC] *)
Definition all_categories : Select :=
  {| s_table := "categories"; s_alias := None; s_columns := None;
     s_join_categories := false; s_content_type := None;
     s_where := [];
     s_order_created_desc := true; s_limit := None; s_offset := false |}.

Definition admin_categories : Handler :=
  fun now db req =>
    attempt db
      (categories <- exec_select db all_categories [] ;;
       ok (db, json (js_of_rows categories)))
      "Failed to fetch categories".

Definition post_category : Handler :=
  fun now db req =>
    let name := field "name" (body req) in
    let description := field "description" (body req) in
    attempt db
      (' (db', result) <-
          exec_insert now db "categories" ["name"; "description"]
            [name; description] ;;
       ok (db', json (JObject [("id", num (insertId result));
                               ("name", name);
                               ("description", description)])))
      "Failed to create category".

Definition put_category : Handler :=
  fun now db req =>
    let name := field "name" (body req) in
    let description := field "description" (body req) in
    let id := field "id" (params req) in
    attempt db
      (' (db', _) <-
          exec_update now db "categories" ["name"; "description"] "id"
            [name; description; id] ;;
       ok (db', json (JObject [("id", id); ("name", name);
                               ("description", description)])))
      "Failed to update category".

(** *** Materials *)

(** [SELECT x.*, c.name as category_name FROM <table> x
     LEFT JOIN categories c ON x.category_id = c.id
     ORDER BY x.created_at DESC] *)
Definition all_content (table alias : string) : Select :=
  {| s_table := table; s_alias := Some alias; s_columns := None;
     s_join_categories := true; s_content_type := None;
     s_where := [];
     s_order_created_desc := true; s_limit := None; s_offset := false |}.

Definition admin_materials : Handler :=
  fun now db req =>
    attempt db
      (materials <- exec_select db (all_content "materials" "m") [] ;;
       ok (db, json (js_of_rows materials)))
      "Failed to fetch materials".

Definition post_material : Handler :=
  fun now db req =>
    let title := field "title" (body req) in
    let content := field "content" (body req) in
    let author := field "author" (body req) in
    let category_id := field "category_id" (body req) in
    let status := field "status" (body req) in
    let image :=
      match file req with
      | Some f => JString ("/uploads/images/" ++ filename f)
      | None => JNull
      end in
    attempt db
      (' (db', result) <-
          exec_insert now db "materials"
            ["title"; "content"; "author"; "category_id"; "image"; "status"]
            [title; content; js_or author JNull; js_or category_id JNull;
             image; js_or status (JString "published")] ;;
       ok (db', json (JObject [("id", num (insertId result));
                               ("title", title);
                               ("content", content);
                               ("author", author);
                               ("category_id", category_id);
                               ("image", image);
                               ("status", js_or status (JString "published"))])))
      "Failed to create material".

(** *** Videos *)

Definition admin_videos : Handler :=
  fun now db req =>
    attempt db
      (videos <- exec_select db (all_content "videos" "v") [] ;;
       ok (db, json (js_of_rows videos)))
      "Failed to fetch videos".

(** [`<dir>${req.files.<name>[0].filename}`], when [req.files.<name>] is
    there; reading [filename] of the first file of an empty array throws. *)
Definition uploaded (fs : list (string * list File)) (name dir : string)
  : Res (option JsVal) :=
  match assoc name fs with
  | Some xs =>
      f <- need (hd_error xs) TypeError ;;
      ok (Some (JString (dir ++ filename f)))
  | None => ok None
  end.

Definition post_video (files : Files) : Handler :=
  fun now db req =>
    let title := field "title" (body req) in
    let description := field "description" (body req) in
    let video_url := field "video_url" (body req) in
    let duration := field "duration" (body req) in
    let category_id := field "category_id" (body req) in
    let status := field "status" (body req) in
    attempt db
      (' (videoUrl, thumbnail) <-
          match files with
          | Some fs =>
              v <- uploaded fs "video" "/uploads/videos/" ;;
              t <- uploaded fs "thumbnail" "/uploads/images/" ;;
              ok (match v with Some u => u | None => video_url end,
                  match t with Some u => u | None => JNull end)
          | None => ok (video_url, JNull)
          end ;;
       ' (db', result) <-
          exec_insert now db "videos"
            ["title"; "description"; "video_url"; "thumbnail"; "duration";
             "category_id"; "status"]
            [title; description; videoUrl; thumbnail; js_or duration (num 0);
             js_or category_id JNull; js_or status (JString "published")] ;;
       ok (db', json (JObject [("id", num (insertId result));
                               ("title", title);
                               ("description", description);
                               ("video_url", videoUrl);
                               ("thumbnail", thumbnail);
                               ("duration", js_or duration (num 0));
                               ("category_id", category_id);
                               ("status", js_or status (JString "published"))])))
      "Failed to create video".

(** The columns and parameters that [PUT /videos/:id] adds to its UPDATE for
    the uploaded files, or for the [video_url] of the body when the request
    has no [req.files]. *)
Definition video_sources (files : Files) (video_url : JsVal)
  : Res (list string * list JsVal) :=
  match files with
  | Some fs =>
      v <- uploaded fs "video" "/uploads/videos/" ;;
      t <- uploaded fs "thumbnail" "/uploads/images/" ;;
      ok ((match v with Some _ => ["video_url"] | None => [] end
           ++ match t with Some _ => ["thumbnail"] | None => [] end)%list,
          (match v with Some u => [u] | None => [] end
           ++ match t with Some u => [u] | None => [] end)%list)
  | None =>
      if truthy video_url then ok (["video_url"], [video_url]) else ok ([], [])
  end.

Definition put_video (files : Files) : Handler :=
  fun now db req =>
    let title := field "title" (body req) in
    let description := field "description" (body req) in
    let video_url := field "video_url" (body req) in
    let duration := field "duration" (body req) in
    let category_id := field "category_id" (body req) in
    let status := field "status" (body req) in
    let id := field "id" (params req) in
    attempt db
      (' (more_cols, more) <- video_sources files video_url ;;
       ' (db', _) <-
          exec_update now db "videos"
            (["title"; "description"; "duration"; "category_id"; "status"]
             ++ more_cols)%list
            "id"
            ([title; description; js_or duration (num 0);
              js_or category_id JNull; js_or status (JString "published")]
             ++ more ++ [id])%list ;;
       ok (db', json (JObject [("id", id); ("title", title);
                               ("description", description);
                               ("duration", duration);
                               ("category_id", category_id);
                               ("status", status)])))
      "Failed to update video".

(** *** The router *)

Inductive AdminRoute : Type :=
| ACheck                 (* GET /check *)
| AInit                  (* POST /init *)
| ALogin                 (* POST /login *)
| AResetPassword         (* POST /reset-password *)
| AStats                 (* GET /stats *)
| ACategories            (* GET /categories *)
| APostCategory          (* POST /categories *)
| APutCategory           (* PUT /categories/:id *)
| ADeleteCategory        (* DELETE /categories/:id *)
| AMaterials             (* GET /materials *)
| APostMaterial          (* POST /materials *)
| APutMaterial           (* PUT /materials/:id *)
| ADeleteMaterial        (* DELETE /materials/:id *)
| AVideos                (* GET /videos *)
| APostVideo             (* POST /videos *)
| APutVideo              (* PUT /videos/:id *)
| ADeleteVideo.          (* DELETE /videos/:id *)

(** Each route as it is registered: with [authenticateToken] in front of
    its handler, or without. *)
Definition admin_serve (files : Files) (r : AdminRoute) : Handler :=
  match r with
  | ACheck => check
  | AInit => init env
  | ALogin => login env
  | AResetPassword => reset_password
  | AStats => gated env stats
  | ACategories => gated env admin_categories
  | APostCategory => gated env post_category
  | APutCategory => gated env put_category
  | ADeleteCategory => gated env delete_category
  | AMaterials => gated env admin_materials
  | APostMaterial => gated env post_material
  | APutMaterial => gated env put_material
  | ADeleteMaterial => gated env delete_material
  | AVideos => gated env admin_videos
  | APostVideo => gated env (post_video files)
  | APutVideo => gated env (put_video files)
  | ADeleteVideo => gated env delete_video
  end.

End Content.

End Admin.

(* ================================================================== *)
(** * The upload middleware of admin.js *)
(* ================================================================== *)

Module Upload.
Import Js Http.

(** [destination] of [multer.diskStorage]: the directory handed to [cb]. *)
Definition destination (f : Incoming) : string :=
  if (in_fieldname f =? "image")%string || (in_fieldname f =? "thumbnail")%string
  then "uploads/images"
  else if (in_fieldname f =? "video")%string then "uploads/videos"
  else "uploads".

(** [s.startsWith(p)] *)
Definition startsWith (s p : string) : bool := String.prefix p s.

(** [fileFilter]: [inl msg] is [cb(new Error(msg))], [inr b] is
    [cb(null, b)]. *)
Definition fileFilter (f : Incoming) : string + bool :=
  if (in_fieldname f =? "video")%string then
    if startsWith (in_mimetype f) "video/" then inr true
    else inl "Only video files are allowed for video uploads"
  else if (in_fieldname f =? "image")%string
          || (in_fieldname f =? "thumbnail")%string then
    if startsWith (in_mimetype f) "image/" then inr true
    else inl "Only image files are allowed for image uploads"
  else inr true.

End Upload.

(* ================================================================== *)
(** * reset_admin.js: the password reset script *)
(* ================================================================== *)

Module Script.
Import Js Sql Http Admin.

Section Run.

Context {libraries : Libraries}.

(** [SELECT password FROM admins WHERE email = ?] *)
Definition password_by_email : Select :=
  {| s_table := "admins"; s_alias := None; s_columns := Some ["password"];
     s_join_categories := false; s_content_type := None;
     s_where := [PEqParam (ucol "email")];
     s_order_created_desc := false; s_limit := None; s_offset := false |}.

(** The script on a reachable server: the database it leaves and the lines
    it writes to the console. *)
Definition resetAdminPassword (now : Z) (db : Db) : Db * list string :=
  let newPassword := "admin123" in
  let email := "admin@breastcancer.com" in
  let hashedPassword := bcrypt_hash newPassword 12 in
  let hashing := ["Hashing password..."; "New password hash: " ++ hashedPassword] in
  match exec_update now db "admins" ["password"] "email"
          [JString hashedPassword; JString email] with
  | inl e => (db, (hashing ++ [("Error: " ++ message e)%string])%list)
  | inr (db', result) =>
      if 0 <? affectedRows result then
        let updated :=
          (hashing ++ ["✅ Password updated successfully!";
                       ("Email: " ++ email)%string;
                       ("New Password: " ++ newPassword)%string])%list in
        match exec_select db' password_by_email [JString email] with
        | inl e => (db', (updated ++ [("Error: " ++ message e)%string])%list)
        | inr [] => (db', updated)
        | inr (first :: _) =>
            let isValid :=
              bcrypt_compare newPassword
                (to_text (prop "password" (js_of_row first))) in
            (db', (updated
                   ++ [("Password verification test: "
                        ++ (if isValid then "✅ PASSED" else "❌ FAILED"))%string])%list)
        end
      else (db', (hashing ++ ["❌ Admin not found"])%list)
  end.

End Run.

End Script.

(* ================================================================== *)
(** * The properties the claims are about *)
(* ================================================================== *)

Module Spec.
Import Js Sql Schema Http Api Admin.

(** ** Paginated listings *)

(** The count query is the row query without the alias, the join, the
    order and the window; the parameters of the row query are those of the
    count query followed by LIMIT and OFFSET. *)
Record mirrored (table : string) (l : Listing) (limit : JsVal) (offset : JsNum)
  : Prop := {
  m_table : s_table (l_query l) = table;
  m_count_table : c_table (l_countQuery l) = table;
  m_as : c_as (l_countQuery l) = "total";
  m_where : c_where (l_countQuery l) = map unqualified (s_where (l_query l));
  m_params : l_params l
             = (l_countParams l ++ [JNumber (parseInt limit); JNumber offset])%list;
  m_star : s_columns (l_query l) = None;
  m_join : s_join_categories (l_query l) = true;
  m_tag : s_content_type (l_query l) = None
}.

(** What a 200 answer of a paginated listing says, for the listing [l] of
    rows of [table]:
    - the row query and the count query bind to the same conditions
      [conds], the row query keeping [parseInt(limit)] and
      [(page - 1) * limit] for LIMIT and OFFSET;
    - [total] is the number of rows of the table that satisfy [conds];
    - [pages] is [Math.ceil(total / limit)], which for a positive integer
      limit [L] is the least [n] with [n * L >= total];
    - every row of [data] is a row of the table that satisfies [conds],
      with its category name. *)
Definition listing_consistent (db : Db) (table : string) (l : Listing)
    (page limit : JsVal) (resp : Response) : Prop :=
  exists t conds,
    get_table table db = Some t
    /\ bind_where (s_alias (l_query l)) t (s_where (l_query l)) (l_params l)
       = inr (conds, [JNumber (parseInt limit); JNumber (offset_of page limit)])
    /\ bind_where None t (c_where (l_countQuery l)) (l_countParams l)
       = inr (conds, [])
    /\ let total := Z.of_nat (List.length (filter (where_holds conds) (t_rows t))) in
       prop "pagination" (payload resp)
       = JObject [("total", num total);
                  ("page", JNumber (parseInt page));
                  ("limit", JNumber (parseInt limit));
                  ("pages", JNumber (Math_ceil (js_div (JInt total) (ToNumber limit))))]
       /\ (forall L, 0 < L -> ToNumber limit = JInt L ->
           exists n, Math_ceil (js_div (JInt total) (ToNumber limit)) = JInt n
                     /\ (n - 1) * L < total <= n * L)
       /\ exists rows,
            prop "data" (payload resp) = js_of_rows rows
            /\ Forall (fun row => exists r name,
                         In r (t_rows t) /\ where_holds conds r = true
                         /\ row = (r ++ [("category_name", name)])%list) rows.

(** ** Published rows *)

(** [status = 'published'], as the store compares it. *)
Definition published (r : Row) : bool :=
  sql_eq (row_get "status" r) (VStr "published").

(** The materials and videos a response body carries: the [data] array of
    a listing, the [data.materials] and [data.videos] arrays of the search
    and of the latest content, the [data] object of a detail. *)
Definition content_rows (body : JsVal) : list JsVal :=
  match prop "data" body with
  | JArray xs => xs
  | JObject fs =>
      match prop "materials" (JObject fs), prop "videos" (JObject fs) with
      | JArray ms, JArray vs => (ms ++ vs)%list
      | _, _ => [JObject fs]
      end
  | _ => []
  end.

(** The object is a published row of [materials] or [videos], with the
    columns the query adds, and says so in its [status]. *)
Definition published_content (db : Db) (o : JsVal) : Prop :=
  (exists table t r extra,
      (table = "materials" \/ table = "videos")
      /\ get_table table db = Some t
      /\ In r (t_rows t)
      /\ published r = true
      /\ o = js_of_row (r ++ extra)%list)
  /\ exists s, prop "status" o = JString s /\ str_ceq s "published" = true.

Definition only_published (db : Db) (resp : Response) : Prop :=
  Forall (published_content db) (content_rows (payload resp)).

Definition content_table (table : string) : Prop :=
  table = "materials" \/ table = "videos".

(** [id = ?] for the id of the request, as the store compares it. *)
Definition id_is (s : string) (r : Row) : bool :=
  sql_eq_param (row_get "id" r) (JString s).

(** No published row of the table has the requested id. *)
Definition no_published_match (db : Db) (table s : string) : Prop :=
  forall t r, get_table table db = Some t -> In r (t_rows t) ->
              id_is s r = true -> published r = false.


(** ** Search *)

Definition wildcard (c : ascii) : bool :=
  Ascii.eqb c "%" || Ascii.eqb c "_" || Ascii.eqb c "\".

Fixpoint wildcard_free (q : string) : bool :=
  match q with
  | EmptyString => true
  | String c q' => negb (wildcard c) && wildcard_free q'
  end.

(** [q] is at the start of [t], letter case apart. *)
Fixpoint prefix_ci (q t : string) : bool :=
  match q, t with
  | EmptyString, _ => true
  | String c q', String d t' => ceq c d && prefix_ci q' t'
  | String _ _, EmptyString => false
  end.

(** [q] occurs in [t], letter case apart. *)
Definition contains_ci (q t : string) : bool := any_suffix (prefix_ci q) t.

Definition column_contains (q c : string) (r : Row) : bool :=
  match row_get c r with
  | VStr t => contains_ci q t
  | _ => false
  end.

Definition column_like (pat c : string) (r : Row) : bool :=
  sql_like_param (row_get c r) (JString pat).

(** A published material whose title, content or author contains [q]; a
    published video whose title or description does. *)
Definition material_contains (q : string) (r : Row) : bool :=
  published r && (column_contains q "title" r || column_contains q "content" r
                  || column_contains q "author" r).

Definition video_contains (q : string) (r : Row) : bool :=
  published r && (column_contains q "title" r || column_contains q "description" r).

Definition nothing_contains (db : Db) (q : string) : Prop :=
  (forall t r, get_table "materials" db = Some t -> In r (t_rows t) ->
               material_contains q r = false)
  /\ (forall t r, get_table "videos" db = Some t -> In r (t_rows t) ->
                  video_contains q r = false).

(** The answer of a search that found nothing. *)
Definition empty_search (q page limit : JsVal) : Response :=
  json (JObject
          [("success", JBool true);
           ("data", JObject [("materials", JArray []); ("videos", JArray [])]);
           ("query", q);
           ("pagination", JObject [("page", JNumber (parseInt page));
                                   ("limit", JNumber (parseInt limit))])]).

(** LIMIT and OFFSET are values the store takes. *)
Definition window_ok (page limit : JsVal) : Prop :=
  exists l o, parseInt limit = JInt l /\ 0 <= l
              /\ offset_of page limit = JInt o /\ 0 <= o.

(** ** Material update *)

(** What the update stores in a row it matches, given the old row. *)
Definition stored_by_update (req : Request) (old new : Row) : Prop :=
  (exists s, field "title" (body req) = JString s /\ row_get "title" new = VStr s)
  /\ (exists s, field "content" (body req) = JString s
                /\ row_get "content" new = VStr s)
  /\ row_get "author" new
     = (match field "author" (body req) with
        | JString s => if (s =? "")%string then VNull else VStr s
        | _ => VNull
        end)
  /\ (match field "category_id" (body req) with
      | JString s =>
          if (s =? "")%string then row_get "category_id" new = VNull
          else exists n, StringToNumber s = JInt n
                         /\ row_get "category_id" new = VInt n
      | _ => row_get "category_id" new = VNull
      end)
  /\ (exists m,
        find (str_ceq (match field "status" (body req) with
                       | JString s => if (s =? "")%string then "published" else s
                       | _ => "published"
                       end)) ["published"; "draft"] = Some m
        /\ row_get "status" new = VStr m)
  /\ row_get "image" new
     = (match file req with
        | Some f => VStr ("/uploads/images/" ++ filename f)
        | None => row_get "image" old
        end)
  /\ row_get "id" new = row_get "id" old
  /\ row_get "created_at" new = row_get "created_at" old.

(** ** The token gate and the login *)


(** [email = ?], as the store compares it. *)
Definition email_matches (email : JsVal) (r : Row) : bool :=
  sql_eq_param (row_get "email" r) email.

(** The claims the token of a login carries. *)
Definition token_claims (admin : Row) : JsVal :=
  JObject [("id", prop "id" (js_of_row admin));
           ("email", prop "email" (js_of_row admin))].

Definition login_success (token : string) (admin : Row) : Response :=
  json (JObject
          [("success", JBool true);
           ("token", JString token);
           ("admin", JObject [("id", prop "id" (js_of_row admin));
                              ("email", prop "email" (js_of_row admin));
                              ("name", prop "name" (js_of_row admin))])]).

(** ** Initialisation *)

Definition already_exists (count : Z) : Response :=
  json (JObject [("message", JString "Admin already exists");
                 ("adminExists", JBool true);
                 ("count", num count)]).

Definition default_admin_row (id now : Z) (email hash : string) : Row :=
  [("id", VInt id); ("email", VStr email); ("password", VStr hash);
   ("name", VStr "Administrator"); ("created_at", VInt now);
   ("updated_at", VInt now)].

Definition admin_created (id : Z) (email password : string) : Response :=
  json (JObject [("message", JString "Default admin created successfully");
                 ("adminId", num id);
                 ("email", JString email);
                 ("tempPassword", JString password)]).

(** ** Order and windows *)

(** Times from the newest to the oldest, as ORDER BY created_at DESC leaves
    them: no time is followed by a later one, and rows without a time come
    last. *)
Definition newest_first (ts : list SqlVal) : Prop :=
  ForallOrdPairs (fun a b => later_or_equal a b = true) ts.

Definition times (rows : list Row) : list SqlVal := map (row_get "created_at") rows.

(** The row query of a listing without its LIMIT and OFFSET. *)
Definition unwindowed (s : Select) : Select :=
  {| s_table := s_table s; s_alias := s_alias s; s_columns := s_columns s;
     s_join_categories := s_join_categories s;
     s_content_type := s_content_type s;
     s_where := s_where s;
     s_order_created_desc := s_order_created_desc s;
     s_limit := None; s_offset := false |}.

(** No two rows have the same id (what PRIMARY KEY promises). *)
Definition distinct_ids (rows : list Row) : Prop :=
  ForallOrdPairs (fun a b => sql_eq (row_get "id" a) (row_get "id" b) = false) rows.


(** ** Search results *)


(** ** The schema *)

(** The table a CREATE TABLE statement makes. *)
Definition empty_table (ct : CreateTable) : Table :=
  {| t_columns := ct_columns ct; t_fks := ct_fks ct; t_rows := []; t_next_id := 1 |}.

(** ** The authors aggregate *)

Definition author_of (g : Group) : SqlVal := fst (fst g).
Definition count_of (g : Group) : nat := snd (fst g).

(** The row of the answer for a group. *)
Definition author_row (g : Group) : Row :=
  [("author", author_of g);
   ("material_count", VInt (Z.of_nat (count_of g)));
   ("latest_material", snd g)].

(** [author IS NOT NULL AND author != '' AND status = 'published'], as the
    store evaluates it. *)
Definition with_author (r : Row) : bool :=
  where_holds [CNotNull "author"; CNeLit "author" ""; CEqLit "status" "published"] r.

(** A published material of the author [a]. *)
Definition credited_to (a : SqlVal) (r : Row) : bool :=
  with_author r && same_group a (row_get "author" r).

(** What GROUP BY does to the groups when a row comes: the group of its
    author counts one more. *)
Definition bump (k m : SqlVal) (g : Group) : Group :=
  if same_group (author_of g) k
  then (author_of g, S (count_of g), sql_max (snd g) m)
  else g.

(** No two groups have the same key. *)
Definition other_groups (gs : list Group) : Prop :=
  ForallOrdPairs (fun g h => same_group (author_of g) (author_of h) = false) gs.

(** The number of rows with [k] in column [key]. *)
Definition tally (key : string) (rows : list Row) (k : SqlVal) : nat :=
  List.length (filter (fun r => same_group k (row_get key r)) rows).

(** ** Primary keys *)

(** Every row has an id and no two rows have the same (what
    [id INT AUTO_INCREMENT PRIMARY KEY] promises). *)
Definition keyed (rows : list Row) : Prop :=
  distinct_ids rows /\ Forall (fun r => is_null (row_get "id" r) = false) rows.

(** The row of the public category list for [c]: the category with the
    numbers of its published materials and videos. *)
Definition category_with_counts (materials videos : list Row) (c : Row) : Row :=
  (c ++ [("material_count",
          VInt (Z.of_nat (List.length (filter (published_in c) materials))));
         ("video_count",
          VInt (Z.of_nat (List.length (filter (published_in c) videos))))])%list.

(** Values that are pairwise different for the store and not NULL. *)
Definition separate (us : list SqlVal) : Prop :=
  ForallOrdPairs (fun a b => sql_eq a b = false) us
  /\ Forall (fun a => is_null a = false) us.

(** ** The admin router *)

(** The routes registered without [authenticateToken]. *)
Definition open_route (r : AdminRoute) : bool :=
  match r with
  | ACheck | AInit | ALogin | AResetPassword => true
  | _ => false
  end.

(** The same request without its headers and without [req.user]. *)
Definition anonymous (req : Request) : Request :=
  {| headers := []; query := query req; params := params req;
     body := body req; file := file req; user := JUndefined |}.

(** ** Commands *)

(** The SET list names no UNIQUE column. *)
Definition sets_no_unique (t : Table) (set_cols : list string) : bool :=
  forallb (fun d => negb (col_unique d)
                    || negb (existsb (String.eqb (col_name d)) set_cols))
          (t_columns t).

(** The admin row after a password reset at time [now]. *)
Definition with_password (now : Z) (t : Table) (hash : string) (r : Row) : Row :=
  touch now t r (row_set "password" (VStr hash) r).

(** ** The admin lists *)

(** [c.name] of the category that [r] refers to, NULL when there is none. *)
Definition category_name_of (cats : list Row) (r : Row) : SqlVal :=
  match filter (fun c => sql_eq (row_get "category_id" r) (row_get "id" c)) cats with
  | [] => VNull
  | c :: _ => row_get "name" c
  end.

Definition with_category_name (cats : list Row) (r : Row) : Row :=
  (r ++ [("category_name", category_name_of cats r)])%list.

(** ** Auto-increment *)

(** The ids of the table are integers below the next AUTO_INCREMENT
    value. *)
Definition ids_below_next (t : Table) : Prop :=
  Forall (fun r => exists z, row_get "id" r = VInt z /\ z < t_next_id t) (t_rows t).

(** The table after an INSERT of [row]. *)
Definition with_new_row (t : Table) (row : Row) : Table :=
  {| t_columns := t_columns t; t_fks := t_fks t;
     t_rows := (t_rows t ++ [row])%list; t_next_id := t_next_id t + 1 |}.

(** ** Categories *)

Definition new_category (id now : Z) (name : string) (description : SqlVal) : Row :=
  [("id", VInt id); ("name", VStr name); ("description", description);
   ("created_at", VInt now); ("updated_at", VInt now)].

(** The category row after [PUT /categories/:id]. *)
Definition renamed (now : Z) (t : Table) (name description : string) (r : Row) : Row :=
  touch now t r (row_set "description" (VStr description) (row_set "name" (VStr name) r)).

Definition found_category (r : Row) : Response :=
  json (JObject [("success", JBool true); ("data", js_of_row r)]).

(** ** Materials *)

Definition new_material (id now : Z) (title content : string)
    (author category image status : SqlVal) : Row :=
  [("id", VInt id); ("title", VStr title); ("content", VStr content);
   ("author", author); ("category_id", category); ("image", image);
   ("status", status); ("created_at", VInt now); ("updated_at", VInt now)].

(** [req.file ? `/uploads/images/${req.file.filename}` : null] *)
Definition image_of (req : Request) : JsVal :=
  match file req with
  | Some f => JString ("/uploads/images/" ++ filename f)
  | None => JNull
  end.

(** The store takes the optional values of a new material: the author, the
    category, the image path and the status, each as its column stores it. *)
Definition material_values (req : Request) (author category image status : SqlVal)
  : Prop :=
  coerce (TVarchar 255) (js_or (field "author" (body req)) JNull) = inr author
  /\ coerce TInt (js_or (field "category_id" (body req)) JNull) = inr category
  /\ coerce (TVarchar 255) (image_of req) = inr image
  /\ coerce (TEnum ["published"; "draft"])
       (js_or (field "status" (body req)) (JString "published")) = inr status.

(** The category that [v] refers to exists, or [v] is NULL. *)
Definition category_exists (cats : list Row) (v : SqlVal) : bool :=
  is_null v || existsb (fun c => sql_eq (row_get "id" c) v) cats.

Definition found_content (r : Row) : Response :=
  json (JObject [("success", JBool true); ("data", js_of_row r)]).

(** ** ON DELETE SET NULL *)

(** [r] refers to one of the deleted categories. *)
Definition refers_to (gone : list Row) (r : Row) : bool :=
  existsb (fun g => sql_eq (row_get "id" g) (row_get "category_id" r)) gone.

(** A row of materials or videos after some categories are deleted. *)
Definition released (gone : list Row) (r : Row) : Row :=
  if refers_to gone r then row_set "category_id" VNull r else r.

(** ** Videos *)

(** The first file of an upload field, if the request has one. *)
Definition first_file (files : Files) (name : string) : option File :=
  match files with
  | Some fs =>
      match assoc name fs with
      | Some (f :: _) => Some f
      | _ => None
      end
  | None => None
  end.

(** [video_url] of a video row after [PUT /videos/:id]: the path of the
    uploaded video; without an upload, the [video_url] of the body if the
    request has no [req.files] at all and the body names one, and else the
    value the row had. *)
Definition video_url_after (files : Files) (req : Request) (old new : Row) : Prop :=
  match first_file files "video" with
  | Some f => row_get "video_url" new = VStr ("/uploads/videos/" ++ filename f)
  | None =>
      match files, field "video_url" (body req) with
      | None, JString u =>
          if (u =? "")%string
          then row_get "video_url" new = row_get "video_url" old
          else row_get "video_url" new = VStr u
      | _, _ => row_get "video_url" new = row_get "video_url" old
      end
  end.

(** [thumbnail] after [PUT /videos/:id]: the path of the uploaded
    thumbnail, and else the value the row had. *)
Definition thumbnail_after (files : Files) (old new : Row) : Prop :=
  match first_file files "thumbnail" with
  | Some f => row_get "thumbnail" new = VStr ("/uploads/images/" ++ filename f)
  | None => row_get "thumbnail" new = row_get "thumbnail" old
  end.

(** [videoUrl] and [thumbnail] of [POST /videos]. *)
Definition video_url_given (files : Files) (req : Request) : JsVal :=
  match first_file files "video" with
  | Some f => JString ("/uploads/videos/" ++ filename f)
  | None => field "video_url" (body req)
  end.

Definition thumbnail_given (files : Files) : JsVal :=
  match first_file files "thumbnail" with
  | Some f => JString ("/uploads/images/" ++ filename f)
  | None => JNull
  end.

(** No upload field of the request is there without a file. *)
Definition files_ok (files : Files) : Prop :=
  forall fs name, files = Some fs -> assoc name fs <> Some [].

Definition new_video (id now : Z) (title description : string)
    (video_url thumbnail duration category status : SqlVal) : Row :=
  [("id", VInt id); ("title", VStr title); ("description", VStr description);
   ("video_url", video_url); ("thumbnail", thumbnail); ("duration", duration);
   ("category_id", category); ("status", status);
   ("created_at", VInt now); ("updated_at", VInt now)].

(** The store takes the other values of a new video, each as its column
    stores it. *)
Definition video_values (files : Files) (req : Request)
    (video_url thumbnail duration category status : SqlVal) : Prop :=
  coerce (TVarchar 500) (video_url_given files req) = inr video_url
  /\ coerce (TVarchar 255) (thumbnail_given files) = inr thumbnail
  /\ coerce TInt (js_or (field "duration" (body req)) (num 0)) = inr duration
  /\ coerce TInt (js_or (field "category_id" (body req)) JNull) = inr category
  /\ coerce (TEnum ["published"; "draft"])
       (js_or (field "status" (body req)) (JString "published")) = inr status.


(** ** What the admin requests keep *)

(** [id INT AUTO_INCREMENT PRIMARY KEY]: the ids of the table are integers
    below the next AUTO_INCREMENT value, and no two rows have the same. *)
Definition primary_key (t : Table) : Prop :=
  ids_below_next t /\ distinct_ids (t_rows t).

(** Every row of [t] passes the FOREIGN KEY checks of [t] in [db]. *)
Definition references_hold (db : Db) (t : Table) : Prop :=
  Forall (fun r => parent_ok db t r = true) (t_rows t).

Definition content_tables : list string :=
  ["admins"; "categories"; "materials"; "videos"].

(** The four tables are there with their columns and foreign keys, their
    ids are primary keys and their references hold. *)
Definition consistent (db : Db) : Prop :=
  deployed db
  /\ forall name t, In name content_tables -> get_table name db = Some t ->
       primary_key t /\ references_hold db t.

(** Every id of a category of [db] is still the id of a category of
    [db']. *)
Definition categories_kept (db db' : Db) : Prop :=
  forall tc v,
    get_table "categories" db = Some tc ->
    existsb (fun pr => sql_eq (row_get "id" pr) v) (t_rows tc) = true ->
    exists tc', get_table "categories" db' = Some tc'
                /\ existsb (fun pr => sql_eq (row_get "id" pr) v) (t_rows tc') = true.

End Spec.

(* ================================================================== *)
(** * Example data *)
(* ================================================================== *)

Module Examples.
Import Js Sql Schema Http Api Admin Spec.

Definition table_with (cols : list Column) (fks : list ForeignKey)
    (rows : list Row) (next : Z) : Table :=
  {| t_columns := cols; t_fks := fks; t_rows := rows; t_next_id := next |}.

Definition admin_row (id : Z) (email hash : string) : Row :=
  [("id", VInt id); ("email", VStr email); ("password", VStr hash);
   ("name", VStr "Administrator"); ("created_at", VInt 0); ("updated_at", VInt 0)].

Definition category_row (id : Z) (name : string) : Row :=
  [("id", VInt id); ("name", VStr name); ("description", VNull);
   ("created_at", VInt 0); ("updated_at", VInt 0)].

Definition material_row (id : Z) (title author : string) (category : SqlVal)
    (status : string) (created : Z) : Row :=
  [("id", VInt id); ("title", VStr title); ("content", VStr "text");
   ("author", VStr author); ("category_id", category);
   ("image", VStr "/uploads/images/old.png"); ("status", VStr status);
   ("created_at", VInt created); ("updated_at", VInt created)].

Definition video_row (id : Z) (title : string) (status : string) (created : Z)
  : Row :=
  [("id", VInt id); ("title", VStr title); ("description", VStr "clip");
   ("video_url", VStr "/uploads/videos/v.mp4"); ("thumbnail", VNull);
   ("duration", VInt 60); ("category_id", VInt 1); ("status", VStr status);
   ("created_at", VInt created); ("updated_at", VInt created)].

(** The four tables with the columns the handlers expect. *)
Definition database (admins categories materials videos : list Row) : Db :=
  [("admins", table_with (ct_columns admins_ddl) [] admins 100);
   ("categories", table_with (ct_columns categories_ddl) [] categories 100);
   ("materials",
    table_with materials_columns_with_author [category_fk] materials 100);
   ("videos", table_with (ct_columns videos_ddl) [category_fk] videos 100)].

Definition portal_admins : Table :=
  table_with (ct_columns admins_ddl) []
    [admin_row 1 "a@x.org" "hash:secret"; admin_row 2 "b@x.org" "hash:other"]
    100.

(** Two admins, one category, two published materials and a draft, a
    published video and a draft. *)
Definition portal : Db :=
  database
    [admin_row 1 "a@x.org" "hash:secret"; admin_row 2 "b@x.org" "hash:other"]
    [category_row 1 "Basics"]
    [material_row 1 "abc" "Ann" (VInt 1) "published" 10;
     material_row 2 "def" "Bob" VNull "draft" 20;
     material_row 3 "ghi" "Ann" (VInt 1) "published" 30]
    [video_row 1 "intro" "published" 15; video_row 2 "wip" "draft" 25].

(** Twelve published materials and a draft. *)
Definition twelve : Db :=
  database [] [category_row 1 "Basics"]
    (material_row 13 "draft" "Ann" VNull "draft" 130
     :: map (fun i => material_row i "t" "Ann" (VInt 1) "published" (10 * i))
            [1; 2; 3; 4; 5; 6; 7; 8; 9; 10; 11; 12])
    [].

Definition request (query params body : list (string * string)) : Request :=
  {| headers := []; Http.query := query; Http.params := params;
     Http.body := body; file := None; user := JUndefined |}.

Definition with_header (name value : string) (req : Request) : Request :=
  {| headers := (name, value) :: headers req; Http.query := Http.query req;
     Http.params := Http.params req; Http.body := Http.body req;
     file := file req; user := user req |}.

Definition with_file (name : string) (req : Request) : Request :=
  {| headers := headers req; Http.query := Http.query req;
     Http.params := Http.params req; Http.body := Http.body req;
     file := Some {| fieldname := "image"; filename := name |};
     user := user req |}.

(** GET /materials?page=2&limit=5 *)
Definition second_page : Request := request [("page", "2"); ("limit", "5")] [] [].


Definition credentials (email password : string) : Request :=
  request [] [] [("email", email); ("password", password)].

(** PUT /materials/2 with a title and a content only. *)
Definition retitle : Request :=
  request [] [("id", "2")] [("title", "New title"); ("content", "New text")].

Definition materials_of (db : Db) : list Row :=
  match get_table "materials" db with
  | Some t => t_rows t
  | None => []
  end.

Definition with_category (name : string) (r : Row) : Row :=
  (r ++ [("category_name", VStr name)])%list.

Definition found (name tag : string) (r : Row) : Row :=
  (r ++ [("category_name", VStr name); ("content_type", VStr tag)])%list.

(** Stand-ins for bcrypt and jsonwebtoken: the hash is the password behind a
    prefix, a token is signed whenever there is a secret, the only token
    that verifies is [good]. *)
Definition toy_libraries : Libraries :=
  {| bcrypt_hash := fun pw _ => "hash:" ++ pw;
     bcrypt_compare := fun pw h => (h =? "hash:" ++ pw)%string;
     jwt_sign := fun claims secret expiresIn =>
       match secret with
       | JString k =>
           Some ("signed:" ++ to_text (prop "email" claims) ++ ":" ++ expiresIn)
       | _ => None
       end;
     jwt_verify := fun token secret =>
       if (token =? "good")%string then Some (JObject [("id", num 1)]) else None;
     message := fun _ => "error";
     stack := fun _ => "trace" |}.

Definition toy_env : Env :=
  {| JWT_SECRET := JString "key"; ADMIN_EMAIL := JUndefined;
     ADMIN_PASSWORD := JUndefined; NODE_ENV := JUndefined |}.

End Examples.

(* ================================================================== *)
(** * Facts about the store *)
(* ================================================================== *)

Module StoreFacts.
Import Js Sql Schema Http Api Admin Spec.
#[local] Open Scope list_scope.

(** ** The error monad *)

Lemma bind_inr {A B : Type} (m : Res A) (k : A -> Res B) (b : B) :
  bind m k = inr b -> exists a, m = inr a /\ k a = inr b.
Proof. destruct m as [e | a]; simpl; [discriminate | eauto]. Qed.

Lemma guard_inr (b : bool) (e : Thrown) (u : unit) : guard b e = inr u -> b = true.
Proof. destruct b; cbv; [reflexivity | discriminate]. Qed.

Lemma need_inr {A : Type} (o : option A) (e : Thrown) (a : A) :
  need o e = inr a -> o = Some a.
Proof. unfold need; destruct o; congruence. Qed.

Lemma bind_inl {A B : Type} (m : Res A) (k : A -> Res B) :
  (exists e, m = inl e) -> exists e, bind m k = inl e.
Proof. intros (e & ->). simpl. eauto. Qed.

Ltac inv_res_keep H :=
  try (repeat
    (cbv beta in H;
     match type of H with
     | bind _ _ = inr _ =>
         let a := fresh "a" in let E := fresh "E" in
         apply bind_inr in H; destruct H as (a & E & H)
     | (let (_, _) := ?x in _) = inr _ => destruct x
     | (match ?x with pair _ _ => _ end) = inr _ => destruct x
     end));
  try (injection H; clear H; intros).

Ltac inv_res H := inv_res_keep H; subst.

Lemma no_more_inr ps u : no_more ps = inr u -> ps = [].
Proof. destruct ps; simpl; congruence. Qed.

(** ** [Math.ceil] of a quotient *)

Lemma ceil_bounds (T L : Z) :
  0 < L -> (- ((- T) / L) - 1) * L < T <= - ((- T) / L) * L.
Proof.
  intros HL.
  pose proof (Z.div_mod (- T) L ltac:(lia)) as E.
  pose proof (Z.mod_pos_bound (- T) L HL) as B.
  nia.
Qed.

(** ** Binding a WHERE clause *)

Lemma resolve_unqualified alias t c n :
  resolve alias t c = inr n -> resolve None t (unqualified_ref c) = inr n.
Proof.
  unfold resolve. intros H. inv_res H.
  apply guard_inr in E0. simpl. rewrite E0. reflexivity.
Qed.

Lemma bind_any_like_unqualified alias t cs : forall ps out,
  bind_any_like alias t cs ps = inr out ->
  bind_any_like None t (map unqualified_ref cs) ps = inr out.
Proof.
  induction cs as [| c cs IH]; intros ps out H; simpl in *; [exact H |].
  inv_res H.
  rewrite (resolve_unqualified _ _ _ _ E). simpl. rewrite E0. simpl.
  rewrite (IH _ _ E1). reflexivity.
Qed.

Lemma bind_pred_unqualified alias t q ps out :
  bind_pred alias t q ps = inr out ->
  bind_pred None t (unqualified q) ps = inr out.
Proof.
  destruct q; simpl; intros H; inv_res H;
    try (rewrite (resolve_unqualified _ _ _ _ E); simpl; try rewrite E0; reflexivity).
  rewrite (bind_any_like_unqualified _ _ _ _ _ E). reflexivity.
Qed.

Lemma bind_where_unqualified alias t w : forall ps out,
  bind_where alias t w ps = inr out ->
  bind_where None t (map unqualified w) ps = inr out.
Proof.
  induction w as [| q w IH]; intros ps out H; simpl in *; [exact H |].
  inv_res H.
  rewrite (bind_pred_unqualified _ _ _ _ _ E). simpl.
  rewrite (IH _ _ E0). reflexivity.
Qed.

Lemma take_param_app ps extra p rest :
  take_param ps = inr (p, rest) -> take_param (ps ++ extra) = inr (p, (rest ++ extra)%list).
Proof. destruct ps; simpl; intros H; [discriminate | injection H as -> ->; reflexivity]. Qed.

Lemma bind_any_like_app alias t cs extra : forall ps cps rest,
  bind_any_like alias t cs ps = inr (cps, rest) ->
  bind_any_like alias t cs (ps ++ extra) = inr (cps, (rest ++ extra)%list).
Proof.
  induction cs as [| c cs IH]; intros ps cps rest H; simpl in *.
  - injection H as <- <-. reflexivity.
  - inv_res H.
    rewrite E. simpl. rewrite (take_param_app _ extra _ _ E0). simpl.
    rewrite (IH _ _ _ E1). reflexivity.
Qed.

Lemma bind_pred_app alias t q extra ps c rest :
  bind_pred alias t q ps = inr (c, rest) ->
  bind_pred alias t q (ps ++ extra) = inr (c, (rest ++ extra)%list).
Proof.
  destruct q; simpl; intros H; inv_res H;
    try (rewrite E; simpl; try rewrite (take_param_app _ extra _ _ E0); reflexivity).
  rewrite (bind_any_like_app _ _ _ extra _ _ _ E). reflexivity.
Qed.

Lemma bind_where_app alias t w extra : forall ps cs rest,
  bind_where alias t w ps = inr (cs, rest) ->
  bind_where alias t w (ps ++ extra) = inr (cs, (rest ++ extra)%list).
Proof.
  induction w as [| q w IH]; intros ps cs rest H; simpl in *.
  - injection H as <- <-. reflexivity.
  - inv_res H.
    rewrite (bind_pred_app _ _ _ extra _ _ _ E). simpl.
    rewrite (IH _ _ _ E0). reflexivity.
Qed.

Lemma resolve_column alias t c n : resolve alias t c = inr n -> n = ref_column c.
Proof. unfold resolve. intros H. inv_res H. reflexivity. Qed.

Lemma bind_where_literal alias t c lit w : forall ps conds rest,
  bind_where alias t w ps = inr (conds, rest) ->
  In (PEqLit c lit) w -> In (CEqLit (ref_column c) lit) conds.
Proof.
  induction w as [| q w IH]; intros ps conds rest H Hin; [destruct Hin |].
  simpl in H. inv_res H. destruct Hin as [-> | Hin].
  - simpl in E. inv_res E. left. f_equal.
    match goal with R : resolve _ _ _ = _ |- _ => now apply resolve_column in R end.
  - right. eauto.
Qed.

Lemma where_holds_In conds c r :
  where_holds conds r = true -> In c conds -> holds c r = true.
Proof.
  unfold where_holds. rewrite forallb_forall. auto.
Qed.

Lemma resolve_qualified a t c :
  has_col t c = true -> resolve (Some a) t (qcol a c) = inr c.
Proof.
  intros H. unfold resolve, alias_ok. simpl. rewrite String.eqb_refl, H. reflexivity.
Qed.

Lemma resolve_plain alias t c :
  has_col t c = true -> resolve alias t (ucol c) = inr c.
Proof. intros H. unfold resolve, alias_ok. simpl. rewrite H. reflexivity. Qed.

(** ** Sorting, windows and joins keep rows *)

Lemma In_insert_by {A : Type} (before : A -> A -> bool) (x y : A) (l : list A) :
  In y (insert_by before x l) <-> y = x \/ In y l.
Proof.
  induction l as [| z l IH]; simpl.
  - intuition congruence.
  - destruct (before x z); simpl; [intuition congruence |].
    rewrite IH. intuition congruence.
Qed.

Lemma In_sort_by {A : Type} (before : A -> A -> bool) (y : A) (l : list A) :
  In y (sort_by before l) <-> In y l.
Proof.
  induction l as [| x l IH]; simpl; [tauto |].
  rewrite In_insert_by, IH. intuition congruence.
Qed.

Lemma In_sort_desc {A : Type} (key : A -> SqlVal) (y : A) (l : list A) :
  In y (sort_desc key l) <-> In y l.
Proof. apply In_sort_by. Qed.

Lemma In_firstn {A : Type} (n : nat) (x : A) (l : list A) :
  In x (firstn n l) -> In x l.
Proof.
  intros H. rewrite <- (firstn_skipn n l). apply in_or_app. now left.
Qed.

Lemma In_skipn {A : Type} (n : nat) (x : A) (l : list A) :
  In x (skipn n l) -> In x l.
Proof.
  intros H. rewrite <- (firstn_skipn n l). apply in_or_app. now right.
Qed.

Lemma In_paginate {A : Type} (lim : option nat) (off : nat) (x : A) (l : list A) :
  In x (paginate lim off l) -> In x l.
Proof.
  destruct lim as [n |]; simpl; [| tauto].
  intros H. apply In_firstn in H. apply (In_skipn _ _ _ H).
Qed.

Lemma In_left_join cats r x :
  In x (left_join_categories cats r) -> fst x = r.
Proof.
  unfold left_join_categories.
  destruct (filter _ cats) as [| c ms]; simpl.
  - intros [<- | []]. reflexivity.
  - intros [<- | H]; [reflexivity |].
    apply in_map_iff in H. destruct H as (c' & <- & _). reflexivity.
Qed.

Lemma joined_rows_from db s t joined x :
  joined_rows db s t = inr joined -> In x joined -> In (fst x) (t_rows t).
Proof.
  unfold joined_rows. destruct (s_join_categories s); intros H Hx.
  - inv_res H. apply in_flat_map in Hx. destruct Hx as (r & Hr & Hx).
    apply In_left_join in Hx. now rewrite Hx.
  - inv_res H. apply in_map_iff in Hx. destruct Hx as (r & <- & Hr). exact Hr.
Qed.

(** ** What a query returns *)

Lemma exec_select_sound db s ps rows :
  exec_select db s ps = inr rows ->
  exists t conds rest,
    get_table (s_table s) db = Some t /\
    bind_where (s_alias s) t (s_where s) ps = inr (conds, rest) /\
    (exists lim off, bind_limit s rest = inr (lim, off, [])) /\
    Forall (fun row => exists x, In (fst x) (t_rows t)
                                 /\ where_holds conds (fst x) = true
                                 /\ row = project s x) rows.
Proof.
  unfold exec_select. intros H. inv_res H.
  apply need_inr in E0. apply no_more_inr in E3. subst.
  exists a0, l, l0. repeat split; eauto.
  apply Forall_forall. intros row Hrow.
  apply in_map_iff in Hrow. destruct Hrow as (x & <- & Hx).
  apply In_paginate in Hx.
  assert (In x (filter (fun x => where_holds l (fst x)) a4)) as Hf.
  { destruct (s_order_created_desc s); [apply In_sort_desc in Hx |]; exact Hx. }
  apply filter_In in Hf. destruct Hf as (Hj & Hw).
  exists x. eauto using joined_rows_from.
Qed.

Lemma exec_count_sound db c ps rows :
  exec_count db c ps = inr rows ->
  exists t conds,
    get_table (c_table c) db = Some t /\
    bind_where None t (c_where c) ps = inr (conds, []) /\
    rows = [[(c_as c, VInt (Z.of_nat (List.length (filter (where_holds conds) (t_rows t)))))]].
Proof.
  unfold exec_count. intros H. inv_res H.
  apply need_inr in E0. apply no_more_inr in E2. subst. eauto.
Qed.

(** ** JSON of a row *)

Lemma assoc_app_l {A : Type} (k : string) (l l' : list (string * A)) (v : A) :
  assoc k l = Some v -> assoc k (l ++ l') = Some v.
Proof.
  induction l as [| [k' x] l IH]; simpl; [discriminate |].
  destruct (k =? k')%string; auto.
Qed.

Lemma assoc_js_of_row (k : string) (r : Row) :
  assoc k (map (fun kv => (fst kv, js_of_sql (snd kv))) r)
  = option_map js_of_sql (assoc k r).
Proof.
  induction r as [| [k' x] r IH]; simpl; [reflexivity |].
  destruct (k =? k')%string; auto.
Qed.

Lemma prop_js_of_row (k : string) (r : Row) :
  prop k (js_of_row r)
  = match assoc k r with Some v => js_of_sql v | None => JUndefined end.
Proof.
  unfold js_of_row; simpl. rewrite assoc_js_of_row.
  destruct (assoc k r); reflexivity.
Qed.

Lemma prop_js_of_row_not_array (k : string) (r : Row) (xs : list JsVal) :
  prop k (js_of_row r) <> JArray xs.
Proof.
  rewrite prop_js_of_row. destruct (assoc k r) as [[| z | s] |]; discriminate.
Qed.

#[local] Arguments resolve : simpl never.
#[local] Arguments has_col : simpl never.
#[local] Arguments project : simpl never.
#[local] Arguments where_holds : simpl never.
#[local] Arguments prop : simpl never.
#[local] Arguments js_of_row : simpl never.

Lemma resolve_has_col alias t c n : resolve alias t c = inr n -> has_col t (ref_column c) = true.
Proof. unfold resolve. intros H. inv_res H. now apply guard_inr in E0. Qed.

Lemma bind_any_like_columns alias t cs : forall ps out,
  bind_any_like alias t cs ps = inr out ->
  forall c, In c cs -> has_col t (ref_column c) = true.
Proof.
  induction cs as [| c0 cs IH]; intros ps out H c Hin; [destruct Hin |].
  simpl in H. inv_res H. destruct Hin as [<- | Hin]; eauto using resolve_has_col.
Qed.

Lemma bind_pred_columns alias t q ps out :
  bind_pred alias t q ps = inr out ->
  forall c, In c (pred_columns q) -> has_col t c = true.
Proof.
  destruct q; simpl; intros H c' Hin; inv_res H;
    try (destruct Hin as [<- | []]; eauto using resolve_has_col).
  apply in_map_iff in Hin. destruct Hin as (c0 & <- & Hin).
  eauto using bind_any_like_columns.
Qed.

Lemma bind_where_columns alias t w : forall ps out,
  bind_where alias t w ps = inr out ->
  forall q c, In q w -> In c (pred_columns q) -> has_col t c = true.
Proof.
  induction w as [| q0 w IH]; intros ps out H q c Hq Hc; [destruct Hq |].
  simpl in H. inv_res H. destruct Hq as [<- | Hq]; eauto using bind_pred_columns.
Qed.

(** A query that names a column the table does not have is refused. *)
Lemma exec_select_unknown_column db s ps t q c :
  get_table (s_table s) db = Some t ->
  In q (s_where s) -> In c (pred_columns q) -> has_col t c = false ->
  exists e, exec_select db s ps = inl e.
Proof.
  intros Hget Hq Hc Hno.
  destruct (exec_select db s ps) as [e | rows] eqn:E; [eauto |].
  apply exec_select_sound in E. destruct E as (t' & conds & rest & Hget' & Hb & _).
  rewrite Hget in Hget'. injection Hget' as <-.
  rewrite (bind_where_columns _ _ _ _ _ Hb q c Hq Hc) in Hno. discriminate.
Qed.

Lemma exec_select_intro db s ps t conds rest lim off joined :
  forallb defined ps = true ->
  get_table (s_table s) db = Some t ->
  bind_where (s_alias s) t (s_where s) ps = inr (conds, rest) ->
  bind_limit s rest = inr (lim, off, []) ->
  negb (s_order_created_desc s) || has_col t "created_at" = true ->
  match s_columns s with
  | Some cs => forallb (has_col t) cs
  | None => true
  end = true ->
  joined_rows db s t = inr joined ->
  exec_select db s ps
  = inr (map (project s)
           (paginate lim off
              (if s_order_created_desc s
               then sort_desc (fun x => row_get "created_at" (fst x))
                      (filter (fun x => where_holds conds (fst x)) joined)
               else filter (fun x => where_holds conds (fst x)) joined))).
Proof.
  intros Hd Hget Hb Hl Ho Hc Hj. unfold exec_select, check_params.
  rewrite Hd. cbn [guard bind]. rewrite Hget. cbn [need bind].
  rewrite Hb. cbn [bind]. rewrite Hl. cbn [bind no_more].
  rewrite Ho, Hc. cbn [guard bind]. rewrite Hj. reflexivity.
Qed.

Lemma paginate_nil {A : Type} (lim : option nat) (off : nat) :
  paginate lim off (@nil A) = [].
Proof.
  destruct lim as [n |]; simpl; [| reflexivity].
  rewrite skipn_nil. apply firstn_nil.
Qed.

Lemma filter_none {A : Type} (f : A -> bool) (l : list A) :
  (forall x, In x l -> f x = false) -> filter f l = [].
Proof.
  induction l as [| x l IH]; simpl; intros H; [reflexivity |].
  rewrite (H x) by auto. auto.
Qed.

Lemma exec_select_nothing db s ps t conds rest lim off joined :
  forallb defined ps = true ->
  get_table (s_table s) db = Some t ->
  bind_where (s_alias s) t (s_where s) ps = inr (conds, rest) ->
  bind_limit s rest = inr (lim, off, []) ->
  negb (s_order_created_desc s) || has_col t "created_at" = true ->
  match s_columns s with
  | Some cs => forallb (has_col t) cs
  | None => true
  end = true ->
  joined_rows db s t = inr joined ->
  (forall x, In x joined -> where_holds conds (fst x) = false) ->
  exec_select db s ps = inr [].
Proof.
  intros Hd Hget Hb Hl Ho Hc Hj Hno.
  rewrite (exec_select_intro db s ps t conds rest lim off joined) by assumption.
  rewrite (filter_none _ joined Hno).
  destruct (s_order_created_desc s); simpl; now rewrite paginate_nil.
Qed.


(** The rows of a [SELECT * FROM t WHERE ..] without join: the rows of the
    table that satisfy the conditions. *)
Lemma plain_select_rows (s : Select) (conds : list Cond) (rows : list Row) :
  s_columns s = None -> s_join_categories s = false -> s_content_type s = None ->
  map (project s)
      (filter (fun x => where_holds conds (fst x)) (map (fun r => (r, VNull)) rows))
  = filter (where_holds conds) rows.
Proof.
  intros H1 H2 H3.
  induction rows as [| r rows IH]; simpl; [reflexivity |].
  destruct (where_holds conds r); simpl; [| exact IH].
  rewrite IH. f_equal. unfold project. rewrite H1, H2, H3. simpl. apply app_nil_r.
Qed.

(** ** Tables of a database *)

Lemma get_set_same name t db : get_table name (set_table name t db) = Some t.
Proof.
  unfold get_table. induction db as [| [k x] db IH]; simpl.
  - now rewrite String.eqb_refl.
  - destruct (k =? name)%string eqn:E; simpl.
    + rewrite String.eqb_sym, E. reflexivity.
    + rewrite String.eqb_sym, E. exact IH.
Qed.

Lemma get_set_other name name' t db :
  name <> name' -> get_table name (set_table name' t db) = get_table name db.
Proof.
  intros Hne. unfold get_table. induction db as [| [k x] db IH]; simpl.
  - apply String.eqb_neq in Hne. now rewrite Hne.
  - destruct (k =? name')%string eqn:E; simpl.
    + apply String.eqb_eq in E. subst k.
      apply String.eqb_neq in Hne. now rewrite Hne.
    + destruct (name =? k)%string; [reflexivity | exact IH].
Qed.

Lemma get_table_map (g : Table -> Table) (name : string) (db : Db) :
  get_table name (map (fun nt => (fst nt, g (snd nt))) db)
  = option_map g (get_table name db).
Proof.
  unfold get_table. induction db as [| [k x] db IH]; simpl; [reflexivity |].
  destruct (name =? k)%string; [reflexivity | exact IH].
Qed.

Lemma deployed_cols db :
  deployed db ->
  exists ta tc tm tv,
    (get_table "admins" db = Some ta /\ t_columns ta = ct_columns admins_ddl /\ t_fks ta = [])
    /\ (get_table "categories" db = Some tc /\ t_columns tc = ct_columns categories_ddl /\ t_fks tc = [])
    /\ (get_table "materials" db = Some tm /\ t_columns tm = materials_columns_with_author /\ t_fks tm = [category_fk])
    /\ (get_table "videos" db = Some tv /\ t_columns tv = ct_columns videos_ddl /\ t_fks tv = [category_fk]).
Proof.
  intros ((ta & Ha) & (tc & Hc) & (tm & Hm) & (tv & Hv)).
  exists ta, tc, tm, tv. auto.
Qed.

Lemma has_col_known t cols c :
  t_columns t = cols ->
  has_col t c = match find (fun d => (col_name d =? c)%string) cols with
                | Some _ => true | None => false end.
Proof. intros <-. reflexivity. Qed.

Ltac known_col H := rewrite (has_col_known _ _ _ H); reflexivity.

Lemma find_col_known t cols c :
  t_columns t = cols ->
  find_col c t = find (fun d => (col_name d =? c)%string) cols.
Proof. intros <-. reflexivity. Qed.

Lemma table_columns_known t cols (names : list string) :
  t_columns t = cols ->
  forallb (fun c => match find (fun d => (col_name d =? c)%string) cols with
                    | Some _ => true | None => false end) names = true ->
  forall c, In c names -> has_col t c = true.
Proof.
  intros Hc Hall c Hin. rewrite (has_col_known _ _ _ Hc).
  rewrite forallb_forall in Hall. now apply Hall.
Qed.

Lemma joined_rows_deployed db s t c :
  s_join_categories s = true ->
  get_table "categories" db = Some c ->
  has_col t "category_id" = true -> has_col c "id" = true ->
  has_col c "name" = true ->
  joined_rows db s t
  = inr (flat_map (left_join_categories (t_rows c)) (t_rows t)).
Proof.
  intros Hj Hc H1 H2 H3. unfold joined_rows. rewrite Hj, Hc. simpl.
  rewrite H1, H2, H3. reflexivity.
Qed.

(** ** Rows and updates *)

Lemma row_get_set_same c v r : row_get c (row_set c v r) = v.
Proof.
  unfold row_get. induction r as [| [k x] r IH]; simpl.
  - now rewrite String.eqb_refl.
  - destruct (k =? c)%string eqn:E; simpl.
    + rewrite String.eqb_sym, E. reflexivity.
    + rewrite String.eqb_sym, E. exact IH.
Qed.

Lemma row_get_set_other c c' v r :
  (c =? c')%string = false -> row_get c (row_set c' v r) = row_get c r.
Proof.
  intros Hne. unfold row_get. induction r as [| [k x] r IH]; simpl.
  - now rewrite Hne.
  - destruct (k =? c')%string eqn:E; simpl.
    + apply String.eqb_eq in E. subst k. now rewrite Hne.
    + destruct (c =? k)%string; [reflexivity | exact IH].
Qed.

Lemma assign_cons t c p sets r new :
  assign t ((c, p) :: sets) r = inr new ->
  exists d v, find_col c t = Some d
              /\ coerce (col_type d) p = inr v
              /\ null_checked d v = inr v
              /\ assign t sets (row_set c v r) = inr new.
Proof.
  simpl. intros H. inv_res_keep H. apply need_inr in E.
  exists a, a0. repeat split; auto.
  - unfold null_checked in *. destruct a0; try destruct (col_not_null a);
      congruence.
  - unfold null_checked in E1. destruct a0; try destruct (col_not_null a);
      try discriminate; injection E1 as <-; exact H.
Qed.

Lemma update_rows_spec now db t sets matches : forall rows before rows',
  update_rows now db t sets matches before rows = inr rows' ->
  Forall2 (fun old new =>
             if matches old
             then exists stored, assign t sets old = inr stored
                                 /\ new = touch now t old stored
             else new = old) rows rows'.
Proof.
  induction rows as [| r rows IH]; intros before rows' H; simpl in H.
  - injection H as <-. constructor.
  - destruct (matches r) eqn:Em; inv_res_keep H; subst rows'.
    + constructor; [rewrite Em; eauto | eauto].
    + constructor; [rewrite Em; reflexivity | eauto].
Qed.

End StoreFacts.

(* ================================================================== *)
(** * The public API: listings, visibility, search *)
(* ================================================================== *)

Module ApiFacts.
Import Js Sql Schema Http Api Admin Spec Examples StoreFacts.
#[local] Open Scope list_scope.

(* lemmas *)
Lemma database_deployed a c m v : deployed (database a c m v).
Proof. repeat split; eexists; repeat split; reflexivity. Qed.

(** ** How the handlers answer *)

Lemma catch_200 (r : Res Response) (msg : string) :
  status (catch r msg) = 200 -> r = inr (catch r msg).
Proof. destruct r as [e | resp]; simpl; [discriminate | reflexivity]. Qed.

Lemma catch_inl (r : Res Response) (msg : string) :
  (exists e, r = inl e) -> catch r msg = status_json 500 (failure msg).
Proof. intros (e & ->). reflexivity. Qed.

Lemma serve_paginated (p : Paginated) (db : Db) (req : Request) :
  serve (route_of p) db req
  = catch (run_listing db (listing_of p req) (page_of req) (limit_of req))
      (match p with
       | PMaterials | PMaterialsByCategory => "Failed to fetch materials"
       | PMaterialsByAuthor => "Failed to fetch materials by author"
       | PVideos | PVideosByCategory => "Failed to fetch videos"
       end).
Proof. destruct p; reflexivity. Qed.

Lemma field_defined (k : string) (l : list (string * string)) :
  truthy (field k l) = false \/ defined (field k l) = true.
Proof. unfold field. destruct (assoc k l); simpl; auto. Qed.

Lemma truthy_string (s : string) : s <> "" -> truthy (JString s) = true.
Proof. intros H. simpl. apply negb_true_iff, String.eqb_neq, H. Qed.


(** ** Paginated listings *)

Lemma mirrored_listing (p : Paginated) (req : Request) :
  mirrored (table_of p) (listing_of p req)
    (limit_of req) (offset_of (page_of req) (limit_of req)).
Proof.
  destruct p; simpl;
    unfold materials_listing, videos_listing, scoped_listing;
    try destruct (truthy (field "category" (query req)));
    try destruct (truthy (field "author" (query req)));
    split; reflexivity.
Qed.

Lemma run_listing_consistent db table l page limit resp :
  mirrored table l limit (offset_of page limit) ->
  run_listing db l page limit = inr resp ->
  listing_consistent db table l page limit resp.
Proof.
  intros [Ht Hct Has Hw Hp Hstar Hjoin Htag] H.
  unfold run_listing in H. inv_res_keep H.
  apply exec_select_sound in E. destruct E as (t & conds & rest & Hget & Hb & _ & Hrows).
  apply exec_count_sound in E0. destruct E0 as (t' & conds' & Hget' & Hb' & ->).
  rewrite Ht in Hget. rewrite Hct in Hget'. rewrite Hget in Hget'.
  injection Hget' as <-.
  pose proof (bind_where_unqualified _ _ _ _ _ Hb) as Hu.
  rewrite <- Hw, Hp in Hu.
  rewrite (bind_where_app _ _ _ _ _ _ _ Hb') in Hu. simpl in Hu.
  injection Hu as <- <-.
  exists t, conds'. split; [exact Hget |]. split; [exact Hb |]. split; [exact Hb' |].
  unfold paginated in H. simpl in H. injection H as <-. rewrite Has. simpl.
  split; [reflexivity |]. split.
  - intros L HL ->. simpl.
    replace (L =? 0) with false by (symmetry; apply Z.eqb_neq; lia).
    simpl. eexists. split; [reflexivity |]. apply ceil_bounds. exact HL.
  - exists a. split; [reflexivity |].
    eapply Forall_impl; [| exact Hrows]. simpl.
    intros row (x & Hin & Hh & ->). exists (fst x), (snd x).
    unfold project. rewrite Hstar, Hjoin, Htag. simpl.
    repeat split; auto.
Qed.

(** ** Published rows only *)

Lemma published_status (r : Row) :
  published r = true ->
  exists s, assoc "status" r = Some (VStr s) /\ str_ceq s "published" = true.
Proof.
  unfold published, row_get.
  destruct (assoc "status" r) as [[| z | s] |]; simpl; try discriminate.
  intros H. eauto.
Qed.

Lemma published_row_content (db : Db) (table : string) (t : Table) (r extra : Row) :
  table = "materials" \/ table = "videos" ->
  get_table table db = Some t -> In r (t_rows t) -> published r = true ->
  published_content db (js_of_row (r ++ extra)).
Proof.
  intros Htab Hget Hin Hpub. split.
  - exists table, t, r, extra. auto.
  - destruct (published_status r Hpub) as (s & Hs & Hc).
    exists s. split; [| exact Hc].
    rewrite prop_js_of_row, (assoc_app_l _ _ _ _ Hs). reflexivity.
Qed.

(** The rows of a [SELECT x.*, ..] that asks for [status = 'published']. *)
Lemma select_published db s ps rows alias :
  exec_select db s ps = inr rows ->
  s_columns s = None ->
  In (PEqLit (qcol alias "status") "published") (s_where s) ->
  Forall (fun row => exists t r extra,
            get_table (s_table s) db = Some t /\ In r (t_rows t)
            /\ published r = true /\ row = (r ++ extra)%list) rows.
Proof.
  intros H Hstar Hin.
  apply exec_select_sound in H.
  destruct H as (t & conds & rest & Hget & Hb & _ & Hrows).
  eapply Forall_impl; [| exact Hrows]. simpl.
  intros row (x & Hx & Hh & ->).
  exists t, (fst x). unfold project. rewrite Hstar. eexists.
  repeat split; eauto.
  pose proof (bind_where_literal _ _ _ _ _ _ _ _ Hb Hin) as Hc.
  apply (where_holds_In _ _ _ Hh Hc).
Qed.

Lemma Forall_published_content db table rows :
  table = "materials" \/ table = "videos" ->
  Forall (fun row => exists t r extra,
            get_table table db = Some t /\ In r (t_rows t)
            /\ published r = true /\ row = (r ++ extra)%list) rows ->
  Forall (published_content db) (map js_of_row rows).
Proof.
  intros Htab H. apply Forall_map. eapply Forall_impl; [| exact H]. simpl.
  intros row (t & r & extra & Hget & Hin & Hpub & ->).
  eapply published_row_content; eauto.
Qed.

Lemma only_published_failure db code msg :
  only_published db (status_json code (failure msg)).
Proof. constructor. Qed.

Lemma only_published_catch db (r : Res Response) msg :
  (forall resp, r = inr resp -> only_published db resp) ->
  only_published db (catch r msg).
Proof.
  destruct r as [e | resp]; simpl; intros H; [constructor | auto].
Qed.

Lemma run_listing_published db l page limit resp alias :
  content_table (s_table (l_query l)) ->
  s_columns (l_query l) = None ->
  In (PEqLit (qcol alias "status") "published") (s_where (l_query l)) ->
  run_listing db l page limit = inr resp ->
  only_published db resp.
Proof.
  intros Htab Hstar Hin H. unfold run_listing in H. inv_res_keep H.
  unfold paginated in H. inv_res_keep H. subst resp.
  unfold only_published, content_rows. simpl.
  eapply Forall_published_content; [exact Htab |].
  eapply select_published; eauto.
Qed.

Lemma listing_published (p : Paginated) (req : Request) :
  content_table (s_table (l_query (listing_of p req)))
  /\ s_columns (l_query (listing_of p req)) = None
  /\ exists alias,
       In (PEqLit (qcol alias "status") "published")
          (s_where (l_query (listing_of p req))).
Proof.
  destruct p; simpl;
    unfold materials_listing, videos_listing, scoped_listing, content_table;
    try destruct (truthy (field "category" (query req)));
    try destruct (truthy (field "author" (query req)));
    simpl; (split; [auto | split; [reflexivity | eexists; simpl; eauto 6]]).
Qed.

Lemma paginated_published (p : Paginated) db req :
  only_published db (serve (route_of p) db req).
Proof.
  rewrite serve_paginated. apply only_published_catch. intros resp H.
  destruct (listing_published p req) as (Htab & Hstar & alias & Hin).
  eapply run_listing_published; eauto.
Qed.

Lemma by_id_published db table alias req missing resp :
  content_table table ->
  by_id db table alias req missing = inr resp ->
  only_published db resp.
Proof.
  intros Htab H. unfold by_id in H. inv_res_keep H.
  apply select_published with (alias := alias) in E;
    [| reflexivity | simpl; auto].
  destruct a as [| first rest]; injection H as <-; [constructor |].
  unfold only_published, content_rows. simpl payload.
  change (prop "data" (JObject [("success", JBool true); ("data", js_of_row first)]))
    with (js_of_row first).
  assert (published_content db (js_of_row first)) as Hp.
  { inversion E as [| ? ? (t & r & extra & Hget & Hin & Hpub & ->) _]; subst.
    eapply published_row_content; eauto. }
  unfold js_of_row at 1.
  fold (js_of_row first).
  destruct (prop "materials" (js_of_row first)) eqn:Em;
    try (constructor; [exact Hp | constructor]).
  now apply prop_js_of_row_not_array in Em.
Qed.

Lemma search_branch_published db base alias terms category limit offset rows :
  s_columns base = None ->
  In (PEqLit (qcol alias "status") "published") (s_where base) ->
  search_branch db base alias terms category limit offset = inr rows ->
  Forall (fun row => exists t r extra,
            get_table (s_table base) db = Some t /\ In r (t_rows t)
            /\ published r = true /\ row = r ++ extra) rows.
Proof.
  intros Hstar Hin H. unfold search_branch in H.
  destruct (truthy category);
    (eapply select_published with (alias := alias) in H;
     [exact H | exact Hstar | simpl; try apply in_or_app; auto]).
Qed.

Lemma two_arrays_published db ms vs (front : list (string * JsVal)) rest :
  Forall (published_content db) (map js_of_row ms) ->
  Forall (published_content db) (map js_of_row vs) ->
  only_published db
    (json (JObject (("success", JBool true)
                    :: ("data", JObject [("materials", js_of_rows ms);
                                         ("videos", js_of_rows vs)])
                    :: rest))).
Proof.
  intros Hm Hv. unfold only_published, content_rows. simpl.
  apply Forall_app. auto.
Qed.

Lemma search_published db req : only_published db (search db req).
Proof.
  unfold search.
  destruct (negb (truthy (field "q" (query req)))); [constructor |].
  apply only_published_catch. intros resp H. inv_res_keep H. subst resp.
  apply (two_arrays_published db a a0 []).
  - destruct (negb (truthy (field "type" (query req)))
              || is_string (field "type" (query req)) "materials").
    + eapply Forall_published_content; [left; reflexivity |].
      eapply (search_branch_published _ search_materials_select "m") in E;
        [exact E | reflexivity | simpl; auto].
    + injection E as <-. constructor.
  - destruct (negb (truthy (field "type" (query req)))
              || is_string (field "type" (query req)) "videos").
    + eapply Forall_published_content; [right; reflexivity |].
      eapply (search_branch_published _ search_videos_select "v") in E0;
        [exact E0 | reflexivity | simpl; auto].
    + injection E0 as <-. constructor.
Qed.

Lemma latest_published db req : only_published db (latest db req).
Proof.
  unfold latest. apply only_published_catch. intros resp H.
  inv_res_keep H. subst resp.
  apply (two_arrays_published db a a0 []).
  - eapply Forall_published_content; [left; reflexivity |].
    eapply select_published with (alias := "m") in E;
      [exact E | reflexivity | simpl; auto].
  - eapply Forall_published_content; [right; reflexivity |].
    eapply select_published with (alias := "v") in E0;
      [exact E0 | reflexivity | simpl; auto].
Qed.

Lemma serve_only_published (r : Route) db req : only_published db (serve r db req).
Proof.
  destruct r;
    try (apply (paginated_published PMaterials)
         || apply (paginated_published PMaterialsByCategory)
         || apply (paginated_published PMaterialsByAuthor)
         || apply (paginated_published PVideos)
         || apply (paginated_published PVideosByCategory)).
  - apply only_published_catch. intros resp H.
    eapply by_id_published; [left; reflexivity | exact H].
  - apply only_published_catch. intros resp H.
    eapply by_id_published; [right; reflexivity | exact H].
  - apply search_published.
  - apply latest_published.
Qed.

#[local] Arguments resolve : simpl never.
#[local] Arguments has_col : simpl never.
#[local] Arguments project : simpl never.
#[local] Arguments where_holds : simpl never.
#[local] Arguments prop : simpl never.
#[local] Arguments js_of_row : simpl never.

Lemma by_id_rows db table alias t c s :
  get_table table db = Some t ->
  get_table "categories" db = Some c ->
  has_col t "id" = true -> has_col t "status" = true ->
  has_col t "category_id" = true ->
  has_col c "id" = true -> has_col c "name" = true ->
  exec_select db
    (content_select table alias None
       [PEqParam (qcol alias "id"); PEqLit (qcol alias "status") "published"])
    [JString s]
  = inr (map (project (content_select table alias None []))
           (filter (fun x => sql_eq_param (row_get "id" (fst x)) (JString s)
                             && (published (fst x) && true))
                   (flat_map (left_join_categories (t_rows c)) (t_rows t)))).
Proof.
  intros Hget Hcat H1 H2 H3 H4 H5.
  unfold exec_select. simpl. rewrite Hget. simpl.
  rewrite !resolve_qualified by assumption. simpl.
  unfold joined_rows. simpl. rewrite Hcat. simpl. rewrite H3, H4, H5. simpl.
  reflexivity.
Qed.

Lemma get_by_id_404 db table alias req missing s :
  deployed db ->
  table = "materials" /\ alias = "m" \/ table = "videos" /\ alias = "v" ->
  assoc "id" (params req) = Some s ->
  (forall t r, get_table table db = Some t -> In r (t_rows t) ->
               sql_eq_param (row_get "id" r) (JString s) = true ->
               published r = false) ->
  by_id db table alias req missing = inr (status_json 404 (failure missing)).
Proof.
  intros Hd Htab Hid Hno.
  destruct (deployed_cols db Hd)
    as (ta & tc & tm & tv & _ & (Hc & Hcc & _) & (Hm & Hmc & _) & (Hv & Hvc & _)).
  unfold by_id, field. rewrite Hid.
  assert (exists t, get_table table db = Some t
                    /\ has_col t "id" = true /\ has_col t "status" = true
                    /\ has_col t "category_id" = true) as (t & Hget & H1 & H2 & H3).
  { destruct Htab as [[-> ->] | [-> ->]];
      [exists tm | exists tv]; (split; [assumption |]);
      repeat split; known_col Hmc || known_col Hvc. }
  rewrite (by_id_rows db table alias t tc s Hget Hc H1 H2 H3)
    by (known_col Hcc).
  rewrite filter_none; [reflexivity |].
  intros x Hx. apply in_flat_map in Hx. destruct Hx as (r & Hr & Hx).
  apply In_left_join in Hx. rewrite Hx.
  destruct (sql_eq_param (row_get "id" r) (JString s)) eqn:E; [| reflexivity].
  rewrite (Hno t r Hget Hr E). reflexivity.
Qed.

(** ** LIKE and containment *)

Lemma any_suffix_ext (f g : string -> bool) (t : string) :
  (forall u, f u = g u) -> any_suffix f t = any_suffix g t.
Proof.
  intros H. induction t as [| c t IH]; simpl; rewrite H; [reflexivity |].
  now rewrite IH.
Qed.

Lemma any_suffix_empty (f : string -> bool) (t : string) :
  f "" = true -> any_suffix f t = true.
Proof.
  intros H. induction t as [| c t IH]; simpl.
  - rewrite H. reflexivity.
  - rewrite IH. apply orb_true_r.
Qed.

Lemma like_percent (t : string) : like "%" t = true.
Proof. simpl. apply any_suffix_empty. reflexivity. Qed.

Lemma like_literal_step (c : ascii) (p t : string) :
  wildcard c = false ->
  like (String c p) t
  = match t with
    | String d t' => ceq c d && like p t'
    | EmptyString => false
    end.
Proof.
  unfold wildcard. intros H.
  apply orb_false_elim in H. destruct H as (H & H3).
  apply orb_false_elim in H. destruct H as (H1 & H2).
  simpl. rewrite H1, H2, H3. reflexivity.
Qed.

Lemma like_prefix (q : string) :
  wildcard_free q = true -> forall t, like (q ++ "%") t = prefix_ci q t.
Proof.
  induction q as [| c q IH]; intros Hq t.
  - apply like_percent.
  - simpl in Hq. apply andb_true_iff in Hq. destruct Hq as (Hc & Hq).
    apply negb_true_iff in Hc.
    change (String c q ++ "%")%string with (String c (q ++ "%")).
    rewrite (like_literal_step c _ t Hc).
    destruct t as [| d t]; simpl; [reflexivity |]. now rewrite IH.
Qed.

(** For a text without [%], [_] and backslash, [LIKE '%text%'] is
    containment, letter case apart. *)
Lemma like_contains (q t : string) :
  wildcard_free q = true ->
  like ("%" ++ q ++ "%") t = contains_ci q t.
Proof.
  intros Hq. change ("%" ++ q ++ "%")%string with (String "%" (q ++ "%")).
  simpl. apply any_suffix_ext. intros u. now apply like_prefix.
Qed.

Lemma column_like_contains (q c : string) (r : Row) :
  wildcard_free q = true ->
  sql_like_param (row_get c r) (contains_pattern (JString q))
  = column_contains q c r.
Proof.
  intros Hq. unfold column_contains, sql_like_param, contains_pattern. simpl.
  destruct (row_get c r); try reflexivity. now apply like_contains.
Qed.

(** * The search finds nothing *)

(** ** Queries that run on the deployed schema *)

Lemma window_limits (s : Select) (page limit : JsVal) :
  window_ok page limit ->
  s_limit s = Some LimitParam -> s_offset s = true ->
  exists n o,
    bind_limit s [JNumber (parseInt limit); JNumber (offset_of page limit)]
    = inr (Some n, o, []).
Proof.
  intros (l & o & Hl & Hl0 & Ho & Ho0) H1 H2. unfold bind_limit.
  apply Z.leb_le in Hl0, Ho0.
  rewrite H1, H2. simpl. rewrite Hl. simpl. rewrite Hl0. simpl.
  rewrite Ho. simpl. rewrite Ho0. simpl. eauto.
Qed.



Ltac nothing_found Hcols Hcc tc tbl Hget Hl Hno contains :=
  eapply exec_select_nothing with (t := tbl);
  [ simpl; try match goal with D : defined _ = true |- _ => rewrite D end; reflexivity
  | exact Hget
  | simpl; rewrite !resolve_qualified by (apply Hcols; simpl; auto 10);
    simpl; reflexivity
  | exact Hl
  | simpl; apply Hcols; simpl; auto 10
  | reflexivity
  | apply (joined_rows_deployed _ _ _ tc); try reflexivity; try assumption;
    try (apply Hcols; simpl; auto 10); known_col Hcc
  | let x := fresh "x" in let Hx := fresh "Hx" in
    let r := fresh "r" in let Hr := fresh "Hr" in let Hn := fresh "Hn" in
    intros x Hx; apply in_flat_map in Hx; destruct Hx as (r & Hr & Hx);
    apply In_left_join in Hx; rewrite Hx;
    pose proof (Hno tbl r Hget Hr) as Hn; unfold contains in Hn;
    unfold where_holds; simpl; fold (published r);
    rewrite !column_like_contains by assumption;
    rewrite orb_false_r;
    destruct (published r); simpl in *; [| reflexivity];
    try rewrite orb_assoc; rewrite Hn; reflexivity ].

Lemma search_materials_nothing db q category page limit :
  deployed db -> wildcard_free q = true ->
  window_ok page limit ->
  (forall t r, get_table "materials" db = Some t -> In r (t_rows t) ->
               material_contains q r = false) ->
  (truthy category = false \/ defined category = true) ->
  search_branch db search_materials_select "m"
    [contains_pattern (JString q); contains_pattern (JString q);
     contains_pattern (JString q)]
    category limit (offset_of page limit)
  = inr [].
Proof.
  intros Hd Hq Hw Hno Hcat.
  destruct (deployed_cols db Hd)
    as (ta & tc & tm & tv & _ & (Hc & Hcc & _) & (Hm & Hmc & _) & _).
  pose proof (table_columns_known tm _
                ["status"; "title"; "content"; "author"; "category_id"; "created_at"]
                Hmc eq_refl) as Hcols.
  unfold search_branch.
  destruct (truthy category) eqn:Ht.
  - destruct Hcat as [Hcat | Hcat]; [discriminate |].
    destruct (window_limits
                (order_limit_offset
                   (and_where search_materials_select
                      (PEqParam (qcol "m" "category_id"))))
                page limit Hw eq_refl eq_refl) as (n & o & Hl).
    nothing_found Hcols Hcc tc tm Hm Hl Hno material_contains.
  - destruct (window_limits (order_limit_offset search_materials_select)
                page limit Hw eq_refl eq_refl) as (n & o & Hl).
    nothing_found Hcols Hcc tc tm Hm Hl Hno material_contains.
Qed.

Lemma search_videos_nothing db q category page limit :
  deployed db -> wildcard_free q = true ->
  window_ok page limit ->
  (forall t r, get_table "videos" db = Some t -> In r (t_rows t) ->
               video_contains q r = false) ->
  (truthy category = false \/ defined category = true) ->
  search_branch db search_videos_select "v"
    [contains_pattern (JString q); contains_pattern (JString q)]
    category limit (offset_of page limit)
  = inr [].
Proof.
  intros Hd Hq Hw Hno Hcat.
  destruct (deployed_cols db Hd)
    as (ta & tc & tm & tv & _ & (Hc & Hcc & _) & _ & (Hv & Hvc & _)).
  pose proof (table_columns_known tv _
                ["status"; "title"; "description"; "category_id"; "created_at"]
                Hvc eq_refl) as Hcols.
  unfold search_branch.
  destruct (truthy category) eqn:Ht.
  - destruct Hcat as [Hcat | Hcat]; [discriminate |].
    destruct (window_limits
                (order_limit_offset
                   (and_where search_videos_select
                      (PEqParam (qcol "v" "category_id"))))
                page limit Hw eq_refl eq_refl) as (n & o & Hl).
    nothing_found Hcols Hcc tc tv Hv Hl Hno video_contains.
  - destruct (window_limits (order_limit_offset search_videos_select)
                page limit Hw eq_refl eq_refl) as (n & o & Hl).
    nothing_found Hcols Hcc tc tv Hv Hl Hno video_contains.
Qed.

Lemma search_pagination_keys db req :
  status (search db req) = 200 ->
  keys (prop "pagination" (payload (search db req))) = ["page"; "limit"].
Proof.
  unfold search.
  destruct (negb (truthy (field "q" (query req)))); [discriminate |].
  match goal with |- context [catch ?r _] => destruct r as [e | resp] eqn:E end;
    [discriminate |].
  intros _. inv_res_keep E. subst resp. reflexivity.
Qed.

(** ** The claims *)

(** The scenario of the specification: twelve published materials, page 2
    of 5. *)
Example twelve_page_two :
  get_materials twelve second_page
  = json (JObject
      [("success", JBool true);
       ("data", js_of_rows
          (map (fun i => with_category "Basics"
                           (material_row i "t" "Ann" (VInt 1) "published" (10 * i)))
               [7; 6; 5; 4; 3]));
       ("pagination", JObject [("total", num 12); ("page", num 2);
                               ("limit", num 5); ("pages", num 3)])]).
Proof. vm_compute. reflexivity. Qed.



(** C2.  Whatever the database holds, every material or video in the answer
    of a public route (lists, lists by category and by author, details,
    search, latest) is a published row of its table and shows
    [status = 'published']; and on the deployed schema the detail routes
    answer 404 with [{success: false, error}] whenever no published row has
    the requested id, that is, when the id is absent or its row is a
    draft. *)
Theorem C2_published_only (db : Db) (req : Request) :
  (forall r, only_published db (serve r db req))
  /\ (forall s,
      deployed db -> assoc "id" (params req) = Some s ->
      no_published_match db "materials" s ->
      get_material db req = status_json 404 (failure "Material not found"))
  /\ (forall s,
      deployed db -> assoc "id" (params req) = Some s ->
      no_published_match db "videos" s ->
      get_video db req = status_json 404 (failure "Video not found")).
Proof.
  split; [intros r; apply serve_only_published |].
  split; intros s Hd Hid Hno; unfold get_material, get_video.
  - rewrite (get_by_id_404 db "materials" "m" req _ s Hd); auto.
  - rewrite (get_by_id_404 db "videos" "v" req _ s Hd); auto.
Qed.

Lemma portal_draft_unpublished : no_published_match portal "materials" "2".
Proof.
  intros t r Hget Hin Hid. injection Hget as <-.
  simpl in Hin. destruct Hin as [<- | [<- | [<- | []]]];
    solve [reflexivity | discriminate Hid].
Qed.

Lemma portal_no_video_nine : no_published_match portal "videos" "9".
Proof.
  intros t r Hget Hin Hid. injection Hget as <-.
  simpl in Hin. destruct Hin as [<- | [<- | []]]; discriminate Hid.
Qed.

Lemma C2_witness :
  (forall r, only_published portal (serve r portal (request [] [("id", "2")] [])))
  /\ get_material portal (request [] [("id", "2")] [])
     = status_json 404 (failure "Material not found")
  /\ get_video portal (request [] [("id", "9")] [])
     = status_json 404 (failure "Video not found").
Proof.
  split; [| split].
  - apply (C2_published_only portal (request [] [("id", "2")] [])).
  - apply (C2_published_only portal (request [] [("id", "2")] [])) with (s := "2").
    + apply database_deployed.
    + reflexivity.
    + apply portal_draft_unpublished.
  - apply (C2_published_only portal (request [] [("id", "9")] [])) with (s := "9").
    + apply database_deployed.
    + reflexivity.
    + apply portal_no_video_nine.
Defined.

Lemma nothing_contains_portal (q : string) :
  (forall r, In r (materials_of portal) -> material_contains q r = false) ->
  (forall r, In r [video_row 1 "intro" "published" 15;
                   video_row 2 "wip" "draft" 25] ->
             video_contains q r = false) ->
  nothing_contains portal q.
Proof.
  intros Hm Hv. split; intros t r Hget Hin; injection Hget as <-; auto.
Qed.

Lemma portal_without_underscore : nothing_contains portal "_".
Proof.
  apply nothing_contains_portal; intros r Hin; simpl in Hin;
    repeat (destruct Hin as [<- | Hin]; [reflexivity |]); destruct Hin.
Qed.

Lemma portal_without_zebra : nothing_contains portal "zebra".
Proof.
  apply nothing_contains_portal; intros r Hin; simpl in Hin;
    repeat (destruct Hin as [<- | Hin]; [reflexivity |]); destruct Hin.
Qed.

(** C8 as stated fails twice.  No title, content, author or description of
    [portal] contains an underscore, yet the search for [_] returns both
    published materials and the published video: [_] is a wildcard of
    LIKE.  And nothing of [portal] contains [zebra], yet with [page=0] the
    search answers 500: the OFFSET is negative. *)
Lemma C8_wildcard_finds_rows :
  (nothing_contains portal "_"
   /\ search portal (request [("q", "_")] [] [])
      = json (JObject
          [("success", JBool true);
           ("data",
            JObject
              [("materials",
                js_of_rows
                  [found "Basics" "material"
                     (material_row 3 "ghi" "Ann" (VInt 1) "published" 30);
                   found "Basics" "material"
                     (material_row 1 "abc" "Ann" (VInt 1) "published" 10)]);
               ("videos",
                js_of_rows
                  [found "Basics" "video" (video_row 1 "intro" "published" 15)])]);
           ("query", JString "_");
           ("pagination", JObject [("page", num 1); ("limit", num 10)])]))
  /\ (nothing_contains portal "zebra"
      /\ search portal (request [("q", "zebra"); ("page", "0")] [] [])
         = status_json 500 (failure "Search failed")).
Proof.
  split; split.
  - apply portal_without_underscore.
  - vm_compute. reflexivity.
  - apply portal_without_zebra.
  - vm_compute. reflexivity.
Qed.

(** C8, amended.  The search answers 400 when [q] is missing or empty; the
    pagination object of every 200 answer has the keys [page] and [limit]
    and no other; and on the deployed schema, for a [q] without the LIKE
    wildcards and a page and limit that give a LIMIT and an OFFSET the store
    takes, when no published material contains [q] in its title, content or
    author and no published video contains it in its title or description
    (letter case apart), the answer is 200 with [success: true], empty
    [materials] and [videos], the query and [{page, limit}]. *)
Theorem C8_search_nothing_found (db : Db) (req : Request) :
  (truthy (field "q" (query req)) = false ->
   search db req = status_json 400 (failure "Search query is required"))
  /\ (status (search db req) = 200 ->
      keys (prop "pagination" (payload (search db req))) = ["page"; "limit"])
  /\ (forall q,
      deployed db ->
      field "q" (query req) = JString q -> q <> "" ->
      wildcard_free q = true ->
      window_ok (page_of req) (limit_of req) ->
      nothing_contains db q ->
      search db req = empty_search (JString q) (page_of req) (limit_of req)).
Proof.
  split; [| split].
  - unfold search. intros ->. reflexivity.
  - apply search_pagination_keys.
  - intros q Hd Hf Hne Hq Hw (Hm & Hv). unfold search.
    rewrite Hf, (truthy_string q Hne). cbn [negb].
    fold (page_of req) (limit_of req).
    pose proof (field_defined "category" (query req)) as Hcat.
    rewrite (search_materials_nothing db q _ _ _ Hd Hq Hw Hm Hcat).
    rewrite (search_videos_nothing db q _ _ _ Hd Hq Hw Hv Hcat).
    destruct (negb (truthy (field "type" (query req)))
              || is_string (field "type" (query req)) "materials");
      destruct (negb (truthy (field "type" (query req)))
                || is_string (field "type" (query req)) "videos");
      reflexivity.
Qed.

Lemma C8_witness :
  search portal (request [] [] [])
  = status_json 400 (failure "Search query is required")
  /\ keys (prop "pagination" (payload (search portal (request [("q", "abc")] [] []))))
     = ["page"; "limit"]
  /\ search portal (request [("q", "zebra"); ("type", "videos")] [] [])
     = empty_search (JString "zebra") (num 1) (num 10).
Proof.
  split; [| split].
  - apply (C8_search_nothing_found portal (request [] [] [])). reflexivity.
  - apply (C8_search_nothing_found portal (request [("q", "abc")] [] [])).
    reflexivity.
  - apply (C8_search_nothing_found portal
             (request [("q", "zebra"); ("type", "videos")] [] [])).
    + apply database_deployed.
    + reflexivity.
    + discriminate.
    + reflexivity.
    + exists 10, 0. repeat split; (reflexivity || lia).
    + apply portal_without_zebra.
Defined.

(** C10 as stated fails twice.  With [type=] the parameter is present and
    is neither 'materials' nor 'videos', but it is empty, so both branches
    run and the material that matches is returned.  And without [q] the
    answer is 400, whatever [type] is. *)
Lemma C10_empty_type_runs_both :
  (field "type" (query (request [("q", "abc"); ("type", "")] [] [])) = JString ""
   /\ search portal (request [("q", "abc"); ("type", "")] [] [])
      = json (JObject
          [("success", JBool true);
           ("data",
            JObject
              [("materials",
                js_of_rows
                  [found "Basics" "material"
                     (material_row 1 "abc" "Ann" (VInt 1) "published" 10)]);
               ("videos", JArray [])]);
           ("query", JString "abc");
           ("pagination", JObject [("page", num 1); ("limit", num 10)])]))
  /\ search portal (request [("type", "audio")] [] [])
     = status_json 400 (failure "Search query is required").
Proof. vm_compute. repeat split; reflexivity. Qed.

(** C10, amended.  For a search with a non-empty [q] whose [type] is a
    non-empty string other than 'materials' and 'videos', both branches are
    skipped: the answer is 200 with [success: true] and empty [materials]
    and [videos] whatever the database holds, and it is the answer on a
    store without any table, where every query would fail: no query is
    sent. *)
Theorem C10_unknown_type_skips_both (db : Db) (req : Request) (q t : string) :
  field "q" (query req) = JString q -> q <> "" ->
  field "type" (query req) = JString t ->
  t <> "" -> t <> "materials" -> t <> "videos" ->
  search db req = empty_search (JString q) (page_of req) (limit_of req)
  /\ search db req = search [] req.
Proof.
  intros Hq Hne Ht Ht0 Htm Htv.
  assert (forall d, search d req
                    = empty_search (JString q) (page_of req) (limit_of req)) as H.
  { intros d. unfold search. rewrite Hq, Ht, (truthy_string q Hne),
      (truthy_string t Ht0). simpl is_string.
    apply String.eqb_neq in Htm, Htv. rewrite Htm, Htv. reflexivity. }
  split; [apply H | now rewrite !H].
Qed.

Lemma C10_witness :
  search portal (request [("q", "abc"); ("type", "audio")] [] [])
  = empty_search (JString "abc") (num 1) (num 10)
  /\ search portal (request [("q", "abc"); ("type", "audio")] [] [])
     = search [] (request [("q", "abc"); ("type", "audio")] [] []).
Proof.
  apply (C10_unknown_type_skips_both portal
           (request [("q", "abc"); ("type", "audio")] [] []) "abc" "audio");
    (reflexivity || discriminate).
Defined.

End ApiFacts.

(* ================================================================== *)
(** * The schema of a fresh server *)
(* ================================================================== *)

Module SchemaFacts.
Import Js Sql Schema Http Api Admin Spec Examples StoreFacts ApiFacts.
#[local] Open Scope list_scope.

#[local] Arguments resolve : simpl never.
#[local] Arguments has_col : simpl never.
#[local] Arguments project : simpl never.
#[local] Arguments where_holds : simpl never.
#[local] Arguments prop : simpl never.
#[local] Arguments js_of_row : simpl never.

Lemma get_create_other name db ct :
  name <> ct_name ct ->
  get_table name (create_table_if_not_exists db ct) = get_table name db.
Proof.
  intros Hne. unfold create_table_if_not_exists.
  destruct (get_table (ct_name ct) db); [reflexivity |].
  now apply get_set_other.
Qed.

Lemma get_create_new db ct :
  get_table (ct_name ct) db = None ->
  get_table (ct_name ct) (create_table_if_not_exists db ct)
  = Some {| t_columns := ct_columns ct; t_fks := ct_fks ct;
            t_rows := []; t_next_id := 1 |}.
Proof.
  intros H. unfold create_table_if_not_exists. rewrite H. apply get_set_same.
Qed.

(** On a server without a [materials] table, [initDatabase] creates it from
    the CREATE TABLE of the source. *)
Lemma initDatabase_materials db :
  get_table "materials" db = None ->
  get_table "materials" (initDatabase db)
  = Some {| t_columns := ct_columns materials_ddl; t_fks := [category_fk];
            t_rows := []; t_next_id := 1 |}.
Proof.
  intros H. unfold initDatabase. simpl fold_left.
  rewrite get_create_other by discriminate.
  rewrite (get_create_new _ materials_ddl); [reflexivity |].
  rewrite !get_create_other by discriminate. exact H.
Qed.

Lemma authors_need_author db t req :
  get_table "materials" db = Some t -> has_col t "author" = false ->
  get_authors db req = status_json 500 (failure "Failed to fetch authors").
Proof.
  intros Hget Hcol. unfold get_authors, exec_group_count. simpl.
  rewrite Hget. simpl. unfold resolve. simpl. rewrite Hcol. reflexivity.
Qed.

Lemma author_filter_needs_author db t req :
  get_table "materials" db = Some t -> has_col t "author" = false ->
  truthy (field "author" (query req)) = true ->
  get_materials db req = status_json 500 (failure "Failed to fetch materials").
Proof.
  intros Hget Hcol Ha. unfold get_materials, run_listing.
  apply catch_inl, bind_inl.
  eapply exec_select_unknown_column with (q := PLikeParam (qcol "m" "author"));
    [ | | left; reflexivity | exact Hcol].
  - rewrite (m_table _ _ _ _ (mirrored_listing PMaterials req)
               : s_table (l_query (materials_listing req)) = "materials").
    exact Hget.
  - unfold materials_listing. rewrite Ha.
    destruct (truthy (field "category" (query req))); simpl; auto.
Qed.

(** C6 (the code departs from the claim).  On a server without a
    [materials] table, [initDatabase] creates the table with the columns
    id, title, content, category_id, image, status, created_at and
    updated_at: there is no [author] column, although the handlers name one.
    On that schema the authors aggregate and the author filter of the
    materials list are refused by the store and answer 500. *)
Theorem C6_schema_without_author (db : Db) :
  get_table "materials" db = None ->
  (exists t, get_table "materials" (initDatabase db) = Some t
             /\ map col_name (t_columns t)
                = ["id"; "title"; "content"; "category_id"; "image"; "status";
                   "created_at"; "updated_at"]
             /\ has_col t "author" = false)
  /\ In "author" materials_columns_in_handlers
  /\ (forall req, get_authors (initDatabase db) req
                  = status_json 500 (failure "Failed to fetch authors"))
  /\ (forall req, truthy (field "author" (query req)) = true ->
                  get_materials (initDatabase db) req
                  = status_json 500 (failure "Failed to fetch materials")).
Proof.
  intros H. pose proof (initDatabase_materials db H) as Hget.
  split; [eexists; split; [exact Hget | split; reflexivity] |].
  split; [simpl; auto |].
  split; intros req.
  - eapply authors_need_author; [exact Hget | reflexivity].
  - intros Ha. eapply author_filter_needs_author;
      [exact Hget | reflexivity | exact Ha].
Qed.

Lemma C6_witness :
  (exists t, get_table "materials" (initDatabase []) = Some t
             /\ map col_name (t_columns t)
                = ["id"; "title"; "content"; "category_id"; "image"; "status";
                   "created_at"; "updated_at"]
             /\ has_col t "author" = false)
  /\ In "author" materials_columns_in_handlers
  /\ (forall req, get_authors (initDatabase []) req
                  = status_json 500 (failure "Failed to fetch authors"))
  /\ (forall req, truthy (field "author" (query req)) = true ->
                  get_materials (initDatabase []) req
                  = status_json 500 (failure "Failed to fetch materials")).
Proof. apply (C6_schema_without_author []). reflexivity. Defined.

End SchemaFacts.

(* ================================================================== *)
(** * The admin API: token gate, login, initialisation, update, delete *)
(* ================================================================== *)

Module AdminFacts.
Import Js Sql Schema Http Api Admin Spec Examples StoreFacts ApiFacts.
#[local] Open Scope list_scope.

(** ** The token gate *)



Section Gate.

Context {libraries : Libraries}.
Variable env : Env.





End Gate.


(** ** Login *)

#[local] Arguments resolve : simpl never.
#[local] Arguments has_col : simpl never.
#[local] Arguments project : simpl never.
#[local] Arguments where_holds : simpl never.
#[local] Arguments prop : simpl never.
#[local] Arguments js_of_row : simpl never.

(** [SELECT * FROM admins WHERE email = ?] returns the rows whose email the
    store finds equal. *)
Lemma admin_by_email_rows db t email :
  get_table "admins" db = Some t ->
  has_col t "email" = true ->
  defined email = true ->
  exec_select db admin_by_email [email]
  = inr (filter (fun r => sql_eq_param (row_get "email" r) email) (t_rows t)).
Proof.
  intros Hget Hcol Hdef.
  unfold exec_select, check_params. simpl. rewrite Hdef. simpl.
  rewrite Hget. simpl.
  rewrite resolve_plain by assumption. simpl.
  rewrite (plain_select_rows admin_by_email) by reflexivity.
  f_equal. apply filter_ext. intros r. unfold where_holds. simpl. apply andb_true_r.
Qed.

Section Login.

Context {libraries : Libraries}.
Variable env : Env.


End Login.


(** ** Initialisation *)

(** [SELECT id FROM admins LIMIT 1] returns one row as soon as there is
    one. *)
Lemma any_admin_rows db t :
  get_table "admins" db = Some t -> has_col t "id" = true ->
  exec_select db any_admin []
  = inr (match t_rows t with
         | [] => []
         | first :: _ => [[("id", row_get "id" first)]]
         end).
Proof.
  intros Hget Hcol. unfold exec_select. simpl. rewrite Hget. simpl.
  rewrite Hcol. simpl.
  destruct (t_rows t) as [| first rest]; reflexivity.
Qed.

(** [SELECT COUNT( * ) as count FROM admins] *)
Lemma count_admins db t :
  get_table "admins" db = Some t ->
  exec_count db {| c_table := "admins"; c_as := "count"; c_where := [] |} []
  = inr [[("count", VInt (Z.of_nat (List.length (t_rows t))))]].
Proof.
  intros Hget. unfold exec_count. simpl. rewrite Hget. simpl.
  do 4 f_equal. f_equal. f_equal. induction (t_rows t); simpl; congruence.
Qed.

Section Init.

Context {libraries : Libraries}.
Variable env : Env.

(** Whenever an admin exists, [init] changes nothing and reports 1. *)
Lemma init_when_admin_exists now db req t :
  get_table "admins" db = Some t -> has_col t "id" = true ->
  t_rows t <> [] ->
  init env now db req = (db, already_exists 1).
Proof.
  intros Hget Hcol Hrows. unfold init.
  rewrite (any_admin_rows db t Hget Hcol).
  destruct (t_rows t) as [| first rest]; [congruence |]. reflexivity.
Qed.

Lemma check_counts now db req t :
  get_table "admins" db = Some t ->
  check now db req
  = (db, json (JObject [("hasAdmin", JBool (0 <? Z.of_nat (List.length (t_rows t))));
                        ("count", num (Z.of_nat (List.length (t_rows t))))])).
Proof.
  intros Hget. unfold check. rewrite (count_admins db t Hget). reflexivity.
Qed.

(** Without any admin, [init] inserts one row: the configured (or default)
    email, the bcrypt hash of the configured (or default) password at cost
    12, and answers with the password in clear. *)
Lemma init_creates_one_admin now db req t email password :
  get_table "admins" db = Some t ->
  t_columns t = ct_columns admins_ddl -> t_fks t = [] ->
  t_rows t = [] ->
  js_or (ADMIN_EMAIL env) (JString "admin@breastcancer.com") = JString email ->
  js_or (ADMIN_PASSWORD env) (JString "admin123") = JString password ->
  (String.length email <= 255)%nat ->
  (String.length (bcrypt_hash password 12) <= 255)%nat ->
  init env now db req
  = (set_table "admins"
       {| t_columns := t_columns t; t_fks := t_fks t;
          t_rows := [default_admin_row (t_next_id t) now email
                       (bcrypt_hash password 12)];
          t_next_id := t_next_id t + 1 |} db,
     admin_created (t_next_id t) email password).
Proof.
  intros Hget Hcols Hfks Hrows He Hp Hle Hlh. unfold init.
  rewrite (any_admin_rows db t Hget) by (rewrite (has_col_known _ _ _ Hcols); reflexivity).
  rewrite Hrows. cbn [bind List.length Nat.ltb Nat.leb].
  rewrite He, Hp. cbn [to_text].
  unfold exec_insert. cbn [check_params forallb defined andb guard bind].
  rewrite Hget. cbn [need bind List.length Nat.eqb guard].
  rewrite !(has_col_known _ _ _ Hcols). cbn -[Nat.leb String.length].
  unfold unique_ok, parent_ok. rewrite Hcols, Hfks, Hrows.
  apply Nat.leb_le in Hle, Hlh.
  cbn -[Nat.leb String.length]. rewrite Hle, Hlh.
  cbn -[Nat.leb String.length]. reflexivity.
Qed.

(** C7 (the code departs from the claim).  With two admins or more, [init]
    changes nothing, as claimed, but the count it reports is 1, the length
    of the answer to [SELECT id FROM admins LIMIT 1], while [check] reports
    the number of admins. *)
Theorem C7_init_reports_one_for_any_count now db req t :
  get_table "admins" db = Some t -> has_col t "id" = true ->
  (2 <= List.length (t_rows t))%nat ->
  init env now db req = (db, already_exists 1)
  /\ prop "count" (payload (snd (check now db req)))
     = num (Z.of_nat (List.length (t_rows t)))
  /\ 1 <> Z.of_nat (List.length (t_rows t)).
Proof.
  intros Hget Hcol Hlen. split; [| split].
  - apply (init_when_admin_exists now db req t Hget Hcol).
    destruct (t_rows t); simpl in *; [lia | discriminate].
  - rewrite (check_counts now db req t Hget). reflexivity.
  - lia.
Qed.

End Init.

Lemma C7_witness :
  init (libraries := toy_libraries) toy_env 7 portal (request [] [] [])
  = (portal, already_exists 1)
  /\ prop "count" (payload (snd (check (libraries := toy_libraries) 7 portal
                                   (request [] [] []))))
     = num 2
  /\ 1 <> 2.
Proof.
  apply (C7_init_reports_one_for_any_count (libraries := toy_libraries) toy_env 7
           portal (request [] [] []) portal_admins).
  - reflexivity.
  - reflexivity.
  - simpl. lia.
Defined.

(** ** Delete *)

Lemma exec_delete_by_id db table t s :
  get_table table db = Some t -> has_col t "id" = true ->
  exec_delete db table "id" [JString s]
  = inr (map (fun nt => (fst nt,
                         set_null_children table (filter (id_is s) (t_rows t)) (snd nt)))
           (set_table table
              (with_rows t (filter (fun r => negb (id_is s r)) (t_rows t))) db),
         {| insertId := 0;
            affectedRows := Z.of_nat (List.length (filter (id_is s) (t_rows t))) |}).
Proof.
  intros Hget Hcol. unfold exec_delete. simpl. rewrite Hget. simpl.
  rewrite Hcol. reflexivity.
Qed.

Lemma orphan_no_reference parent gone t r :
  forallb (fun fk => negb (fk_table fk =? parent)%string) (t_fks t) = true ->
  orphan parent gone t r = r.
Proof.
  unfold orphan. generalize r. induction (t_fks t) as [| fk fks IH]; simpl;
    intros r0 H; [reflexivity |].
  apply andb_true_iff in H. destruct H as (H1 & H2).
  apply negb_true_iff in H1. rewrite H1. simpl. now apply IH.
Qed.

Lemma set_null_children_rows parent gone t :
  forallb (fun fk => negb (fk_table fk =? parent)%string) (t_fks t) = true ->
  t_rows (set_null_children parent gone t) = t_rows t.
Proof.
  intros H. unfold set_null_children. simpl.
  rewrite <- (map_id (t_rows t)) at 2. apply map_ext.
  intros r. now apply orphan_no_reference.
Qed.

Lemma set_null_children_length parent gone t :
  List.length (t_rows (set_null_children parent gone t)) = List.length (t_rows t).
Proof. unfold set_null_children. simpl. apply length_map. Qed.

Lemma filter_all {A : Type} (f : A -> bool) (l : list A) :
  (forall x, In x l -> f x = true) -> filter f l = l.
Proof.
  induction l as [| x l IH]; simpl; intros H; [reflexivity |].
  rewrite (H x) by auto. f_equal. auto.
Qed.

Lemma delete_from_acknowledged table done failed now db req s t :
  get_table table db = Some t -> has_col t "id" = true ->
  forallb (fun fk => negb (fk_table fk =? table)%string) (t_fks t) = true ->
  assoc "id" (params req) = Some s ->
  exists db' t',
    delete_from table done failed now db req
    = (db', json (JObject [("message", JString done)]))
    /\ get_table table db' = Some t'
    /\ t_rows t' = filter (fun r => negb (id_is s r)) (t_rows t)
    /\ ((forall r, In r (t_rows t) -> id_is s r = false) -> t_rows t' = t_rows t)
    /\ forall other u,
         other <> table -> get_table other db = Some u ->
         exists u', get_table other db' = Some u'
                    /\ List.length (t_rows u') = List.length (t_rows u).
Proof.
  intros Hget Hcol Hfk Hid. unfold delete_from, field. rewrite Hid.
  rewrite (exec_delete_by_id db table t s Hget Hcol).
  eexists. eexists. split; [reflexivity |]. split; [| split; [| split]].
  - rewrite get_table_map, get_set_same. reflexivity.
  - rewrite set_null_children_rows; [reflexivity | exact Hfk].
  - intros Hno. rewrite set_null_children_rows by exact Hfk. simpl.
    apply filter_all. intros r Hr. now rewrite (Hno r Hr).
  - intros other u Hne Hu. rewrite get_table_map, get_set_other, Hu by exact Hne.
    simpl. eexists. split; [reflexivity |]. apply set_null_children_length.
Qed.

(** C9.  On the deployed schema, for each of the three delete routes and
    every id: the handler sends the DELETE without looking the row up first
    and answers 200 with the success message; afterwards the table holds
    exactly the rows whose id is not the requested one, so it is unchanged
    when no row has that id; and every other table keeps its number of
    rows. *)
Theorem C9_delete_acknowledged (d : Deletable) (now : Z) (db : Db)
    (req : Request) (s : string) :
  deployed db ->
  assoc "id" (params req) = Some s ->
  exists db' t t',
    delete_handler d now db req
    = (db', json (JObject [("message", JString (deleted_message d))]))
    /\ get_table (delete_table d) db = Some t
    /\ get_table (delete_table d) db' = Some t'
    /\ t_rows t' = filter (fun r => negb (id_is s r)) (t_rows t)
    /\ ((forall r, In r (t_rows t) -> id_is s r = false) -> t_rows t' = t_rows t)
    /\ forall other u,
         other <> delete_table d -> get_table other db = Some u ->
         exists u', get_table other db' = Some u'
                    /\ List.length (t_rows u') = List.length (t_rows u).
Proof.
  intros Hd Hid.
  destruct (deployed_cols db Hd)
    as (ta & tc & tm & tv & _ & (Hc & Hcc & Hcf) & (Hm & Hmc & Hmf)
        & (Hv & Hvc & Hvf)).
  destruct d; cbn [delete_handler delete_table deleted_message];
    unfold delete_category, delete_material, delete_video.
  - destruct (delete_from_acknowledged "categories" "Category deleted successfully"
                "Failed to delete category" now db req s tc Hc)
      as (db' & t' & H1 & H2 & H3 & H4 & H5);
      [known_col Hcc | now rewrite Hcf | exact Hid |].
    exists db', tc, t'. auto 6.
  - destruct (delete_from_acknowledged "materials" "Material deleted successfully"
                "Failed to delete material" now db req s tm Hm)
      as (db' & t' & H1 & H2 & H3 & H4 & H5);
      [known_col Hmc | now rewrite Hmf | exact Hid |].
    exists db', tm, t'. auto 6.
  - destruct (delete_from_acknowledged "videos" "Video deleted successfully"
                "Failed to delete video" now db req s tv Hv)
      as (db' & t' & H1 & H2 & H3 & H4 & H5);
      [known_col Hvc | now rewrite Hvf | exact Hid |].
    exists db', tv, t'. auto 6.
Qed.

Lemma C9_witness :
  exists db' t t',
    delete_handler DMaterial 7 portal (request [] [("id", "404")] [])
    = (db', json (JObject [("message", JString "Material deleted successfully")]))
    /\ get_table "materials" portal = Some t
    /\ get_table "materials" db' = Some t'
    /\ t_rows t' = filter (fun r => negb (id_is "404" r)) (t_rows t)
    /\ ((forall r, In r (t_rows t) -> id_is "404" r = false) -> t_rows t' = t_rows t)
    /\ forall other u,
         other <> "materials" -> get_table other portal = Some u ->
         exists u', get_table other db' = Some u'
                    /\ List.length (t_rows u') = List.length (t_rows u).
Proof.
  apply (C9_delete_acknowledged DMaterial 7 portal
           (request [] [("id", "404")] []) "404").
  - apply database_deployed.
  - reflexivity.
Defined.

(** ** Material update *)

(** ON UPDATE CURRENT_TIMESTAMP touches [updated_at] only. *)
Lemma touch_materials now t old new c :
  t_columns t = materials_columns_with_author ->
  (c =? "updated_at")%string = false ->
  row_get c (touch now t old new) = row_get c new.
Proof.
  intros Hc Hne. unfold touch. rewrite Hc.
  destruct (row_eqb old new); [reflexivity |]. simpl.
  now apply row_get_set_other.
Qed.

Lemma field_cases (k : string) (l : list (string * string)) :
  field k l = JUndefined \/ exists s, field k l = JString s.
Proof. unfold field. destruct (assoc k l); eauto. Qed.

Lemma coerce_required_text ty k l v :
  ty = TVarchar 255 \/ ty = TText ->
  coerce ty (field k l) = inr v ->
  exists s, field k l = JString s /\ v = VStr s.
Proof.
  intros Hty Hc.
  destruct (field_cases k l) as [E | (s & E)]; rewrite E in *.
  - discriminate.
  - exists s. split; [reflexivity |].
    destruct Hty as [-> | ->]; simpl in Hc;
      match type of Hc with (if ?b then _ else _) = _ => destruct b end;
      congruence.
Qed.

Lemma coerce_optional_text k l v :
  coerce (TVarchar 255) (js_or (field k l) JNull) = inr v ->
  v = match field k l with
      | JString s => if (s =? "")%string then VNull else VStr s
      | _ => VNull
      end.
Proof.
  destruct (field_cases k l) as [E | (s & E)]; rewrite E; unfold js_or; simpl.
  - congruence.
  - destruct (s =? "")%string; simpl; [congruence |].
    destruct (Nat.leb (String.length s) 255); congruence.
Qed.

Lemma coerce_optional_int k l v :
  coerce TInt (js_or (field k l) JNull) = inr v ->
  match field k l with
  | JString s =>
      if (s =? "")%string then v = VNull
      else exists n, StringToNumber s = JInt n /\ v = VInt n
  | _ => v = VNull
  end.
Proof.
  destruct (field_cases k l) as [E | (s & E)]; rewrite E; unfold js_or; simpl.
  - congruence.
  - destruct (s =? "")%string; simpl; [congruence |].
    destruct (all_ws s); [discriminate |].
    destruct (StringToNumber s); try discriminate.
    intros H. injection H as <-. eauto.
Qed.

Lemma coerce_status k l ms v :
  coerce (TEnum ms) (js_or (field k l) (JString "published")) = inr v ->
  exists m,
    find (str_ceq (match field k l with
                   | JString s => if (s =? "")%string then "published" else s
                   | _ => "published"
                   end)) ms = Some m
    /\ v = VStr m.
Proof.
  destruct (field_cases k l) as [E | (s & E)]; rewrite E; unfold js_or; simpl.
  - destruct (find _ ms) as [m |]; [| discriminate].
    intros H. injection H as <-. eauto.
  - destruct (s =? "")%string; simpl;
      (destruct (find _ ms) as [m |]; [| discriminate]);
      intros H; injection H as <-; eauto.
Qed.

Ltac known_find H Hc :=
  rewrite (find_col_known _ _ _ Hc) in H; simpl in H; injection H as <-.

Ltac open_assign H d v F C N :=
  apply assign_cons in H; destruct H as (d & v & F & C & N & H).

Ltac stored_fields Hc H :=
  let d1 := fresh "d" in let v1 := fresh "v" in let F1 := fresh "F" in
  let C1 := fresh "C" in let N1 := fresh "N" in
  let d2 := fresh "d" in let v2 := fresh "v" in let F2 := fresh "F" in
  let C2 := fresh "C" in let N2 := fresh "N" in
  let d3 := fresh "d" in let v3 := fresh "v" in let F3 := fresh "F" in
  let C3 := fresh "C" in let N3 := fresh "N" in
  let d4 := fresh "d" in let v4 := fresh "v" in let F4 := fresh "F" in
  let C4 := fresh "C" in let N4 := fresh "N" in
  let d5 := fresh "d" in let v5 := fresh "v" in let F5 := fresh "F" in
  let C5 := fresh "C" in let N5 := fresh "N" in
  let s1 := fresh "s" in let E1 := fresh "E" in
  let s2 := fresh "s" in let E2 := fresh "E" in
  let m := fresh "m" in let Hm := fresh "Hm" in
  open_assign H d1 v1 F1 C1 N1; open_assign H d2 v2 F2 C2 N2;
  open_assign H d3 v3 F3 C3 N3; open_assign H d4 v4 F4 C4 N4;
  open_assign H d5 v5 F5 C5 N5;
  known_find F1 Hc; known_find F2 Hc; known_find F3 Hc; known_find F4 Hc;
  known_find F5 Hc;
  destruct (coerce_required_text _ _ _ _ (or_introl eq_refl) C1) as (s1 & E1 & ->);
  destruct (coerce_required_text _ _ _ _ (or_intror eq_refl) C2) as (s2 & E2 & ->);
  apply coerce_optional_text in C3;
  apply coerce_optional_int in C4;
  apply coerce_status in C5; destruct C5 as (m & Hm & ->).

Lemma stored_without_file req t old stored :
  t_columns t = materials_columns_with_author ->
  file req = None ->
  assign t
    [("title", field "title" (body req));
     ("content", field "content" (body req));
     ("author", js_or (field "author" (body req)) JNull);
     ("category_id", js_or (field "category_id" (body req)) JNull);
     ("status", js_or (field "status" (body req)) (JString "published"))]
    old = inr stored ->
  forall now, stored_by_update req old (touch now t old stored).
Proof.
  intros Hc Hfile H now.
  stored_fields Hc H.
  simpl in H. injection H as <-.
  unfold stored_by_update. rewrite Hfile.
  rewrite !(touch_materials now t _ _ _ Hc) by reflexivity.
  repeat (rewrite ?row_get_set_same; rewrite ?row_get_set_other by reflexivity).
  repeat split; eauto.
Qed.

Lemma stored_with_file req t old stored f :
  t_columns t = materials_columns_with_author ->
  file req = Some f ->
  assign t
    [("title", field "title" (body req));
     ("content", field "content" (body req));
     ("author", js_or (field "author" (body req)) JNull);
     ("category_id", js_or (field "category_id" (body req)) JNull);
     ("status", js_or (field "status" (body req)) (JString "published"));
     ("image", JString ("/uploads/images/" ++ filename f)%string)]
    old = inr stored ->
  forall now, stored_by_update req old (touch now t old stored).
Proof.
  intros Hc Hfile H now.
  stored_fields Hc H.
  open_assign H d6 v6 F6 C6 N6. known_find F6 Hc.
  simpl in C6.
  match type of C6 with (if ?b then _ else _) = _ => destruct b end;
    [| discriminate]. injection C6 as <-.
  simpl in H. injection H as <-.
  unfold stored_by_update. rewrite Hfile.
  rewrite !(touch_materials now t _ _ _ Hc) by reflexivity.
  repeat (rewrite ?row_get_set_same; rewrite ?row_get_set_other by reflexivity).
  repeat split; eauto.
Qed.

(** C5 as stated fails: the request leaves [status] (and [author]) out; the
    author is stored as NULL, as claimed, but the status is stored as
    'published', not NULL (row 2 was a draft). *)
Lemma C5_omitted_status_is_published :
  status (snd (put_material 7 portal retitle)) = 200
  /\ field "status" (body retitle) = JUndefined
  /\ map (row_get "status") (materials_of (fst (put_material 7 portal retitle)))
     = [VStr "published"; VStr "published"; VStr "published"]
  /\ map (row_get "author") (materials_of (fst (put_material 7 portal retitle)))
     = [VStr "Ann"; VNull; VStr "Ann"].
Proof. vm_compute. repeat split; reflexivity. Qed.

(** C5, amended.  On the deployed schema, when the update answers 200: the
    rows of [materials] whose id is not the requested one are as they were;
    in a row whose id is, title and content are those of the body, author
    and category_id are those of the body, or NULL when left out or empty,
    status is the one of the body, or 'published' when left out or empty,
    and image is the path of the uploaded file if the request has one and
    else the image the row had; no other table is changed. *)
Theorem C5_material_update (now : Z) (db db' : Db) (req : Request)
    (resp : Response) :
  deployed db ->
  put_material now db req = (db', resp) ->
  status resp = 200 ->
  exists t rows',
    get_table "materials" db = Some t
    /\ db' = set_table "materials" (with_rows t rows') db
    /\ Forall2 (fun old new =>
                  if sql_eq_param (row_get "id" old) (field "id" (params req))
                  then stored_by_update req old new
                  else new = old)
               (t_rows t) rows'.
Proof.
  intros Hd H Hs.
  destruct (deployed_cols db Hd)
    as (ta & tc & tm & tv & _ & _ & (Hm & Hmc & Hmf) & _).
  unfold put_material in H.
  destruct (file req) as [f |] eqn:Hfile; cbn [truthy] in H.
  - change (negb ("/uploads/images/" ++ filename f =? "")%string) with true in H.
    cbv iota beta in H.
    match type of H with
    | match ?e with _ => _ end = _ => destruct e as [err | [db1 hdr]] eqn:E
    end; injection H as <- <-; [discriminate |].
    unfold exec_update in E. inv_res_keep E. apply need_inr in E1.
    rewrite Hm in E1. injection E1 as <-. subst db1.
    apply update_rows_spec in E4.
    cbn [app combine nth List.length] in E4.
    exists tm, a3. split; [exact Hm |]. split; [reflexivity |].
    eapply Forall2_impl; [| exact E4]. cbn beta.
    intros old new.
    destruct (sql_eq_param (row_get "id" old) (field "id" (params req)));
      [| tauto].
    intros (stored & Ha & ->).
    eapply stored_with_file; eauto.
  - cbv iota beta in H.
    match type of H with
    | match ?e with _ => _ end = _ => destruct e as [err | [db1 hdr]] eqn:E
    end; injection H as <- <-; [discriminate |].
    unfold exec_update in E. inv_res_keep E. apply need_inr in E1.
    rewrite Hm in E1. injection E1 as <-. subst db1.
    apply update_rows_spec in E4.
    cbn [app combine nth List.length] in E4.
    exists tm, a3. split; [exact Hm |]. split; [reflexivity |].
    eapply Forall2_impl; [| exact E4]. cbn beta.
    intros old new.
    destruct (sql_eq_param (row_get "id" old) (field "id" (params req)));
      [| tauto].
    intros (stored & Ha & ->).
    eapply stored_without_file; eauto.
Qed.

Lemma C5_witness :
  exists t rows',
    get_table "materials" portal = Some t
    /\ fst (put_material 7 portal (with_file "image-7-42.png" retitle))
       = set_table "materials" (with_rows t rows') portal
    /\ Forall2 (fun old new =>
                  if sql_eq_param (row_get "id" old) (JString "2")
                  then stored_by_update (with_file "image-7-42.png" retitle) old new
                  else new = old)
               (t_rows t) rows'.
Proof.
  apply (C5_material_update 7 portal
           (fst (put_material 7 portal (with_file "image-7-42.png" retitle)))
           (with_file "image-7-42.png" retitle)
           (snd (put_material 7 portal (with_file "image-7-42.png" retitle)))).
  - apply database_deployed.
  - vm_compute. reflexivity.
  - vm_compute. reflexivity.
Defined.

End AdminFacts.

(* ================================================================== *)
(** * The public listings: order, bounds and windows *)
(* ================================================================== *)

Module OrderFacts.
Import Js Sql Schema Http Api Admin Upload Script Spec Examples StoreFacts ApiFacts SchemaFacts AdminFacts.
#[local] Open Scope string_scope.
#[local] Open Scope Z_scope.
#[local] Open Scope list_scope.

#[local] Arguments resolve : simpl never.
#[local] Arguments has_col : simpl never.
#[local] Arguments project : simpl never.
#[local] Arguments where_holds : simpl never.
#[local] Arguments prop : simpl never.
#[local] Arguments js_of_row : simpl never.

(** ** Order *)

Lemma FOP_insert_by {A : Type} (R : A -> A -> Prop) (before : A -> A -> bool) :
  (forall x y, before x y = true -> R x y) ->
  (forall x y, before x y = false -> R y x) ->
  (forall x y z, R x y -> R y z -> R x z) ->
  forall x l, ForallOrdPairs R l -> ForallOrdPairs R (insert_by before x l).
Proof.
  intros Ht Hf Htr x l. induction l as [| y l IH]; intros H; simpl.
  - constructor; [constructor | constructor].
  - inversion H as [| ? ? Hy Hl]; subst.
    destruct (before x y) eqn:E.
    + constructor; [| exact H].
      constructor; [now apply Ht |].
      apply Forall_forall. intros z Hz. rewrite Forall_forall in Hy.
      eapply Htr; [apply Ht; exact E | now apply Hy].
    + constructor; [| now apply IH].
      apply Forall_forall. intros z Hz. apply In_insert_by in Hz.
      destruct Hz as [-> | Hz]; [now apply Hf |].
      rewrite Forall_forall in Hy. now apply Hy.
Qed.

Lemma FOP_sort_by {A : Type} (R : A -> A -> Prop) (before : A -> A -> bool) :
  (forall x y, before x y = true -> R x y) ->
  (forall x y, before x y = false -> R y x) ->
  (forall x y z, R x y -> R y z -> R x z) ->
  forall l, ForallOrdPairs R (sort_by before l).
Proof.
  intros Ht Hf Htr l. induction l as [| x l IH]; simpl; [constructor |].
  now apply FOP_insert_by.
Qed.

Lemma later_or_equal_total a b : later_or_equal a b = false -> later_or_equal b a = true.
Proof. destruct a, b; simpl; try congruence; intros H; apply Z.leb_gt in H; apply Z.leb_le; lia. Qed.

Lemma later_or_equal_trans a b c :
  later_or_equal a b = true -> later_or_equal b c = true -> later_or_equal a c = true.
Proof.
  destruct a, b, c; simpl; try congruence.
  intros H1 H2. apply Z.leb_le in H1, H2. apply Z.leb_le. lia.
Qed.

Lemma FOP_sort_desc {A : Type} (key : A -> SqlVal) (l : list A) :
  ForallOrdPairs (fun x y => later_or_equal (key x) (key y) = true) (sort_desc key l).
Proof.
  apply FOP_sort_by; [auto | |].
  - intros x y. apply later_or_equal_total.
  - intros x y z. apply later_or_equal_trans.
Qed.

Lemma FOP_app_inv {A : Type} (R : A -> A -> Prop) (l l' : list A) :
  ForallOrdPairs R (l ++ l') -> ForallOrdPairs R l /\ ForallOrdPairs R l'.
Proof.
  induction l as [| x l IH]; simpl; intros H; [split; [constructor | exact H] |].
  inversion H as [| ? ? Hx Hl]; subst. destruct (IH Hl) as [H1 H2].
  split; [| exact H2]. constructor; [| exact H1].
  apply Forall_app in Hx. tauto.
Qed.

Lemma FOP_firstn {A : Type} (R : A -> A -> Prop) (n : nat) (l : list A) :
  ForallOrdPairs R l -> ForallOrdPairs R (firstn n l).
Proof.
  intros H. rewrite <- (firstn_skipn n l) in H. now apply FOP_app_inv in H.
Qed.

Lemma FOP_skipn {A : Type} (R : A -> A -> Prop) (n : nat) (l : list A) :
  ForallOrdPairs R l -> ForallOrdPairs R (skipn n l).
Proof.
  intros H. rewrite <- (firstn_skipn n l) in H. now apply FOP_app_inv in H.
Qed.

Lemma FOP_paginate {A : Type} (R : A -> A -> Prop) lim off (l : list A) :
  ForallOrdPairs R l -> ForallOrdPairs R (paginate lim off l).
Proof.
  intros H. destruct lim as [n |]; simpl; [| exact H].
  now apply FOP_firstn, FOP_skipn.
Qed.

Lemma FOP_impl {A : Type} (R R' : A -> A -> Prop) (l : list A) :
  (forall x y, R x y -> R' x y) -> ForallOrdPairs R l -> ForallOrdPairs R' l.
Proof.
  intros Hi. induction 1 as [| x l Hx Hl IH]; constructor; [| exact IH].
  eapply Forall_impl; [| exact Hx]. apply Hi.
Qed.

Lemma FOP_map {A B : Type} (R : B -> B -> Prop) (f : A -> B) (l : list A) :
  ForallOrdPairs (fun x y => R (f x) (f y)) l -> ForallOrdPairs R (map f l).
Proof.
  induction 1 as [| x l Hx Hl IH]; simpl; constructor; [| exact IH].
  apply Forall_map. exact Hx.
Qed.

(** ** What a successful query returned *)

Lemma exec_select_inv db s ps rows :
  exec_select db s ps = inr rows ->
  exists t conds rest lim off joined,
    forallb defined ps = true
    /\ get_table (s_table s) db = Some t
    /\ bind_where (s_alias s) t (s_where s) ps = inr (conds, rest)
    /\ bind_limit s rest = inr (lim, off, [])
    /\ joined_rows db s t = inr joined
    /\ rows = map (project s)
                (paginate lim off
                   (if s_order_created_desc s
                    then sort_desc (fun x => row_get "created_at" (fst x))
                           (filter (fun x => where_holds conds (fst x)) joined)
                    else filter (fun x => where_holds conds (fst x)) joined)).
Proof.
  unfold exec_select, check_params. intros H. inv_res H.
  apply guard_inr in E. apply need_inr in E0. apply no_more_inr in E3. subst.
  do 6 eexists. repeat split; eauto.
Qed.

Lemma assoc_app_none {A : Type} (k : string) (l l' : list (string * A)) :
  assoc k l' = None -> assoc k (l ++ l') = assoc k l.
Proof.
  intros H. induction l as [| [k' x] l IH]; simpl; [exact H |].
  destruct (k =? k')%string; auto.
Qed.

Lemma row_get_app_other (k : string) (r extra : Row) :
  assoc k extra = None -> row_get k (r ++ extra) = row_get k r.
Proof. intros H. unfold row_get. now rewrite assoc_app_none. Qed.

Lemma project_star_get (s : Select) (x : Row * SqlVal) (k : string) :
  s_columns s = None ->
  (k =? "category_name")%string = false -> (k =? "content_type")%string = false ->
  row_get k (project s x) = row_get k (fst x).
Proof.
  intros Hs H1 H2. unfold project. rewrite Hs.
  apply row_get_app_other.
  destruct (s_join_categories s), (s_content_type s); simpl;
    rewrite ?H1, ?H2; reflexivity.
Qed.

(** The rows of an ordered query come newest first. *)
Lemma exec_select_newest_first db s ps rows :
  exec_select db s ps = inr rows ->
  s_order_created_desc s = true -> s_columns s = None ->
  ForallOrdPairs (fun a b => later_or_equal a b = true)
    (map (row_get "created_at") rows).
Proof.
  intros H Ho Hc. apply exec_select_inv in H.
  destruct H as (t & conds & rest & lim & off & joined & _ & _ & _ & _ & _ & ->).
  rewrite Ho. rewrite map_map.
  apply FOP_map. apply FOP_paginate.
  eapply FOP_impl;
    [| apply (FOP_sort_desc (fun x : Row * SqlVal => row_get "created_at" (fst x)))].
  cbn beta. intros a b Hab.
  rewrite !(project_star_get s _ "created_at" Hc eq_refl eq_refl). exact Hab.
Qed.

Lemma limit_value_inr p n : limit_value p = inr n -> p = num (Z.of_nat n).
Proof.
  destruct p as [| | | [| |z] | | |]; simpl; try discriminate.
  destruct (0 <=? z) eqn:E; [| discriminate].
  intros H. injection H as <-. apply Z.leb_le in E. unfold num. now rewrite Z2Nat.id.
Qed.

(** The rows of a query with [LIMIT ?] are at most as many as the
    parameter says. *)
Lemma exec_select_bounded db s ps rows :
  exec_select db s ps = inr rows ->
  s_limit s = Some LimitParam ->
  exists conds t p rest lim off,
    get_table (s_table s) db = Some t
    /\ bind_where (s_alias s) t (s_where s) ps = inr (conds, p :: rest)
    /\ p = num (Z.of_nat lim)
    /\ bind_limit s (p :: rest) = inr (Some lim, off, [])
    /\ (List.length rows <= lim)%nat.
Proof.
  intros H Hl. apply exec_select_inv in H.
  destruct H as (t & conds & rest & lim & off & joined & _ & Hg & Hb & Hlim & _ & ->).
  unfold bind_limit in Hlim. rewrite Hl in Hlim.
  pose proof Hlim as Hlim'.
  inv_res_keep Hlim. subst.
  destruct rest as [| p rest']; [discriminate |].
  cbn [take_param bind] in E.
  destruct (limit_value p) as [e | n'] eqn:Ep; [discriminate |].
  cbn [bind] in E. injection E as <- <-.
  apply limit_value_inr in Ep. subst.
  exists conds, t, (num (Z.of_nat n')), rest', n', off.
  repeat split; auto.
  - unfold bind_limit. rewrite Hl. exact Hlim'.
  - rewrite length_map. simpl. apply firstn_le_length.
Qed.


Lemma listing_ordered_limited (p : Paginated) (req : Request) :
  s_order_created_desc (l_query (listing_of p req)) = true
  /\ s_limit (l_query (listing_of p req)) = Some LimitParam.
Proof. destruct p; split; reflexivity. Qed.

Lemma run_listing_data db l page limit resp :
  run_listing db l page limit = inr resp ->
  exists rows, exec_select db (l_query l) (l_params l) = inr rows
               /\ prop "data" (payload resp) = js_of_rows rows.
Proof.
  unfold run_listing, paginated. intros H. inv_res H.
  eexists. split; [eassumption | reflexivity].
Qed.

(** X1.  Every paginated listing of the public API (the materials, the videos,
    the materials and the videos of a category, the materials of an author)
    that answers 200 carries in [data] at most [parseInt(limit)] rows, and
    these rows are ordered by [created_at] from the newest to the oldest. *)
Theorem listing_newest_first_within_limit (p : Paginated) (db : Db) (req : Request) :
  status (serve (route_of p) db req) = 200 ->
  exists rows n,
    prop "data" (payload (serve (route_of p) db req)) = js_of_rows rows
    /\ newest_first (times rows)
    /\ parseInt (limit_of req) = JInt (Z.of_nat n)
    /\ (List.length rows <= n)%nat.
Proof.
  intros H. rewrite serve_paginated in *. apply catch_200 in H.
  destruct (listing_ordered_limited p req) as [Ho Hl].
  pose proof (mirrored_listing p req) as Hm.
  pose proof (run_listing_consistent _ _ _ _ _ _ Hm H) as (t & conds & Hget & Hb & _).
  destruct (run_listing_data _ _ _ _ _ H) as (rows & Hsel & Hdata).
  destruct (exec_select_bounded _ _ _ _ Hsel Hl)
    as (conds' & t' & x & rest & lim & off & Hget' & Hb' & Hx & _ & Hlen).
  rewrite (m_table _ _ _ _ Hm) in Hget'. rewrite Hget in Hget'. injection Hget' as <-.
  rewrite Hb in Hb'. injection Hb' as _ Hp _.
  exists rows, lim. repeat split.
  - exact Hdata.
  - apply (exec_select_newest_first _ _ _ _ Hsel Ho (m_star _ _ _ _ Hm)).
  - rewrite Hx in Hp. unfold num in Hp. congruence.
  - exact Hlen.
Qed.

Lemma listing_newest_first_within_limit_witness :
  exists rows n,
    prop "data" (payload (get_materials twelve second_page)) = js_of_rows rows
    /\ newest_first (times rows)
    /\ parseInt (limit_of second_page) = JInt (Z.of_nat n)
    /\ (List.length rows <= n)%nat.
Proof.
  apply (listing_newest_first_within_limit PMaterials twelve second_page).
  reflexivity.
Defined.

Lemma latest_select_shape table alias tag :
  s_order_created_desc (latest_select table alias tag) = true
  /\ s_limit (latest_select table alias tag) = Some LimitParam
  /\ s_columns (latest_select table alias tag) = None
  /\ s_where (latest_select table alias tag) = [PEqLit (qcol alias "status") "published"].
Proof. repeat split. Qed.

Lemma latest_rows db table alias tag p rows :
  exec_select db (latest_select table alias tag) [p] = inr rows ->
  exists n, p = num (Z.of_nat n) /\ (List.length rows <= n)%nat
            /\ newest_first (times rows).
Proof.
  intros H.
  destruct (exec_select_bounded _ _ _ _ H eq_refl)
    as (conds & t & x & rest & lim & off & Hget & Hb & Hx & _ & Hlen).
  cbn [latest_select s_where s_alias bind_where bind_pred] in Hb.
  inv_res_keep Hb. inv_res_keep E. injection E0 as <- <-. subst.
  match goal with X : [p] = _ :: _ |- _ => injection X as -> _ end.
  exists lim. repeat split; auto.
  apply (exec_select_newest_first _ _ _ _ H eq_refl eq_refl).
Qed.

(** X2.  When [GET /latest] answers 200, [data] holds at most [parseInt(limit)]
    materials and at most as many videos, each list ordered by [created_at]
    from the newest to the oldest; the bound is 5 when the request has no
    [limit]. *)
Theorem latest_newest_first_within_limit (db : Db) (req : Request) :
  status (latest db req) = 200 ->
  exists ms vs n,
    prop "data" (payload (latest db req))
    = JObject [("materials", js_of_rows ms); ("videos", js_of_rows vs)]
    /\ parseInt (js_default (field "limit" (query req)) (num 5)) = JInt (Z.of_nat n)
    /\ (field "limit" (query req) = JUndefined -> n = 5%nat)
    /\ (List.length ms <= n)%nat /\ (List.length vs <= n)%nat
    /\ newest_first (times ms) /\ newest_first (times vs).
Proof.
  intros H. unfold latest in *. apply catch_200 in H.
  match type of H with ?r = inr (catch ?r' _) => destruct r as [e | resp] eqn:E end;
    [discriminate |].
  cbn [catch]. clear H. inv_res_keep E. subst resp.
  destruct (latest_rows _ _ _ _ _ _ E0) as (n & Hn & Hm & Hom).
  destruct (latest_rows _ _ _ _ _ _ E1) as (n' & Hn' & Hv & Hov).
  assert (n' = n) as -> by (unfold num in *; rewrite Hn in Hn'; injection Hn'; lia).
  exists a, a0, n. repeat split; auto.
  - injection Hn as Hn. exact Hn.
  - intros Hu. rewrite Hu in Hn. cbn in Hn. unfold num in Hn. injection Hn. lia.
Qed.

Lemma latest_newest_first_within_limit_witness :
  exists ms vs n,
    prop "data" (payload (latest portal (request [] [] [])))
    = JObject [("materials", js_of_rows ms); ("videos", js_of_rows vs)]
    /\ parseInt (js_default (field "limit" (query (request [] [] []))) (num 5))
       = JInt (Z.of_nat n)
    /\ (field "limit" (query (request [] [] [])) = JUndefined -> n = 5%nat)
    /\ (List.length ms <= n)%nat /\ (List.length vs <= n)%nat
    /\ newest_first (times ms) /\ newest_first (times vs).
Proof.
  apply (latest_newest_first_within_limit portal (request [] [] [])).
  reflexivity.
Defined.

(** ** The collation is an equivalence *)

Lemma ceq_refl a : ceq a a = true.
Proof. unfold ceq. apply Ascii.eqb_refl. Qed.

Lemma ceq_sym a b : ceq a b = ceq b a.
Proof. unfold ceq. apply Ascii.eqb_sym. Qed.

Lemma ceq_trans a b c : ceq a b = true -> ceq b c = true -> ceq a c = true.
Proof.
  unfold ceq. intros H1 H2. apply Ascii.eqb_eq in H1, H2. apply Ascii.eqb_eq. congruence.
Qed.

Lemma str_ceq_refl a : str_ceq a a = true.
Proof. induction a as [| x a IH]; simpl; [reflexivity |]. now rewrite ceq_refl. Qed.

Lemma str_ceq_sym a : forall b, str_ceq a b = str_ceq b a.
Proof.
  induction a as [| x a IH]; intros [| y b]; simpl; try reflexivity.
  now rewrite ceq_sym, IH.
Qed.

Lemma str_ceq_trans a : forall b c,
  str_ceq a b = true -> str_ceq b c = true -> str_ceq a c = true.
Proof.
  induction a as [| x a IH]; intros [| y b] [| z c]; simpl; try congruence.
  intros H1 H2. apply andb_true_iff in H1, H2. destruct H1, H2.
  apply andb_true_iff. split; [eapply ceq_trans | eapply IH]; eauto.
Qed.

Lemma sql_eq_sym a b : sql_eq a b = sql_eq b a.
Proof.
  destruct a, b; simpl; try reflexivity; [apply Z.eqb_sym | apply str_ceq_sym].
Qed.

Lemma sql_eq_trans a b c : sql_eq a b = true -> sql_eq b c = true -> sql_eq a c = true.
Proof.
  destruct a, b, c; simpl; try congruence.
  - intros H1 H2. apply Z.eqb_eq in H1, H2. apply Z.eqb_eq. congruence.
  - apply str_ceq_trans.
Qed.

(** ** Joins and lengths *)



Lemma at_most_one_id (v : SqlVal) (cats : list Row) :
  distinct_ids cats ->
  (List.length (filter (fun c => sql_eq v (row_get "id" c)) cats) <= 1)%nat.
Proof.
  induction 1 as [| c cats Hc Hd IH]; simpl; [lia |].
  destruct (sql_eq v (row_get "id" c)) eqn:E; [| exact IH].
  rewrite filter_none; [simpl; lia |].
  intros c' Hc'. rewrite Forall_forall in Hc. specialize (Hc c' Hc').
  destruct (sql_eq v (row_get "id" c')) eqn:E'; [| reflexivity].
  rewrite sql_eq_sym in E. rewrite (sql_eq_trans _ _ _ E E') in Hc. discriminate.
Qed.



Lemma bind_limit_unwindowed s rest :
  bind_limit (unwindowed s) rest = inr (None, 0%nat, rest).
Proof. reflexivity. Qed.

Lemma joined_rows_unwindowed db s t : joined_rows db (unwindowed s) t = joined_rows db s t.
Proof. reflexivity. Qed.

Lemma project_unwindowed s x : project (unwindowed s) x = project s x.
Proof. reflexivity. Qed.

(** ** A WHERE clause takes its parameters from the front *)










End OrderFacts.

(* ================================================================== *)
(** * What a search returns *)
(* ================================================================== *)

Module SearchFacts.
Import Js Sql Schema Http Api Admin Upload Script Spec Examples StoreFacts ApiFacts SchemaFacts AdminFacts OrderFacts.
#[local] Open Scope string_scope.
#[local] Open Scope Z_scope.
#[local] Open Scope list_scope.

#[local] Arguments resolve : simpl never.
#[local] Arguments has_col : simpl never.
#[local] Arguments project : simpl never.
#[local] Arguments where_holds : simpl never.
#[local] Arguments prop : simpl never.
#[local] Arguments js_of_row : simpl never.

(** ** What the search returns *)

Ltac have_col Hcols q c :=
  let Hc := fresh "Hcol" in
  assert (has_col _ c = true) as Hc by (apply (Hcols q c); simpl; auto 10).





End SearchFacts.

(* ================================================================== *)
(** * The schema, the authors and the categories *)
(* ================================================================== *)

Module CatalogFacts.
Import Js Sql Schema Http Api Admin Upload Script Spec Examples StoreFacts ApiFacts SchemaFacts AdminFacts OrderFacts SearchFacts.
#[local] Open Scope string_scope.
#[local] Open Scope Z_scope.
#[local] Open Scope list_scope.

#[local] Arguments resolve : simpl never.
#[local] Arguments has_col : simpl never.
#[local] Arguments project : simpl never.
#[local] Arguments where_holds : simpl never.
#[local] Arguments prop : simpl never.
#[local] Arguments js_of_row : simpl never.

(** ** CREATE TABLE IF NOT EXISTS *)

Lemma get_create db ct name :
  get_table name (create_table_if_not_exists db ct)
  = if (name =? ct_name ct)%string
    then Some (match get_table name db with Some t => t | None => empty_table ct end)
    else get_table name db.
Proof.
  destruct (name =? ct_name ct)%string eqn:E.
  - apply String.eqb_eq in E. subst name.
    destruct (get_table (ct_name ct) db) as [t |] eqn:Eg.
    + unfold create_table_if_not_exists. now rewrite Eg.
    + now apply get_create_new.
  - apply String.eqb_neq in E. now apply get_create_other.
Qed.

Lemma create_existing db ct t :
  get_table (ct_name ct) db = Some t -> create_table_if_not_exists db ct = db.
Proof. intros H. unfold create_table_if_not_exists. now rewrite H. Qed.

(** X5.  [initDatabase] creates each of the four tables that is missing, empty
    and with the columns and foreign keys of its CREATE TABLE statement; a
    table that exists is left as it is, rows and columns alike, and no other
    table is touched.  Running it a second time changes nothing. *)
Theorem initDatabase_creates_missing_only (db : Db) :
  (forall ct, In ct [admins_ddl; categories_ddl; materials_ddl; videos_ddl] ->
     get_table (ct_name ct) (initDatabase db)
     = Some (match get_table (ct_name ct) db with
             | Some t => t
             | None => empty_table ct
             end))
  /\ (forall name, ~ In name ["admins"; "categories"; "materials"; "videos"] ->
        get_table name (initDatabase db) = get_table name db)
  /\ initDatabase (initDatabase db) = initDatabase db.
Proof.
  assert (forall d name,
             get_table name (initDatabase d)
             = if existsb (String.eqb name) ["admins"; "categories"; "materials"; "videos"]
               then Some (match get_table name d with
                          | Some t => t
                          | None =>
                              empty_table
                                (if (name =? "admins")%string then admins_ddl
                                 else if (name =? "categories")%string then categories_ddl
                                 else if (name =? "materials")%string then materials_ddl
                                 else videos_ddl)
                          end)
               else get_table name d) as Hget.
  { intros d name. unfold initDatabase. cbn [fold_left].
    rewrite !get_create. cbn [ct_name admins_ddl categories_ddl materials_ddl videos_ddl existsb].
    destruct (name =? "admins")%string eqn:E1;
      [apply String.eqb_eq in E1; subst; cbn; destruct (get_table "admins" d); reflexivity |].
    destruct (name =? "categories")%string eqn:E2;
      [apply String.eqb_eq in E2; subst; cbn; destruct (get_table "categories" d); reflexivity |].
    destruct (name =? "materials")%string eqn:E3;
      [apply String.eqb_eq in E3; subst; cbn; destruct (get_table "materials" d); reflexivity |].
    destruct (name =? "videos")%string eqn:E4; cbn; [| reflexivity].
    destruct (get_table name d); reflexivity. }
  split; [| split].
  - intros ct Hin. rewrite Hget.
    cbn in Hin. destruct Hin as [<- | [<- | [<- | [<- | []]]]]; reflexivity.
  - intros name Hn. rewrite Hget.
    destruct (existsb (String.eqb name) ["admins"; "categories"; "materials"; "videos"]) eqn:E;
      [| reflexivity].
    exfalso. apply Hn. apply existsb_exists in E. destruct E as (x & Hx & Ex).
    apply String.eqb_eq in Ex. now subst.
  - set (d := initDatabase db). unfold initDatabase at 1. cbn [fold_left].
    assert (forall ct, In ct [admins_ddl; categories_ddl; materials_ddl; videos_ddl] ->
                       exists t, get_table (ct_name ct) d = Some t) as Hall.
    { intros ct Hin. unfold d. rewrite Hget.
      cbn in Hin. destruct Hin as [<- | [<- | [<- | [<- | []]]]]; cbn; eauto. }
    destruct (Hall admins_ddl) as (t1 & H1); [cbn; auto |].
    rewrite (create_existing d admins_ddl t1 H1).
    destruct (Hall categories_ddl) as (t2 & H2); [cbn; auto |].
    rewrite (create_existing d categories_ddl t2 H2).
    destruct (Hall materials_ddl) as (t3 & H3); [cbn; auto |].
    rewrite (create_existing d materials_ddl t3 H3).
    destruct (Hall videos_ddl) as (t4 & H4); [cbn; auto 10 |].
    now rewrite (create_existing d videos_ddl t4 H4).
Qed.

(** ** GROUP BY *)

Lemma same_group_refl a : same_group a a = true.
Proof. destruct a; simpl; [reflexivity | apply Z.eqb_refl | apply str_ceq_refl]. Qed.

Lemma same_group_sym a b : same_group a b = same_group b a.
Proof. destruct a, b; simpl; try reflexivity; [apply Z.eqb_sym | apply str_ceq_sym]. Qed.

Lemma same_group_trans a b c :
  same_group a b = true -> same_group b c = true -> same_group a c = true.
Proof.
  destruct a, b, c; simpl; try congruence.
  - intros H1 H2. apply Z.eqb_eq in H1, H2. apply Z.eqb_eq. congruence.
  - apply str_ceq_trans.
Qed.

Lemma map_bump_none k m gs :
  Forall (fun h => same_group (author_of h) k = false) gs -> map (bump k m) gs = gs.
Proof.
  induction 1 as [| h gs Hh Hgs IH]; simpl; [reflexivity |].
  rewrite IH. unfold bump. now rewrite Hh.
Qed.

Lemma others_miss g k gs :
  Forall (fun h => same_group (author_of g) (author_of h) = false) gs ->
  same_group (author_of g) k = true ->
  Forall (fun h => same_group (author_of h) k = false) gs.
Proof.
  intros Hg E. eapply Forall_impl; [| exact Hg]. cbn beta. intros h Hh.
  destruct (same_group (author_of h) k) eqn:E'; [| reflexivity].
  rewrite same_group_sym in E'. rewrite (same_group_trans _ _ _ E E') in Hh. discriminate.
Qed.

Lemma add_to_groups_found k m gs :
  other_groups gs ->
  existsb (fun g => same_group (author_of g) k) gs = true ->
  add_to_groups k m gs = map (bump k m) gs.
Proof.
  induction 1 as [| g gs Hg Hgs IH]; simpl; [discriminate |].
  destruct g as [[k' n] m']. unfold bump at 1. cbn [author_of count_of fst snd].
  destruct (same_group k' k) eqn:E; simpl.
  - intros _. rewrite map_bump_none; [reflexivity |].
    apply (others_miss (k', n, m')); assumption.
  - intros Hex. now rewrite IH.
Qed.

Lemma add_to_groups_new k m gs :
  existsb (fun g => same_group (author_of g) k) gs = false ->
  add_to_groups k m gs = gs ++ [(k, 1%nat, m)].
Proof.
  induction gs as [| [[k' n] m'] gs IH]; simpl; [reflexivity |].
  cbn [author_of fst]. destruct (same_group k' k); simpl; [discriminate |].
  intros H. now rewrite IH.
Qed.

Lemma author_of_bump k m g : author_of (bump k m g) = author_of g.
Proof. unfold bump. destruct (same_group (author_of g) k); reflexivity. Qed.

Lemma count_of_bump k m g :
  count_of (bump k m g)
  = (count_of g + if same_group (author_of g) k then 1 else 0)%nat.
Proof. unfold bump. destruct (same_group (author_of g) k); cbn; lia. Qed.

Lemma FOP_snoc {A : Type} (R : A -> A -> Prop) (l : list A) (x : A) :
  ForallOrdPairs R l -> Forall (fun y => R y x) l -> ForallOrdPairs R (l ++ [x]).
Proof.
  induction 1 as [| y l Hy Hl IH]; simpl; intros Hx.
  - constructor; constructor.
  - inversion Hx; subst. constructor; [| now apply IH].
    apply Forall_app. split; [exact Hy | constructor; [assumption | constructor]].
Qed.

Lemma existsb_bump k m k0 gs :
  existsb (fun g => same_group (author_of g) k0) (map (bump k m) gs)
  = existsb (fun g => same_group (author_of g) k0) gs.
Proof.
  induction gs as [| g gs IH]; simpl; [reflexivity |].
  now rewrite author_of_bump, IH.
Qed.

Lemma tally_snoc key rows r k :
  tally key (rows ++ [r]) k
  = (tally key rows k + if same_group k (row_get key r) then 1 else 0)%nat.
Proof.
  unfold tally. rewrite filter_app, length_app. simpl.
  destruct (same_group k (row_get key r)); reflexivity.
Qed.

Lemma groups_of_snoc key max rows r :
  groups_of key max (rows ++ [r])
  = add_to_groups (row_get key r) (row_get max r) (groups_of key max rows).
Proof. unfold groups_of. now rewrite fold_left_app. Qed.

Lemma groups_of_spec key max rows :
  other_groups (groups_of key max rows)
  /\ Forall (fun g => count_of g = tally key rows (author_of g)) (groups_of key max rows)
  /\ (forall k, existsb (fun g => same_group (author_of g) k) (groups_of key max rows) = false ->
                tally key rows k = 0%nat)
  /\ list_sum (map count_of (groups_of key max rows)) = List.length rows.
Proof.
  induction rows as [| r rows IH] using rev_ind.
  - repeat split; try constructor.
  - destruct IH as (Hd & Hc & Hz & Hs).
    rewrite groups_of_snoc. set (gs := groups_of key max rows) in *.
    set (k := row_get key r). set (m := row_get max r).
    destruct (existsb (fun g => same_group (author_of g) k) gs) eqn:Ex.
    + rewrite (add_to_groups_found k m gs Hd Ex).
      split; [| split; [| split]].
      * unfold other_groups. apply FOP_map.
        eapply FOP_impl; [| exact Hd]. cbn beta. intros x y Hxy.
        now rewrite !author_of_bump.
      * apply Forall_map. eapply Forall_impl; [| exact Hc]. cbn beta.
        intros g Hg. rewrite count_of_bump, author_of_bump, tally_snoc, Hg. reflexivity.
      * intros k0 Hk0. rewrite tally_snoc.
        assert (existsb (fun g => same_group (author_of g) k0) gs = false) as Hk0'.
        { rewrite <- Hk0. symmetry. apply existsb_bump. }
        rewrite (Hz k0 Hk0').
        destruct (same_group k0 (row_get key r)) eqn:E; [| reflexivity].
        exfalso. apply existsb_exists in Ex. destruct Ex as (g & Hin & Hg).
        assert (same_group (author_of g) k0 = true) as Hgk0.
        { eapply same_group_trans; [exact Hg |]. now rewrite same_group_sym. }
        assert (existsb (fun g => same_group (author_of g) k0) gs = true) as Hc'
          by (apply existsb_exists; eauto).
        congruence.
      * rewrite length_app. simpl. rewrite <- Hs. clear - Hd Ex.
        induction Hd as [| g gs Hg Hgs IH]; [discriminate |].
        simpl in Ex. simpl. rewrite count_of_bump.
        destruct (same_group (author_of g) k) eqn:E.
        -- rewrite (map_bump_none k m gs (others_miss g k gs Hg E)). lia.
        -- simpl in Ex. rewrite (IH Ex). lia.
    + rewrite (add_to_groups_new k m gs Ex).
      split; [| split; [| split]].
      * apply FOP_snoc; [exact Hd |].
        apply Forall_forall. intros g Hg.
        destruct (same_group (author_of g) (author_of (k, 1%nat, m))) eqn:E;
          [| reflexivity].
        assert (existsb (fun g => same_group (author_of g) k) gs = true) as Hc'
          by (apply existsb_exists; eauto).
        congruence.
      * apply Forall_app. split.
        -- apply Forall_forall. intros g Hg. rewrite Forall_forall in Hc.
           rewrite (Hc g Hg), tally_snoc. fold k.
           destruct (same_group (author_of g) k) eqn:E; [| lia].
           assert (existsb (fun g => same_group (author_of g) k) gs = true) as Hc'
             by (apply existsb_exists; eauto).
           congruence.
        -- constructor; [| constructor]. cbn [count_of author_of fst snd].
           rewrite tally_snoc, (Hz k Ex). fold k. now rewrite same_group_refl.
      * intros k0 Hk0. rewrite existsb_app in Hk0. apply orb_false_iff in Hk0.
        destruct Hk0 as [Hk0 Hk]. simpl in Hk. rewrite orb_false_r in Hk.
        cbn [author_of fst] in Hk.
        rewrite tally_snoc, (Hz k0 Hk0). fold k. rewrite same_group_sym, Hk. reflexivity.
      * rewrite map_app, list_sum_app, length_app, Hs. reflexivity.
Qed.

Lemma FOP_insert_sym {A : Type} (R : A -> A -> Prop) (before : A -> A -> bool) :
  (forall x y, R x y -> R y x) ->
  forall x l, Forall (R x) l -> ForallOrdPairs R l ->
              ForallOrdPairs R (insert_by before x l).
Proof.
  intros Hsym x l Hx H. induction H as [| y l Hy Hl IH]; simpl.
  - constructor; constructor.
  - inversion Hx; subst. destruct (before x y).
    + constructor; [assumption | now constructor].
    + constructor; [| now apply IH].
      apply Forall_forall. intros z Hz. apply In_insert_by in Hz.
      destruct Hz as [-> | Hz]; [now apply Hsym |].
      rewrite Forall_forall in Hy. now apply Hy.
Qed.

Lemma FOP_sort_sym {A : Type} (R : A -> A -> Prop) (before : A -> A -> bool) :
  (forall x y, R x y -> R y x) ->
  forall l, ForallOrdPairs R l -> ForallOrdPairs R (sort_by before l).
Proof.
  intros Hsym l H. induction H as [| x l Hx Hl IH]; simpl; [constructor |].
  apply FOP_insert_sym; [exact Hsym | | exact IH].
  apply Forall_forall. intros y Hy. apply In_sort_by in Hy.
  rewrite Forall_forall in Hx. now apply Hx.
Qed.

Lemma list_sum_insert_by {A : Type} (f : A -> nat) before x (l : list A) :
  list_sum (map f (insert_by before x l)) = (f x + list_sum (map f l))%nat.
Proof.
  induction l as [| y l IH]; simpl; [reflexivity |].
  destruct (before x y); simpl; [reflexivity | rewrite IH; lia].
Qed.

Lemma list_sum_sort_by {A : Type} (f : A -> nat) before (l : list A) :
  list_sum (map f (sort_by before l)) = list_sum (map f l).
Proof.
  induction l as [| x l IH]; simpl; [reflexivity |].
  now rewrite list_sum_insert_by, IH.
Qed.

Lemma group_before_count x y : group_before x y = true -> (count_of y <= count_of x)%nat.
Proof.
  destruct x as [[kx nx] mx], y as [[ky ny] my]. cbn.
  intros H. apply orb_true_iff in H. destruct H as [H | H].
  - apply Nat.ltb_lt in H. lia.
  - apply andb_true_iff in H. destruct H as [H _]. apply Nat.eqb_eq in H. lia.
Qed.

Lemma group_before_not x y : group_before x y = false -> (count_of x <= count_of y)%nat.
Proof.
  destruct x as [[kx nx] mx], y as [[ky ny] my]. cbn.
  intros H. apply orb_false_iff in H. destruct H as [H _].
  apply Nat.ltb_ge in H. lia.
Qed.

Lemma filter_filter {A : Type} (f g : A -> bool) (l : list A) :
  filter f (filter g l) = filter (fun x => g x && f x) l.
Proof.
  induction l as [| x l IH]; simpl; [reflexivity |].
  destruct (g x); simpl; [destruct (f x); now rewrite IH | exact IH].
Qed.

Lemma exec_group_count_inv db g rows :
  exec_group_count db g [] = inr rows ->
  exists t conds,
    get_table (g_table g) db = Some t
    /\ bind_where None t (g_where g) [] = inr (conds, [])
    /\ rows = map (fun x : Group =>
                     let '(k, n, m) := x in
                     [(g_key g, k); (g_count_as g, VInt (Z.of_nat n)); (g_max_as g, m)])
                (sort_by group_before
                   (groups_of (g_key g) (g_max g)
                      (filter (where_holds conds) (t_rows t)))).
Proof.
  unfold exec_group_count. intros H. inv_res H.
  apply need_inr in E0. apply no_more_inr in E2. subst. eauto.
Qed.

(** X6.  When [GET /authors] answers 200, its rows are one per author: no two
    rows have the same author, the [material_count] of a row is the number
    of published materials of that author (at least 1), the rows are in
    descending order of [material_count], and the counts add up to the number
    of published materials that have a non-empty author. *)
Theorem authors_counted (db : Db) (req : Request) :
  status (get_authors db req) = 200 ->
  exists t gs,
    get_table "materials" db = Some t
    /\ prop "data" (payload (get_authors db req)) = js_of_rows (map author_row gs)
    /\ other_groups gs
    /\ Forall (fun g => count_of g
                        = List.length (filter (credited_to (author_of g)) (t_rows t))
                        /\ (1 <= count_of g)%nat) gs
    /\ ForallOrdPairs (fun g h => (count_of h <= count_of g)%nat) gs
    /\ list_sum (map count_of gs) = List.length (filter with_author (t_rows t)).
Proof.
  intros H. unfold get_authors in *. apply catch_200 in H.
  match type of H with ?r = inr (catch ?r' _) => destruct r as [e | resp] eqn:E end;
    [discriminate |].
  cbn [catch]. clear H. inv_res_keep E. subst resp.
  apply exec_group_count_inv in E0. destruct E0 as (t & conds & Hget & Hb & ->).
  cbn [authors_query g_table g_where g_key g_max g_count_as g_max_as] in *.
  pose proof (bind_where_columns _ _ _ _ _ Hb) as Hcols.
  have_col Hcols (PNotNull (ucol "author")) "author".
  have_col Hcols (PEqLit (ucol "status") "published") "status".
  cbn [bind_where bind_pred] in Hb.
  rewrite !resolve_plain in Hb by assumption.
  cbn [bind] in Hb. injection Hb as <-.
  fold with_author.
  set (rows := filter with_author (t_rows t)).
  destruct (groups_of_spec "author" "created_at" rows) as (Hd & Hc & Hz & Hs).
  set (gs := groups_of "author" "created_at" rows) in *.
  exists t, (sort_by group_before gs).
  split; [exact Hget |]. split; [| split; [| split; [| split]]].
  - unfold prop. cbn [assoc String.eqb Ascii.eqb Bool.eqb payload json].
    unfold js_of_rows. apply (f_equal JArray).
    rewrite !map_map. apply map_ext. intros [[k n] m]. reflexivity.
  - apply FOP_sort_sym; [| exact Hd].
    intros x y Hxy. now rewrite same_group_sym.
  - apply Forall_forall. intros g Hg. apply In_sort_by in Hg.
    rewrite Forall_forall in Hc. rewrite (Hc g Hg).
    unfold tally, rows. rewrite filter_filter. split; [reflexivity |].
    rewrite <- filter_filter. fold rows. fold (tally "author" rows (author_of g)).
    destruct (tally "author" rows (author_of g)) eqn:Et; [| lia].
    exfalso.
    destruct (existsb (fun h => same_group (author_of h) (author_of g)) gs) eqn:Ex.
    + clear Ex. rewrite <- (Hc g Hg) in Et.
      (* a group is never empty *)
      revert Et. unfold gs, groups_of.
      assert (forall (l : list Row) (acc : list Group),
                 Forall (fun g => (1 <= count_of g)%nat) acc ->
                 Forall (fun g => (1 <= count_of g)%nat)
                   (fold_left (fun gs r => add_to_groups (row_get "author" r)
                                             (row_get "created_at" r) gs) l acc)) as Hpos.
      { induction l as [| r l IHl]; intros acc Hacc; simpl; [exact Hacc |].
        apply IHl. clear IHl. induction acc as [| [[k' n'] m'] acc IHa]; simpl.
        - constructor; [cbn; lia | constructor].
        - inversion Hacc; subst. destruct (same_group k' (row_get "author" r)).
          + constructor; [cbn; lia | assumption].
          + constructor; [assumption | now apply IHa]. }
      specialize (Hpos rows [] (Forall_nil _)). rewrite Forall_forall in Hpos.
      specialize (Hpos g Hg). lia.
    + assert (existsb (fun h => same_group (author_of h) (author_of g)) gs = true) as Hc'.
      { apply existsb_exists. exists g. split; [exact Hg | apply same_group_refl]. }
      congruence.
  - apply FOP_sort_by.
    + apply group_before_count.
    + apply group_before_not.
    + intros x y z. lia.
  - rewrite list_sum_sort_by. exact Hs.
Qed.

Lemma authors_counted_witness :
  exists t gs,
    get_table "materials" portal = Some t
    /\ prop "data" (payload (get_authors portal (request [] [] [])))
       = js_of_rows (map author_row gs)
    /\ other_groups gs
    /\ Forall (fun g => count_of g
                        = List.length (filter (credited_to (author_of g)) (t_rows t))
                        /\ (1 <= count_of g)%nat) gs
    /\ ForallOrdPairs (fun g h => (count_of h <= count_of g)%nat) gs
    /\ list_sum (map count_of gs) = List.length (filter with_author (t_rows t)).
Proof.
  apply (authors_counted portal (request [] [] [])). reflexivity.
Defined.

(** ** COUNT(DISTINCT ..) *)

Lemma sql_eq_refl v : is_null v = false -> sql_eq v v = true.
Proof. destruct v; simpl; [discriminate | intros _; apply Z.eqb_refl | intros _; apply str_ceq_refl]. Qed.

Lemma In_distinct v vs : In v (distinct vs) -> In v vs /\ is_null v = false.
Proof.
  induction vs as [| w vs IH]; simpl; [tauto |].
  destruct (is_null w) eqn:En; simpl; [intros H; destruct (IH H); auto |].
  destruct (existsb (sql_eq w) vs); [intros H; destruct (IH H); auto |].
  intros [<- | H]; [auto | destruct (IH H); auto].
Qed.

Lemma NoDup_distinct vs : NoDup (distinct vs).
Proof.
  induction vs as [| w vs IH]; simpl; [constructor |].
  destruct (is_null w) eqn:En; simpl; [exact IH |].
  destruct (existsb (sql_eq w) vs) eqn:Ex; [exact IH |].
  constructor; [| exact IH].
  intros Hin. apply In_distinct in Hin. destruct Hin as [Hin _].
  assert (existsb (sql_eq w) vs = true) as Hc.
  { apply existsb_exists. exists w. split; [exact Hin | now apply sql_eq_refl]. }
  congruence.
Qed.

Lemma separate_eq us a b :
  separate us -> In a us -> In b us -> sql_eq a b = true -> a = b.
Proof.
  intros [Hd Hn]. induction Hd as [| u us Hu Hus IH]; [intros [] |].
  inversion Hn; subst. rewrite Forall_forall in Hu.
  intros [-> | Ha] [-> | Hb] E; auto.
  - rewrite (Hu b Hb) in E. discriminate.
  - rewrite sql_eq_sym, (Hu a Ha) in E. discriminate.
Qed.

Lemma separate_NoDup us : separate us -> NoDup us.
Proof.
  intros [Hd Hn]. induction Hd as [| u us Hu Hus IH]; [constructor |].
  inversion Hn; subst. constructor; [| now apply IH].
  intros Hin. rewrite Forall_forall in Hu. specialize (Hu u Hin).
  rewrite (sql_eq_refl u) in Hu by assumption. discriminate.
Qed.

Lemma distinct_keeps us vs u :
  separate us -> (forall v, In v vs -> In v us) -> In u vs -> In u (distinct vs).
Proof.
  intros Hs Hsub. induction vs as [| w vs IH]; [intros [] |].
  assert (forall v, In v vs -> In v us) as Hsub' by (intros v Hv; apply Hsub; now right).
  assert (is_null w = false) as Hw.
  { destruct Hs as [_ Hn]. rewrite Forall_forall in Hn. apply Hn, Hsub. now left. }
  simpl. rewrite Hw. simpl.
  destruct (existsb (sql_eq w) vs) eqn:Ex.
  - intros [<- | Hu]; [| now apply IH].
    apply existsb_exists in Ex. destruct Ex as (x & Hx & Ex).
    assert (w = x) as <-.
    { apply (separate_eq us); auto. apply Hsub. now left. }
    now apply IH.
  - intros [<- | Hu]; [now left | right; now apply IH].
Qed.

Lemma count_distinct_separate us vs :
  separate us ->
  (forall v, In v vs -> In v us) -> (forall u, In u us -> In u vs) ->
  List.length (distinct vs) = List.length us.
Proof.
  intros Hs Hsub Hsup. apply Nat.le_antisymm.
  - apply NoDup_incl_length; [apply NoDup_distinct |].
    intros v Hv. apply In_distinct in Hv. now apply Hsub.
  - apply NoDup_incl_length; [now apply separate_NoDup |].
    intros u Hu. apply (distinct_keeps us); auto.
Qed.

Lemma distinct_nulls vs : Forall (fun v => is_null v = true) vs -> distinct vs = [].
Proof.
  induction 1 as [| v vs Hv Hvs IH]; simpl; [reflexivity |]. now rewrite Hv.
Qed.

(** ** Keys of a table *)

Lemma FOP_filter {A : Type} (R : A -> A -> Prop) (f : A -> bool) (l : list A) :
  ForallOrdPairs R l -> ForallOrdPairs R (filter f l).
Proof.
  induction 1 as [| x l Hx Hl IH]; simpl; [constructor |].
  destruct (f x); [| exact IH]. constructor; [| exact IH].
  apply Forall_forall. intros y Hy. apply filter_In in Hy.
  rewrite Forall_forall in Hx. now apply Hx.
Qed.

Lemma keyed_filter f rows : keyed rows -> keyed (filter f rows).
Proof.
  intros [Hd Hn]. split; [now apply FOP_filter |].
  apply Forall_forall. intros r Hr. apply filter_In in Hr.
  rewrite Forall_forall in Hn. now apply Hn.
Qed.

Lemma keyed_separate rows : keyed rows -> separate (map (row_get "id") rows).
Proof.
  intros [Hd Hn]. split.
  - apply FOP_map. exact Hd.
  - apply Forall_map. exact Hn.
Qed.

(** The ids of the rows joined to a category: as many distinct ones as
    rows that go with it. *)
Lemma count_joined_ids (right : list Row) (c : Row) (vs : list SqlVal) :
  keyed right ->
  (forall v, In v vs <-> In v (map id_or_null (left_join_published right c))) ->
  count_distinct vs
  = VInt (Z.of_nat (List.length (filter (published_in c) right))).
Proof.
  intros Hk Hvs. unfold count_distinct. do 2 f_equal.
  unfold left_join_published in Hvs.
  destruct (filter (published_in c) right) as [| x xs] eqn:Ef.
  - rewrite distinct_nulls; [reflexivity |].
    apply Forall_forall. intros v Hv. apply Hvs in Hv.
    destruct Hv as [<- | []]. reflexivity.
  - rewrite <- Ef in *.
    rewrite (count_distinct_separate
               (map (row_get "id") (filter (published_in c) right)) vs).
    + now rewrite length_map.
    + apply keyed_separate. now apply keyed_filter.
    + intros v Hv. apply Hvs in Hv. rewrite Ef in Hv. rewrite map_map in Hv.
      rewrite Ef. exact Hv.
    + intros u Hu. apply Hvs. rewrite Ef. rewrite map_map. rewrite Ef in Hu. exact Hu.
Qed.

(** ** GROUP BY c.id over the double join *)

Lemma add_to_classes_new x gs :
  Forall (fun g => match g with
                   | y :: _ => same_group (group_key y) (group_key x) = false
                   | [] => True
                   end) gs ->
  add_to_classes x gs = gs ++ [[x]].
Proof.
  induction 1 as [| g gs Hg Hgs IH]; simpl; [reflexivity |].
  destruct g as [| y g']; [now rewrite IH |]. rewrite Hg. now rewrite IH.
Qed.

Lemma add_to_classes_last x y g gs :
  Forall (fun g => match g with
                   | y :: _ => same_group (group_key y) (group_key x) = false
                   | [] => True
                   end) gs ->
  same_group (group_key y) (group_key x) = true ->
  add_to_classes x (gs ++ [y :: g]) = gs ++ [(y :: g) ++ [x]].
Proof.
  intros H E. induction H as [| g0 gs Hg Hgs IH]; simpl.
  - now rewrite E.
  - destruct g0 as [| y0 g0']; [now rewrite IH |]. rewrite Hg. now rewrite IH.
Qed.

Lemma fold_add_same y g gs xs :
  Forall (fun g => match g with
                   | z :: _ => same_group (group_key z) (group_key y) = false
                   | [] => True
                   end) gs ->
  Forall (fun x => group_key x = group_key y) xs ->
  fold_left (fun gs x => add_to_classes x gs) xs (gs ++ [y :: g])
  = gs ++ [(y :: g) ++ xs].
Proof.
  intros Hgs Hxs. revert g. induction Hxs as [| x xs Hx Hxs IH]; intros g; simpl.
  - now rewrite app_nil_r.
  - rewrite add_to_classes_last.
    + cbn [app]. rewrite IH. cbn [app]. rewrite <- app_assoc. reflexivity.
    + eapply Forall_impl; [| exact Hgs]. cbn beta. intros [| z g0]; [auto |].
      now rewrite Hx.
    + rewrite Hx. apply same_group_refl.
Qed.

Lemma classes_app l l' :
  classes (l ++ l') = fold_left (fun gs x => add_to_classes x gs) l' (classes l).
Proof. unfold classes. apply fold_left_app. Qed.

Lemma join_contents_shape ms vs c :
  exists x xs, join_contents ms vs c = x :: xs
               /\ Forall (fun y => fst (fst y) = c) (x :: xs).
Proof.
  unfold join_contents.
  assert (forall right, exists o os, left_join_published right c = o :: os) as Hne.
  { intros right. unfold left_join_published.
    destruct (filter (published_in c) right) as [| r rs]; simpl; eauto. }
  destruct (Hne ms) as (m & ms' & ->). destruct (Hne vs) as (v & vs' & Ev).
  cbn [flat_map]. rewrite Ev. cbn [map app]. do 2 eexists. split; [reflexivity |].
  apply Forall_forall. intros y Hy.
  destruct Hy as [<- | Hy]; [reflexivity |].
  apply in_app_or in Hy. destruct Hy as [Hy | Hy].
  - apply in_map_iff in Hy. destruct Hy as (o & <- & _). reflexivity.
  - apply in_flat_map in Hy. destruct Hy as (m' & _ & Hy).
    destruct Hy as [<- | Hy]; [reflexivity |].
    apply in_map_iff in Hy. destruct Hy as (o & <- & _). reflexivity.
Qed.

Lemma keyed_same_group rows :
  keyed rows ->
  ForallOrdPairs (fun a b => same_group (row_get "id" a) (row_get "id" b) = false) rows.
Proof.
  intros [Hd Hn]. induction Hd as [| a rows Ha Hrows IH]; [constructor |].
  inversion Hn; subst. constructor; [| now apply IH].
  eapply Forall_impl; [| exact Ha]. cbn beta. intros b Hb.
  destruct (row_get "id" a), (row_get "id" b); simpl in *; congruence.
Qed.

Lemma classes_of_join ms vs cats :
  keyed cats ->
  classes (flat_map (join_contents ms vs) cats) = map (join_contents ms vs) cats.
Proof.
  intros Hk. apply keyed_same_group in Hk.
  induction cats as [| c cats IH] using rev_ind; [reflexivity |].
  rewrite flat_map_app, map_app. cbn [flat_map map]. rewrite app_nil_r.
  apply FOP_app_inv in Hk as Hk'. destruct Hk' as [Hk1 _].
  rewrite classes_app, (IH Hk1).
  destruct (join_contents_shape ms vs c) as (x & xs & -> & Hx).
  pose proof (Forall_inv Hx) as Hx0. pose proof (Forall_inv_tail Hx) as Hxs.
  cbn beta in Hx0.
  assert (Forall (fun g => match g with
                           | z :: _ => same_group (group_key z) (group_key x) = false
                           | [] => True
                           end) (map (join_contents ms vs) cats)) as Hnew.
  { apply Forall_map. apply Forall_forall. intros c' Hc'.
    destruct (join_contents_shape ms vs c') as (z & zs & -> & Hz).
    pose proof (Forall_inv Hz) as Hz0. cbn beta in Hz0. unfold group_key.
    rewrite Hz0, Hx0.
    clear - Hk Hc'. induction cats as [| c0 cats IH]; [destruct Hc' |].
    simpl in Hk. inversion Hk as [| ? ? H0 H1]; subst.
    destruct Hc' as [-> | Hc'].
    - apply Forall_app in H0. destruct H0 as [_ H0]. now inversion H0.
    - now apply IH. }
  cbn [fold_left]. rewrite (add_to_classes_new x _ Hnew).
  rewrite (fold_add_same x [] _ xs Hnew).
  - reflexivity.
  - eapply Forall_impl; [| exact Hxs]. cbn beta. intros y Hy.
    unfold group_key. now rewrite Hy, Hx0.
Qed.

Lemma counted_join ms vs c :
  keyed ms -> keyed vs ->
  counted (join_contents ms vs c) = category_with_counts ms vs c.
Proof.
  intros Hm Hv.
  destruct (join_contents_shape ms vs c) as (x & xs & E & Hx).
  unfold counted. rewrite E. destruct x as [[c0 m0] v0].
  pose proof (Forall_inv Hx) as Hx0. cbn [fst] in Hx0. subst c0. rewrite <- E.
  unfold category_with_counts.
  rewrite (count_joined_ids ms c
             (map (fun x : Joined => id_or_null (snd (fst x))) (join_contents ms vs c)) Hm),
          (count_joined_ids vs c
             (map (fun x : Joined => id_or_null (snd x)) (join_contents ms vs c)) Hv);
    [reflexivity | |].
  - intros v. unfold join_contents. rewrite !in_map_iff.
    split.
    + intros (y & <- & Hy). apply in_flat_map in Hy. destruct Hy as (m & Hm' & Hy).
      apply in_map_iff in Hy. destruct Hy as (v' & <- & Hv'). eauto.
    + intros (o & <- & Ho).
      assert (exists m, In m (left_join_published ms c)) as (m & Hm').
      { unfold left_join_published. destruct (filter _ ms); simpl; eauto. }
      exists (c, m, o). split; [reflexivity |].
      apply in_flat_map. exists m. split; [exact Hm' |]. apply in_map_iff. eauto.
  - intros v. unfold join_contents. rewrite !in_map_iff.
    split.
    + intros (y & <- & Hy). apply in_flat_map in Hy. destruct Hy as (m & Hm' & Hy).
      apply in_map_iff in Hy. destruct Hy as (v' & <- & _). eauto.
    + intros (m & <- & Hm').
      assert (exists o, In o (left_join_published vs c)) as (o & Ho).
      { unfold left_join_published. destruct (filter _ vs); simpl; eauto. }
      exists (c, m, o). split; [reflexivity |].
      apply in_flat_map. exists m. split; [exact Hm' |]. apply in_map_iff. eauto.
Qed.

(** X7.  On a deployed database whose rows have distinct ids that are not NULL,
    [GET /categories] answers 200 with every category once, in the order of
    the names, each with the number of its published materials as
    [material_count] and the number of its published videos as [video_count]:
    the two LEFT JOINs multiply neither count. *)
Theorem categories_with_counts (db : Db) (req : Request) :
  deployed db ->
  (forall name t, get_table name db = Some t -> keyed (t_rows t)) ->
  exists tc tm tv,
    get_table "categories" db = Some tc
    /\ get_table "materials" db = Some tm
    /\ get_table "videos" db = Some tv
    /\ get_categories db req
       = json (JObject
                 [("success", JBool true);
                  ("data",
                   js_of_rows
                     (sort_by by_name
                        (map (category_with_counts (t_rows tm) (t_rows tv))
                             (t_rows tc))))]).
Proof.
  intros Hd Hk.
  destruct (deployed_cols db Hd)
    as (ta & tc & tm & tv & _ & (Hc & Hcc & _) & (Hm & Hmc & _) & (Hv & Hvc & _)).
  exists tc, tm, tv. repeat split; try assumption.
  unfold get_categories, exec_category_counts.
  rewrite Hc, Hm, Hv. cbn [need bind].
  rewrite !(has_col_known _ _ _ Hcc), !(has_col_known _ _ _ Hmc),
    !(has_col_known _ _ _ Hvc).
  cbn [find materials_columns_with_author ct_columns categories_ddl videos_ddl
       col_name id_column column not_null default status_column created_at_column
       updated_at_column author_column String.eqb Ascii.eqb Bool.eqb andb guard bind].
  rewrite (classes_of_join _ _ _ (Hk _ _ Hc)).
  rewrite map_map.
  rewrite (map_ext_in _ (category_with_counts (t_rows tm) (t_rows tv))).
  - reflexivity.
  - intros c _. apply counted_join; eauto.
Qed.

Lemma portal_keyed name t : get_table name portal = Some t -> keyed (t_rows t).
Proof.
  unfold get_table, portal, database. cbn [assoc].
  repeat match goal with
         | |- (if ?b then _ else _) = _ -> _ =>
             destruct b;
             [intros H; injection H as <-; split;
              repeat (constructor; try reflexivity) |]
         end.
  discriminate.
Qed.

Lemma categories_with_counts_witness :
  exists tc tm tv,
    get_table "categories" portal = Some tc
    /\ get_table "materials" portal = Some tm
    /\ get_table "videos" portal = Some tv
    /\ get_categories portal (request [] [] [])
       = json (JObject
                 [("success", JBool true);
                  ("data",
                   js_of_rows
                     (sort_by by_name
                        (map (category_with_counts (t_rows tm) (t_rows tv))
                             (t_rows tc))))]).
Proof.
  apply (categories_with_counts portal (request [] [] [])).
  - apply database_deployed.
  - apply portal_keyed.
Defined.

End CatalogFacts.

(* ================================================================== *)
(** * The token gate of the admin router *)
(* ================================================================== *)

Module GateFacts.
Import Js Sql Schema Http Api Admin Upload Script Spec Examples StoreFacts ApiFacts SchemaFacts AdminFacts OrderFacts SearchFacts CatalogFacts.
#[local] Open Scope string_scope.
#[local] Open Scope Z_scope.
#[local] Open Scope list_scope.

#[local] Arguments resolve : simpl never.
#[local] Arguments has_col : simpl never.
#[local] Arguments project : simpl never.
#[local] Arguments where_holds : simpl never.
#[local] Arguments prop : simpl never.
#[local] Arguments js_of_row : simpl never.

Section Router.

Context {libraries : Libraries}.
Variable env : Env.

Lemma gated_without_token (h : Handler) now db req :
  truthy (bearer_token req) = false ->
  gated env h now db req = (db, status_json 401 (error_body "Access token required")).
Proof. unfold gated, authenticateToken. intros ->. reflexivity. Qed.

Lemma gated_with_token (h : Handler) now db req :
  truthy (bearer_token req) = true ->
  gated env h now db req
  = match jwt_verify (to_text (bearer_token req)) (JWT_SECRET env) with
    | None => (db, status_json 403 (error_body "Invalid or expired token"))
    | Some u => h now db (with_user req u)
    end.
Proof.
  unfold gated, authenticateToken. intros ->. cbn [negb].
  destruct (jwt_verify _ _); reflexivity.
Qed.




(** X9.  Of the admin routes, [GET /check], [POST /init], [POST /login] and
    [POST /reset-password] are registered without [authenticateToken]: they
    answer a request the same with and without its headers and [req.user].
    Every other route answers 401 without a token and 403 with a token that
    does not verify, and leaves the database as it is. *)
Theorem content_routes_need_token (files : Files) (r : AdminRoute) (now : Z)
    (db : Db) (req : Request) :
  (open_route r = false -> truthy (bearer_token req) = false ->
   admin_serve env files r now db req
   = (db, status_json 401 (error_body "Access token required")))
  /\ (open_route r = false -> truthy (bearer_token req) = true ->
      jwt_verify (to_text (bearer_token req)) (JWT_SECRET env) = None ->
      admin_serve env files r now db req
      = (db, status_json 403 (error_body "Invalid or expired token")))
  /\ (open_route r = true ->
      admin_serve env files r now db req
      = admin_serve env files r now db (anonymous req)).
Proof.
  split; [| split].
  - intros Hr Ht. destruct r; try discriminate; cbn [admin_serve];
      now apply gated_without_token.
  - intros Hr Ht Hv. destruct r; try discriminate; cbn [admin_serve];
      rewrite gated_with_token by assumption; now rewrite Hv.
  - intros Hr. destruct r; try discriminate; reflexivity.
Qed.

End Router.


Lemma content_routes_need_token_witness :
  admin_serve (libraries := toy_libraries) toy_env None APostCategory 7 portal
    (request [] [] [("name", "N"); ("description", "D")])
  = (portal, status_json 401 (error_body "Access token required"))
  /\ admin_serve (libraries := toy_libraries) toy_env None AResetPassword 7 portal
       (with_header "authorization" "Bearer bad"
          (request [] [] [("email", "a@x.org"); ("newPassword", "p")]))
     = admin_serve (libraries := toy_libraries) toy_env None AResetPassword 7 portal
         (anonymous (with_header "authorization" "Bearer bad"
                       (request [] [] [("email", "a@x.org"); ("newPassword", "p")]))).
Proof.
  split.
  - apply (proj1 (content_routes_need_token (libraries := toy_libraries) toy_env None
                    APostCategory 7 portal
                    (request [] [] [("name", "N"); ("description", "D")])));
      reflexivity.
  - apply (proj2 (proj2 (content_routes_need_token (libraries := toy_libraries)
                           toy_env None AResetPassword 7 portal
                           (with_header "authorization" "Bearer bad"
                              (request [] [] [("email", "a@x.org");
                                              ("newPassword", "p")]))))).
    reflexivity.
Defined.

End GateFacts.

(* ================================================================== *)
(** * Passwords: reset, initialisation and login *)
(* ================================================================== *)

Module AccountFacts.
Import Js Sql Schema Http Api Admin Upload Script Spec Examples StoreFacts ApiFacts SchemaFacts AdminFacts OrderFacts SearchFacts CatalogFacts GateFacts.
#[local] Open Scope string_scope.
#[local] Open Scope Z_scope.
#[local] Open Scope list_scope.

#[local] Arguments resolve : simpl never.
#[local] Arguments has_col : simpl never.
#[local] Arguments project : simpl never.
#[local] Arguments where_holds : simpl never.
#[local] Arguments prop : simpl never.
#[local] Arguments js_of_row : simpl never.

(** ** UPDATE *)

Lemma with_rows_same t : with_rows t (t_rows t) = t.
Proof. destruct t; reflexivity. Qed.

Lemma set_table_same name t db : get_table name db = Some t -> set_table name t db = db.
Proof.
  unfold get_table. induction db as [| [k x] db IH]; simpl; [discriminate |].
  destruct (name =? k)%string eqn:E.
  - intros H. injection H as ->. rewrite String.eqb_sym, E.
    apply String.eqb_eq in E. now subst.
  - intros H. rewrite String.eqb_sym, E. now rewrite IH.
Qed.

Lemma map_if_none {A : Type} (p : A -> bool) (f : A -> A) (l : list A) :
  (forall x, In x l -> p x = false) ->
  map (fun x => if p x then f x else x) l = l.
Proof.
  induction l as [| x l IH]; simpl; intros H; [reflexivity |].
  rewrite (H x) by auto. rewrite IH by auto. reflexivity.
Qed.

Lemma update_rows_map now db t sets matches (f : Row -> Row) : forall rows before,
  (forall r, In r rows -> matches r = true -> assign t sets r = inr (f r)) ->
  sets_no_unique t (map fst sets) = true ->
  (forall r, In r rows -> matches r = true -> parent_ok db t (f r) = true) ->
  update_rows now db t sets matches before rows
  = inr (map (fun r => if matches r then touch now t r (f r) else r) rows).
Proof.
  induction rows as [| r rows IH]; intros before Ha Hu Hp; simpl; [reflexivity |].
  destruct (matches r) eqn:Em.
  - rewrite (Ha r) by (simpl; auto). cbn [bind]. unfold sets_no_unique in Hu. rewrite Hu.
    rewrite orb_true_r. cbn [guard bind]. rewrite (Hp r) by (simpl; auto).
    cbn [guard bind].
    rewrite IH; [reflexivity | | assumption |]; intros; [apply Ha | apply Hp];
      simpl; auto.
  - rewrite IH; [reflexivity | | assumption |]; intros; [apply Ha | apply Hp];
      simpl; auto.
Qed.

Lemma exec_update_intro now db table set_cols key params t rows' :
  forallb defined params = true ->
  get_table table db = Some t ->
  List.length params = S (List.length set_cols) ->
  forallb (has_col t) set_cols = true -> has_col t key = true ->
  update_rows now db t (combine set_cols params)
    (fun r => sql_eq_param (row_get key r) (nth (List.length set_cols) params JUndefined))
    [] (t_rows t) = inr rows' ->
  exec_update now db table set_cols key params
  = inr (set_table table (with_rows t rows') db,
         {| insertId := 0;
            affectedRows :=
              Z.of_nat (List.length
                          (filter (fun r => sql_eq_param (row_get key r)
                                              (nth (List.length set_cols) params JUndefined))
                                  (t_rows t))) |}).
Proof.
  intros Hd Hget Hlen Hc Hk Hu. unfold exec_update, check_params.
  rewrite Hd. cbn [guard bind]. rewrite Hget. cbn [need bind].
  rewrite Hlen, Nat.eqb_refl. cbn [guard bind]. rewrite Hc, Hk. cbn [andb guard bind].
  rewrite Hu. reflexivity.
Qed.

Lemma exec_update_inv now db table set_cols key params db' hdr :
  exec_update now db table set_cols key params = inr (db', hdr) ->
  exists t rows',
    get_table table db = Some t
    /\ db' = set_table table (with_rows t rows') db
    /\ forallb (has_col t) set_cols = true
    /\ List.length params = S (List.length set_cols)
    /\ update_rows now db t (combine set_cols params)
         (fun r => sql_eq_param (row_get key r)
                     (nth (List.length set_cols) params JUndefined))
         [] (t_rows t) = inr rows'.
Proof.
  unfold exec_update. intros H. inv_res_keep H.
  apply need_inr in E0. apply guard_inr in E1, E2.
  apply Nat.eqb_eq in E1. apply andb_true_iff in E2. destruct E2 as [E2 _].
  subst. eauto 10.
Qed.

(** ** POST /reset-password *)

Lemma touch_get now t old new c :
  forallb (fun d => negb (col_on_update_now d) || negb (col_name d =? c)%string)
          (t_columns t) = true ->
  row_get c (touch now t old new) = row_get c new.
Proof.
  intros H. unfold touch. destruct (row_eqb old new); [reflexivity |].
  revert new. induction (t_columns t) as [| d ds IH]; intros new; simpl; [reflexivity |].
  simpl in H. apply andb_true_iff in H. destruct H as [Hd Hds].
  rewrite (IH Hds). destruct (col_on_update_now d); [| reflexivity].
  simpl in Hd. apply negb_true_iff in Hd.
  apply row_get_set_other. now rewrite String.eqb_sym.
Qed.

Section Reset.

Context {libraries : Libraries}.
Variable env : Env.

Lemma reset_password_result now db req ta email pw :
  get_table "admins" db = Some ta ->
  t_columns ta = ct_columns admins_ddl -> t_fks ta = [] ->
  field "email" (body req) = JString email -> email <> "" ->
  field "newPassword" (body req) = JString pw -> pw <> "" ->
  (String.length (bcrypt_hash pw 12) <= 255)%nat ->
  reset_password now db req
  = if existsb (email_matches (JString email)) (t_rows ta)
    then (set_table "admins"
            (with_rows ta
               (map (fun r => if email_matches (JString email) r
                              then with_password now ta (bcrypt_hash pw 12) r
                              else r) (t_rows ta))) db,
          json (JObject [("message", JString "Password updated successfully")]))
    else (db, status_json 404 (error_body "Admin not found")).
Proof.
  intros Hget Hcols Hfks He Hne Hp Hnp Hlen. unfold reset_password.
  rewrite He, Hp. rewrite !truthy_string by assumption. cbn [negb orb to_text].
  set (h := bcrypt_hash pw 12) in *.
  assert (update_rows now db ta (combine ["password"] [JString h; JString email])
            (fun r => sql_eq_param (row_get "email" r)
                        (nth (List.length ["password"]) [JString h; JString email]
                             JUndefined))
            [] (t_rows ta)
          = inr (map (fun r => if email_matches (JString email) r
                               then with_password now ta h r else r) (t_rows ta))) as Hu.
  { apply (update_rows_map now db ta _ _ (row_set "password" (VStr h))).
    - intros r _ _. cbn [combine assign]. rewrite (find_col_known _ _ _ Hcols).
      cbn [find ct_columns admins_ddl col_name id_column unique not_null column
           created_at_column updated_at_column default String.eqb Ascii.eqb Bool.eqb
           need bind col_type coerce].
      apply Nat.leb_le in Hlen. rewrite Hlen. reflexivity.
    - unfold sets_no_unique. rewrite Hcols. reflexivity.
    - intros r _ _. unfold parent_ok. rewrite Hfks. reflexivity. }
  rewrite (exec_update_intro now db "admins" ["password"] "email"
             [JString h; JString email] ta _ eq_refl Hget eq_refl
             ltac:(cbn [forallb]; rewrite !(has_col_known _ _ _ Hcols); reflexivity)
             ltac:(rewrite (has_col_known _ _ _ Hcols); reflexivity) Hu).
  cbn [affectedRows List.length nth combine].
  fold (email_matches (JString email)).
  destruct (existsb (email_matches (JString email)) (t_rows ta)) eqn:Ex.
  - destruct (filter (email_matches (JString email)) (t_rows ta)) as [| r rs] eqn:Ef.
    + apply existsb_exists in Ex. destruct Ex as (r & Hr & Er).
      assert (In r (filter (email_matches (JString email)) (t_rows ta))) as Hin
        by (apply filter_In; auto).
      rewrite Ef in Hin. destruct Hin.
    + cbn [List.length]. rewrite Nat2Z.inj_succ.
      destruct (Z.succ (Z.of_nat (List.length rs)) =? 0) eqn:Ez;
        [apply Z.eqb_eq in Ez; lia |].
      reflexivity.
  - assert (forall r, In r (t_rows ta) -> email_matches (JString email) r = false) as Hno.
    { intros r Hr. destruct (email_matches (JString email) r) eqn:Er; [| reflexivity].
      assert (existsb (email_matches (JString email)) (t_rows ta) = true) as Hc
        by (apply existsb_exists; eauto).
      congruence. }
    rewrite (filter_none _ _ Hno). cbn [List.length Z.of_nat Z.eqb].
    rewrite (map_if_none _ _ _ Hno), with_rows_same, (set_table_same _ _ _ Hget).
    reflexivity.
Qed.

Lemma login_succeeds now db req t email pw admin others token :
  field "email" (body req) = JString email -> email <> "" ->
  field "password" (body req) = JString pw -> pw <> "" ->
  get_table "admins" db = Some t -> has_col t "email" = true ->
  filter (email_matches (JString email)) (t_rows t) = admin :: others ->
  bcrypt_compare pw (to_text (prop "password" (js_of_row admin))) = true ->
  jwt_sign (token_claims admin) (JWT_SECRET env) "24h" = Some token ->
  login env now db req = (db, login_success token admin).
Proof.
  intros He Hne Hp Hnp Hget Hcol Hf Hc Hs. unfold login.
  rewrite He, Hp. rewrite !truthy_string by assumption. cbn [negb orb].
  rewrite (admin_by_email_rows db t (JString email) Hget Hcol eq_refl).
  fold (email_matches (JString email)). rewrite Hf. cbn [bind to_text].
  rewrite Hc. cbn [negb]. unfold token_claims in Hs. rewrite Hs. reflexivity.
Qed.

Lemma with_password_email now t h r :
  t_columns t = ct_columns admins_ddl ->
  row_get "email" (with_password now t h r) = row_get "email" r.
Proof.
  intros Hc. unfold with_password. rewrite touch_get by (rewrite Hc; reflexivity).
  now apply row_get_set_other.
Qed.

Lemma with_password_password now t h r :
  t_columns t = ct_columns admins_ddl ->
  row_get "password" (with_password now t h r) = VStr h.
Proof.
  intros Hc. unfold with_password. rewrite touch_get by (rewrite Hc; reflexivity).
  apply row_get_set_same.
Qed.

Lemma filter_map_if {A : Type} (p : A -> bool) (f : A -> A) (l : list A) :
  (forall x, p (f x) = p x) ->
  filter p (map (fun x => if p x then f x else x) l) = map f (filter p l).
Proof.
  intros Hf. induction l as [| x l IH]; simpl; [reflexivity |].
  destruct (p x) eqn:E; simpl.
  - rewrite Hf, E. simpl. now rewrite IH.
  - rewrite E. exact IH.
Qed.

(** X10.  [POST /reset-password] answers 400 when the email or the new password
    is missing or empty.  Otherwise, on a deployed database, it answers 404
    and changes nothing when no admin has the email; when one has, it answers
    200 and every admin with that email gets the bcrypt hash (cost 12) of the
    new password, the other columns of the row staying as they are, the
    update time apart. *)
Theorem reset_password_answers (now : Z) (db : Db) (req : Request) :
  (truthy (field "email" (body req)) = false
   \/ truthy (field "newPassword" (body req)) = false ->
   reset_password now db req
   = (db, status_json 400 (error_body "Email and new password are required")))
  /\ (forall ta email pw,
      deployed db -> get_table "admins" db = Some ta ->
      field "email" (body req) = JString email -> email <> "" ->
      field "newPassword" (body req) = JString pw -> pw <> "" ->
      (String.length (bcrypt_hash pw 12) <= 255)%nat ->
      reset_password now db req
      = if existsb (email_matches (JString email)) (t_rows ta)
        then (set_table "admins"
                (with_rows ta
                   (map (fun r => if email_matches (JString email) r
                                  then with_password now ta (bcrypt_hash pw 12) r
                                  else r) (t_rows ta))) db,
              json (JObject [("message", JString "Password updated successfully")]))
        else (db, status_json 404 (error_body "Admin not found")))
  /\ (forall ta h r c,
      t_columns ta = ct_columns admins_ddl -> c <> "password" -> c <> "updated_at" ->
      row_get "password" (with_password now ta h r) = VStr h
      /\ row_get c (with_password now ta h r) = row_get c r).
Proof.
  split; [| split].
  - unfold reset_password. intros [-> | ->]; cbn [negb orb];
      [reflexivity | now rewrite orb_true_r].
  - intros ta email pw Hd Hget He Hne Hp Hnp Hlen.
    destruct (deployed_cols db Hd) as (ta' & _ & _ & _ & (Ha & Hac & Haf) & _).
    rewrite Hget in Ha. injection Ha as <-.
    now apply reset_password_result.
  - intros ta h r c Hc Hc1 Hc2. split; [now apply with_password_password |].
    unfold with_password. rewrite touch_get.
    + apply row_get_set_other. now apply String.eqb_neq.
    + rewrite Hc. apply String.eqb_neq in Hc2. rewrite String.eqb_sym in Hc2.
      cbn [forallb ct_columns admins_ddl col_on_update_now col_name id_column unique
           not_null column created_at_column updated_at_column default negb orb andb].
      rewrite Hc2. reflexivity.
Qed.

(** X11.  After a [POST /reset-password] that answered 200, a login with the same
    email and the new password answers 200, provided the hash fits the
    password column, [bcrypt.compare] accepts a password against its own hash
    and [jwt.sign] returns a token. *)
Theorem reset_then_login (now now' : Z) (db : Db) (req req' : Request)
    (email pw : string) :
  deployed db ->
  field "email" (body req) = JString email -> email <> "" ->
  field "newPassword" (body req) = JString pw -> pw <> "" ->
  field "email" (body req') = JString email ->
  field "password" (body req') = JString pw ->
  (String.length (bcrypt_hash pw 12) <= 255)%nat ->
  bcrypt_compare pw (bcrypt_hash pw 12) = true ->
  (forall claims, jwt_sign claims (JWT_SECRET env) "24h" <> None) ->
  status (snd (reset_password now db req)) = 200 ->
  status (snd (login env now' (fst (reset_password now db req)) req')) = 200.
Proof.
  intros Hd He Hne Hp Hnp He' Hp' Hlen Hb Hj H.
  destruct (deployed_cols db Hd) as (ta & _ & _ & _ & (Hget & Hac & Haf) & _).
  rewrite (reset_password_result now db req ta email pw) in * by assumption.
  destruct (existsb (email_matches (JString email)) (t_rows ta)) eqn:Ex;
    [| discriminate].
  cbn [fst snd] in *. clear H.
  set (h := bcrypt_hash pw 12) in *.
  set (rows' := map (fun r => if email_matches (JString email) r
                              then with_password now ta h r else r) (t_rows ta)).
  assert (filter (email_matches (JString email)) rows'
          = map (with_password now ta h)
              (filter (email_matches (JString email)) (t_rows ta))) as Hf.
  { apply filter_map_if. intros r. unfold email_matches.
    now rewrite with_password_email. }
  destruct (filter (email_matches (JString email)) (t_rows ta)) as [| a others] eqn:Ef.
  { apply existsb_exists in Ex. destruct Ex as (r & Hr & Er).
    assert (In r (filter (email_matches (JString email)) (t_rows ta))) as Hin
      by (apply filter_In; auto).
    rewrite Ef in Hin. destruct Hin. }
  cbn [map] in Hf.
  destruct (jwt_sign (token_claims (with_password now ta h a)) (JWT_SECRET env) "24h")
    as [token |] eqn:Es; [| now apply Hj in Es].
  rewrite (login_succeeds now' _ req' (with_rows ta rows') email pw
             (with_password now ta h a)
             (map (with_password now ta h) others) token); try assumption.
  - reflexivity.
  - apply get_set_same.
  - rewrite (has_col_known (with_rows ta rows') (ct_columns admins_ddl) "email" Hac).
    reflexivity.
  - rewrite prop_js_of_row.
    pose proof (with_password_password now ta h a Hac) as Hpw.
    unfold row_get in Hpw.
    destruct (assoc "password" (with_password now ta h a)) as [v |];
      [subst v | discriminate].
    exact Hb.
Qed.

End Reset.

Lemma reset_password_answers_witness :
  reset_password (libraries := toy_libraries) 7 portal
    (request [] [] [("email", "b@x.org"); ("newPassword", "fresh")])
  = (set_table "admins"
       (with_rows portal_admins
          [admin_row 1 "a@x.org" "hash:secret";
           with_password 7 portal_admins "hash:fresh" (admin_row 2 "b@x.org" "hash:other")])
       portal,
     json (JObject [("message", JString "Password updated successfully")])).
Proof.
  apply (proj1 (proj2 (reset_password_answers (libraries := toy_libraries) 7 portal
                         (request [] [] [("email", "b@x.org"); ("newPassword", "fresh")])))
           portal_admins "b@x.org" "fresh").
  - apply database_deployed.
  - reflexivity.
  - reflexivity.
  - discriminate.
  - reflexivity.
  - discriminate.
  - simpl. lia.
Defined.

Lemma reset_then_login_witness :
  status (snd (login (libraries := toy_libraries) toy_env 9
                 (fst (reset_password (libraries := toy_libraries) 7 portal
                         (request [] [] [("email", "a@x.org"); ("newPassword", "fresh")])))
                 (credentials "a@x.org" "fresh"))) = 200.
Proof.
  apply (reset_then_login (libraries := toy_libraries) toy_env 7 9 portal
           (request [] [] [("email", "a@x.org"); ("newPassword", "fresh")])
           (credentials "a@x.org" "fresh") "a@x.org" "fresh").
  - apply database_deployed.
  - reflexivity.
  - discriminate.
  - reflexivity.
  - discriminate.
  - reflexivity.
  - reflexivity.
  - simpl. lia.
  - reflexivity.
  - intros claims. cbn. discriminate.
  - reflexivity.
Defined.

(** ** POST /init, then POST /login *)

Lemma js_or_default_string (v : JsVal) (d s : string) :
  d <> "" -> js_or v (JString d) = JString s -> s <> "".
Proof.
  unfold js_or. intros Hd. destruct (truthy v) eqn:E.
  - intros ->. simpl in E. intros ->. discriminate.
  - intros H. injection H as <-. exact Hd.
Qed.

Section InitLogin.

Context {libraries : Libraries}.
Variable env : Env.

(** X12.  On a deployed database without admins, [POST /init] returns as
    [tempPassword] the configured password (or [admin123]), and a login with
    the configured email (or [admin@breastcancer.com]) and that password then
    answers 200, provided the email and the hash fit their columns,
    [bcrypt.compare] accepts a password against its own hash and [jwt.sign]
    returns a token. *)
Theorem init_then_login (now now' : Z) (db : Db) (req req' : Request)
    (ta : Table) (email password : string) :
  deployed db ->
  get_table "admins" db = Some ta -> t_rows ta = [] ->
  js_or (ADMIN_EMAIL env) (JString "admin@breastcancer.com") = JString email ->
  js_or (ADMIN_PASSWORD env) (JString "admin123") = JString password ->
  field "email" (body req') = JString email ->
  field "password" (body req') = JString password ->
  (String.length email <= 255)%nat ->
  (String.length (bcrypt_hash password 12) <= 255)%nat ->
  bcrypt_compare password (bcrypt_hash password 12) = true ->
  (forall claims, jwt_sign claims (JWT_SECRET env) "24h" <> None) ->
  prop "tempPassword" (payload (snd (init env now db req))) = JString password
  /\ status (snd (login env now' (fst (init env now db req)) req')) = 200.
Proof.
  intros Hd Hget Hrows He Hp He' Hp' Hle Hlh Hb Hj.
  destruct (deployed_cols db Hd) as (ta' & _ & _ & _ & (Ha & Hac & Haf) & _).
  rewrite Hget in Ha. injection Ha as <-.
  rewrite (init_creates_one_admin env now db req ta email password) by assumption.
  cbn [fst snd]. split; [reflexivity |].
  set (row := default_admin_row (t_next_id ta) now email (bcrypt_hash password 12)).
  destruct (jwt_sign (token_claims row) (JWT_SECRET env) "24h") as [token |] eqn:Es;
    [| now apply Hj in Es].
  erewrite (login_succeeds env now' _ req' _ email password row [] token);
    try eassumption; try reflexivity;
    try (eapply js_or_default_string; [| eassumption]; discriminate);
    try apply get_set_same.
  - unfold has_col, find_col. cbn [t_columns]. rewrite Hac. reflexivity.
  - cbn [t_rows filter]. unfold email_matches, row. cbn [default_admin_row row_get assoc
      String.eqb Ascii.eqb Bool.eqb sql_eq_param].
    now rewrite str_ceq_refl.
Qed.

End InitLogin.

Lemma init_then_login_witness :
  prop "tempPassword"
    (payload (snd (init (libraries := toy_libraries) toy_env 7
                     (database [] [] [] []) (request [] [] []))))
  = JString "admin123"
  /\ status (snd (login (libraries := toy_libraries) toy_env 9
                    (fst (init (libraries := toy_libraries) toy_env 7
                            (database [] [] [] []) (request [] [] [])))
                    (credentials "admin@breastcancer.com" "admin123"))) = 200.
Proof.
  apply (init_then_login (libraries := toy_libraries) toy_env 7 9
           (database [] [] [] []) (request [] [] [])
           (credentials "admin@breastcancer.com" "admin123")
           (table_with (ct_columns admins_ddl) [] [] 100)
           "admin@breastcancer.com" "admin123").
  - apply database_deployed.
  - reflexivity.
  - reflexivity.
  - reflexivity.
  - reflexivity.
  - reflexivity.
  - reflexivity.
  - simpl. lia.
  - simpl. lia.
  - reflexivity.
  - intros claims. cbn. discriminate.
Defined.

End AccountFacts.

(* ================================================================== *)
(** * The admin requests for categories, materials and videos *)
(* ================================================================== *)

Module ContentFacts.
Import Js Sql Schema Http Api Admin Upload Script Spec Examples StoreFacts ApiFacts SchemaFacts AdminFacts OrderFacts SearchFacts CatalogFacts GateFacts AccountFacts.
#[local] Open Scope string_scope.
#[local] Open Scope Z_scope.
#[local] Open Scope list_scope.

#[local] Arguments resolve : simpl never.
#[local] Arguments has_col : simpl never.
#[local] Arguments project : simpl never.
#[local] Arguments where_holds : simpl never.
#[local] Arguments prop : simpl never.
#[local] Arguments js_of_row : simpl never.

(** ** GET /stats *)

Lemma count_all_rows db table t :
  get_table table db = Some t ->
  exec_count db (count_all table) []
  = inr [[("count", VInt (Z.of_nat (List.length (t_rows t))))]].
Proof.
  intros Hget. unfold exec_count. simpl. rewrite Hget. simpl.
  replace (filter (where_holds []) (t_rows t)) with (t_rows t); [reflexivity |].
  induction (t_rows t) as [| r rows IH]; simpl; [reflexivity |]. now rewrite <- IH.
Qed.

Lemma stats_counts now db req tm tv tc :
  get_table "materials" db = Some tm -> get_table "videos" db = Some tv ->
  get_table "categories" db = Some tc ->
  stats now db req
  = (db, json (JObject [("materials", num (Z.of_nat (List.length (t_rows tm))));
                        ("videos", num (Z.of_nat (List.length (t_rows tv))));
                        ("categories", num (Z.of_nat (List.length (t_rows tc))))])).
Proof.
  intros Hm Hv Hc. unfold stats.
  rewrite (count_all_rows db "materials" tm Hm), (count_all_rows db "videos" tv Hv),
    (count_all_rows db "categories" tc Hc).
  reflexivity.
Qed.

Lemma filter_length_le {A : Type} (f : A -> bool) (l : list A) :
  (List.length (filter f l) <= List.length l)%nat.
Proof.
  induction l as [| x l IH]; simpl; [lia |]. destruct (f x); simpl; lia.
Qed.

(** X13.  On a deployed database [GET /stats] answers 200 with the numbers of all
    the rows of [materials], [videos] and [categories], drafts included, and
    changes nothing; the [total] of a public listing, which counts published
    rows only, is never above the number for its table. *)
Theorem stats_count_every_row (now : Z) (db : Db) (req : Request) :
  deployed db ->
  exists tm tv tc,
    get_table "materials" db = Some tm /\ get_table "videos" db = Some tv
    /\ get_table "categories" db = Some tc
    /\ stats now db req
       = (db, json (JObject
                      [("materials", num (Z.of_nat (List.length (t_rows tm))));
                       ("videos", num (Z.of_nat (List.length (t_rows tv))));
                       ("categories", num (Z.of_nat (List.length (t_rows tc))))]))
    /\ (forall p req',
        status (serve (route_of p) db req') = 200 ->
        exists total,
          prop "total" (prop "pagination" (payload (serve (route_of p) db req')))
          = num total
          /\ total <= Z.of_nat (List.length
                                  (t_rows (if (table_of p =? "materials")%string
                                           then tm else tv)))).
Proof.
  intros Hd.
  destruct (deployed_cols db Hd)
    as (ta & tc & tm & tv & _ & (Hc & _) & (Hm & _) & (Hv & _)).
  exists tm, tv, tc. repeat split; try assumption.
  - now apply stats_counts.
  - intros p req' H. rewrite serve_paginated in *. apply catch_200 in H.
    pose proof (run_listing_consistent _ _ _ _ _ _ (mirrored_listing p req') H)
      as (t & conds & Hget & _ & _ & Hpag & _).
    eexists. split.
    + rewrite Hpag. reflexivity.
    + apply inj_le.
      assert (t = if (table_of p =? "materials")%string then tm else tv) as <-.
      { destruct p; cbn [table_of] in *; cbn; congruence. }
      apply filter_length_le.
Qed.

Lemma stats_count_every_row_witness :
  exists tm tv tc,
    get_table "materials" portal = Some tm /\ get_table "videos" portal = Some tv
    /\ get_table "categories" portal = Some tc
    /\ stats 7 portal (request [] [] [])
       = (portal, json (JObject
                      [("materials", num (Z.of_nat (List.length (t_rows tm))));
                       ("videos", num (Z.of_nat (List.length (t_rows tv))));
                       ("categories", num (Z.of_nat (List.length (t_rows tc))))]))
    /\ (forall p req',
        status (serve (route_of p) portal req') = 200 ->
        exists total,
          prop "total" (prop "pagination" (payload (serve (route_of p) portal req')))
          = num total
          /\ total <= Z.of_nat (List.length
                                  (t_rows (if (table_of p =? "materials")%string
                                           then tm else tv)))).
Proof.
  apply (stats_count_every_row 7 portal (request [] [] [])).
  apply database_deployed.
Defined.

(** ** The admin lists *)

Lemma left_join_named cats r :
  distinct_ids cats ->
  left_join_categories cats r = [(r, category_name_of cats r)].
Proof.
  intros Hd. unfold left_join_categories, category_name_of.
  pose proof (at_most_one_id (row_get "category_id" r) cats Hd) as Hlen.
  destruct (filter _ cats) as [| c [| c' ms]]; simpl in *; [reflexivity | reflexivity | lia].
Qed.

Lemma flat_map_left_join cats rows :
  distinct_ids cats ->
  flat_map (left_join_categories cats) rows
  = map (fun r => (r, category_name_of cats r)) rows.
Proof.
  intros Hd. induction rows as [| r rows IH]; simpl; [reflexivity |].
  now rewrite (left_join_named cats r Hd), IH.
Qed.

Lemma insert_by_map {A B : Type} (g : A -> B) (before : B -> B -> bool) x (l : list A) :
  insert_by before (g x) (map g l) = map g (insert_by (fun a b => before (g a) (g b)) x l).
Proof.
  induction l as [| y l IH]; simpl; [reflexivity |].
  destruct (before (g x) (g y)); simpl; [reflexivity | now rewrite IH].
Qed.

Lemma sort_by_map {A B : Type} (g : A -> B) (before : B -> B -> bool) (l : list A) :
  sort_by before (map g l) = map g (sort_by (fun a b => before (g a) (g b)) l).
Proof.
  induction l as [| x l IH]; simpl; [reflexivity |].
  now rewrite IH, insert_by_map.
Qed.

Lemma filter_true {A : Type} (f : A -> bool) (l : list A) :
  (forall x, f x = true) -> filter f l = l.
Proof. intros H. apply filter_all. auto. Qed.

Lemma all_content_rows db table alias t c :
  get_table table db = Some t -> get_table "categories" db = Some c ->
  has_col t "created_at" = true -> has_col t "category_id" = true ->
  has_col c "id" = true -> has_col c "name" = true ->
  distinct_ids (t_rows c) ->
  exec_select db (all_content table alias) []
  = inr (map (with_category_name (t_rows c))
           (sort_desc (row_get "created_at") (t_rows t))).
Proof.
  intros Hget Hc H1 H2 H3 H4 Hd.
  rewrite (exec_select_intro db (all_content table alias) [] t [] [] None 0%nat
             (flat_map (left_join_categories (t_rows c)) (t_rows t)));
    try reflexivity; try assumption.
  - cbn [all_content s_order_created_desc paginate].
    rewrite filter_true by reflexivity.
    rewrite (flat_map_left_join _ _ Hd).
    unfold sort_desc.
    rewrite (sort_by_map (fun r => (r, category_name_of (t_rows c) r))
               (fun x y => later_or_equal (row_get "created_at" (fst x))
                                          (row_get "created_at" (fst y)))).
    rewrite map_map. reflexivity.
  - now apply (joined_rows_deployed _ _ _ c).
Qed.

Lemma all_categories_rows db t :
  get_table "categories" db = Some t -> has_col t "created_at" = true ->
  exec_select db all_categories []
  = inr (sort_desc (row_get "created_at") (t_rows t)).
Proof.
  intros Hget H1.
  rewrite (exec_select_intro db all_categories [] t [] [] None 0%nat
             (map (fun r => (r, VNull)) (t_rows t)));
    try reflexivity; try assumption.
  cbn [all_categories s_order_created_desc paginate].
  rewrite filter_true by reflexivity.
  unfold sort_desc.
  rewrite (sort_by_map (fun r => (r, VNull))
             (fun x y => later_or_equal (row_get "created_at" (fst x))
                                        (row_get "created_at" (fst y)))).
  rewrite map_map. cbn [fst].
  rewrite <- (map_id (sort_by _ (t_rows t))) at 2.
  apply (f_equal (@inr Thrown (list Row))).
  apply map_ext. intros r. unfold project. cbn. apply app_nil_r.
Qed.

(** X14.  On a deployed database whose categories have different ids, the admin
    lists [GET /categories], [GET /materials] and [GET /videos] return every
    row of their table once, drafts included, ordered by [created_at] from
    the newest to the oldest; a material or a video carries the name of its
    category as [category_name], NULL when it has none. *)
Theorem admin_lists_show_every_row (now : Z) (db : Db) (req : Request) :
  deployed db ->
  (forall c, get_table "categories" db = Some c -> distinct_ids (t_rows c)) ->
  exists tc tm tv,
    get_table "categories" db = Some tc /\ get_table "materials" db = Some tm
    /\ get_table "videos" db = Some tv
    /\ admin_categories now db req
       = (db, json (js_of_rows (sort_desc (row_get "created_at") (t_rows tc))))
    /\ admin_materials now db req
       = (db, json (js_of_rows
                      (map (with_category_name (t_rows tc))
                         (sort_desc (row_get "created_at") (t_rows tm)))))
    /\ admin_videos now db req
       = (db, json (js_of_rows
                      (map (with_category_name (t_rows tc))
                         (sort_desc (row_get "created_at") (t_rows tv))))).
Proof.
  intros Hd Hk.
  destruct (deployed_cols db Hd)
    as (ta & tc & tm & tv & _ & (Hc & Hcc & _) & (Hm & Hmc & _) & (Hv & Hvc & _)).
  exists tc, tm, tv. repeat split; try assumption.
  - unfold admin_categories. rewrite (all_categories_rows db tc Hc); [reflexivity |].
    known_col Hcc.
  - unfold admin_materials.
    rewrite (all_content_rows db "materials" "m" tm tc Hm Hc); [reflexivity | | | | |];
      try known_col Hmc; try known_col Hcc. now apply Hk.
  - unfold admin_videos.
    rewrite (all_content_rows db "videos" "v" tv tc Hv Hc); [reflexivity | | | | |];
      try known_col Hvc; try known_col Hcc. now apply Hk.
Qed.

Lemma admin_lists_show_every_row_witness :
  exists tc tm tv,
    get_table "categories" portal = Some tc /\ get_table "materials" portal = Some tm
    /\ get_table "videos" portal = Some tv
    /\ admin_categories 7 portal (request [] [] [])
       = (portal, json (js_of_rows (sort_desc (row_get "created_at") (t_rows tc))))
    /\ admin_materials 7 portal (request [] [] [])
       = (portal, json (js_of_rows
                      (map (with_category_name (t_rows tc))
                         (sort_desc (row_get "created_at") (t_rows tm)))))
    /\ admin_videos 7 portal (request [] [] [])
       = (portal, json (js_of_rows
                      (map (with_category_name (t_rows tc))
                         (sort_desc (row_get "created_at") (t_rows tv))))).
Proof.
  apply (admin_lists_show_every_row 7 portal (request [] [] [])).
  - apply database_deployed.
  - intros c Hc. apply (portal_keyed "categories" c Hc).
Defined.

(** ** Categories *)

Lemma category_by_id_rows db t s :
  get_table "categories" db = Some t -> has_col t "id" = true ->
  exec_select db category_by_id [JString s] = inr (filter (id_is s) (t_rows t)).
Proof.
  intros Hget Hcol.
  rewrite (exec_select_intro db category_by_id [JString s] t [CEq "id" (JString s)] []
             None 0%nat (map (fun r => (r, VNull)) (t_rows t)));
    try reflexivity; try assumption.
  - cbn [category_by_id s_order_created_desc paginate].
    rewrite plain_select_rows by reflexivity.
    apply (f_equal (@inr Thrown (list Row))). apply filter_ext. intros r.
    unfold where_holds, id_is. cbn. apply andb_true_r.
  - cbn [category_by_id s_where s_alias bind_where bind_pred].
    rewrite resolve_plain by assumption. reflexivity.
Qed.

Lemma get_category_answer db req t s :
  get_table "categories" db = Some t -> has_col t "id" = true ->
  assoc "id" (params req) = Some s ->
  get_category db req
  = match filter (id_is s) (t_rows t) with
    | [] => status_json 404 (failure "Category not found")
    | first :: _ => found_category first
    end.
Proof.
  intros Hget Hcol Hid. unfold get_category, field. rewrite Hid.
  rewrite (category_by_id_rows db t s Hget Hcol). cbn [bind].
  destruct (filter (id_is s) (t_rows t)); reflexivity.
Qed.

Lemma fresh_id t :
  ids_below_next t ->
  existsb (fun r => sql_eq (row_get "id" r) (VInt (t_next_id t))) (t_rows t) = false.
Proof.
  unfold ids_below_next. induction 1 as [| r rows (z & Hz & Hlt) _ IH]; simpl; [reflexivity |].
  rewrite Hz. simpl. rewrite IH.
  destruct (z =? t_next_id t) eqn:E; [apply Z.eqb_eq in E; lia | reflexivity].
Qed.

Lemma post_category_stores now db req t name description :
  get_table "categories" db = Some t ->
  t_columns t = ct_columns categories_ddl -> t_fks t = [] ->
  ids_below_next t ->
  field "name" (body req) = JString name ->
  field "description" (body req) = JString description ->
  (String.length name <= 255)%nat ->
  (Z.of_nat (String.length description) <= 65535) ->
  post_category now db req
  = (set_table "categories"
       (with_new_row t (new_category (t_next_id t) now name (VStr description))) db,
     json (JObject [("id", num (t_next_id t)); ("name", JString name);
                    ("description", JString description)])).
Proof.
  intros Hget Hcols Hfks Hids Hn Hd Hln Hld. unfold post_category.
  rewrite Hn, Hd.
  unfold exec_insert. cbn [check_params forallb defined andb guard bind].
  rewrite Hget. cbn [need bind List.length Nat.eqb guard].
  rewrite !(has_col_known _ _ _ Hcols). cbn -[Nat.leb String.length Z.leb Z.of_nat].
  apply Nat.leb_le in Hln. apply Z.leb_le in Hld.
  unfold unique_ok, parent_ok. rewrite Hcols, Hfks.
  cbn -[Nat.leb String.length Z.leb Z.of_nat]. rewrite Hln, Hld.
  cbn -[Nat.leb String.length Z.leb Z.of_nat].
  unfold fresh_in. cbn [is_null orb row_get assoc String.eqb Ascii.eqb Bool.eqb].
  rewrite (fresh_id t Hids). cbn [guard negb andb bind attempt insertId].
  unfold with_new_row, new_category. rewrite Hcols, Hfks. reflexivity.
Qed.

Lemma filter_app_last {A : Type} (f : A -> bool) (l : list A) (x : A) :
  (forall y, In y l -> f y = false) -> f x = true -> filter f (l ++ [x]) = [x].
Proof.
  intros Hl Hx. rewrite filter_app, (filter_none f l Hl). simpl. now rewrite Hx.
Qed.

(** X15.  On a deployed database whose category ids are below the AUTO_INCREMENT
    counter, [POST /categories] with a name of at most 255 characters and a
    description answers with the new id, the name and the description, and
    the public [GET /categories/:id] of that id then returns the stored
    category. *)
Theorem post_category_then_get (now : Z) (db : Db) (req : Request)
    (name description : string) :
  deployed db ->
  (forall t, get_table "categories" db = Some t -> ids_below_next t) ->
  field "name" (body req) = JString name ->
  field "description" (body req) = JString description ->
  (String.length name <= 255)%nat ->
  (Z.of_nat (String.length description) <= 65535) ->
  exists id,
    snd (post_category now db req)
    = json (JObject [("id", num id); ("name", JString name);
                     ("description", JString description)])
    /\ forall req' s,
         assoc "id" (params req') = Some s -> StringToNumber s = JInt id ->
         get_category (fst (post_category now db req)) req'
         = found_category (new_category id now name (VStr description)).
Proof.
  intros Hdep Hids Hn Hd Hln Hld.
  destruct (deployed_cols db Hdep) as (ta & tc & _ & _ & _ & (Hc & Hcc & Hcf) & _).
  rewrite (post_category_stores now db req tc name description) by auto.
  cbn [fst snd]. exists (t_next_id tc). split; [reflexivity |].
  intros req' s Hs Hnum.
  rewrite (get_category_answer _ req' (with_new_row tc _) s (get_set_same _ _ _));
    [| unfold has_col, find_col; cbn [with_new_row t_columns]; rewrite Hcc; reflexivity
     | exact Hs].
  cbn [with_new_row t_rows]. rewrite filter_app_last; [reflexivity | |].
  - intros r Hr. unfold id_is.
    specialize (Hids tc Hc). unfold ids_below_next in Hids.
    rewrite Forall_forall in Hids. destruct (Hids r Hr) as (z & -> & Hz).
    cbn [sql_eq_param]. rewrite Hnum. destruct (z =? t_next_id tc) eqn:E; [apply Z.eqb_eq in E; lia | reflexivity].
  - unfold id_is, new_category. cbn [row_get assoc String.eqb Ascii.eqb Bool.eqb sql_eq_param].
    rewrite Hnum. apply Z.eqb_refl.
Qed.

Lemma portal_ids_below name t : get_table name portal = Some t -> ids_below_next t.
Proof.
  unfold get_table, portal, database. cbn [assoc].
  repeat match goal with
         | |- (if ?b then _ else _) = _ -> _ =>
             destruct b;
             [intros H; injection H as <-; unfold ids_below_next;
              repeat (constructor; [eexists; split; [reflexivity | reflexivity] |]);
              constructor |]
         end.
  discriminate.
Qed.

Lemma post_category_then_get_witness :
  exists id,
    snd (post_category 7 portal (request [] [] [("name", "N"); ("description", "D")]))
    = json (JObject [("id", num id); ("name", JString "N");
                     ("description", JString "D")])
    /\ forall req' s,
         assoc "id" (params req') = Some s -> StringToNumber s = JInt id ->
         get_category
           (fst (post_category 7 portal
                   (request [] [] [("name", "N"); ("description", "D")]))) req'
         = found_category (new_category id 7 "N" (VStr "D")).
Proof.
  apply (post_category_then_get 7 portal
           (request [] [] [("name", "N"); ("description", "D")]) "N" "D").
  - apply database_deployed.
  - apply portal_ids_below.
  - reflexivity.
  - reflexivity.
  - simpl. lia.
  - simpl. lia.
Defined.

(** X16.  On a deployed database the public [GET /categories/:id] answers 404 with
    [Category not found] when no category has the id, and otherwise 200 with
    the first category whose id the store takes as equal to the parameter (a
    number written as text). *)
Theorem category_found_or_404 (db : Db) (req : Request) (s : string) :
  deployed db -> assoc "id" (params req) = Some s ->
  exists tc,
    get_table "categories" db = Some tc
    /\ get_category db req
       = match filter (id_is s) (t_rows tc) with
         | [] => status_json 404 (failure "Category not found")
         | first :: _ => found_category first
         end.
Proof.
  intros Hd Hs.
  destruct (deployed_cols db Hd) as (ta & tc & _ & _ & _ & (Hc & Hcc & Hcf) & _).
  exists tc. split; [exact Hc |].
  apply get_category_answer; [exact Hc | known_col Hcc | exact Hs].
Qed.

Lemma category_found_or_404_witness :
  exists tc,
    get_table "categories" portal = Some tc
    /\ get_category portal (request [] [("id", "1")] [])
       = match filter (id_is "1") (t_rows tc) with
         | [] => status_json 404 (failure "Category not found")
         | first :: _ => found_category first
         end.
Proof.
  apply (category_found_or_404 portal (request [] [("id", "1")] []) "1").
  - apply database_deployed.
  - reflexivity.
Defined.

(** ** Undefined bind parameters *)

Lemma exec_insert_undefined now db table cols ps :
  forallb defined ps = false -> exec_insert now db table cols ps = inl UndefinedParameter.
Proof. intros H. unfold exec_insert, check_params. now rewrite H. Qed.

Lemma exec_update_undefined now db table cols key ps :
  forallb defined ps = false ->
  exec_update now db table cols key ps = inl UndefinedParameter.
Proof. intros H. unfold exec_update, check_params. now rewrite H. Qed.

Lemma forallb_defined_app ps qs :
  forallb defined ps = false -> forallb defined (ps ++ qs) = false.
Proof. intros H. now rewrite forallb_app, H. Qed.

Ltac undefined_field :=
  match goal with
  | H : _ \/ _ |- _ => destruct H as [H | H]; rewrite H
  end;
  cbn [forallb defined andb]; rewrite ?andb_false_r; reflexivity.

(** X17.  A create or update request whose body lacks a field that the handler
    binds without a default ([name] or [description] of a category, [title]
    or [content] of a material, [title] or [description] of a video) is
    answered 500 with the error message of its handler, and the database is
    left as it is: the driver refuses an [undefined] parameter. *)
Theorem writes_need_their_fields (files : Files) (now : Z) (db : Db) (req : Request) :
  (field "name" (body req) = JUndefined \/ field "description" (body req) = JUndefined ->
   post_category now db req
   = (db, status_json 500 (error_body "Failed to create category"))
   /\ put_category now db req
      = (db, status_json 500 (error_body "Failed to update category")))
  /\ (field "title" (body req) = JUndefined \/ field "content" (body req) = JUndefined ->
      post_material now db req
      = (db, status_json 500 (error_body "Failed to create material"))
      /\ put_material now db req
         = (db, status_json 500 (error_body "Failed to update material")))
  /\ (field "title" (body req) = JUndefined
      \/ field "description" (body req) = JUndefined ->
      post_video files now db req
      = (db, status_json 500 (error_body "Failed to create video"))
      /\ put_video files now db req
         = (db, status_json 500 (error_body "Failed to update video"))).
Proof.
  split; [| split]; intros H; split.
  - unfold post_category. rewrite exec_insert_undefined; [reflexivity |]. undefined_field.
  - unfold put_category. rewrite exec_update_undefined; [reflexivity |]. undefined_field.
  - unfold post_material. rewrite exec_insert_undefined; [reflexivity |]. undefined_field.
  - unfold put_material.
    destruct (truthy match file req with
                     | Some f => JString ("/uploads/images/" ++ filename f)
                     | None => JUndefined
                     end);
      (rewrite exec_update_undefined; [reflexivity |]);
      apply forallb_defined_app; try apply forallb_defined_app; undefined_field.
  - unfold post_video.
    destruct files as [fs |]; cbn [bind];
      [destruct (uploaded fs "video" "/uploads/videos/") as [e | v]; [reflexivity |];
       cbn [bind];
       destruct (uploaded fs "thumbnail" "/uploads/images/") as [e | t]; [reflexivity |];
       cbn [bind] |];
      (rewrite exec_insert_undefined; [reflexivity |]); undefined_field.
  - unfold put_video, video_sources.
    destruct files as [fs |]; cbn [bind];
      [destruct (uploaded fs "video" "/uploads/videos/") as [e | v]; [reflexivity |];
       cbn [bind];
       destruct (uploaded fs "thumbnail" "/uploads/images/") as [e | t]; [reflexivity |];
       cbn [bind]
      | destruct (truthy (field "video_url" (body req))); cbn [bind]];
      (rewrite exec_update_undefined; [reflexivity |]);
      apply forallb_defined_app; undefined_field.
Qed.

Lemma writes_need_their_fields_witness :
  post_category 7 portal (request [] [] [("name", "N")])
  = (portal, status_json 500 (error_body "Failed to create category"))
  /\ put_category 7 portal (request [] [] [("name", "N")])
     = (portal, status_json 500 (error_body "Failed to update category")).
Proof.
  apply (proj1 (writes_need_their_fields None 7 portal (request [] [] [("name", "N")]))).
  right. reflexivity.
Defined.

(** ** PUT /categories/:id *)

Lemma put_category_result now db req t s name description :
  get_table "categories" db = Some t ->
  t_columns t = ct_columns categories_ddl -> t_fks t = [] ->
  assoc "id" (params req) = Some s ->
  field "name" (body req) = JString name ->
  field "description" (body req) = JString description ->
  (String.length name <= 255)%nat ->
  (Z.of_nat (String.length description) <= 65535) ->
  put_category now db req
  = (set_table "categories"
       (with_rows t (map (fun r => if id_is s r
                                   then renamed now t name description r else r)
                         (t_rows t))) db,
     json (JObject [("id", JString s); ("name", JString name);
                    ("description", JString description)])).
Proof.
  intros Hget Hcols Hfks Hs Hn Hd Hln Hld. unfold put_category.
  assert (field "id" (params req) = JString s) as Hid
    by (unfold field; now rewrite Hs).
  rewrite Hid, Hn, Hd.
  assert (update_rows now db t
            (combine ["name"; "description"]
               [JString name; JString description; JString s])
            (fun r => sql_eq_param (row_get "id" r)
                        (nth (List.length ["name"; "description"])
                             [JString name; JString description; JString s]
                             JUndefined))
            [] (t_rows t)
          = inr (map (fun r => if id_is s r then renamed now t name description r else r)
                   (t_rows t))) as Hu.
  { apply (update_rows_map now db t _ _
             (fun r => row_set "description" (VStr description)
                         (row_set "name" (VStr name) r))).
    - intros r _ _. cbn [combine assign]. rewrite !(find_col_known _ _ _ Hcols).
      cbn [find ct_columns categories_ddl col_name id_column not_null column
           created_at_column updated_at_column default String.eqb Ascii.eqb Bool.eqb
           need bind col_type coerce].
      apply Nat.leb_le in Hln. apply Z.leb_le in Hld. rewrite Hln, Hld. reflexivity.
    - unfold sets_no_unique. rewrite Hcols. reflexivity.
    - intros r _ _. unfold parent_ok. rewrite Hfks. reflexivity. }
  rewrite (exec_update_intro now db "categories" ["name"; "description"] "id"
             [JString name; JString description; JString s] t _ eq_refl Hget eq_refl
             ltac:(cbn [forallb]; rewrite !(has_col_known _ _ _ Hcols); reflexivity)
             ltac:(rewrite (has_col_known _ _ _ Hcols); reflexivity) Hu).
  reflexivity.
Qed.

(** X18.  On a deployed database [PUT /categories/:id] with a name and a
    description that fit their columns answers 200 with the id, the name and
    the description of the request, whether a category has the id or not:
    every category with the id gets the name and the description, its other
    columns staying as they are, the update time apart, and when no category
    has the id the database is unchanged. *)
Theorem put_category_acknowledged (now : Z) (db : Db) (req : Request)
    (s name description : string) :
  deployed db ->
  assoc "id" (params req) = Some s ->
  field "name" (body req) = JString name ->
  field "description" (body req) = JString description ->
  (String.length name <= 255)%nat ->
  (Z.of_nat (String.length description) <= 65535) ->
  exists tc,
    get_table "categories" db = Some tc
    /\ put_category now db req
       = (set_table "categories"
            (with_rows tc (map (fun r => if id_is s r
                                         then renamed now tc name description r else r)
                               (t_rows tc))) db,
          json (JObject [("id", JString s); ("name", JString name);
                         ("description", JString description)]))
    /\ ((forall r, In r (t_rows tc) -> id_is s r = false) ->
        fst (put_category now db req) = db)
    /\ (forall r c, c <> "name" -> c <> "description" -> c <> "updated_at" ->
        row_get "name" (renamed now tc name description r) = VStr name
        /\ row_get "description" (renamed now tc name description r) = VStr description
        /\ row_get c (renamed now tc name description r) = row_get c r).
Proof.
  intros Hdep Hs Hn Hd Hln Hld.
  destruct (deployed_cols db Hdep) as (ta & tc & _ & _ & _ & (Hc & Hcc & Hcf) & _).
  exists tc. split; [exact Hc |].
  rewrite (put_category_result now db req tc s name description) by assumption.
  split; [reflexivity |]. split.
  - intros Hno. cbn [fst].
    now rewrite (map_if_none _ _ _ Hno), with_rows_same, (set_table_same _ _ _ Hc).
  - intros r c H1 H2 H3.
    assert (forall k, k <> "updated_at" ->
              row_get k (renamed now tc name description r)
              = row_get k (row_set "description" (VStr description)
                             (row_set "name" (VStr name) r))) as Ht.
    { intros k Hk. unfold renamed. apply touch_get. rewrite Hcc.
      apply String.eqb_neq in Hk. rewrite String.eqb_sym in Hk.
      cbn [forallb ct_columns categories_ddl col_on_update_now col_name id_column
           not_null column created_at_column updated_at_column default negb orb andb].
      rewrite Hk. reflexivity. }
    rewrite !Ht by (auto; discriminate).
    split; [| split].
    + rewrite row_get_set_other by reflexivity. apply row_get_set_same.
    + apply row_get_set_same.
    + rewrite !row_get_set_other by (now apply String.eqb_neq). reflexivity.
Qed.

Lemma put_category_acknowledged_witness :
  exists tc,
    get_table "categories" portal = Some tc
    /\ put_category 7 portal
         (request [] [("id", "42")] [("name", "N"); ("description", "D")])
       = (set_table "categories"
            (with_rows tc (map (fun r => if id_is "42" r
                                         then renamed 7 tc "N" "D" r else r)
                               (t_rows tc))) portal,
          json (JObject [("id", JString "42"); ("name", JString "N");
                         ("description", JString "D")]))
    /\ ((forall r, In r (t_rows tc) -> id_is "42" r = false) ->
        fst (put_category 7 portal
               (request [] [("id", "42")] [("name", "N"); ("description", "D")]))
        = portal)
    /\ (forall r c, c <> "name" -> c <> "description" -> c <> "updated_at" ->
        row_get "name" (renamed 7 tc "N" "D" r) = VStr "N"
        /\ row_get "description" (renamed 7 tc "N" "D" r) = VStr "D"
        /\ row_get c (renamed 7 tc "N" "D" r) = row_get c r).
Proof.
  apply (put_category_acknowledged 7 portal
           (request [] [("id", "42")] [("name", "N"); ("description", "D")])
           "42" "N" "D").
  - apply database_deployed.
  - reflexivity.
  - reflexivity.
  - reflexivity.
  - simpl. lia.
  - simpl. lia.
Defined.

(** ** POST /materials *)

Lemma optional_value (d : Column) (v : SqlVal) (x : Res SqlVal) :
  col_not_null d = false ->
  (if is_null v && false then x else null_checked d v) = inr v.
Proof.
  intros Hd. rewrite andb_false_r. unfold null_checked. rewrite Hd.
  destruct v; reflexivity.
Qed.

Lemma post_material_result now db req tm tc title content author category image status :
  get_table "materials" db = Some tm ->
  t_columns tm = materials_columns_with_author -> t_fks tm = [category_fk] ->
  get_table "categories" db = Some tc ->
  ids_below_next tm ->
  field "title" (body req) = JString title ->
  field "content" (body req) = JString content ->
  (String.length title <= 255)%nat ->
  (Z.of_nat (String.length content) <= 65535) ->
  material_values req author category image status ->
  post_material now db req
  = if category_exists (t_rows tc) category
    then (set_table "materials"
            (with_new_row tm
               (new_material (t_next_id tm) now title content
                  author category image status)) db,
          json (JObject [("id", num (t_next_id tm));
                         ("title", JString title);
                         ("content", JString content);
                         ("author", field "author" (body req));
                         ("category_id", field "category_id" (body req));
                         ("image", image_of req);
                         ("status", js_or (field "status" (body req))
                                      (JString "published"))]))
    else (db, status_json 500 (error_body "Failed to create material")).
Proof.
  intros Hget Hcols Hfks Hc Hids Ht Hco Hlt Hlc (Ha & Hcat & Hi & Hs).
  unfold post_material. fold (image_of req). rewrite Ht, Hco.
  remember (js_or (field "author" (body req)) JNull) as pa eqn:Epa.
  remember (js_or (field "category_id" (body req)) JNull) as pc eqn:Epc.
  remember (image_of req) as pi eqn:Epi.
  remember (js_or (field "status" (body req)) (JString "published")) as ps eqn:Eps.
  assert (defined pa = true /\ defined pc = true /\ defined pi = true
          /\ defined ps = true) as (Da & Dc & Di & Ds).
  { repeat split;
      match goal with
      | |- defined ?p = true => destruct p; try reflexivity; discriminate
      end. }
  unfold exec_insert, check_params.
  cbn [forallb defined andb]. rewrite Da, Dc, Di, Ds. cbn [andb guard bind].
  rewrite Hget. cbn [need bind List.length Nat.eqb guard].
  rewrite !(has_col_known _ _ _ Hcols).
  cbn [forallb find materials_columns_with_author col_name id_column not_null column
       author_column status_column created_at_column updated_at_column default
       String.eqb Ascii.eqb Bool.eqb andb guard bind].
  rewrite Hcols. 
  cbn [mapM materials_columns_with_author combine assoc col_name id_column not_null
       column author_column status_column created_at_column updated_at_column default
       String.eqb Ascii.eqb Bool.eqb bind col_type col_auto_increment col_default
       col_not_null absent_value].
  rewrite Ha, Hcat, Hi, Hs.
  apply Nat.leb_le in Hlt. apply Z.leb_le in Hlc.
  cbn [coerce bind]. rewrite Hlt, Hlc.
  cbn [bind is_null andb null_checked col_not_null col_auto_increment].
  rewrite !optional_value by reflexivity.
  cbn [bind].
  unfold unique_ok. rewrite Hcols.
  cbn [forallb materials_columns_with_author col_unique col_name id_column not_null
       column author_column status_column created_at_column updated_at_column default
       negb orb andb].
  unfold fresh_in. cbn [is_null orb row_get assoc String.eqb Ascii.eqb Bool.eqb].
  rewrite (fresh_id tm Hids). cbn [negb andb guard bind].
  unfold parent_ok. rewrite Hfks.
  cbn [forallb category_fk fk_col fk_table fk_ref row_get assoc String.eqb Ascii.eqb
       Bool.eqb].
  rewrite Hc. rewrite andb_true_r.
  fold (category_exists (t_rows tc) category).
  destruct (category_exists (t_rows tc) category); cbn [guard bind attempt insertId].
  - unfold with_new_row, new_material. rewrite Hcols, Hfks. reflexivity.
  - reflexivity.
Qed.

Lemma left_join_head cats r :
  exists rest, left_join_categories cats r = (r, category_name_of cats r) :: rest
               /\ Forall (fun x => fst x = r) rest.
Proof.
  unfold left_join_categories, category_name_of.
  destruct (filter _ cats) as [| c ms]; simpl.
  - exists []. split; [reflexivity | constructor].
  - eexists. split; [reflexivity |]. apply Forall_map. apply Forall_forall. reflexivity.
Qed.

Lemma filter_fst_all {A B : Type} (f : A -> bool) (r : A) (l : list (A * B)) :
  Forall (fun x => fst x = r) l ->
  filter (fun x => f (fst x)) l = if f r then l else [].
Proof.
  induction 1 as [| x l Hx Hl IH]; simpl; [now destruct (f r) |].
  rewrite Hx, IH. now destruct (f r).
Qed.

(** The detail route on a table whose last row is new: the route finds the
    row under its id if it is published, and nothing if it is not. *)
Lemma new_row_by_id db table alias req missing msg t tc row s :
  table = "materials" /\ alias = "m" \/ table = "videos" /\ alias = "v" ->
  get_table table db = Some (with_new_row t row) ->
  get_table "categories" db = Some tc ->
  has_col t "id" = true -> has_col t "status" = true ->
  has_col t "category_id" = true ->
  has_col tc "id" = true -> has_col tc "name" = true ->
  ids_below_next t ->
  row_get "id" row = VInt (t_next_id t) ->
  assoc "id" (params req) = Some s -> StringToNumber s = JInt (t_next_id t) ->
  catch (by_id db table alias req missing) msg
  = if published row
    then found_content (with_category_name (t_rows tc) row)
    else status_json 404 (failure missing).
Proof.
  intros Htab Hget Hc H1 H2 H3 H4 H5 Hids Hrow Hs Hnum.
  unfold by_id, field. rewrite Hs.
  rewrite (by_id_rows db table alias (with_new_row t row) tc s Hget Hc H1 H2 H3 H4 H5).
  cbn [with_new_row t_rows]. rewrite flat_map_app, filter_app.
  rewrite (filter_none _ (flat_map _ (t_rows t))).
  2: { intros x Hx. apply in_flat_map in Hx. destruct Hx as (r & Hr & Hx).
       apply In_left_join in Hx. rewrite Hx.
       unfold ids_below_next in Hids. rewrite Forall_forall in Hids.
       destruct (Hids r Hr) as (z & -> & Hz). cbn [sql_eq_param]. rewrite Hnum.
       destruct (z =? t_next_id t) eqn:E; [apply Z.eqb_eq in E; lia | reflexivity]. }
  cbn [app flat_map]. rewrite app_nil_r.
  destruct (left_join_head (t_rows tc) row) as (rest & -> & Hrest).
  rewrite (filter_fst_all
             (fun r => sql_eq_param (row_get "id" r) (JString s) && (published r && true))
             row ((row, category_name_of (t_rows tc) row) :: rest)).
  2: { constructor; [reflexivity | exact Hrest]. }
  rewrite Hrow. cbn [sql_eq_param]. rewrite Hnum, Z.eqb_refl. cbn [andb].
  rewrite andb_true_r.
  destruct (published row); cbn [map bind catch]; [| reflexivity].
  unfold found_content, with_category_name, project. reflexivity.
Qed.

(** X19.  On a deployed database whose material ids are below the AUTO_INCREMENT
    counter, [POST /materials] with a title and a content that fit their
    columns, and a category that exists or none, answers 200 with the new
    id; the public [GET /materials/:id] of that id then returns the stored
    material with its category name when the status is [published], and 404
    when it is a draft. *)
Theorem post_material_then_get (now : Z) (db : Db) (req : Request)
    (title content : string) (author category image st : SqlVal) :
  deployed db ->
  (forall t, get_table "materials" db = Some t -> ids_below_next t) ->
  field "title" (body req) = JString title ->
  field "content" (body req) = JString content ->
  (String.length title <= 255)%nat ->
  (Z.of_nat (String.length content) <= 65535) ->
  material_values req author category image st ->
  (forall tc, get_table "categories" db = Some tc ->
              category_exists (t_rows tc) category = true) ->
  exists id tc,
    get_table "categories" db = Some tc
    /\ status (snd (post_material now db req)) = 200
    /\ prop "id" (payload (snd (post_material now db req))) = num id
    /\ forall req' s,
         assoc "id" (params req') = Some s -> StringToNumber s = JInt id ->
         get_material (fst (post_material now db req)) req'
         = if sql_eq st (VStr "published")
           then found_content
                  (with_category_name (t_rows tc)
                     (new_material id now title content author category image st))
           else status_json 404 (failure "Material not found").
Proof.
  intros Hdep Hids Ht Hco Hlt Hlc Hv Hcat.
  destruct (deployed_cols db Hdep)
    as (ta & tc & tm & tv & _ & (Hc & Hcc & _) & (Hm & Hmc & Hmf) & _).
  rewrite (post_material_result now db req tm tc title content author category image
             st) by auto.
  rewrite (Hcat tc Hc). cbn [fst snd].
  exists (t_next_id tm), tc. split; [exact Hc |]. split; [reflexivity |].
  split; [reflexivity |].
  intros req' s Hs Hnum. unfold get_material.
  rewrite (new_row_by_id _ "materials" "m" req' "Material not found" _ tm tc
             (new_material (t_next_id tm) now title content author category image st) s);
    try assumption; try reflexivity; auto.
  - apply get_set_same.
  - rewrite get_set_other by discriminate. exact Hc.
  - known_col Hmc.
  - known_col Hmc.
  - known_col Hmc.
  - known_col Hcc.
  - known_col Hcc.
Qed.

(** X20.  On a deployed database, [POST /materials] with fields that fit their
    columns but a [category_id] that is the id of no category is answered 500
    with [Failed to create material] and stores nothing: the foreign key of
    the table refuses the row. *)
Theorem material_needs_its_category (now : Z) (db : Db) (req : Request)
    (title content : string) (author category image st : SqlVal) :
  deployed db ->
  (forall t, get_table "materials" db = Some t -> ids_below_next t) ->
  field "title" (body req) = JString title ->
  field "content" (body req) = JString content ->
  (String.length title <= 255)%nat ->
  (Z.of_nat (String.length content) <= 65535) ->
  material_values req author category image st ->
  (forall tc, get_table "categories" db = Some tc ->
              category_exists (t_rows tc) category = false) ->
  post_material now db req
  = (db, status_json 500 (error_body "Failed to create material")).
Proof.
  intros Hdep Hids Ht Hco Hlt Hlc Hv Hcat.
  destruct (deployed_cols db Hdep)
    as (ta & tc & tm & tv & _ & (Hc & Hcc & _) & (Hm & Hmc & Hmf) & _).
  rewrite (post_material_result now db req tm tc title content author category image
             st) by auto.
  now rewrite (Hcat tc Hc).
Qed.

Lemma post_material_then_get_witness :
  exists id tc,
    get_table "categories" portal = Some tc
    /\ status (snd (post_material 7 portal
                      (request [] [] [("title", "T"); ("content", "C");
                                      ("status", "draft")]))) = 200
    /\ prop "id" (payload (snd (post_material 7 portal
                                  (request [] [] [("title", "T"); ("content", "C");
                                                  ("status", "draft")])))) = num id
    /\ forall req' s,
         assoc "id" (params req') = Some s -> StringToNumber s = JInt id ->
         get_material (fst (post_material 7 portal
                              (request [] [] [("title", "T"); ("content", "C");
                                              ("status", "draft")]))) req'
         = if sql_eq (VStr "draft") (VStr "published")
           then found_content
                  (with_category_name (t_rows tc)
                     (new_material id 7 "T" "C" VNull VNull VNull (VStr "draft")))
           else status_json 404 (failure "Material not found").
Proof.
  apply (post_material_then_get 7 portal
           (request [] [] [("title", "T"); ("content", "C"); ("status", "draft")])
           "T" "C" VNull VNull VNull (VStr "draft")).
  - apply database_deployed.
  - apply portal_ids_below.
  - reflexivity.
  - reflexivity.
  - simpl. lia.
  - simpl. lia.
  - repeat split.
  - intros tc Htc. reflexivity.
Defined.

Lemma material_needs_its_category_witness :
  post_material 7 portal
    (request [] [] [("title", "T"); ("content", "C"); ("category_id", "9")])
  = (portal, status_json 500 (error_body "Failed to create material")).
Proof.
  apply (material_needs_its_category 7 portal
           (request [] [] [("title", "T"); ("content", "C"); ("category_id", "9")])
           "T" "C" VNull (VInt 9) VNull (VStr "published")).
  - apply database_deployed.
  - apply portal_ids_below.
  - reflexivity.
  - reflexivity.
  - simpl. lia.
  - simpl. lia.
  - repeat split.
  - intros tc Htc. injection Htc as <-. reflexivity.
Defined.

(** ** DELETE /categories/:id *)

Lemma orphan_released gone t r :
  t_fks t = [category_fk] -> orphan "categories" gone t r = released gone r.
Proof. intros Hf. unfold orphan, released, refers_to. rewrite Hf. reflexivity. Qed.

Lemma sql_eq_null v : sql_eq v VNull = false.
Proof. destruct v; reflexivity. Qed.

Lemma nothing_is_null (gone : list Row) :
  existsb (fun g => sql_eq (row_get "id" g) VNull) gone = false.
Proof.
  induction gone as [| g gone IH]; simpl; [reflexivity |].
  now rewrite sql_eq_null.
Qed.

Lemma released_free gone r : refers_to gone (released gone r) = false.
Proof.
  unfold released. destruct (refers_to gone r) eqn:E; [| exact E].
  unfold refers_to. rewrite row_get_set_same. apply nothing_is_null.
Qed.

(** X21.  On a deployed database [DELETE /categories/:id] sets to NULL the
    [category_id] of every material and every video that referred to a
    deleted category (ON DELETE SET NULL) and leaves their other columns, and
    the other materials and videos, as they are: no row is left that refers
    to a deleted category. *)
Theorem delete_category_releases_content (now : Z) (db : Db) (req : Request)
    (s : string) :
  deployed db -> assoc "id" (params req) = Some s ->
  exists tc tm tv,
    get_table "categories" db = Some tc /\ get_table "materials" db = Some tm
    /\ get_table "videos" db = Some tv
    /\ get_table "materials" (fst (delete_category now db req))
       = Some (with_rows tm (map (released (filter (id_is s) (t_rows tc))) (t_rows tm)))
    /\ get_table "videos" (fst (delete_category now db req))
       = Some (with_rows tv (map (released (filter (id_is s) (t_rows tc))) (t_rows tv)))
    /\ (forall r, refers_to (filter (id_is s) (t_rows tc))
                    (released (filter (id_is s) (t_rows tc)) r) = false)
    /\ (forall r c, c <> "category_id" ->
                    row_get c (released (filter (id_is s) (t_rows tc)) r) = row_get c r).
Proof.
  intros Hd Hs.
  destruct (deployed_cols db Hd)
    as (ta & tc & tm & tv & _ & (Hc & Hcc & _) & (Hm & Hmc & Hmf) & (Hv & Hvc & Hvf)).
  exists tc, tm, tv. repeat split; try assumption.
  - unfold delete_category, delete_from, field. rewrite Hs.
    rewrite (exec_delete_by_id db "categories" tc s Hc) by (known_col Hcc).
    cbn [fst]. rewrite get_table_map, get_set_other, Hm by discriminate.
    cbn [option_map]. unfold set_null_children.
    rewrite (map_ext _ _ (fun r => orphan_released _ tm r Hmf)). reflexivity.
  - unfold delete_category, delete_from, field. rewrite Hs.
    rewrite (exec_delete_by_id db "categories" tc s Hc) by (known_col Hcc).
    cbn [fst]. rewrite get_table_map, get_set_other, Hv by discriminate.
    cbn [option_map]. unfold set_null_children.
    rewrite (map_ext _ _ (fun r => orphan_released _ tv r Hvf)). reflexivity.
  - intros r. apply released_free.
  - intros r c Hne. unfold released. destruct (refers_to _ r); [| reflexivity].
    apply row_get_set_other. now apply String.eqb_neq.
Qed.

Lemma delete_category_releases_content_witness :
  exists tc tm tv,
    get_table "categories" portal = Some tc /\ get_table "materials" portal = Some tm
    /\ get_table "videos" portal = Some tv
    /\ get_table "materials"
         (fst (delete_category 7 portal (request [] [("id", "1")] [])))
       = Some (with_rows tm (map (released (filter (id_is "1") (t_rows tc))) (t_rows tm)))
    /\ get_table "videos"
         (fst (delete_category 7 portal (request [] [("id", "1")] [])))
       = Some (with_rows tv (map (released (filter (id_is "1") (t_rows tc))) (t_rows tv)))
    /\ (forall r, refers_to (filter (id_is "1") (t_rows tc))
                    (released (filter (id_is "1") (t_rows tc)) r) = false)
    /\ (forall r c, c <> "category_id" ->
                    row_get c (released (filter (id_is "1") (t_rows tc)) r) = row_get c r).
Proof.
  apply (delete_category_releases_content 7 portal (request [] [("id", "1")] []) "1").
  - apply database_deployed.
  - reflexivity.
Defined.

(** ** What SET stores *)

Lemma assign_app t sets sets' r new :
  assign t (sets ++ sets') r = inr new ->
  exists mid, assign t sets r = inr mid /\ assign t sets' mid = inr new.
Proof.
  revert r. induction sets as [| [c p] sets IH]; intros r H.
  - cbn [app assign] in *. eauto.
  - cbn [app assign] in *.
    destruct (need (find_col c t) UnknownColumn) as [e | d]; [discriminate |].
    cbn [bind] in *.
    destruct (coerce (col_type d) p) as [e | v]; [discriminate |].
    cbn [bind] in *.
    destruct (null_checked d v) as [e | v']; [discriminate |].
    cbn [bind] in *. now apply IH.
Qed.

Lemma assign_get_other t sets c : forall r new,
  assign t sets r = inr new ->
  forallb (fun cp => negb (fst cp =? c)%string) sets = true ->
  row_get c new = row_get c r.
Proof.
  induction sets as [| [c' p] sets IH]; intros r new H Hc.
  - cbn [assign] in H. now injection H as <-.
  - cbn [forallb] in Hc. apply andb_true_iff in Hc. destruct Hc as [Hc Hcs].
    cbn [fst] in Hc. apply negb_true_iff in Hc.
    apply assign_cons in H. destruct H as (d & v & _ & _ & _ & H).
    rewrite (IH _ _ H Hcs).
    apply row_get_set_other. now rewrite String.eqb_sym.
Qed.

Lemma assign_get_set t c p sets : forall r new,
  assign t ((c, p) :: sets) r = inr new ->
  forallb (fun cp => negb (fst cp =? c)%string) sets = true ->
  exists d v, find_col c t = Some d /\ coerce (col_type d) p = inr v
              /\ row_get c new = v.
Proof.
  intros r new H Hc. apply assign_cons in H.
  destruct H as (d & v & F & C & N & H).
  exists d, v. repeat split; auto.
  rewrite (assign_get_other _ _ _ _ _ H Hc). apply row_get_set_same.
Qed.

Lemma uploaded_first fs name dir o :
  uploaded fs name dir = inr o ->
  o = option_map (fun f => JString (dir ++ filename f)) (first_file (Some fs) name).
Proof.
  unfold uploaded, first_file. destruct (assoc name fs) as [[| f xs] |]; cbn.
  - discriminate.
  - now intros H; injection H as <-.
  - now intros H; injection H as <-.
Qed.

Lemma touch_get_videos now t old new c :
  t_columns t = ct_columns videos_ddl -> c <> "updated_at" ->
  row_get c (touch now t old new) = row_get c new.
Proof.
  intros Hc Hne. apply touch_get. rewrite Hc.
  apply String.eqb_neq in Hne. rewrite String.eqb_sym in Hne.
  cbn [forallb ct_columns videos_ddl col_on_update_now col_name id_column
       not_null column status_column created_at_column updated_at_column default
       negb orb andb].
  rewrite Hne. reflexivity.
Qed.

(** X22.  When [PUT /videos/:id] answers 200 on a deployed database, only rows of
    [videos] with the id change.  Their [video_url] becomes the path of the
    uploaded video under [/uploads/videos/] when the request has one; without
    upload fields it becomes the [video_url] of the body when that is truthy;
    otherwise it stays.  Their [thumbnail] becomes the path of the uploaded
    thumbnail under [/uploads/images/] when the request has one, and stays
    otherwise. *)
Theorem put_video_sources (files : Files) (now : Z) (db db' : Db) (req : Request)
    (resp : Response) :
  deployed db ->
  put_video files now db req = (db', resp) ->
  status resp = 200 ->
  exists tv rows',
    get_table "videos" db = Some tv
    /\ db' = set_table "videos" (with_rows tv rows') db
    /\ Forall2 (fun old new =>
                  if sql_eq_param (row_get "id" old) (field "id" (params req))
                  then video_url_after files req old new
                       /\ thumbnail_after files old new
                  else new = old)
               (t_rows tv) rows'.
Proof.
  intros Hd H Hs.
  destruct (deployed_cols db Hd) as (ta & tc & tm & tv & _ & _ & _ & (Hv & Hvc & Hvf)).
  unfold put_video in H.
  match type of H with
  | attempt _ ?r _ = _ => destruct r as [e | [db1 resp1]] eqn:E
  end; cbn [attempt] in H; injection H as <- <-; [discriminate |].
  inv_res_keep E. subst.
  match goal with
  | X : exec_update _ _ _ _ _ _ = inr _ |- _ =>
      apply exec_update_inv in X;
      destruct X as (t & rows' & Hget & -> & _ & _ & Hu)
  end.
  rewrite Hv in Hget. injection Hget as <-.
  exists tv, rows'. split; [exact Hv |]. split; [reflexivity |].
  apply update_rows_spec in Hu.
  rewrite length_app in Hu. cbn [List.length] in Hu.
  assert (List.length l0 = List.length l) as Hlen.
  { unfold video_sources in E0. destruct files as [fs |].
    - inv_res_keep E0. subst. destruct a, a0; reflexivity.
    - destruct (truthy (field "video_url" (body req))); injection E0 as <- <-; reflexivity. }
  replace (nth (5 + List.length l)
             ([field "title" (body req); field "description" (body req);
               js_or (field "duration" (body req)) (num 0);
               js_or (field "category_id" (body req)) JNull;
               js_or (field "status" (body req)) (JString "published")]
              ++ l0 ++ [field "id" (params req)]) JUndefined)
    with (field "id" (params req)) in Hu.
  2: { cbn [app nth Nat.add]. rewrite <- Hlen. rewrite app_nth2 by lia.
       now rewrite Nat.sub_diag. }
  eapply Forall2_impl; [| exact Hu]. cbn beta. intros old new.
  destruct (sql_eq_param (row_get "id" old) (field "id" (params req))); [| tauto].
  intros (stored & Ha & ->).
  cbn [combine app] in Ha.
  match type of Ha with
  | assign _ (?x1 :: ?x2 :: ?x3 :: ?x4 :: ?x5 :: ?rest) _ = _ =>
      apply (assign_app tv [x1; x2; x3; x4; x5] rest) in Ha
  end.
  destruct Ha as (mid & Hmid & Ha).
  assert (row_get "video_url" mid = row_get "video_url" old
          /\ row_get "thumbnail" mid = row_get "thumbnail" old) as [Hm1 Hm2].
  { split; [apply (assign_get_other tv _ "video_url" _ _ Hmid)
           | apply (assign_get_other tv _ "thumbnail" _ _ Hmid)]; reflexivity. }
  unfold video_url_after, thumbnail_after.
  rewrite !touch_get_videos by (assumption || discriminate).
  unfold video_sources in E0. destruct files as [fs |].
  - inv_res_keep E0. subst.
    repeat match goal with
           | X : uploaded _ _ _ = inr _ |- _ => apply uploaded_first in X
           end.
    subst.
    destruct (first_file (Some fs) "video") as [fv |],
             (first_file (Some fs) "thumbnail") as [ft |];
      cbn [option_map app combine firstn List.length] in Ha.
    + destruct (assign_get_set _ _ _ _ _ _ Ha eq_refl) as (d & v & F & C & G).
      rewrite (find_col_known _ _ _ Hvc) in F. cbn in F. injection F as <-.
      cbn [col_type column not_null] in C.
      apply assign_cons in Ha. destruct Ha as (d1 & v1 & _ & _ & _ & Ha).
      destruct (assign_get_set _ _ _ _ _ _ Ha eq_refl) as (d2 & v2 & F2 & C2 & G2).
      rewrite (find_col_known _ _ _ Hvc) in F2. cbn in F2. injection F2 as <-.
      cbn [col_type column] in C2.
      split.
      * rewrite G. cbn [coerce] in C.
        destruct (Nat.leb _ 500); [now injection C as <- | discriminate].
      * rewrite G2. cbn [coerce] in C2.
        destruct (Nat.leb _ 255); [now injection C2 as <- | discriminate].
    + destruct (assign_get_set _ _ _ _ _ _ Ha eq_refl) as (d & v & F & C & G).
      rewrite (find_col_known _ _ _ Hvc) in F. cbn in F. injection F as <-.
      cbn [col_type column not_null] in C.
      split.
      * rewrite G. cbn [coerce] in C.
        destruct (Nat.leb _ 500); [now injection C as <- | discriminate].
      * rewrite (assign_get_other tv _ "thumbnail" _ _ Ha eq_refl). exact Hm2.
    + destruct (assign_get_set _ _ _ _ _ _ Ha eq_refl) as (d & v & F & C & G).
      rewrite (find_col_known _ _ _ Hvc) in F. cbn in F. injection F as <-.
      cbn [col_type column] in C.
      split.
      * destruct (field "video_url" (body req));
          rewrite (assign_get_other tv _ "video_url" _ _ Ha eq_refl); exact Hm1.
      * rewrite G. cbn [coerce] in C.
        destruct (Nat.leb _ 255); [now injection C as <- | discriminate].
    + cbn in Ha. injection Ha as <-. split; [| exact Hm2].
      destruct (field "video_url" (body req)); exact Hm1.
  - cbn [first_file].
    destruct (field_cases "video_url" (body req)) as [Eu | (u & Eu)]; rewrite Eu in *;
      cbn [truthy] in E0.
    + injection E0 as <- <-. cbn in Ha. injection Ha as <-. split; assumption.
    + destruct (u =? "")%string eqn:Ee; cbn [negb] in E0; injection E0 as <- <-.
      * cbn in Ha. injection Ha as <-. split; assumption.
      * cbn [combine firstn List.length app] in Ha.
        destruct (assign_get_set _ _ _ _ _ _ Ha eq_refl) as (d & v & F & C & G).
        rewrite (find_col_known _ _ _ Hvc) in F. cbn in F. injection F as <-.
        cbn [col_type column not_null coerce] in C.
        split.
        -- rewrite G. destruct (Nat.leb _ 500); [now injection C as <- | discriminate].
        -- rewrite (assign_get_other tv _ "thumbnail" _ _ Ha eq_refl). exact Hm2.
Qed.

Lemma put_video_sources_witness :
  exists tv rows',
    get_table "videos" portal = Some tv
    /\ fst (put_video (Some []) 7 portal
              (request [] [("id", "1")]
                 [("title", "T"); ("description", "D"); ("video_url", "http://x")]))
       = set_table "videos" (with_rows tv rows') portal
    /\ Forall2 (fun old new =>
                  if sql_eq_param (row_get "id" old)
                       (field "id" (params (request [] [("id", "1")]
                                              [("title", "T"); ("description", "D");
                                               ("video_url", "http://x")])))
                  then video_url_after (Some [])
                         (request [] [("id", "1")]
                            [("title", "T"); ("description", "D");
                             ("video_url", "http://x")]) old new
                       /\ thumbnail_after (Some []) old new
                  else new = old)
               (t_rows tv) rows'.
Proof.
  apply (put_video_sources (Some []) 7 portal _
           (request [] [("id", "1")]
              [("title", "T"); ("description", "D"); ("video_url", "http://x")])
           (snd (put_video (Some []) 7 portal
                   (request [] [("id", "1")]
                      [("title", "T"); ("description", "D");
                       ("video_url", "http://x")])))).
  - apply database_deployed.
  - apply surjective_pairing.
  - reflexivity.
Defined.

(** ** POST /videos *)

Lemma uploaded_ok files fs name dir :
  files_ok files -> files = Some fs ->
  uploaded fs name dir
  = inr (option_map (fun f => JString (dir ++ filename f)) (first_file files name)).
Proof.
  intros Hok ->. unfold uploaded, first_file.
  specialize (Hok fs name eq_refl).
  destruct (assoc name fs) as [[| f xs] |]; [congruence | reflexivity | reflexivity].
Qed.

Lemma video_inputs files req :
  files_ok files ->
  match files with
  | Some fs =>
      v <- uploaded fs "video" "/uploads/videos/" ;;
      t <- uploaded fs "thumbnail" "/uploads/images/" ;;
      inr (match v with Some u => u | None => field "video_url" (body req) end,
           match t with Some u => u | None => JNull end)
  | None => inr (field "video_url" (body req), JNull)
  end
  = inr (video_url_given files req, thumbnail_given files).
Proof.
  intros Hok. destruct files as [fs |] eqn:E; [| reflexivity].
  rewrite !(uploaded_ok (Some fs) fs _ _ Hok eq_refl). cbn [bind].
  unfold video_url_given, thumbnail_given.
  destruct (first_file (Some fs) "video"), (first_file (Some fs) "thumbnail");
    reflexivity.
Qed.

Lemma required_value (d : Column) (v : SqlVal) (x : Res SqlVal) :
  is_null v = false ->
  (if is_null v && false then x else null_checked d v) = inr v.
Proof.
  intros Hv. rewrite andb_false_r. unfold null_checked. destruct v; [discriminate | |];
    reflexivity.
Qed.

Lemma post_video_result files now db req tv tc title description
    url thumb duration category st :
  get_table "videos" db = Some tv ->
  t_columns tv = ct_columns videos_ddl -> t_fks tv = [category_fk] ->
  get_table "categories" db = Some tc ->
  ids_below_next tv -> files_ok files ->
  field "title" (body req) = JString title ->
  field "description" (body req) = JString description ->
  (String.length title <= 255)%nat ->
  (Z.of_nat (String.length description) <= 65535) ->
  video_values files req url thumb duration category st ->
  is_null url = false ->
  post_video files now db req
  = if category_exists (t_rows tc) category
    then (set_table "videos"
            (with_new_row tv
               (new_video (t_next_id tv) now title description
                  url thumb duration category st)) db,
          json (JObject [("id", num (t_next_id tv));
                         ("title", JString title);
                         ("description", JString description);
                         ("video_url", video_url_given files req);
                         ("thumbnail", thumbnail_given files);
                         ("duration", js_or (field "duration" (body req)) (num 0));
                         ("category_id", field "category_id" (body req));
                         ("status", js_or (field "status" (body req))
                                      (JString "published"))]))
    else (db, status_json 500 (error_body "Failed to create video")).
Proof.
  intros Hget Hcols Hfks Hc Hids Hok Ht Hde Hlt Hld (Hu & Hth & Hdu & Hcat & Hs) Hnu.
  unfold post_video. rewrite (video_inputs files req Hok). cbn [bind].
  rewrite Ht, Hde.
  assert (defined (video_url_given files req) = true) as Du.
  { destruct (video_url_given files req); try reflexivity; discriminate. }
  remember (video_url_given files req) as pu eqn:Epu.
  remember (thumbnail_given files) as pt eqn:Ept.
  remember (js_or (field "duration" (body req)) (num 0)) as pd eqn:Epd.
  remember (js_or (field "category_id" (body req)) JNull) as pc eqn:Epc.
  remember (js_or (field "status" (body req)) (JString "published")) as ps eqn:Eps.
  assert (defined pt = true /\ defined pd = true /\ defined pc = true
          /\ defined ps = true) as (Dt & Dd & Dc & Ds).
  { repeat split;
      match goal with
      | |- defined ?p = true => destruct p; try reflexivity; discriminate
      end. }
  unfold exec_insert, check_params.
  cbn [forallb defined andb]. rewrite Du, Dt, Dd, Dc, Ds. cbn [andb guard bind].
  rewrite Hget. cbn [need bind List.length Nat.eqb guard].
  rewrite !(has_col_known _ _ _ Hcols).
  cbn [forallb find ct_columns videos_ddl col_name id_column not_null column
       status_column created_at_column updated_at_column default
       String.eqb Ascii.eqb Bool.eqb andb guard bind].
  rewrite Hcols.
  cbn [mapM ct_columns videos_ddl combine assoc col_name id_column not_null
       column status_column created_at_column updated_at_column default
       String.eqb Ascii.eqb Bool.eqb bind col_type col_auto_increment col_default
       col_not_null absent_value].
  rewrite Hu, Hth, Hdu, Hcat, Hs.
  apply Nat.leb_le in Hlt. apply Z.leb_le in Hld.
  cbn [coerce bind]. rewrite Hlt, Hld.
  cbn [bind is_null andb null_checked col_not_null col_auto_increment].
  rewrite (required_value _ url _ Hnu).
  rewrite !optional_value by reflexivity.
  cbn [bind].
  unfold unique_ok. rewrite Hcols.
  cbn [forallb ct_columns videos_ddl col_unique col_name id_column not_null
       column status_column created_at_column updated_at_column default
       negb orb andb].
  unfold fresh_in. cbn [is_null orb row_get assoc String.eqb Ascii.eqb Bool.eqb].
  rewrite (fresh_id tv Hids). cbn [negb andb guard bind].
  unfold parent_ok. rewrite Hfks.
  cbn [forallb category_fk fk_col fk_table fk_ref row_get assoc String.eqb Ascii.eqb
       Bool.eqb].
  rewrite Hc. rewrite andb_true_r.
  fold (category_exists (t_rows tc) category).
  destruct (category_exists (t_rows tc) category); cbn [guard bind attempt insertId].
  - unfold with_new_row, new_video. rewrite Hcols, Hfks. reflexivity.
  - reflexivity.
Qed.

(** X23.  On a deployed database whose video ids are below the AUTO_INCREMENT
    counter, [POST /videos] with a title and a description that fit their
    columns, a video location and a category that exists or none, answers 200
    with the new row: its [video_url] is the path of the uploaded video under
    [/uploads/videos/] when there is one and the [video_url] of the body
    otherwise, its [thumbnail] the path of the uploaded thumbnail or null,
    its [duration] 0 and its [status] [published] when the body names none.
    The public [GET /videos/:id] of the new id then returns the stored video
    when it is published, and 404 when it is a draft. *)
Theorem post_video_then_get (files : Files) (now : Z) (db : Db) (req : Request)
    (title description : string) (url thumb duration category st : SqlVal) :
  deployed db ->
  (forall t, get_table "videos" db = Some t -> ids_below_next t) ->
  files_ok files ->
  field "title" (body req) = JString title ->
  field "description" (body req) = JString description ->
  (String.length title <= 255)%nat ->
  (Z.of_nat (String.length description) <= 65535) ->
  video_values files req url thumb duration category st ->
  is_null url = false ->
  (forall tc, get_table "categories" db = Some tc ->
              category_exists (t_rows tc) category = true) ->
  exists id tc,
    get_table "categories" db = Some tc
    /\ snd (post_video files now db req)
       = json (JObject [("id", num id);
                        ("title", JString title);
                        ("description", JString description);
                        ("video_url", video_url_given files req);
                        ("thumbnail", thumbnail_given files);
                        ("duration", js_or (field "duration" (body req)) (num 0));
                        ("category_id", field "category_id" (body req));
                        ("status", js_or (field "status" (body req))
                                     (JString "published"))])
    /\ forall req' s,
         assoc "id" (params req') = Some s -> StringToNumber s = JInt id ->
         get_video (fst (post_video files now db req)) req'
         = if sql_eq st (VStr "published")
           then found_content
                  (with_category_name (t_rows tc)
                     (new_video id now title description url thumb duration
                        category st))
           else status_json 404 (failure "Video not found").
Proof.
  intros Hdep Hids Hok Ht Hde Hlt Hld Hv Hnu Hcat.
  destruct (deployed_cols db Hdep)
    as (ta & tc & tm & tv & _ & (Hc & Hcc & _) & _ & (Hvt & Hvc & Hvf)).
  rewrite (post_video_result files now db req tv tc title description url thumb
             duration category st) by auto.
  rewrite (Hcat tc Hc). cbn [fst snd].
  exists (t_next_id tv), tc. split; [exact Hc |]. split; [reflexivity |].
  intros req' s Hs Hnum. unfold get_video.
  rewrite (new_row_by_id _ "videos" "v" req' "Video not found" _ tv tc
             (new_video (t_next_id tv) now title description url thumb duration
                category st) s);
    try assumption; try reflexivity; auto.
  - apply get_set_same.
  - rewrite get_set_other by discriminate. exact Hc.
  - known_col Hvc.
  - known_col Hvc.
  - known_col Hvc.
  - known_col Hcc.
  - known_col Hcc.
Qed.

Lemma post_video_then_get_witness :
  exists id tc,
    get_table "categories" portal = Some tc
    /\ snd (post_video (Some [("video", [{| fieldname := "video"; filename := "v.mp4" |}])])
              7 portal
              (request [] [] [("title", "T"); ("description", "D");
                              ("video_url", "http://x")]))
       = json (JObject [("id", num id);
                        ("title", JString "T");
                        ("description", JString "D");
                        ("video_url", JString "/uploads/videos/v.mp4");
                        ("thumbnail", JNull);
                        ("duration", num 0);
                        ("category_id", JUndefined);
                        ("status", JString "published")])
    /\ forall req' s,
         assoc "id" (params req') = Some s -> StringToNumber s = JInt id ->
         get_video
           (fst (post_video
                   (Some [("video", [{| fieldname := "video"; filename := "v.mp4" |}])])
                   7 portal
                   (request [] [] [("title", "T"); ("description", "D");
                                   ("video_url", "http://x")]))) req'
         = if sql_eq (VStr "published") (VStr "published")
           then found_content
                  (with_category_name (t_rows tc)
                     (new_video id 7 "T" "D" (VStr "/uploads/videos/v.mp4") VNull
                        (VInt 0) VNull (VStr "published")))
           else status_json 404 (failure "Video not found").
Proof.
  apply (post_video_then_get
           (Some [("video", [{| fieldname := "video"; filename := "v.mp4" |}])])
           7 portal
           (request [] [] [("title", "T"); ("description", "D");
                           ("video_url", "http://x")])
           "T" "D" (VStr "/uploads/videos/v.mp4") VNull (VInt 0) VNull
           (VStr "published")).
  - apply database_deployed.
  - apply portal_ids_below.
  - intros fs name Hfs. injection Hfs as <-. cbn.
    destruct (name =? "video")%string; discriminate.
  - reflexivity.
  - reflexivity.
  - simpl. lia.
  - simpl. lia.
  - repeat split.
  - reflexivity.
  - intros tc Htc. reflexivity.
Defined.

End ContentFacts.

(* ================================================================== *)
(** * The password reset script *)
(* ================================================================== *)

Module ScriptFacts.
Import Js Sql Schema Http Api Admin Upload Script Spec Examples StoreFacts ApiFacts SchemaFacts AdminFacts OrderFacts SearchFacts CatalogFacts GateFacts AccountFacts ContentFacts.
#[local] Open Scope string_scope.
#[local] Open Scope Z_scope.
#[local] Open Scope list_scope.

#[local] Arguments resolve : simpl never.
#[local] Arguments has_col : simpl never.
#[local] Arguments project : simpl never.
#[local] Arguments where_holds : simpl never.
#[local] Arguments prop : simpl never.
#[local] Arguments js_of_row : simpl never.

(** ** reset_admin.js *)

Lemma password_by_email_rows {libraries : Libraries} db t email :
  get_table "admins" db = Some t ->
  has_col t "email" = true -> has_col t "password" = true ->
  defined email = true ->
  exec_select db password_by_email [email]
  = inr (map (fun r => [("password", row_get "password" r)])
           (filter (email_matches email) (t_rows t))).
Proof.
  intros Hget He Hp Hdef.
  unfold exec_select, check_params. simpl. rewrite Hdef. simpl.
  rewrite Hget. simpl.
  rewrite resolve_plain by assumption. simpl. rewrite Hp. simpl.
  apply (f_equal (@inr Thrown (list Row))).
  unfold email_matches.
  induction (t_rows t) as [| r rows IH]; simpl; [reflexivity |].
  unfold where_holds at 1. simpl. rewrite andb_true_r.
  destruct (sql_eq_param (row_get "email" r) email); simpl; [| exact IH].
  rewrite IH. reflexivity.
Qed.

Section Run.

Context {libraries : Libraries}.
Variable env : Env.

Lemma update_password now db ta email h :
  get_table "admins" db = Some ta ->
  t_columns ta = ct_columns admins_ddl -> t_fks ta = [] ->
  (String.length h <= 255)%nat ->
  exec_update now db "admins" ["password"] "email" [JString h; JString email]
  = inr (set_table "admins"
           (with_rows ta
              (map (fun r => if email_matches (JString email) r
                             then with_password now ta h r else r) (t_rows ta))) db,
         {| insertId := 0;
            affectedRows :=
              Z.of_nat (List.length (filter (email_matches (JString email))
                                       (t_rows ta))) |}).
Proof.
  intros Hget Hcols Hfks Hlen.
  assert (update_rows now db ta (combine ["password"] [JString h; JString email])
            (fun r => sql_eq_param (row_get "email" r)
                        (nth (List.length ["password"]) [JString h; JString email]
                             JUndefined))
            [] (t_rows ta)
          = inr (map (fun r => if email_matches (JString email) r
                               then with_password now ta h r else r) (t_rows ta))) as Hu.
  { apply (update_rows_map now db ta _ _ (row_set "password" (VStr h))).
    - intros r _ _. cbn [combine assign]. rewrite (find_col_known _ _ _ Hcols).
      cbn [find ct_columns admins_ddl col_name id_column unique not_null column
           created_at_column updated_at_column default String.eqb Ascii.eqb Bool.eqb
           need bind col_type coerce].
      apply Nat.leb_le in Hlen. rewrite Hlen. reflexivity.
    - unfold sets_no_unique. rewrite Hcols. reflexivity.
    - intros r _ _. unfold parent_ok. rewrite Hfks. reflexivity. }
  rewrite (exec_update_intro now db "admins" ["password"] "email"
             [JString h; JString email] ta _ eq_refl Hget eq_refl
             ltac:(cbn [forallb]; rewrite !(has_col_known _ _ _ Hcols); reflexivity)
             ltac:(rewrite (has_col_known _ _ _ Hcols); reflexivity) Hu).
  reflexivity.
Qed.

(** X24.  The script [resetAdminPassword], on a deployed database: when an admin
    has the email [admin@breastcancer.com], every such admin gets the bcrypt
    hash (cost 12) of [admin123], the console shows the six lines that end
    with the passed verification test, and a login with that email and
    [admin123] then answers 200; when no admin has the email, the database
    is unchanged and the console ends with [Admin not found].  The hash is
    taken to fit the password column, [bcrypt.compare] to accept a password
    against its own hash, and [jwt.sign] to return a token. *)
Theorem script_then_login (now now' : Z) (db : Db) (ta : Table) :
  deployed db -> get_table "admins" db = Some ta ->
  (String.length (bcrypt_hash "admin123" 12) <= 255)%nat ->
  bcrypt_compare "admin123" (bcrypt_hash "admin123" 12) = true ->
  (forall claims, jwt_sign claims (JWT_SECRET env) "24h" <> None) ->
  if existsb (email_matches (JString "admin@breastcancer.com")) (t_rows ta)
  then
    fst (resetAdminPassword now db)
    = set_table "admins"
        (with_rows ta
           (map (fun r => if email_matches (JString "admin@breastcancer.com") r
                          then with_password now ta (bcrypt_hash "admin123" 12) r
                          else r) (t_rows ta))) db
    /\ snd (resetAdminPassword now db)
       = ["Hashing password...";
          "New password hash: " ++ bcrypt_hash "admin123" 12;
          "✅ Password updated successfully!";
          "Email: admin@breastcancer.com";
          "New Password: admin123";
          "Password verification test: ✅ PASSED"]%string
    /\ status (snd (login env now' (fst (resetAdminPassword now db))
                      (credentials "admin@breastcancer.com" "admin123"))) = 200
  else
    resetAdminPassword now db
    = (db, ["Hashing password...";
            "New password hash: " ++ bcrypt_hash "admin123" 12;
            "❌ Admin not found"]%string).
Proof.
  intros Hd Hget Hlen Hb Hj.
  destruct (deployed_cols db Hd) as (ta' & _ & _ & _ & (Ha & Hac & Haf) & _).
  rewrite Hget in Ha. injection Ha as <-.
  set (email := "admin@breastcancer.com").
  set (h := bcrypt_hash "admin123" 12) in *.
  set (rows' := map (fun r => if email_matches (JString email) r
                              then with_password now ta h r else r) (t_rows ta)).
  assert (filter (email_matches (JString email)) rows'
          = map (with_password now ta h)
              (filter (email_matches (JString email)) (t_rows ta))) as Hf.
  { apply filter_map_if. intros r. unfold email_matches.
    now rewrite with_password_email. }
  unfold resetAdminPassword. fold h. fold email.
  rewrite (update_password now db ta email h Hget Hac Haf Hlen).
  cbn [affectedRows]. fold rows'.
  destruct (existsb (email_matches (JString email)) (t_rows ta)) eqn:Ex.
  - destruct (filter (email_matches (JString email)) (t_rows ta)) as [| a others] eqn:Ef.
    { apply existsb_exists in Ex. destruct Ex as (r & Hr & Er).
      assert (In r (filter (email_matches (JString email)) (t_rows ta))) as Hin
        by (apply filter_In; auto).
      rewrite Ef in Hin. destruct Hin. }
    cbn [List.length]. rewrite Nat2Z.inj_succ.
    destruct (0 <? Z.succ (Z.of_nat (List.length others))) eqn:Ez;
      [| apply Z.ltb_ge in Ez; lia].
    rewrite (password_by_email_rows _ (with_rows ta rows') (JString email)
               (get_set_same _ _ _)
               ltac:(rewrite (has_col_known (with_rows ta rows') (ct_columns admins_ddl)
                                "email" Hac); reflexivity)
               ltac:(rewrite (has_col_known (with_rows ta rows') (ct_columns admins_ddl)
                                "password" Hac); reflexivity)
               eq_refl).
    cbn [with_rows t_rows]. rewrite Hf. cbn [map].
    rewrite (with_password_password now ta h a Hac).
    rewrite prop_js_of_row. cbn [assoc String.eqb Ascii.eqb Bool.eqb js_of_sql to_text].
    rewrite Hb. cbn [fst snd]. split; [reflexivity |]. split; [reflexivity |].
    destruct (jwt_sign (token_claims (with_password now ta h a)) (JWT_SECRET env) "24h")
      as [token |] eqn:Es; [| now apply Hj in Es].
    rewrite (login_succeeds env now' _ (credentials email "admin123")
               (with_rows ta rows') email "admin123"
               (with_password now ta h a)
               (map (with_password now ta h) others) token); try assumption.
    + reflexivity.
    + reflexivity.
    + discriminate.
    + reflexivity.
    + discriminate.
    + apply get_set_same.
    + rewrite (has_col_known (with_rows ta rows') (ct_columns admins_ddl) "email" Hac).
      reflexivity.
    + rewrite prop_js_of_row.
      pose proof (with_password_password now ta h a Hac) as Hpw.
      unfold row_get in Hpw.
      destruct (assoc "password" (with_password now ta h a)) as [v |];
        [subst v | discriminate].
      exact Hb.
  - assert (forall r, In r (t_rows ta) -> email_matches (JString email) r = false) as Hno.
    { intros r Hr. destruct (email_matches (JString email) r) eqn:Er; [| reflexivity].
      assert (existsb (email_matches (JString email)) (t_rows ta) = true) as Hc
        by (apply existsb_exists; eauto).
      congruence. }
    rewrite (filter_none _ _ Hno). cbn [List.length Z.of_nat Z.ltb Z.compare].
    unfold rows'.
    rewrite (map_if_none _ _ _ Hno), with_rows_same, (set_table_same _ _ _ Hget).
    reflexivity.
Qed.

End Run.

Lemma script_then_login_witness :
  snd (resetAdminPassword (libraries := toy_libraries) 7
         (database [admin_row 1 "admin@breastcancer.com" "hash:old"] [] [] []))
  = ["Hashing password...";
     "New password hash: hash:admin123";
     "✅ Password updated successfully!";
     "Email: admin@breastcancer.com";
     "New Password: admin123";
     "Password verification test: ✅ PASSED"]%string
  /\ status (snd (login (libraries := toy_libraries) toy_env 9
                    (fst (resetAdminPassword (libraries := toy_libraries) 7
                            (database [admin_row 1 "admin@breastcancer.com" "hash:old"]
                               [] [] [])))
                    (credentials "admin@breastcancer.com" "admin123"))) = 200.
Proof.
  apply (proj2 (script_then_login (libraries := toy_libraries) toy_env 7 9
                  (database [admin_row 1 "admin@breastcancer.com" "hash:old"] [] [] [])
                  (table_with (ct_columns admins_ddl) []
                     [admin_row 1 "admin@breastcancer.com" "hash:old"] 100)
                  (database_deployed _ _ _ _) eq_refl
                  ltac:(simpl; lia) eq_refl
                  ltac:(intros claims; cbn; discriminate))).
Defined.

End ScriptFacts.

(* ================================================================== *)
(** * The upload filter *)
(* ================================================================== *)

Module UploadFacts.
Import Js Sql Schema Http Api Admin Upload Script Spec Examples StoreFacts ApiFacts SchemaFacts AdminFacts OrderFacts SearchFacts CatalogFacts GateFacts AccountFacts ContentFacts ScriptFacts.
#[local] Open Scope string_scope.
#[local] Open Scope Z_scope.
#[local] Open Scope list_scope.

#[local] Arguments resolve : simpl never.
#[local] Arguments has_col : simpl never.
#[local] Arguments project : simpl never.
#[local] Arguments where_holds : simpl never.
#[local] Arguments prop : simpl never.
#[local] Arguments js_of_row : simpl never.

(** ** The upload filter and the storage directories *)

(** X25.  The upload filter and the storage directories agree: the filter never
    answers with [false]; a file it accepts and that the storage puts in
    [uploads/images] has a MIME type that starts with [image/], one put in
    [uploads/videos] a MIME type that starts with [video/]; a file of any
    other field goes to [uploads] and is accepted whatever its type; and a
    refusal names the kind of file its directory is for. *)
Theorem accepted_upload_matches_directory (f : Incoming) :
  fileFilter f <> inr false
  /\ (fileFilter f = inr true ->
      (destination f = "uploads/images" ->
       startsWith (in_mimetype f) "image/" = true)
      /\ (destination f = "uploads/videos" ->
          startsWith (in_mimetype f) "video/" = true))
  /\ (destination f = "uploads" -> fileFilter f = inr true)
  /\ (forall msg, fileFilter f = inl msg ->
      (destination f = "uploads/videos"
       /\ msg = "Only video files are allowed for video uploads"
       /\ startsWith (in_mimetype f) "video/" = false)
      \/ (destination f = "uploads/images"
          /\ msg = "Only image files are allowed for image uploads"
          /\ startsWith (in_mimetype f) "image/" = false)).
Proof.
  unfold fileFilter, destination.
  destruct (in_fieldname f =? "video")%string eqn:Ev.
  - apply String.eqb_eq in Ev. rewrite Ev. cbn [String.eqb Ascii.eqb Bool.eqb orb].
    destruct (startsWith (in_mimetype f) "video/") eqn:Es.
    + repeat split; try discriminate; auto.
    + repeat split; try discriminate.
      intros msg H. injection H as <-. left. auto.
  - destruct ((in_fieldname f =? "image")%string || (in_fieldname f =? "thumbnail")%string).
    + destruct (startsWith (in_mimetype f) "image/") eqn:Es.
      * repeat split; try discriminate; auto.
      * repeat split; try discriminate.
        intros msg H. injection H as <-. right. auto.
    + repeat split; try discriminate; auto.
Qed.

End UploadFacts.

(* ================================================================== *)
(** * The materials of the created schema *)
(* ================================================================== *)

Module CreatedSchemaFacts.
Import Js Sql Schema Http Api Admin Upload Script Spec Examples StoreFacts ApiFacts SchemaFacts AdminFacts OrderFacts SearchFacts CatalogFacts GateFacts AccountFacts ContentFacts ScriptFacts UploadFacts.
#[local] Open Scope string_scope.
#[local] Open Scope Z_scope.
#[local] Open Scope list_scope.

#[local] Arguments resolve : simpl never.
#[local] Arguments has_col : simpl never.
#[local] Arguments project : simpl never.
#[local] Arguments where_holds : simpl never.
#[local] Arguments prop : simpl never.
#[local] Arguments js_of_row : simpl never.

(** ** The materials of a freshly created schema *)

Lemma exec_insert_unknown_column now db table cols params t :
  get_table table db = Some t -> forallb (has_col t) cols = false ->
  exists e, exec_insert now db table cols params = inl e.
Proof.
  intros Hget Hc. unfold exec_insert.
  destruct (check_params params) as [e | u]; cbn [bind]; [eauto |].
  rewrite Hget. cbn [need bind].
  destruct (guard (Nat.eqb (List.length cols) (List.length params)) WrongParameterCount)
    as [e | u']; cbn [bind]; [eauto |].
  rewrite Hc. cbn [guard bind]. eauto.
Qed.

Lemma exec_update_unknown_column now db table set_cols key params t :
  get_table table db = Some t -> forallb (has_col t) set_cols = false ->
  exists e, exec_update now db table set_cols key params = inl e.
Proof.
  intros Hget Hc. unfold exec_update.
  destruct (check_params params) as [e | u]; cbn [bind]; [eauto |].
  rewrite Hget. cbn [need bind].
  destruct (guard (Nat.eqb (List.length params) (S (List.length set_cols)))
              WrongParameterCount) as [e | u']; cbn [bind]; [eauto |].
  rewrite Hc. cbn [andb guard bind]. eauto.
Qed.

(** X26.  On the schema that [initDatabase] creates when there is no [materials]
    table, which has no [author] column, every [POST /materials] and every
    [PUT /materials/:id] is answered 500 and stores nothing, and every search
    that looks at the materials (no [type], or [type=materials]) is answered
    500 with [Search failed]. *)
Theorem created_schema_refuses_material_writes (db : Db) :
  get_table "materials" db = None ->
  (forall now req,
     post_material now (initDatabase db) req
     = (initDatabase db, status_json 500 (error_body "Failed to create material")))
  /\ (forall now req,
        put_material now (initDatabase db) req
        = (initDatabase db, status_json 500 (error_body "Failed to update material")))
  /\ (forall req,
        truthy (field "q" (query req)) = true ->
        negb (truthy (field "type" (query req)))
        || is_string (field "type" (query req)) "materials" = true ->
        search (initDatabase db) req = status_json 500 (failure "Search failed")).
Proof.
  intros H. pose proof (initDatabase_materials db H) as Hget.
  split; [| split].
  - intros now req. unfold post_material.
    destruct (exec_insert_unknown_column now (initDatabase db) "materials"
                ["title"; "content"; "author"; "category_id"; "image"; "status"]
                [field "title" (body req); field "content" (body req);
                 js_or (field "author" (body req)) JNull;
                 js_or (field "category_id" (body req)) JNull;
                 match file req with
                 | Some f => JString ("/uploads/images/" ++ filename f)
                 | None => JNull
                 end;
                 js_or (field "status" (body req)) (JString "published")]
                _ Hget eq_refl) as (e & He).
    rewrite He. reflexivity.
  - intros now req. unfold put_material.
    destruct (truthy match file req with
                     | Some f => JString ("/uploads/images/" ++ filename f)
                     | None => JUndefined
                     end).
    + destruct (exec_update_unknown_column now (initDatabase db) "materials"
                  (["title"; "content"; "author"; "category_id"; "status"] ++ ["image"])
                  "id"
                  (([field "title" (body req); field "content" (body req);
                     js_or (field "author" (body req)) JNull;
                     js_or (field "category_id" (body req)) JNull;
                     js_or (field "status" (body req)) (JString "published")]
                    ++ [match file req with
                        | Some f => JString ("/uploads/images/" ++ filename f)
                        | None => JUndefined
                        end]) ++ [field "id" (params req)])
                  _ Hget eq_refl) as (e & He).
      rewrite He. reflexivity.
    + destruct (exec_update_unknown_column now (initDatabase db) "materials"
                  ["title"; "content"; "author"; "category_id"; "status"]
                  "id"
                  ([field "title" (body req); field "content" (body req);
                    js_or (field "author" (body req)) JNull;
                    js_or (field "category_id" (body req)) JNull;
                    js_or (field "status" (body req)) (JString "published")]
                   ++ [field "id" (params req)])
                  _ Hget eq_refl) as (e & He).
      rewrite He. reflexivity.
  - intros req Hq Ht. unfold search. rewrite Hq, Ht. cbn [negb].
    apply catch_inl, bind_inl. unfold search_branch.
    destruct (truthy (field "category" (query req)));
      eapply exec_select_unknown_column
        with (q := PAnyLike [qcol "m" "title"; qcol "m" "content"; qcol "m" "author"])
             (c := "author");
      try exact Hget; try reflexivity; simpl; auto.
Qed.

Lemma created_schema_refuses_material_writes_witness :
  post_material 7 (initDatabase [])
    (request [] [] [("title", "T"); ("content", "C"); ("author", "A")])
  = (initDatabase [], status_json 500 (error_body "Failed to create material")).
Proof.
  apply (proj1 (created_schema_refuses_material_writes [] eq_refl)).
Defined.

End CreatedSchemaFacts.

(* ================================================================== *)
(** * What the admin requests keep *)
(* ================================================================== *)

Module ConsistencyFacts.
Import Js Sql Schema Http Api Admin Upload Script Spec Examples StoreFacts ApiFacts SchemaFacts AdminFacts OrderFacts SearchFacts CatalogFacts GateFacts AccountFacts ContentFacts ScriptFacts UploadFacts CreatedSchemaFacts.
#[local] Open Scope string_scope.
#[local] Open Scope Z_scope.
#[local] Open Scope list_scope.

#[local] Arguments resolve : simpl never.
#[local] Arguments has_col : simpl never.
#[local] Arguments project : simpl never.
#[local] Arguments where_holds : simpl never.
#[local] Arguments prop : simpl never.
#[local] Arguments js_of_row : simpl never.

(** ** What every admin request keeps *)

Lemma deployed_table db name :
  deployed db -> In name content_tables ->
  exists t rest,
    get_table name db = Some t
    /\ t_columns t = id_column :: rest
    /\ (t_fks t = [] \/ t_fks t = [category_fk])
    /\ forallb (fun d => negb (col_on_update_now d) || negb (col_name d =? "id")%string)
               (t_columns t) = true
    /\ forallb (fun d => negb (col_on_update_now d)
                         || negb (col_name d =? "category_id")%string)
               (t_columns t) = true.
Proof.
  intros Hd Hin.
  destruct (deployed_cols db Hd)
    as (ta & tc & tm & tv & (Ha & Hac & Haf) & (Hc & Hcc & Hcf) & (Hm & Hmc & Hmf)
        & (Hv & Hvc & Hvf)).
  destruct Hin as [<- | [<- | [<- | [<- | []]]]].
  - exists ta. eexists. rewrite Hac, Haf. repeat split; auto.
  - exists tc. eexists. rewrite Hcc, Hcf. repeat split; auto.
  - exists tm. eexists. rewrite Hmc, Hmf. repeat split; auto.
  - exists tv. eexists. rewrite Hvc, Hvf. repeat split; auto.
Qed.

Lemma step_deployed db db' :
  (forall name t, get_table name db = Some t ->
     exists t', get_table name db' = Some t'
                /\ t_columns t' = t_columns t /\ t_fks t' = t_fks t) ->
  deployed db -> deployed db'.
Proof.
  intros H (Ha & Hc & Hm & Hv).
  repeat split;
    match goal with
    | Hx : has_table db ?n _ _ |- has_table db' ?n _ _ =>
        destruct Hx as (t & Hg & Hcols & Hfks);
        destruct (H _ _ Hg) as (t' & Hg' & Hcols' & Hfks');
        exists t'; repeat split; congruence
    end.
Qed.

Lemma set_table_step db table t t' :
  get_table table db = Some t ->
  t_columns t' = t_columns t -> t_fks t' = t_fks t ->
  forall name t0, get_table name db = Some t0 ->
    exists t0', get_table name (set_table table t' db) = Some t0'
                /\ t_columns t0' = t_columns t0 /\ t_fks t0' = t_fks t0.
Proof.
  intros Hget Hc Hf name t0 H0.
  destruct (String.eqb_spec name table) as [-> | Hne].
  - rewrite get_set_same. exists t'. rewrite Hget in H0. injection H0 as <-. auto.
  - rewrite get_set_other by assumption. eauto.
Qed.

(** *** Primary keys *)

Lemma FOP_of_map {A B : Type} (R : B -> B -> Prop) (f : A -> B) (l : list A) :
  ForallOrdPairs R (map f l) -> ForallOrdPairs (fun x y => R (f x) (f y)) l.
Proof.
  induction l as [| x l IH]; simpl; intros H; [constructor |].
  inversion H as [| ? ? Hx Hl]; subst. constructor; [| now apply IH].
  rewrite Forall_map in Hx. exact Hx.
Qed.

Lemma primary_key_by_ids t t' :
  t_next_id t' = t_next_id t ->
  map (row_get "id") (t_rows t') = map (row_get "id") (t_rows t) ->
  primary_key t -> primary_key t'.
Proof.
  intros Hn Hm [Hb Hd]. split.
  - unfold ids_below_next in *. rewrite Hn.
    apply (Forall_map (row_get "id")
             (fun v => exists z, v = VInt z /\ z < t_next_id t)).
    rewrite Hm. apply Forall_map. exact Hb.
  - unfold distinct_ids in *.
    apply (FOP_of_map (fun a b => sql_eq a b = false) (row_get "id")). rewrite Hm.
    apply (FOP_map (fun a b => sql_eq a b = false)). exact Hd.
Qed.

Lemma primary_key_filter t f :
  primary_key t -> primary_key (with_rows t (filter f (t_rows t))).
Proof.
  intros [Hb Hd]. split.
  - unfold ids_below_next in *. cbn [with_rows t_rows t_next_id].
    apply Forall_forall. intros r Hr. apply filter_In in Hr.
    rewrite Forall_forall in Hb. now apply Hb.
  - cbn [with_rows t_rows]. now apply FOP_filter.
Qed.

Lemma primary_key_insert t row :
  row_get "id" row = VInt (t_next_id t) ->
  primary_key t -> primary_key (with_new_row t row).
Proof.
  intros Hid [Hb Hd]. split.
  - unfold ids_below_next in *. cbn [with_new_row t_rows t_next_id].
    apply Forall_app. split.
    + eapply Forall_impl; [| exact Hb]. intros r (z & Hz & Hlt).
      exists z. split; [exact Hz | lia].
    + constructor; [| constructor]. exists (t_next_id t). split; [exact Hid | lia].
  - cbn [with_new_row t_rows]. apply FOP_snoc; [exact Hd |].
    eapply Forall_impl; [| exact Hb]. intros r (z & Hz & Hlt).
    rewrite Hz, Hid. cbn [sql_eq]. apply Z.eqb_neq. lia.
Qed.

(** *** References *)

Lemma parent_ok_category db t r :
  t_fks t = [category_fk] ->
  parent_ok db t r
  = is_null (row_get "category_id" r)
    || match get_table "categories" db with
       | Some pt => existsb (fun pr => sql_eq (row_get "id" pr)
                                              (row_get "category_id" r)) (t_rows pt)
       | None => false
       end.
Proof. intros Hf. unfold parent_ok. rewrite Hf. cbn. apply andb_true_r. Qed.

Lemma parent_ok_step db db' t t' r r' :
  (t_fks t = [] \/ t_fks t = [category_fk]) -> t_fks t' = t_fks t ->
  row_get "category_id" r' = row_get "category_id" r ->
  categories_kept db db' ->
  parent_ok db t r = true -> parent_ok db' t' r' = true.
Proof.
  intros [Hf | Hf] Hf' Hr Hk H.
  - unfold parent_ok. rewrite Hf', Hf. reflexivity.
  - rewrite parent_ok_category in * by congruence. rewrite Hr.
    destruct (is_null (row_get "category_id" r)); [reflexivity |].
    cbn [orb] in *.
    destruct (get_table "categories" db) as [tc |] eqn:Hc; [| discriminate].
    destruct (Hk tc _ Hc H) as (tc1 & -> & Hex). exact Hex.
Qed.

Lemma categories_kept_refl db : categories_kept db db.
Proof. intros tc v H Hex. eauto. Qed.

Lemma existsb_by_ids (v : SqlVal) (rows rows' : list Row) :
  map (row_get "id") rows' = map (row_get "id") rows ->
  existsb (fun pr => sql_eq (row_get "id" pr) v) rows'
  = existsb (fun pr => sql_eq (row_get "id" pr) v) rows.
Proof.
  revert rows'. induction rows as [| r rows IH]; intros [| r' rows'] H;
    try discriminate; [reflexivity |].
  cbn [map] in H. injection H as Hr Hrows. cbn [existsb].
  rewrite Hr, (IH _ Hrows). reflexivity.
Qed.

(** *** INSERT *)

Lemma exec_insert_inv now db table cols params db' hdr t rest :
  get_table table db = Some t -> t_columns t = id_column :: rest ->
  assoc "id" (combine cols params) = None ->
  exec_insert now db table cols params = inr (db', hdr) ->
  exists row,
    row_get "id" row = VInt (t_next_id t)
    /\ parent_ok db t row = true
    /\ db' = set_table table (with_new_row t row) db.
Proof.
  intros Hget Hcols Hid. unfold exec_insert.
  destruct (check_params params) as [e | u]; cbn [bind]; [discriminate |].
  rewrite Hget. cbn [need bind].
  destruct (guard (Nat.eqb (List.length cols) (List.length params)) WrongParameterCount)
    as [e | u1]; cbn [bind]; [discriminate |].
  destruct (guard (forallb (has_col t) cols) UnknownColumn) as [e | u2]; cbn [bind];
    [discriminate |].
  unfold with_new_row. rewrite Hcols. cbn [mapM col_name id_column].
  rewrite Hid. cbn [absent_value col_auto_increment id_column bind].
  match goal with
  | |- context [mapM ?f rest] => destruct (mapM f rest) as [e | others]
  end; cbn [bind]; [discriminate |].
  match goal with
  | |- context [guard (unique_ok ?a ?b ?c) Duplicate] =>
      destruct (guard (unique_ok a b c) Duplicate) as [e | u3]
  end; cbn [bind]; [discriminate |].
  destruct (parent_ok db t (("id", VInt (t_next_id t)) :: others)) eqn:Ep;
    cbn [guard bind]; [| discriminate].
  intros H. injection H as <- _.
  exists (("id", VInt (t_next_id t)) :: others). repeat split; auto.
Qed.

Lemma insert_keeps now db table cols params db' hdr :
  consistent db -> In table content_tables ->
  assoc "id" (combine cols params) = None ->
  exec_insert now db table cols params = inr (db', hdr) ->
  consistent db'.
Proof.
  intros [Hd Hk] Hin Hid H.
  destruct (deployed_table db table Hd Hin) as (t & rest & Hget & Hcols & Hfks & _).
  destruct (exec_insert_inv now db table cols params db' hdr t rest Hget Hcols Hid H)
    as (row & Hrow & Hp & ->).
  assert (categories_kept db (set_table table (with_new_row t row) db)) as Hck.
  { intros tc v Hc Hex. destruct (String.eqb_spec "categories" table) as [<- | Hne].
    - rewrite get_set_same. eexists. split; [reflexivity |].
      rewrite Hget in Hc. injection Hc as <-. cbn [with_new_row t_rows].
      rewrite existsb_app, Hex. reflexivity.
    - rewrite get_set_other by assumption. eauto. }
  split.
  - apply (step_deployed db); [| exact Hd].
    apply (set_table_step db table t); auto.
  - intros name t0 Hn H0.
    destruct (deployed_table db name Hd Hn) as (t1 & rest1 & Hget1 & _ & Hfks1 & _).
    destruct (Hk name t1 Hn Hget1) as [Hpk Href].
    destruct (String.eqb_spec name table) as [-> | Hne].
    + rewrite get_set_same in H0. injection H0 as <-.
      rewrite Hget in Hget1. injection Hget1 as <-.
      split; [now apply primary_key_insert |].
      unfold references_hold. cbn [with_new_row t_rows]. apply Forall_app. split.
      * eapply Forall_impl; [| exact Href]. intros r Hr.
        now apply (parent_ok_step db _ t _ r r).
      * constructor; [| constructor].
        now apply (parent_ok_step db _ t _ row row).
    + rewrite get_set_other in H0 by assumption. rewrite Hget1 in H0.
      injection H0 as <-.
      split; [exact Hpk |]. eapply Forall_impl; [| exact Href]. intros r Hr.
      now apply (parent_ok_step db _ t1 t1 r r).
Qed.

(** *** UPDATE *)

Lemma update_rows_kept now db t sets matches : forall rows before rows',
  update_rows now db t sets matches before rows = inr rows' ->
  Forall2 (fun old new =>
             new = old
             \/ exists stored, assign t sets old = inr stored
                               /\ new = touch now t old stored
                               /\ parent_ok db t stored = true) rows rows'.
Proof.
  induction rows as [| r rows IH]; intros before rows' H; cbn [update_rows] in H.
  - injection H as <-. constructor.
  - destruct (matches r).
    + destruct (assign t sets r) as [e | new] eqn:Ea; cbn [bind] in H; [discriminate |].
      match type of H with
      | context [guard ?b Duplicate] => destruct (guard b Duplicate) as [e | u]
      end; cbn [bind] in H; [discriminate |].
      destruct (parent_ok db t new) eqn:Ep; cbn [guard bind] in H; [| discriminate].
      match type of H with
      | context [update_rows ?a ?b ?c ?d ?e ?f ?g] =>
          destruct (update_rows a b c d e f g) as [e' | rest'] eqn:Er
      end; cbn [bind] in H; [discriminate |].
      injection H as <-. constructor; [right; eauto | eauto].
    + match type of H with
      | context [update_rows ?a ?b ?c ?d ?e ?f ?g] =>
          destruct (update_rows a b c d e f g) as [e' | rest'] eqn:Er
      end; cbn [bind] in H; [discriminate |].
      injection H as <-. constructor; [left; reflexivity | eauto].
Qed.

Lemma forallb_combine_fst (c : string) (cols : list string) : forall (ps : list JsVal),
  forallb (fun x => negb (x =? c)%string) cols = true ->
  forallb (fun cp => negb (fst cp =? c)%string) (combine cols ps) = true.
Proof.
  induction cols as [| x cols IH]; intros ps H; [reflexivity |].
  destruct ps as [| p ps]; [reflexivity |].
  cbn [combine forallb fst] in *. apply andb_true_iff in H. destruct H as [-> H].
  now apply IH.
Qed.

Lemma Forall2_same_ids (P : Row -> Row -> Prop) (rows rows' : list Row) :
  Forall2 P rows rows' ->
  (forall old new, P old new -> row_get "id" new = row_get "id" old) ->
  map (row_get "id") rows' = map (row_get "id") rows.
Proof.
  intros H Hp. induction H as [| old new rows rows' Hx _ IH]; [reflexivity |].
  cbn [map]. now rewrite IH, (Hp _ _ Hx).
Qed.

Lemma Forall2_carry {A : Type} (P : A -> A -> Prop) (Q Q' : A -> Prop) (l l' : list A) :
  Forall2 P l l' -> Forall Q l ->
  (forall a b, P a b -> Q a -> Q' b) -> Forall Q' l'.
Proof.
  intros H Hq Hp. induction H as [| a b l l' Hx _ IH]; [constructor |].
  inversion Hq; subst. constructor; eauto.
Qed.

Lemma update_keeps now db table set_cols key params db' hdr :
  consistent db -> In table content_tables ->
  forallb (fun c => negb (c =? "id")%string) set_cols = true ->
  exec_update now db table set_cols key params = inr (db', hdr) ->
  consistent db'.
Proof.
  intros [Hd Hk] Hin Hid H.
  destruct (deployed_table db table Hd Hin)
    as (t & rest & Hget & Hcols & Hfks & Htid & Htcat).
  destruct (exec_update_inv _ _ _ _ _ _ _ _ H) as (t' & rows' & Hget' & -> & _ & _ & Hu).
  rewrite Hget in Hget'. injection Hget' as <-.
  apply update_rows_kept in Hu.
  destruct (Hk table t Hin Hget) as [Hpk Href].
  assert (map (row_get "id") rows' = map (row_get "id") (t_rows t)) as Hids.
  { apply (Forall2_same_ids _ _ _ Hu). intros old new [-> | (stored & Ha & -> & _)];
      [reflexivity |].
    rewrite (touch_get _ _ _ _ _ Htid).
    apply (assign_get_other _ _ _ _ _ Ha). now apply forallb_combine_fst. }
  assert (categories_kept db (set_table table (with_rows t rows') db)) as Hck.
  { intros tc v Hc Hex. destruct (String.eqb_spec "categories" table) as [<- | Hne].
    - rewrite get_set_same. eexists. split; [reflexivity |].
      rewrite Hget in Hc. injection Hc as <-. cbn [with_rows t_rows].
      now rewrite (existsb_by_ids v _ _ Hids).
    - rewrite get_set_other by assumption. eauto. }
  split.
  - apply (step_deployed db); [| exact Hd].
    apply (set_table_step db table t); auto.
  - intros name t0 Hn H0.
    destruct (deployed_table db name Hd Hn) as (t1 & rest1 & Hget1 & _ & Hfks1 & _).
    destruct (Hk name t1 Hn Hget1) as [Hpk1 Href1].
    destruct (String.eqb_spec name table) as [-> | Hne].
    + rewrite get_set_same in H0. injection H0 as <-.
      rewrite Hget in Hget1. injection Hget1 as <-.
      split; [now apply (primary_key_by_ids t) |].
      unfold references_hold in *. cbn [with_rows t_rows].
      apply (Forall2_carry _ _ _ _ _ Hu Href).
      intros old new [-> | (stored & Ha & -> & Hp)] Hold.
      * now apply (parent_ok_step db _ t _ old old).
      * apply (parent_ok_step db _ t _ stored); auto.
        apply (touch_get _ _ _ _ _ Htcat).
    + rewrite get_set_other in H0 by assumption. rewrite Hget1 in H0.
      injection H0 as <-.
      split; [exact Hpk1 |]. eapply Forall_impl; [| exact Href1]. intros r Hr.
      now apply (parent_ok_step db _ t1 t1 r r).
Qed.

(** *** DELETE *)

Lemma exec_delete_inv db table key params db' hdr :
  exec_delete db table key params = inr (db', hdr) ->
  exists t (m : Row -> bool),
    get_table table db = Some t
    /\ db' = map (fun nt => (fst nt,
                             set_null_children table (filter m (t_rows t)) (snd nt)))
               (set_table table
                  (with_rows t (filter (fun r => negb (m r)) (t_rows t))) db).
Proof.
  unfold exec_delete.
  destruct (check_params params) as [e | u]; cbn [bind]; [discriminate |].
  destruct (get_table table db) as [t |]; cbn [need bind]; [| discriminate].
  destruct (take_param params) as [e | [k ps]]; cbn [bind]; [discriminate |].
  destruct (no_more ps) as [e | u1]; cbn [bind]; [discriminate |].
  destruct (guard (has_col t key) UnknownColumn) as [e | u2]; cbn [bind];
    [discriminate |].
  intros H. injection H as <- _.
  exists t, (fun r => sql_eq_param (row_get key r) k). split; reflexivity.
Qed.

Lemma orphan_keeps_id parent gone t r :
  (t_fks t = [] \/ t_fks t = [category_fk]) ->
  row_get "id" (orphan parent gone t r) = row_get "id" r.
Proof.
  unfold orphan. intros [-> | ->]; cbn [fold_left]; [reflexivity |].
  match goal with |- context [if ?b then _ else _] => destruct b end;
    [| reflexivity].
  now apply row_get_set_other.
Qed.

Lemma orphan_other_parent parent gone t r :
  (t_fks t = [] \/ t_fks t = [category_fk]) -> parent <> "categories" ->
  orphan parent gone t r = r.
Proof.
  intros Hf Hne. apply orphan_no_reference.
  destruct Hf as [-> | ->]; [reflexivity |].
  cbn [forallb category_fk fk_table]. apply String.eqb_neq in Hne.
  rewrite String.eqb_sym, Hne. reflexivity.
Qed.

Lemma kept_or_gone (m : Row -> bool) (rows : list Row) (v : SqlVal) :
  existsb (fun pr => sql_eq (row_get "id" pr) v) rows = true ->
  existsb (fun pr => sql_eq (row_get "id" pr) v) (filter m rows) = false ->
  existsb (fun pr => sql_eq (row_get "id" pr) v)
          (filter (fun r => negb (m r)) rows) = true.
Proof.
  induction rows as [| r rows IH]; cbn [existsb filter]; [discriminate |].
  destruct (m r); cbn [negb existsb].
  - destruct (sql_eq (row_get "id" r) v); cbn [orb]; [discriminate | exact IH].
  - destruct (sql_eq (row_get "id" r) v); cbn [orb]; [reflexivity | exact IH].
Qed.

Lemma delete_keeps db table key params db' hdr :
  consistent db -> In table content_tables ->
  exec_delete db table key params = inr (db', hdr) ->
  consistent db'.
Proof.
  intros [Hd Hk] Hin H.
  destruct (exec_delete_inv _ _ _ _ _ _ H) as (t & m & Hget & ->).
  set (gone := filter m (t_rows t)).
  set (kept := filter (fun r => negb (m r)) (t_rows t)).
  assert (forall name t0, get_table name db = Some t0 ->
            get_table name
              (map (fun nt => (fst nt, set_null_children table gone (snd nt)))
                 (set_table table (with_rows t kept) db))
            = Some (set_null_children table gone
                      (if (name =? table)%string then with_rows t kept else t0)))
    as Hnew.
  { intros name t0 H0. rewrite get_table_map.
    destruct (String.eqb_spec name table) as [-> | Hne].
    - rewrite get_set_same. reflexivity.
    - rewrite get_set_other, H0 by assumption. reflexivity. }
  split.
  - apply (step_deployed db); [| exact Hd]. intros name t0 H0.
    rewrite (Hnew name t0 H0). eexists. split; [reflexivity |].
    destruct (String.eqb_spec name table) as [-> | Hne]; [| split; reflexivity].
    rewrite Hget in H0. injection H0 as <-. split; reflexivity.
  - intros name t0 Hn H0.
    destruct (deployed_table db name Hd Hn) as (t1 & rest1 & Hget1 & _ & Hfks1 & _).
    destruct (Hk name t1 Hn Hget1) as [Hpk1 Href1].
    rewrite (Hnew name t1 Hget1) in H0. injection H0 as <-.
    set (t2 := if (name =? table)%string then with_rows t kept else t1).
    assert (t_fks t2 = t_fks t1 /\ primary_key t2
            /\ Forall (fun r => parent_ok db t1 r = true) (t_rows t2)) as (Hf2 & Hpk2 & Hr2).
    { unfold t2. destruct (String.eqb_spec name table) as [-> | Hne].
      - rewrite Hget in Hget1. injection Hget1 as <-.
        split; [reflexivity |]. split; [now apply primary_key_filter |].
        cbn [with_rows t_rows]. apply Forall_forall. intros r Hr.
        apply filter_In in Hr. unfold references_hold in Href1.
        rewrite Forall_forall in Href1. now apply Href1.
      - auto. }
    assert (t_fks t2 = [] \/ t_fks t2 = [category_fk]) as Hfks2 by (now rewrite Hf2).
    split.
    + apply (primary_key_by_ids t2); [reflexivity | | exact Hpk2].
      unfold set_null_children. cbn [with_rows t_rows]. rewrite map_map.
      apply map_ext. intros r. now apply orphan_keeps_id.
    + unfold references_hold.
      change (t_rows (set_null_children table gone t2))
        with (map (orphan table gone t2) (t_rows t2)).
      apply Forall_map. revert Hr2. apply Forall_impl. intros r Hr.
      destruct Hfks1 as [Hf1 | Hf1].
      { unfold parent_ok, set_null_children. cbn [with_rows t_fks].
        rewrite Hf2, Hf1. reflexivity. }
      rewrite parent_ok_category
        by (unfold set_null_children; cbn [with_rows t_fks]; congruence).
      rewrite (parent_ok_category db t1 r Hf1) in Hr.
      destruct (deployed_table db "categories" Hd ltac:(simpl; auto))
        as (tc & restc & Hgetc & _ & Hfksc & _).
      rewrite (Hnew "categories" tc Hgetc). rewrite Hgetc in Hr.
      set (tc2 := if ("categories" =? table)%string then with_rows t kept else tc).
      assert (t_fks tc2 = [] \/ t_fks tc2 = [category_fk]) as Hfc2.
      { unfold tc2. destruct (String.eqb_spec "categories" table) as [<- | Hne]; [| auto].
        rewrite Hget in Hgetc. injection Hgetc as <-. exact Hfksc. }
      rewrite (existsb_by_ids _ (t_rows tc2) (t_rows (set_null_children table gone tc2))).
      2:{ unfold set_null_children. cbn [with_rows t_rows]. rewrite map_map.
          apply map_ext. intros r0. now apply orphan_keeps_id. }
      destruct (String.eqb_spec table "categories") as [-> | Hne].
      * unfold tc2. cbn [String.eqb Ascii.eqb Bool.eqb with_rows t_rows].
        rewrite Hget in Hgetc. injection Hgetc as <-.
        rewrite (orphan_released gone t2 r) by congruence.
        unfold released. destruct (refers_to gone r) eqn:Eg.
        -- rewrite row_get_set_same. reflexivity.
        -- destruct (is_null (row_get "category_id" r)); [reflexivity |].
           cbn [orb] in *. apply kept_or_gone; assumption.
      * rewrite (orphan_other_parent table gone t2 r Hfks2 Hne).
        unfold tc2. destruct (String.eqb_spec "categories" table) as [<- | _];
          [congruence | exact Hr].
Qed.

(** *** The routes *)

Ltac unbind H :=
  repeat (cbn [bind] in H;
          match type of H with
          | bind ?m _ = inr _ =>
              let E := fresh "E" in destruct m eqn:E; [discriminate H |]
          | (let '(_, _) := ?p in _) = inr _ => destruct p
          end);
  cbn [bind] in H.

Lemma attempt_keeps db (r : Res (Db * Response)) msg :
  consistent db ->
  (forall db' resp, r = inr (db', resp) -> consistent db') ->
  consistent (fst (attempt db r msg)).
Proof.
  intros Hc H. destruct r as [e | [db' resp]]; cbn [attempt fst]; eauto.
Qed.

Section Kept.

Context {libraries : Libraries}.
Variable env : Env.

Lemma gated_keeps (h : Handler) :
  (forall now db req, consistent db -> consistent (fst (h now db req))) ->
  forall now db req, consistent db -> consistent (fst (gated env h now db req)).
Proof.
  intros Hh now db req Hc. unfold gated.
  destruct (authenticateToken env req) as [resp | req']; [exact Hc | now apply Hh].
Qed.

Lemma check_keeps now db req : fst (check now db req) = db.
Proof.
  unfold check.
  match goal with |- fst (match ?x with _ => _ end) = _ => destruct x end; reflexivity.
Qed.

Lemma login_keeps now db req : fst (login env now db req) = db.
Proof.
  unfold login. destruct (negb _ || negb _); [reflexivity |].
  match goal with |- fst (match ?x with _ => _ end) = _ => destruct x end; reflexivity.
Qed.

Lemma init_keeps now db req :
  consistent db -> consistent (fst (init env now db req)).
Proof.
  intros Hc. unfold init.
  match goal with
  | |- consistent (fst (match ?x with _ => _ end)) => destruct x as [e | [db' resp]] eqn:H
  end; [exact Hc |].
  cbn [fst]. unbind H.
  destruct (Nat.ltb 0 (List.length l)).
  - injection H as <- _. exact Hc.
  - unbind H. injection H as <- _.
    eapply (insert_keeps now db "admins"); [exact Hc | simpl; auto | | eassumption].
    reflexivity.
Qed.

Lemma reset_password_keeps now db req :
  consistent db -> consistent (fst (reset_password now db req)).
Proof.
  intros Hc. unfold reset_password. destruct (negb _ || negb _); [exact Hc |].
  match goal with
  | |- context [exec_update ?a ?b ?c ?d ?e ?f] =>
      destruct (exec_update a b c d e f) as [e' | [db' hdr]] eqn:H
  end; [exact Hc |].
  assert (consistent db') as Hc'.
  { eapply (update_keeps now db "admins"); [exact Hc | simpl; auto | | eassumption].
    reflexivity. }
  destruct (affectedRows hdr =? 0); exact Hc'.
Qed.

Lemma stats_keeps now db req : consistent db -> consistent (fst (stats now db req)).
Proof.
  intros Hc. apply attempt_keeps; [exact Hc |]. intros db' resp H.
  unbind H. injection H as <- _. exact Hc.
Qed.

Lemma admin_categories_keeps now db req :
  consistent db -> consistent (fst (admin_categories now db req)).
Proof.
  intros Hc. apply attempt_keeps; [exact Hc |]. intros db' resp H.
  unbind H. injection H as <- _. exact Hc.
Qed.

Lemma admin_materials_keeps now db req :
  consistent db -> consistent (fst (admin_materials now db req)).
Proof.
  intros Hc. apply attempt_keeps; [exact Hc |]. intros db' resp H.
  unbind H. injection H as <- _. exact Hc.
Qed.

Lemma admin_videos_keeps now db req :
  consistent db -> consistent (fst (admin_videos now db req)).
Proof.
  intros Hc. apply attempt_keeps; [exact Hc |]. intros db' resp H.
  unbind H. injection H as <- _. exact Hc.
Qed.

Lemma post_category_keeps now db req :
  consistent db -> consistent (fst (post_category now db req)).
Proof.
  intros Hc. apply attempt_keeps; [exact Hc |]. intros db' resp H.
  unbind H. injection H as <- _.
  eapply (insert_keeps now db "categories"); [exact Hc | simpl; auto | | eassumption].
  reflexivity.
Qed.

Lemma post_material_keeps now db req :
  consistent db -> consistent (fst (post_material now db req)).
Proof.
  intros Hc. apply attempt_keeps; [exact Hc |]. intros db' resp H.
  unbind H. injection H as <- _.
  eapply (insert_keeps now db "materials"); [exact Hc | simpl; auto | | eassumption].
  reflexivity.
Qed.

Lemma post_video_keeps files now db req :
  consistent db -> consistent (fst (post_video files now db req)).
Proof.
  intros Hc. apply attempt_keeps; [exact Hc |]. intros db' resp H.
  unbind H. injection H as <- _.
  eapply (insert_keeps now db "videos"); [exact Hc | simpl; auto | | eassumption].
  reflexivity.
Qed.

Lemma put_category_keeps now db req :
  consistent db -> consistent (fst (put_category now db req)).
Proof.
  intros Hc. apply attempt_keeps; [exact Hc |]. intros db' resp H.
  unbind H. injection H as <- _.
  eapply (update_keeps now db "categories"); [exact Hc | simpl; auto | | eassumption].
  reflexivity.
Qed.

Lemma put_material_keeps now db req :
  consistent db -> consistent (fst (put_material now db req)).
Proof.
  intros Hc. unfold put_material.
  destruct (truthy _);
    match goal with
    | |- context [exec_update ?a ?b ?c ?d ?e ?f] =>
        destruct (exec_update a b c d e f) as [e' | [db' hdr]] eqn:H
    end; try exact Hc; cbn [fst];
    (eapply (update_keeps now db "materials"); [exact Hc | simpl; auto | | eassumption];
     reflexivity).
Qed.

Lemma put_video_keeps files now db req :
  consistent db -> consistent (fst (put_video files now db req)).
Proof.
  intros Hc. apply attempt_keeps; [exact Hc |]. intros db' resp H.
  unbind H. injection H as <- _.
  eapply (update_keeps now db "videos"); [exact Hc | simpl; auto | | eassumption].
  rewrite forallb_app. cbn [forallb String.eqb Ascii.eqb Bool.eqb negb andb].
  unfold video_sources in E. destruct files as [fs |].
  - unbind E. injection E as <- _.
    destruct o, o0; reflexivity.
  - destruct (truthy _); injection E as <- _; reflexivity.
Qed.

Lemma delete_from_keeps table done failed now db req :
  In table content_tables ->
  consistent db -> consistent (fst (delete_from table done failed now db req)).
Proof.
  intros Hin Hc. unfold delete_from.
  match goal with
  | |- context [exec_delete ?a ?b ?c ?d] =>
      destruct (exec_delete a b c d) as [e' | [db' hdr]] eqn:H
  end; [exact Hc |].
  cbn [fst]. eapply delete_keeps; eauto.
Qed.

End Kept.

Section KeptByRoutes.

Context {libraries : Libraries}.
Variable env : Env.

(** X27.  Every request to a route of the admin router, whatever its token, body
    and files, keeps the database consistent: the four tables keep their
    columns and foreign keys, the ids of each table stay distinct integers
    below its AUTO_INCREMENT counter, and every [category_id] of a material or
    a video stays NULL or the id of a category. *)
Theorem admin_requests_keep_consistency (files : Files) (r : AdminRoute) (now : Z)
    (db : Db) (req : Request) :
  consistent db -> consistent (fst (admin_serve env files r now db req)).
Proof.
  intros Hc. destruct r; cbn [admin_serve].
  - now rewrite check_keeps.
  - now apply init_keeps.
  - now rewrite login_keeps.
  - now apply reset_password_keeps.
  - apply gated_keeps; [apply stats_keeps | exact Hc].
  - apply gated_keeps; [apply admin_categories_keeps | exact Hc].
  - apply gated_keeps; [apply post_category_keeps | exact Hc].
  - apply gated_keeps; [apply put_category_keeps | exact Hc].
  - apply gated_keeps; [| exact Hc]. intros. apply delete_from_keeps; simpl; auto.
  - apply gated_keeps; [apply admin_materials_keeps | exact Hc].
  - apply gated_keeps; [apply post_material_keeps | exact Hc].
  - apply gated_keeps; [apply put_material_keeps | exact Hc].
  - apply gated_keeps; [| exact Hc]. intros. apply delete_from_keeps; simpl; auto.
  - apply gated_keeps; [apply admin_videos_keeps | exact Hc].
  - apply gated_keeps; [apply post_video_keeps | exact Hc].
  - apply gated_keeps; [apply put_video_keeps | exact Hc].
  - apply gated_keeps; [| exact Hc]. intros. apply delete_from_keeps; simpl; auto.
Qed.

End KeptByRoutes.

Lemma portal_consistent : consistent portal.
Proof.
  split; [apply database_deployed |]. intros name t Hin Hget.
  split; [split |].
  - now apply (portal_ids_below name).
  - now apply (portal_keyed name).
  - destruct Hin as [<- | [<- | [<- | [<- | []]]]]; injection Hget as <-;
      repeat constructor.
Qed.

Lemma admin_requests_keep_consistency_witness :
  consistent
    (fst (admin_serve (libraries := toy_libraries) toy_env None ADeleteCategory 7 portal
            (with_header "authorization" "Bearer good"
               (request [] [("id", "1")] [])))).
Proof.
  apply (admin_requests_keep_consistency (libraries := toy_libraries) toy_env None
           ADeleteCategory 7 portal).
  apply portal_consistent.
Defined.

End ConsistencyFacts.
